(** * Server-side async I/O support (server/async.c)

    A shallow embedding of the async core of the object server: the
    [struct async] state machine, the I/O status block, the per-fd async
    queues, the per-process async list and the two request handlers.

    Modelling conventions.
    - Server objects live in one heap, [objects], keyed by address.  The
      object header's operations table is the tag of the heap cell
      ([obj_ops]); a cast to [struct async *] is a lookup that expects an
      async cell.
    - The intrusive lists are kept as ordered lists of addresses:
      [queues] for [queue->queue], [process_asyncs] for
      [process->asyncs].
    - Calls into the collaborators (fd layer, APC queue, object runtime,
      handle table, wait queues, ...) are appended to [calls], oldest
      first, with their arguments.  A collaborator that calls back into
      this file is seen as the environment running that entry point as a
      separate operation.
    - Dereferencing a null or dangling pointer and a failed [assert] stop
      the run with a [fault]. *)

From stdpp Require Import gmap list.

Local Open Scope Z_scope.

(** ** Status codes and flags *)

(** Modelled from the spec: ntstatus.h is not part of the sources; the
    spec names the status kinds, the numbers are the NTSTATUS values the
    names stand for. *)
Definition STATUS_PENDING : Z := 0x103.
Definition STATUS_ALERTED : Z := 0x101.
Definition STATUS_CANCELLED : Z := 0xC0000120.
Definition STATUS_HANDLES_CLOSED : Z := 0x8000000A.
Definition STATUS_INVALID_PARAMETER : Z := 0xC000000D.
Definition STATUS_NOT_FOUND : Z := 0xC0000225.
Definition STATUS_NO_MEMORY : Z := 0xC0000017.

(** Modelled from the spec: the completion flag tested by
    [async_set_result] ("the completion port is not configured to skip on
    success"); a single bit. *)
Definition FILE_SKIP_COMPLETION_PORT_ON_SUCCESS : Z := 0x1.

(** ** Data model *)

(** [struct thread] belongs to the thread layer; the core only compares
    thread pointers and reads [thread->process]. *)
Record thread := { thread_ptr : Z; process : Z }.

#[global] Instance thread_eq_dec : EqDecision thread.
Proof. solve_decision. Defined.

(** [async_data_t]: the client-supplied descriptor, with the fields the
    core reads. *)
Module AsyncData.
Record t := {
  event : Z;          (* event handle, 0 when absent *)
  iosb : Z;           (* client address of the I/O status block *)
  user : Z;           (* opaque user pointer *)
  apc : Z;            (* user APC function, 0 when absent *)
  apc_context : Z     (* user APC argument / completion value *)
}.
End AsyncData.

(** [struct iosb].  A buffer pointer is [None] when null, otherwise the
    bytes it points to. *)
Module Iosb.
Record t := {
  status : Z;
  result : Z;
  in_size : Z;
  in_data : option (list Z);
  out_size : Z;
  out_data : option (list Z)
}.

Definition set_status v (i : t) : t :=
  Build_t v (result i) (in_size i) (in_data i) (out_size i) (out_data i).
Definition set_result v (i : t) : t :=
  Build_t (status i) v (in_size i) (in_data i) (out_size i) (out_data i).
Definition set_out_size v (i : t) : t :=
  Build_t (status i) (result i) (in_size i) (in_data i) v (out_data i).
Definition set_out_data v (i : t) : t :=
  Build_t (status i) (result i) (in_size i) (in_data i) (out_size i) v.
End Iosb.

(** [struct async].  Pointers are [option Z] ([None] is NULL), the
    one-bit fields are booleans.  [queue_entry] and [process_entry] are
    the positions in [queues] and [process_asyncs] below. *)
Module Async.
Record t := {
  thread : thread;
  queue : option Z;
  fd : option Z;
  timeout : option Z;
  timeout_status : Z;
  event : option Z;
  data : AsyncData.t;
  iosb : option Z;
  wait_handle : Z;
  signaled : bool;
  pending : bool;
  direct_result : bool;
  alerted : bool;
  terminated : bool;
  unknown_status : bool;
  completion : option Z;
  comp_key : Z;
  comp_flags : Z;
  completion_callback : option Z;
  completion_callback_private : Z
}.

Definition set_queue v (a : t) : t :=
  Build_t (thread a) v (fd a) (timeout a) (timeout_status a) (event a)
    (data a) (iosb a) (wait_handle a) (signaled a) (pending a)
    (direct_result a) (alerted a) (terminated a) (unknown_status a)
    (completion a) (comp_key a) (comp_flags a) (completion_callback a)
    (completion_callback_private a).
Definition set_fd v (a : t) : t :=
  Build_t (thread a) (queue a) v (timeout a) (timeout_status a) (event a)
    (data a) (iosb a) (wait_handle a) (signaled a) (pending a)
    (direct_result a) (alerted a) (terminated a) (unknown_status a)
    (completion a) (comp_key a) (comp_flags a) (completion_callback a)
    (completion_callback_private a).
Definition set_timeout v (a : t) : t :=
  Build_t (thread a) (queue a) (fd a) v (timeout_status a) (event a)
    (data a) (iosb a) (wait_handle a) (signaled a) (pending a)
    (direct_result a) (alerted a) (terminated a) (unknown_status a)
    (completion a) (comp_key a) (comp_flags a) (completion_callback a)
    (completion_callback_private a).
Definition set_wait_handle v (a : t) : t :=
  Build_t (thread a) (queue a) (fd a) (timeout a) (timeout_status a)
    (event a) (data a) (iosb a) v (signaled a) (pending a)
    (direct_result a) (alerted a) (terminated a) (unknown_status a)
    (completion a) (comp_key a) (comp_flags a) (completion_callback a)
    (completion_callback_private a).
Definition set_signaled v (a : t) : t :=
  Build_t (thread a) (queue a) (fd a) (timeout a) (timeout_status a)
    (event a) (data a) (iosb a) (wait_handle a) v (pending a)
    (direct_result a) (alerted a) (terminated a) (unknown_status a)
    (completion a) (comp_key a) (comp_flags a) (completion_callback a)
    (completion_callback_private a).
Definition set_pending v (a : t) : t :=
  Build_t (thread a) (queue a) (fd a) (timeout a) (timeout_status a)
    (event a) (data a) (iosb a) (wait_handle a) (signaled a) v
    (direct_result a) (alerted a) (terminated a) (unknown_status a)
    (completion a) (comp_key a) (comp_flags a) (completion_callback a)
    (completion_callback_private a).
Definition set_direct_result v (a : t) : t :=
  Build_t (thread a) (queue a) (fd a) (timeout a) (timeout_status a)
    (event a) (data a) (iosb a) (wait_handle a) (signaled a) (pending a)
    v (alerted a) (terminated a) (unknown_status a)
    (completion a) (comp_key a) (comp_flags a) (completion_callback a)
    (completion_callback_private a).
Definition set_alerted v (a : t) : t :=
  Build_t (thread a) (queue a) (fd a) (timeout a) (timeout_status a)
    (event a) (data a) (iosb a) (wait_handle a) (signaled a) (pending a)
    (direct_result a) v (terminated a) (unknown_status a)
    (completion a) (comp_key a) (comp_flags a) (completion_callback a)
    (completion_callback_private a).
Definition set_terminated v (a : t) : t :=
  Build_t (thread a) (queue a) (fd a) (timeout a) (timeout_status a)
    (event a) (data a) (iosb a) (wait_handle a) (signaled a) (pending a)
    (direct_result a) (alerted a) v (unknown_status a)
    (completion a) (comp_key a) (comp_flags a) (completion_callback a)
    (completion_callback_private a).
Definition set_unknown_status v (a : t) : t :=
  Build_t (thread a) (queue a) (fd a) (timeout a) (timeout_status a)
    (event a) (data a) (iosb a) (wait_handle a) (signaled a) (pending a)
    (direct_result a) (alerted a) (terminated a) v
    (completion a) (comp_key a) (comp_flags a) (completion_callback a)
    (completion_callback_private a).
Definition set_completion v (a : t) : t :=
  Build_t (thread a) (queue a) (fd a) (timeout a) (timeout_status a)
    (event a) (data a) (iosb a) (wait_handle a) (signaled a) (pending a)
    (direct_result a) (alerted a) (terminated a) (unknown_status a)
    v (comp_key a) (comp_flags a) (completion_callback a)
    (completion_callback_private a).
Definition set_comp_key v (a : t) : t :=
  Build_t (thread a) (queue a) (fd a) (timeout a) (timeout_status a)
    (event a) (data a) (iosb a) (wait_handle a) (signaled a) (pending a)
    (direct_result a) (alerted a) (terminated a) (unknown_status a)
    (completion a) v (comp_flags a) (completion_callback a)
    (completion_callback_private a).
Definition set_completion_callback v (a : t) : t :=
  Build_t (thread a) (queue a) (fd a) (timeout a) (timeout_status a)
    (event a) (data a) (iosb a) (wait_handle a) (signaled a) (pending a)
    (direct_result a) (alerted a) (terminated a) (unknown_status a)
    (completion a) (comp_key a) (comp_flags a) v
    (completion_callback_private a).
Definition set_completion_callback_private v (a : t) : t :=
  Build_t (thread a) (queue a) (fd a) (timeout a) (timeout_status a)
    (event a) (data a) (iosb a) (wait_handle a) (signaled a) (pending a)
    (direct_result a) (alerted a) (terminated a) (unknown_status a)
    (completion a) (comp_key a) (comp_flags a) (completion_callback a) v.
End Async.

(** The operations table an object header points to. *)
Inductive object_ops := async_ops | iosb_ops | foreign_ops (id : Z).

#[global] Instance object_ops_eq_dec : EqDecision object_ops.
Proof. solve_decision. Defined.

(** A heap cell: an async, an iosb, or an object of another kind, of
    which only the operations table is known here. *)
Inductive object :=
| ObjAsync (a : Async.t)
| ObjIosb (i : Iosb.t)
| ObjOther (id : Z).

Definition obj_ops (o : object) : object_ops :=
  match o with
  | ObjAsync _ => async_ops
  | ObjIosb _ => iosb_ops
  | ObjOther id => foreign_ops id
  end.

(** [apc_call_t], restricted to the two calls the core builds. *)
Inductive apc_call_t :=
| APC_ASYNC_IO (user sb status : Z)
| APC_USER (func args0 args1 args2 : Z).

(** One collaborator call with its arguments. *)
Inductive call :=
| Call_fd_reselect_async (fd queue : Z)
| Call_thread_queue_apc (process : option Z) (thr : thread)
    (owner : option Z) (data : apc_call_t)
| Call_grab_object (obj : Z)
| Call_release_object (obj : Z)
| Call_set_fd_signaled (fd : Z) (signaled : Z)
| Call_add_completion (completion key cvalue status information : Z)
| Call_set_event (event : Z)
| Call_wake_up (obj : Z) (max : Z)
| Call_close_handle (process handle : Z)
| Call_remove_timeout_user (timer : Z)
| Call_completion_callback (func private : Z)
| Call_set_reply_data_ptr (data : list Z) (size : Z)
| Call_set_wait_status (entry status : Z)
| Call_fd_cancel_async (fd async : Z)
| Call_free (data : option (list Z)).

(** The server state the core reads and writes. *)
Record server := {
  objects : gmap Z object;
  queues : gmap Z (list Z);
  process_asyncs : gmap Z (list Z);
  current : thread;            (* the thread whose request is served *)
  error : Z;                   (* its last error: get_error / set_error *)
  reply_max_size : Z;          (* get_reply_max_size() *)
  reply_size : Z;              (* reply->size of get_async_result *)
  calls : list call
}.

Definition set_objects v (s : server) : server :=
  Build_server v (queues s) (process_asyncs s) (current s) (error s)
    (reply_max_size s) (reply_size s) (calls s).
Definition set_queues v (s : server) : server :=
  Build_server (objects s) v (process_asyncs s) (current s) (error s)
    (reply_max_size s) (reply_size s) (calls s).
Definition set_server_error v (s : server) : server :=
  Build_server (objects s) (queues s) (process_asyncs s) (current s) v
    (reply_max_size s) (reply_size s) (calls s).
Definition set_reply_size v (s : server) : server :=
  Build_server (objects s) (queues s) (process_asyncs s) (current s)
    (error s) (reply_max_size s) v (calls s).
Definition set_calls v (s : server) : server :=
  Build_server (objects s) (queues s) (process_asyncs s) (current s)
    (error s) (reply_max_size s) (reply_size s) v.

(** ** The state-and-fault monad *)

Inductive fault :=
| NullPointer        (* a null pointer is dereferenced *)
| BadPointer         (* the address holds no object, or one of another kind *)
| AssertionFailed    (* assert() aborts the server *)
| OutOfFuel.         (* the bound given to a restarting scan is too small *)

Inductive outcome (A : Type) :=
| Done (a : A) (s : server)
| Crash (f : fault).
Arguments Done {A} a s.
Arguments Crash {A} f.

Definition M (A : Type) : Type := server → outcome A.

#[global] Instance M_ret : MRet M := λ A a s, Done a s.
#[global] Instance M_bind : MBind M := λ A B f m s,
  match m s with
  | Done a s' => f a s'
  | Crash e => Crash e
  end.

Definition crash {A} (e : fault) : M A := λ _, Crash e.
Definition gets {A} (f : server → A) : M A := λ s, Done (f s) s.
Definition modify (f : server → server) : M unit := λ s, Done tt (f s).
Definition emit (c : call) : M unit :=
  modify (λ s, set_calls (calls s ++ [c]) s).
Definition assert (b : bool) : M unit :=
  if b then mret tt else crash AssertionFailed.
Definition when (b : bool) (m : M unit) : M unit :=
  if b then m else mret tt.

(** [p->...] for a pointer that may be null. *)
Definition deref {A} (p : option A) : M A :=
  match p with Some x => mret x | None => crash NullPointer end.

(** The object header behind an address. *)
Definition get_object (p : Z) : M object := λ s,
  match objects s !! p with
  | Some o => Done o s
  | None => Crash BadPointer
  end.

(** The [struct async] behind an address. *)
Definition get_async (p : Z) : M Async.t := λ s,
  match objects s !! p with
  | Some (ObjAsync a) => Done a s
  | _ => Crash BadPointer
  end.

Definition get_iosb (p : Z) : M Iosb.t := λ s,
  match objects s !! p with
  | Some (ObjIosb i) => Done i s
  | _ => Crash BadPointer
  end.

(** A field write [async->f = v]. *)
Definition upd_async (p : Z) (f : Async.t → Async.t) : M unit :=
  a ← get_async p;
  modify (λ s, set_objects (<[p := ObjAsync (f a)]> (objects s)) s).

Definition upd_iosb (p : Z) (f : Iosb.t → Iosb.t) : M unit :=
  i ← get_iosb p;
  modify (λ s, set_objects (<[p := ObjIosb (f i)]> (objects s)) s).

(** [queue->queue] and [process->asyncs], head first; a list that was
    only initialised is the empty list. *)
Definition queue_list (q : Z) (s : server) : list Z :=
  default [] (queues s !! q).
Definition process_list (p : Z) (s : server) : list Z :=
  default [] (process_asyncs s !! p).

Definition is_null {A} (p : option A) : bool :=
  match p with Some _ => false | None => true end.
Definition non_null {A} (p : option A) : bool := negb (is_null p).

(** ** Collaborator calls *)

Definition fd_reselect_async (fd queue : Z) : M unit :=
  emit (Call_fd_reselect_async fd queue).
Definition thread_queue_apc (proc : option Z) (thr : thread)
    (owner : option Z) (data : apc_call_t) : M unit :=
  emit (Call_thread_queue_apc proc thr owner data).
Definition grab_object (obj : Z) : M unit := emit (Call_grab_object obj).
Definition release_object (obj : Z) : M unit := emit (Call_release_object obj).
Definition set_fd_signaled (fd : Z) (signaled : Z) : M unit :=
  emit (Call_set_fd_signaled fd signaled).
Definition add_completion (completion key cvalue status information : Z)
    : M unit :=
  emit (Call_add_completion completion key cvalue status information).
Definition set_event (event : Z) : M unit := emit (Call_set_event event).
Definition wake_up (obj max : Z) : M unit := emit (Call_wake_up obj max).
Definition close_handle (proc handle : Z) : M unit :=
  emit (Call_close_handle proc handle).
Definition remove_timeout_user (timer : Z) : M unit :=
  emit (Call_remove_timeout_user timer).
Definition set_reply_data_ptr (data : list Z) (size : Z) : M unit :=
  emit (Call_set_reply_data_ptr data size).
Definition set_wait_status (entry status : Z) : M unit :=
  emit (Call_set_wait_status entry status).
Definition get_error : M Z := gets error.
Definition set_error (status : Z) : M unit :=
  modify (set_server_error status).

(** ** The async core *)

Section Core.

(** Read-only queries answered by collaborators whose code is not in
    this file.  [fd_get_completion fd] is the completion port of the fd
    (if any) together with the key it stores through its second
    argument. *)
Variable fd_get_completion : Z → option Z * Z.
Variable get_fd_user : Z → option Z.
Variable is_fd_overlapped : Z → bool.
(** The [NT_ERROR] macro of winternl.h. *)
Variable NT_ERROR : Z → bool.
(** [get_handle_obj process handle]: the object behind a handle, or the
    status it sets as last error when there is none. *)
Variable get_handle_obj : Z → Z → Z + Z.

(** [list_add_tail( &queue->queue, &async->queue_entry )] *)
Definition list_add_tail_queue (queue async : Z) : M unit :=
  modify (λ s, set_queues (<[queue := queue_list queue s ++ [async]]> (queues s)) s).

(** [list_remove( &async->queue_entry )]: the entry leaves the list it
    is linked in. *)
Definition list_remove_queue_entry (async : Z) : M unit :=
  modify (λ s, set_queues (filter (λ x, x ≠ async) <$> queues s) s).

Definition async_reselect (async : Z) : M unit :=
  a ← get_async async;
  match Async.queue a, Async.fd a with
  | Some queue, Some fd => fd_reselect_async fd queue
  | _, _ => mret tt
  end.

Definition async_signaled (obj : Z) : M bool :=
  o ← get_object obj;
  assert (bool_decide (obj_ops o = async_ops));;
  a ← get_async obj;
  mret (Async.signaled a).

(** notifies client thread of new status of its async request *)
Definition async_terminate (async : Z) (status : Z) : M unit :=
  a ← get_async async;
  let iosb := Async.iosb a in
  if Async.terminated a then mret tt else
  upd_async async (Async.set_terminated true);;
  match iosb with
  | Some i =>
      io ← get_iosb i;
      when (Iosb.status io =? STATUS_PENDING)
        (upd_iosb i (Iosb.set_status status))
  | None => mret tt
  end;;
  when (status =? STATUS_ALERTED) (upd_async async (Async.set_alerted true));;
  grab_object async;;
  a ← get_async async;
  (if Async.direct_result a then mret tt else
     apc_status ←
       match iosb with
       | Some i =>
           io ← get_iosb i;
           mret (if negb (Iosb.result io =? 0) || non_null (Iosb.out_data io)
                 then STATUS_ALERTED else status)
       | None => mret status
       end;
     thread_queue_apc (Some (process (Async.thread a))) (Async.thread a)
       (Some async)
       (APC_ASYNC_IO (AsyncData.user (Async.data a))
          (AsyncData.iosb (Async.data a)) apc_status));;
  async_reselect async;;
  release_object async.

(** callback for timeout on an async request *)
Definition async_timeout (private : Z) : M unit :=
  upd_async private (Async.set_timeout None);;
  a ← get_async private;
  async_terminate private (Async.timeout_status a).

Fixpoint LIST_FOR_EACH (entries : list Z) (body : Z → M unit) : M unit :=
  match entries with
  | [] => mret tt
  | e :: next => body e;; LIST_FOR_EACH next body
  end.

Definition free_async_queue_entry (async : Z) : M unit :=
  a ← get_async async;
  when (is_null (Async.completion a))
    (fd ← deref (Async.fd a);
     upd_async async (Async.set_comp_key (fd_get_completion fd).2);;
     upd_async async (Async.set_completion (fd_get_completion fd).1));;
  upd_async async (Async.set_fd None);;
  async_terminate async STATUS_HANDLES_CLOSED;;
  upd_async async (Async.set_queue None);;
  release_object async.

(** free an async queue, cancelling all async operations *)
Definition free_async_queue (queue : Z) : M unit :=
  entries ← gets (queue_list queue);
  LIST_FOR_EACH entries free_async_queue_entry.

Definition queue_async (queue async : Z) : M unit :=
  a ← get_async async;
  fd ← deref (Async.fd a);
  release_object fd;;
  upd_async async (Async.set_queue (Some queue));;
  grab_object async;;
  list_add_tail_queue queue async;;
  set_fd_signaled fd 0.

Definition set_async_pending (async : Z) (signal : Z) : M unit :=
  a ← get_async async;
  when (negb (Async.terminated a))
    (upd_async async (Async.set_pending true);;
     upd_async async (Async.set_unknown_status false);;
     when (negb (signal =? 0) && negb (Async.signaled a))
       (upd_async async (Async.set_signaled true);;
        wake_up async 0)).

(** return async object status and wait handle to client; the second
    component is the value stored through [result], when one is. *)
Definition async_handoff (async : Z) (result : bool) (force_blocking : bool)
    : M (Z * option Z) :=
  a ← get_async async;
  if Async.unknown_status a then
    set_error STATUS_PENDING;;
    mret (Async.wait_handle a, None)
  else
  err ← get_error;
  if negb (Async.pending a) && NT_ERROR err then
    close_handle (process (Async.thread a)) (Async.wait_handle a);;
    upd_async async (Async.set_wait_handle 0);;
    mret (0, None)
  else
  err ← get_error;
  (if negb (err =? STATUS_PENDING) then
     err ← get_error;
     async_terminate async err
   else
     i ← deref (Async.iosb a);
     io ← get_iosb i;
     when (negb (Iosb.status io =? STATUS_PENDING))
       match Iosb.out_data io with
       | Some out =>
           set_reply_data_ptr out (Iosb.out_size io);;
           upd_iosb i (Iosb.set_out_data None)
       | None => mret tt
       end);;
  i ← deref (Async.iosb a);
  io ← get_iosb i;
  stored ←
    (if negb (Iosb.status io =? STATUS_PENDING) then
       upd_async async (Async.set_signaled true);;
       mret (if result then Some (Iosb.result io) else None)
     else
       upd_async async (Async.set_direct_result false);;
       upd_async async (Async.set_pending true);;
       a ← get_async async;
       when (negb force_blocking &&
             match Async.fd a with
             | Some fd => is_fd_overlapped fd
             | None => false
             end)
         (close_handle (process (Async.thread a)) (Async.wait_handle a);;
          upd_async async (Async.set_wait_handle 0));;
       mret None);
  io ← get_iosb i;
  set_error (Iosb.status io);;
  a ← get_async async;
  mret (Async.wait_handle a, stored).

Definition async_get_iosb (async : Z) : M (option Z) :=
  a ← get_async async;
  match Async.iosb a with
  | Some i => grab_object i;; mret (Some i)
  | None => mret None
  end.

(** complete a request-based async with a pre-allocated buffer *)
Definition async_request_complete (async : Z) (status result out_size : Z)
    (out_data : option (list Z)) : M unit :=
  iosb ← async_get_iosb async;
  i ← deref iosb;
  io ← get_iosb i;
  if negb (Iosb.status io =? STATUS_PENDING) then
    release_object i;;
    emit (Call_free out_data)
  else
    upd_iosb i (Iosb.set_status status);;
    upd_iosb i (Iosb.set_result result);;
    upd_iosb i (Iosb.set_out_data out_data);;
    upd_iosb i (Iosb.set_out_size out_size);;
    release_object i;;
    async_terminate async status.

(** mark an async as having unknown initial status *)
Definition async_set_unknown_status (async : Z) : M unit :=
  upd_async async (Async.set_unknown_status true);;
  upd_async async (Async.set_direct_result false).

(** set a callback to be notified when the async is completed *)
Definition async_set_completion_callback (async : Z) (func : option Z)
    (private : Z) : M unit :=
  upd_async async (Async.set_completion_callback func);;
  upd_async async (Async.set_completion_callback_private private).

Definition add_async_completion (async : Z) (cvalue status information : Z)
    : M unit :=
  a ← get_async async;
  match Async.fd a with
  | Some fd =>
      when (is_null (Async.completion a))
        (upd_async async (Async.set_comp_key (fd_get_completion fd).2);;
         upd_async async (Async.set_completion (fd_get_completion fd).1))
  | None => mret tt
  end;;
  a ← get_async async;
  match Async.completion a with
  | Some completion =>
      add_completion completion (Async.comp_key a) cvalue status information
  | None => mret tt
  end.

(** store the result of the client-side async callback *)
Definition async_set_result (obj : Z) (status total : Z) : M unit :=
  o ← get_object obj;
  if bool_decide (obj_ops o ≠ async_ops) then mret tt else
  a ← get_async obj;
  assert (Async.terminated a);;
  if Async.alerted a && (status =? STATUS_PENDING) then
    upd_async obj (Async.set_terminated false);;
    upd_async obj (Async.set_alerted false);;
    async_reselect obj
  else
    match Async.timeout a with
    | Some timer => remove_timeout_user timer
    | None => mret tt
    end;;
    upd_async obj (Async.set_timeout None);;
    upd_async obj (Async.set_terminated true);;
    match Async.iosb a with
    | Some i => upd_iosb i (Iosb.set_status status)
    | None => mret tt
    end;;
    (if negb (AsyncData.apc (Async.data a) =? 0) then
       thread_queue_apc None (Async.thread a) None
         (APC_USER (AsyncData.apc (Async.data a))
            (AsyncData.apc_context (Async.data a))
            (AsyncData.iosb (Async.data a)) 0)
     else
       when (negb (AsyncData.apc_context (Async.data a) =? 0) &&
             (Async.pending a ||
              (Z.land (Async.comp_flags a)
                 FILE_SKIP_COMPLETION_PORT_ON_SUCCESS =? 0)))
         (add_async_completion obj (AsyncData.apc_context (Async.data a))
            status total));;
    match Async.event a, Async.fd a with
    | Some event, _ => set_event event
    | None, Some fd => set_fd_signaled fd 1
    | None, None => mret tt
    end;;
    when (negb (Async.signaled a))
      (upd_async obj (Async.set_signaled true);;
       wake_up obj 0);;
    match Async.completion_callback a with
    | Some func =>
        emit (Call_completion_callback func
                (Async.completion_callback_private a))
    | None => mret tt
    end;;
    upd_async obj (Async.set_completion_callback None);;
    async_reselect obj;;
    when (non_null (Async.queue a))
      (upd_async obj (Async.set_fd None);;
       list_remove_queue_entry obj;;
       upd_async obj (Async.set_queue None);;
       release_object obj).

Definition async_satisfied (obj : Z) (entry : Z) : M unit :=
  o ← get_object obj;
  assert (bool_decide (obj_ops o = async_ops));;
  a ← get_async obj;
  assert (non_null (Async.iosb a));;
  i ← deref (Async.iosb a);
  when (Async.direct_result a)
    (io ← get_iosb i;
     async_set_result obj (Iosb.status io) (Iosb.result io);;
     upd_async obj (Async.set_direct_result false));;
  io ← get_iosb i;
  set_wait_status entry (Iosb.status io);;
  a ← get_async obj;
  when (negb (Async.wait_handle a =? 0))
    (close_handle (process (Async.thread a)) (Async.wait_handle a);;
     upd_async obj (Async.set_wait_handle 0)).

(** check if an async operation is waiting to be alerted *)
Definition async_waiting (queue : Z) : M bool :=
  entries ← gets (queue_list queue);
  match entries with
  | [] => mret false
  | async :: _ => a ← get_async async; mret (negb (Async.terminated a))
  end.

(** find the first pending async in queue *)
Fixpoint find_pending_async_scan (entries : list Z) : M (option Z) :=
  match entries with
  | [] => mret None
  | async :: next =>
      a ← get_async async;
      if negb (Async.terminated a) then grab_object async;; mret (Some async)
      else find_pending_async_scan next
  end.

Definition find_pending_async (queue : Z) : M (option Z) :=
  entries ← gets (queue_list queue);
  find_pending_async_scan entries.

(** wake up async operations on the queue *)
Fixpoint async_wake_up_loop (entries : list Z) (status : Z) : M unit :=
  match entries with
  | [] => mret tt
  | async :: next =>
      async_terminate async status;;
      if status =? STATUS_ALERTED then mret tt  (* only wake up the first one *)
      else async_wake_up_loop next status
  end.

Definition async_wake_up (queue : Z) (status : Z) : M unit :=
  entries ← gets (queue_list queue);
  async_wake_up_loop entries status.

(** Modelled from the spec: [fd_cancel_async] belongs to the fd layer,
    whose code is not in this file; it "synchronously re-enters
    [async_terminate] with CANCELLED".  The call itself is recorded. *)
Definition fd_cancel_async (fd async : Z) : M unit :=
  emit (Call_fd_cancel_async fd async);;
  async_terminate async STATUS_CANCELLED.

(** One pass of [LIST_FOR_EACH_ENTRY] in [cancel_async], up to the
    first entry that passes the tests (the one before [goto restart]);
    [None] when the pass reaches the end of the list. *)
Fixpoint cancel_async_scan (entries : list Z) (obj : option Z)
    (thr : option thread) (iosb : Z) : M (option Z) :=
  match entries with
  | [] => mret None
  | async :: next =>
      a ← get_async async;
      if Async.terminated a then cancel_async_scan next obj thr iosb else
      obj_ok ←
        match obj with
        | None => mret true
        | Some _ =>
            fd ← deref (Async.fd a);
            mret (bool_decide (get_fd_user fd = obj))
        end;
      if obj_ok &&
         match thr with
         | None => true
         | Some t => bool_decide (Async.thread a = t)
         end &&
         ((iosb =? 0) || (AsyncData.iosb (Async.data a) =? iosb))
      then mret (Some async)
      else cancel_async_scan next obj thr iosb
  end.

(** [cancel_async]: [fuel] bounds the number of times the scan is
    started; [woken] is the running count. *)
Fixpoint cancel_async_from (fuel : nat) (proc : Z) (obj : option Z)
    (thr : option thread) (iosb : Z) (woken : Z) : M Z :=
  match fuel with
  | O => crash OutOfFuel
  | S fuel' =>
      entries ← gets (process_list proc);
      found ← cancel_async_scan entries obj thr iosb;
      match found with
      | Some async =>
          a ← get_async async;
          fd ← deref (Async.fd a);
          fd_cancel_async fd async;;
          cancel_async_from fuel' proc obj thr iosb (woken + 1)
      | None => mret woken
      end
  end.

Definition cancel_async (fuel : nat) (proc : Z) (obj : option Z)
    (thr : option thread) (iosb : Z) : M Z :=
  cancel_async_from fuel proc obj thr iosb 0.

Definition cancel_process_asyncs (fuel : nat) (proc : Z) : M unit :=
  cancel_async fuel proc None None 0;;
  mret tt.

(** The request of the [cancel_async] handler. *)
Record cancel_async_request := {
  req_handle : Z;
  req_only_thread : Z;
  req_iosb : Z
}.

(** cancels all async I/O *)
Definition req_cancel_async (fuel : nat) (req : cancel_async_request)
    : M unit :=
  cur ← gets current;
  match get_handle_obj (process cur) (req_handle req) with
  | inr status => set_error status
  | inl obj =>
      let thr := if negb (req_only_thread req =? 0) then Some cur else None in
      count ← cancel_async fuel (process cur) (Some obj) thr (req_iosb req);
      when ((count =? 0) && negb (req_iosb req =? 0))
        (set_error STATUS_NOT_FOUND);;
      release_object obj
  end.

(** The loop of [get_async_result]: the [iosb] field of the first async
    whose [data.user] is [user_arg]; NULL when there is no such async,
    and when that async has no iosb. *)
Fixpoint get_async_result_scan (entries : list Z) (user_arg : Z)
    : M (option Z) :=
  match entries with
  | [] => mret None
  | async :: next =>
      a ← get_async async;
      if AsyncData.user (Async.data a) =? user_arg then mret (Async.iosb a)
      else get_async_result_scan next user_arg
  end.

(** get async result from associated iosb *)
Definition req_get_async_result (user_arg : Z) : M unit :=
  cur ← gets current;
  entries ← gets (process_list (process cur));
  iosb ← get_async_result_scan entries user_arg;
  match iosb with
  | None => set_error STATUS_INVALID_PARAMETER
  | Some i =>
      io ← get_iosb i;
      match Iosb.out_data io with
      | Some out =>
          max_size ← gets reply_max_size;
          let size := Z.min (Iosb.out_size io) max_size in
          when (negb (size =? 0))
            (set_reply_data_ptr out size;;
             upd_iosb i (Iosb.set_out_data None))
      | None => mret tt
      end;;
      io ← get_iosb i;
      modify (set_reply_size (Iosb.result io));;
      set_error (Iosb.status io)
  end.

End Core.

(** ** Closed forms of the operations *)

(** What [async_terminate] leaves in the async and in its iosb. *)
Definition terminated_async (status : Z) (a : Async.t) : Async.t :=
  if status =? STATUS_ALERTED
  then Async.set_alerted true (Async.set_terminated true a)
  else Async.set_terminated true a.

Definition terminated_iosb (status : Z) (io : Iosb.t) : Iosb.t :=
  if Iosb.status io =? STATUS_PENDING then Iosb.set_status status io else io.

(** The status carried by the APC of [async_terminate]. *)
Definition apc_status (status : Z) (io : option Iosb.t) : Z :=
  match io with
  | Some io =>
      if negb (Iosb.result io =? 0) || non_null (Iosb.out_data io)
      then STATUS_ALERTED else status
  | None => status
  end.

Definition async_io_apc (async : Z) (a : Async.t) (status : Z) : call :=
  Call_thread_queue_apc (Some (process (Async.thread a))) (Async.thread a)
    (Some async)
    (APC_ASYNC_IO (AsyncData.user (Async.data a))
       (AsyncData.iosb (Async.data a)) status).

Definition reselect_calls (a : Async.t) : list call :=
  match Async.queue a, Async.fd a with
  | Some queue, Some fd => [Call_fd_reselect_async fd queue]
  | _, _ => []
  end.

(** The collaborator calls of one effective [async_terminate]. *)
Definition terminate_calls (async : Z) (a : Async.t) (status : Z)
    (io : option Iosb.t) : list call :=
  [Call_grab_object async] ++
  (if Async.direct_result a then []
   else [async_io_apc async a (apc_status status io)]) ++
  reselect_calls a ++
  [Call_release_object async].

(** The iosb of an async, looked up in the heap: [Some None] when the
    async has none, [None] when its pointer is dangling. *)
Definition iosb_of (s : server) (a : Async.t) : option (option (Z * Iosb.t)) :=
  match Async.iosb a with
  | None => Some None
  | Some i =>
      match objects s !! i with
      | Some (ObjIosb io) => Some (Some (i, io))
      | _ => None
      end
  end.

(** The state after an effective [async_terminate]. *)
Definition terminated_state (async : Z) (a : Async.t) (status : Z)
    (io : option (Z * Iosb.t)) (s : server) : server :=
  set_calls (calls s ++ terminate_calls async a status (snd <$> io))
    (set_objects
       (<[async := ObjAsync (terminated_async status a)]>
          match io with
          | Some (i, io) => <[i := ObjIosb (terminated_iosb status io)]> (objects s)
          | None => objects s
          end) s).

(** The calls that queue an APC. *)
Definition is_apc (c : call) : bool :=
  match c with
  | Call_thread_queue_apc _ _ _ _ => true
  | _ => false
  end.

(** The relation between the iosb status and the [terminated] flag that
    the specification states: the status is PENDING exactly when the async
    is not terminated, except in the alerted window ([terminated],
    [alerted], status ALERTED). *)
Definition status_agrees_with_flags (a : Async.t) (io : Iosb.t) : bool :=
  eqb (Iosb.status io =? STATUS_PENDING) (negb (Async.terminated a))
  || (Async.terminated a && Async.alerted a
      && (Iosb.status io =? STATUS_ALERTED)).

(** [async_wake_up] in the specification's words: terminate, head
    first, every async on the queue, or the first one only when the status
    is ALERTED. *)
Definition wake_up_targets (entries : list Z) (status : Z) : list Z :=
  if status =? STATUS_ALERTED then take 1 entries else entries.

Definition terminate_each (asyncs : list Z) (status : Z) : M unit :=
  LIST_FOR_EACH asyncs (λ async, async_terminate async status).

(** Every entry of the list is the address of an async. *)
Definition is_async_at (s : server) (p : Z) : bool :=
  match objects s !! p with
  | Some (ObjAsync _) => true
  | _ => false
  end.

Definition all_asyncs (s : server) (entries : list Z) : bool :=
  forallb (is_async_at s) entries.

(** The first async of the list whose [data.user] is [user_arg]. *)
Fixpoint first_async_with_user (s : server) (entries : list Z) (user_arg : Z)
    : option Async.t :=
  match entries with
  | [] => None
  | p :: next =>
      match objects s !! p with
      | Some (ObjAsync a) =>
          if AsyncData.user (Async.data a) =? user_arg then Some a
          else first_async_with_user s next user_arg
      | _ => first_async_with_user s next user_arg
      end
  end.

(** The outcome the specification gives to [get_async_result], as far as
    the last error and [reply.size] go: INVALID_PARAMETER when no async of
    the calling process has the user pointer, and otherwise the status and
    the result of that async's iosb. *)
Definition get_async_result_as_specified (s : server) (user_arg : Z)
    (out : outcome unit) : Prop :=
  match first_async_with_user s (process_list (process (current s)) s) user_arg with
  | None => ∃ s', out = Done tt s' ∧ error s' = STATUS_INVALID_PARAMETER
  | Some a =>
      ∃ i io s',
        Async.iosb a = Some i ∧ objects s !! i = Some (ObjIosb io) ∧
        out = Done tt s' ∧
        reply_size s' = Iosb.result io ∧ error s' = Iosb.status io
  end.

(** The state [get_async_result] leaves when it found the iosb [io] at
    address [i]. *)
Definition async_result_reply (i : Z) (io : Iosb.t) (s : server) : server :=
  let size := Z.min (Iosb.out_size io) (reply_max_size s) in
  let s1 :=
    match Iosb.out_data io with
    | Some out =>
        if size =? 0 then s
        else set_objects (<[i := ObjIosb (Iosb.set_out_data None io)]> (objects s))
               (set_calls (calls s ++ [Call_set_reply_data_ptr out size]) s)
    | None => s
    end in
  set_server_error (Iosb.status io) (set_reply_size (Iosb.result io) s1).

(** Typed views of the heap. *)
Definition async_at (s : server) (p : Z) : option Async.t :=
  match objects s !! p with
  | Some (ObjAsync a) => Some a
  | _ => None
  end.

Definition is_iosb_at (s : server) (p : Z) : bool :=
  match objects s !! p with
  | Some (ObjIosb _) => true
  | _ => false
  end.

(** The iosb pointer of the async is null or points to an iosb. *)
Definition iosb_valid (s : server) (a : Async.t) : bool :=
  match Async.iosb a with
  | Some i => is_iosb_at s i
  | None => true
  end.

(** The test [cancel_async] applies to an entry of the async list: not
    terminated, and matching every filter that is present. *)
Definition cancel_matches (get_fd_user : Z → option Z) (obj : option Z)
    (thr : option thread) (iosb : Z) (a : Async.t) : bool :=
  negb (Async.terminated a) &&
  match obj with
  | None => true
  | Some _ =>
      match Async.fd a with
      | Some fd => bool_decide (get_fd_user fd = obj)
      | None => false
      end
  end &&
  match thr with
  | None => true
  | Some t => bool_decide (Async.thread a = t)
  end &&
  ((iosb =? 0) || (AsyncData.iosb (Async.data a) =? iosb)).

Definition cancel_target (get_fd_user : Z → option Z) (s : server)
    (obj : option Z) (thr : option thread) (iosb : Z) (p : Z) : bool :=
  match async_at s p with
  | Some a => cancel_matches get_fd_user obj thr iosb a
  | None => false
  end.

(** The asyncs of the list that [cancel_async] is to cancel, in list
    order. *)
Definition cancel_targets (get_fd_user : Z → option Z) (s : server)
    (entries : list Z) (obj : option Z) (thr : option thread) (iosb : Z)
    : list Z :=
  filter (λ p, cancel_target get_fd_user s obj thr iosb p) entries.

(** [fd_cancel_async( async->fd, async )] for one entry. *)
Definition cancel_entry (async : Z) : M unit :=
  a ← get_async async;
  fd ← deref (Async.fd a);
  fd_cancel_async fd async.

(** An entry [cancel_async] can examine without a fault: an async whose
    iosb pointer is null or valid and which, unless terminated, still has
    its fd. *)
Definition cancellable_entry (s : server) (p : Z) : bool :=
  match async_at s p with
  | Some a => iosb_valid s a && (Async.terminated a || non_null (Async.fd a))
  | None => false
  end.

Definition cancellable (s : server) (entries : list Z) : bool :=
  forallb (cancellable_entry s) entries.

Definition is_fd_cancel (c : call) : bool :=
  match c with
  | Call_fd_cancel_async _ _ => true
  | _ => false
  end.

Definition cancelled_asyncs (cs : list call) : list Z :=
  omap (λ c, match c with
             | Call_fd_cancel_async _ async => Some async
             | _ => None
             end) cs.

(** The thread filter and the targets of a [cancel_async] request whose
    handle is resolved to [obj]. *)
Definition request_thread_filter (s : server) (req : cancel_async_request)
    : option thread :=
  if negb (req_only_thread req =? 0) then Some (current s) else None.

Definition request_targets (get_fd_user : Z → option Z) (s : server)
    (req : cancel_async_request) (obj : Z) : list Z :=
  cancel_targets get_fd_user s (process_list (process (current s)) s)
    (Some obj) (request_thread_filter s req) (req_iosb req).

(** The relation between [fd] and queue membership that the
    specification states: [fd] is null exactly when the async is on a
    queue. *)
Definition fd_null_iff_queued (a : Async.t) : bool :=
  eqb (is_null (Async.fd a)) (non_null (Async.queue a)).

(** Every async of the heap, with its address, satisfies [R]. *)
Definition cell_inv (R : Z → Async.t → Prop) (s : server) : Prop :=
  ∀ p a, objects s !! p = Some (ObjAsync a) → R p a.

(** The fields the relations below are about. *)
Definition core_view (a : Async.t) : option Z * option Z * bool * bool :=
  (Async.fd a, Async.queue a, Async.alerted a, Async.terminated a).

(** A relation that only looks at [fd], [queue], [alerted] and
    [terminated]. *)
Definition core_only (R : Z → Async.t → Prop) : Prop :=
  ∀ p a a', R p a → core_view a = core_view a' → R p a'.

(** A relation that only looks at [fd] and [queue]. *)
Definition fd_queue_only (R : Z → Async.t → Prop) : Prop :=
  ∀ p a a', R p a → Async.fd a = Async.fd a' → Async.queue a = Async.queue a' →
            R p a'.

(** The relation the code keeps, up to the async at [except] (the one an
    operation is in the middle of detaching): an async whose [fd] is null
    is on no queue; that is, a queued async still has its fd pointer. *)
Definition null_fd_unqueued_except (except : option Z) : server → Prop :=
  cell_inv (λ p a, Some p ≠ except → Async.fd a = None → Async.queue a = None).

Definition null_fd_unqueued (s : server) : Prop :=
  ∀ p a, objects s !! p = Some (ObjAsync a) →
         Async.fd a = None → Async.queue a = None.

(** The async at [p], if there is one, has a null [fd]; and it is
    detached: null [fd] and null queue pointer. *)
Definition fd_nulled (p : Z) : server → Prop :=
  cell_inv (λ p' a, p' = p → Async.fd a = None).

Definition detached (p : Z) : server → Prop :=
  cell_inv (λ p' a, p' = p → Async.fd a = None ∧ Async.queue a = None).

(** An alerted async is terminated (up to the async at [except], the one
    being restarted); [async_set_result] asserts it. *)
Definition alerted_terminated_except (except : option Z) : server → Prop :=
  cell_inv (λ p a, Some p ≠ except →
                   Async.alerted a = true → Async.terminated a = true).

Definition alerted_terminated (s : server) : Prop :=
  ∀ p a, objects s !! p = Some (ObjAsync a) →
         Async.alerted a = true → Async.terminated a = true.

(** While [async_terminate] runs on [async]: that one is terminated. *)
Definition alerted_terminated_in (async : Z) : server → Prop :=
  cell_inv (λ p a, (Async.alerted a = true → Async.terminated a = true) ∧
                   (p = async → Async.terminated a = true)).

(** The same relations for one heap cell, as tests. *)
Definition fd_queue_ok (o : object) : bool :=
  match o with
  | ObjAsync a => non_null (Async.fd a) || is_null (Async.queue a)
  | _ => true
  end.

Definition flags_ok (o : object) : bool :=
  match o with
  | ObjAsync a => negb (Async.alerted a) || Async.terminated a
  | _ => true
  end.

(** The read-only collaborator queries, bundled. *)
Record queries := {
  q_fd_get_completion : Z → option Z * Z;
  q_get_fd_user : Z → option Z;
  q_is_fd_overlapped : Z → bool;
  q_NT_ERROR : Z → bool;
  q_get_handle_obj : Z → Z → Z + Z
}.

(** The entry points of the core, as the rest of the server calls them. *)
Inductive operation :=
| Op_queue_async (queue async : Z)
| Op_async_terminate (async status : Z)
| Op_async_timeout (async : Z)
| Op_free_async_queue (queue : Z)
| Op_set_async_pending (async signal : Z)
| Op_async_handoff (async : Z) (result force_blocking : bool)
| Op_async_request_complete (async status result out_size : Z)
    (out_data : option (list Z))
| Op_async_set_unknown_status (async : Z)
| Op_async_set_completion_callback (async : Z) (func : option Z) (private : Z)
| Op_async_set_result (obj status total : Z)
| Op_async_satisfied (obj entry : Z)
| Op_async_wake_up (queue status : Z)
| Op_cancel_process_asyncs (fuel : nat) (proc : Z)
| Op_req_cancel_async (fuel : nat) (req : cancel_async_request)
| Op_req_get_async_result (user_arg : Z).

Definition exec (q : queries) (op : operation) : M unit :=
  match op with
  | Op_queue_async queue async => queue_async queue async
  | Op_async_terminate async status => async_terminate async status
  | Op_async_timeout async => async_timeout async
  | Op_free_async_queue queue => free_async_queue (q_fd_get_completion q) queue
  | Op_set_async_pending async signal => set_async_pending async signal
  | Op_async_handoff async result force_blocking =>
      async_handoff (q_is_fd_overlapped q) (q_NT_ERROR q) async result
        force_blocking;;
      mret tt
  | Op_async_request_complete async status result out_size out_data =>
      async_request_complete async status result out_size out_data
  | Op_async_set_unknown_status async => async_set_unknown_status async
  | Op_async_set_completion_callback async func private =>
      async_set_completion_callback async func private
  | Op_async_set_result obj status total =>
      async_set_result (q_fd_get_completion q) obj status total
  | Op_async_satisfied obj entry =>
      async_satisfied (q_fd_get_completion q) obj entry
  | Op_async_wake_up queue status => async_wake_up queue status
  | Op_cancel_process_asyncs fuel proc =>
      cancel_process_asyncs (q_get_fd_user q) fuel proc
  | Op_req_cancel_async fuel req =>
      req_cancel_async (q_get_fd_user q) (q_get_handle_obj q) fuel req
  | Op_req_get_async_result user_arg => req_get_async_result user_arg
  end.

(** A sequence of operations, one after the other. *)
Fixpoint exec_all (q : queries) (ops : list operation) : M unit :=
  match ops with
  | [] => mret tt
  | op :: rest => exec q op;; exec_all q rest
  end.

(** Partial correctness: from a state in [P], a run of [m] that completes
    with the value [x] ends in a state in [Q x]. *)
Definition hoare {A} (P : server → Prop) (m : M A) (Q : A → server → Prop)
    : Prop :=
  ∀ s, P s → match m s with Done x s' => Q x s' | Crash _ => True end.

(** ** Creation, timeouts and destruction *)

(** Field writes that only the functions of this part make. *)
Definition set_process_asyncs v (s : server) : server :=
  Build_server (objects s) (queues s) v (current s) (error s)
    (reply_max_size s) (reply_size s) (calls s).

Definition set_timeout_status v (a : Async.t) : Async.t :=
  Async.Build_t (Async.thread a) (Async.queue a) (Async.fd a) (Async.timeout a)
    v (Async.event a) (Async.data a) (Async.iosb a) (Async.wait_handle a)
    (Async.signaled a) (Async.pending a) (Async.direct_result a)
    (Async.alerted a) (Async.terminated a) (Async.unknown_status a)
    (Async.completion a) (Async.comp_key a) (Async.comp_flags a)
    (Async.completion_callback a) (Async.completion_callback_private a).

Definition set_comp_flags v (a : Async.t) : Async.t :=
  Async.Build_t (Async.thread a) (Async.queue a) (Async.fd a) (Async.timeout a)
    (Async.timeout_status a) (Async.event a) (Async.data a) (Async.iosb a)
    (Async.wait_handle a) (Async.signaled a) (Async.pending a)
    (Async.direct_result a) (Async.alerted a) (Async.terminated a)
    (Async.unknown_status a) (Async.completion a) (Async.comp_key a) v
    (Async.completion_callback a) (Async.completion_callback_private a).

Definition set_in_data v (i : Iosb.t) : Iosb.t :=
  Iosb.Build_t (Iosb.status i) (Iosb.result i) (Iosb.in_size i) v
    (Iosb.out_size i) (Iosb.out_data i).

(** Modelled from the spec: the timeout value that stands for no timeout
    ("if not INFINITE, arm a new timer"); the largest [timeout_t]. *)
Definition TIMEOUT_INFINITE : Z := 0x7fffffffffffffff.

Section Lifetime.

Variable fd_get_completion : Z → option Z * Z.

(** Answers of the collaborators whose code is not in this file.
    - [alloc_object ops]: the address of the new object, NULL when memory
      is exhausted; [uninitialised p] is what the memory at [p] holds where
      the caller does not write it.
    - [memdup data size]: a copy of the first [size] bytes, NULL when
      memory is exhausted.
    - [get_event_obj process handle]: the event behind a handle, asked for
      with [EVENT_MODIFY_STATE] access, or the status it sets as last error.
    - [reset_event event]: an action of the event layer.
    - [add_timeout_user timeout private]: the timer that will call
      [async_timeout private], NULL when it cannot be created.
    - [alloc_handle process obj]: a new handle with [SYNCHRONIZE] access,
      0 when there is none.
    - [get_req_data], [get_req_data_size]: the payload of the request
      being served.
    Only the answers are recorded: the last error a failing allocator,
    [memdup] or [alloc_handle] sets is its own and is not part of the
    state kept here; [get_event_obj] is the exception, the status of a
    failed lookup is kept as last error. *)
Variable alloc_object : object_ops → server → option Z.
Variable uninitialised : Z → Z.
Variable memdup : list Z → Z → option (list Z).
Variable get_event_obj : Z → Z → Z + Z.
Variable reset_event : Z → M unit.
Variable add_timeout_user : Z → Z → option Z.
Variable alloc_handle : Z → Z → Z.
Variable get_req_data : list Z.
Variable get_req_data_size : Z.

(** [list_add_head( &process->asyncs, &async->process_entry )] *)
Definition list_add_head_process (proc async : Z) : M unit :=
  modify (λ s, set_process_asyncs
                 (<[proc := async :: process_list proc s]> (process_asyncs s)) s).

(** [list_remove( &async->process_entry )] *)
Definition list_remove_process_entry (async : Z) : M unit :=
  modify (λ s, set_process_asyncs
                 (filter (λ x, x ≠ async) <$> process_asyncs s) s).

Definition async_destroy (obj : Z) : M unit :=
  o ← get_object obj;
  assert (bool_decide (obj_ops o = async_ops));;
  a ← get_async obj;
  list_remove_process_entry obj;;
  match Async.queue a with
  | Some _ =>
      list_remove_queue_entry obj;;
      async_reselect obj
  | None =>
      match Async.fd a with
      | Some fd => release_object fd
      | None => mret tt
      end
  end;;
  match Async.timeout a with
  | Some timer => remove_timeout_user timer
  | None => mret tt
  end;;
  match Async.completion a with
  | Some completion => release_object completion
  | None => mret tt
  end;;
  match Async.event a with
  | Some event => release_object event
  | None => mret tt
  end;;
  match Async.iosb a with
  | Some i => release_object i
  | None => mret tt
  end;;
  release_object (thread_ptr (Async.thread a)).

(** The async [create_async] builds at the address [async]. *)
Definition new_async (async fd : Z) (thr : thread) (event : option Z)
    (data : AsyncData.t) (iosb : option Z) : Async.t :=
  {| Async.thread := thr;
     Async.queue := None;
     Async.fd := Some fd;
     Async.timeout := None;
     Async.timeout_status := uninitialised async;
     Async.event := event;
     Async.data := data;
     Async.iosb := iosb;
     Async.wait_handle := 0;
     Async.signaled := false;
     Async.pending := true;
     Async.direct_result := false;
     Async.alerted := false;
     Async.terminated := false;
     Async.unknown_status := false;
     Async.completion := (fd_get_completion fd).1;
     Async.comp_key := (fd_get_completion fd).2;
     Async.comp_flags := 0;
     Async.completion_callback := None;
     Async.completion_callback_private := 0 |}.

(** [data->event && !(event = get_event_obj( ... ))]: no event is asked
    for, or the event behind the handle, or the status of the failed
    lookup. *)
Definition lookup_event (thr : thread) (data : AsyncData.t) : option Z + Z :=
  if AsyncData.event data =? 0 then inl None
  else match get_event_obj (process thr) (AsyncData.event data) with
       | inl event => inl (Some event)
       | inr status => inr status
       end.

(** create an async on a given queue of a fd *)
Definition create_async (fd : option Z) (thr : thread) (data : AsyncData.t)
    (iosb : option Z) : M (option Z) :=
  match lookup_event thr data with
  | inr status => set_error status;; mret None
  | inl event =>
      mem ← gets (alloc_object async_ops);
      match mem with
      | None =>
          match event with
          | Some ev => release_object ev
          | None => mret tt
          end;;
          mret None
      | Some async =>
          grab_object (thread_ptr thr);;
          f ← deref fd;
          grab_object f;;
          match iosb with
          | Some i => grab_object i
          | None => mret tt
          end;;
          modify (λ s, set_objects
                         (<[async := ObjAsync (new_async async f thr event data iosb)]>
                            (objects s)) s);;
          list_add_head_process (process thr) async;;
          match event with
          | Some ev => reset_event ev
          | None => mret tt
          end;;
          if non_null (fd_get_completion f).1 && negb (AsyncData.apc data =? 0)
          then
            release_object async;;
            set_error STATUS_INVALID_PARAMETER;;
            mret None
          else mret (Some async)
      end
  end.

(** complete a request-based async *)
Definition async_request_complete_alloc (async status result out_size : Z)
    (out_data : list Z) : M unit :=
  if negb (out_size =? 0) then
    match memdup out_data out_size with
    | None => async_terminate async STATUS_NO_MEMORY
    | Some out_data_copy =>
        async_request_complete async status result out_size (Some out_data_copy)
    end
  else async_request_complete async status result out_size None.

(** set the timeout of an async operation *)
Definition async_set_timeout (async timeout status : Z) : M unit :=
  a ← get_async async;
  match Async.timeout a with
  | Some timer => remove_timeout_user timer
  | None => mret tt
  end;;
  (if negb (timeout =? TIMEOUT_INFINITE)
   then upd_async async (Async.set_timeout (add_timeout_user timeout async))
   else upd_async async (Async.set_timeout None));;
  upd_async async (set_timeout_status status).

Definition iosb_destroy (obj : Z) : M unit :=
  io ← get_iosb obj;
  emit (Call_free (Iosb.in_data io));;
  emit (Call_free (Iosb.out_data io)).

(** allocate iosb struct *)
Definition create_iosb (in_data : list Z) (in_size out_size : Z)
    : M (option Z) :=
  mem ← gets (alloc_object iosb_ops);
  match mem with
  | None => mret None
  | Some iosb =>
      modify (λ s, set_objects
                     (<[iosb := ObjIosb
                          {| Iosb.status := STATUS_PENDING;
                             Iosb.result := 0;
                             Iosb.in_size := in_size;
                             Iosb.in_data := None;
                             Iosb.out_size := out_size;
                             Iosb.out_data := None |}]> (objects s)) s);;
      if negb (in_size =? 0) then
        upd_iosb iosb (set_in_data (memdup in_data in_size));;
        match memdup in_data in_size with
        | None => release_object iosb;; mret None
        | Some _ => mret (Some iosb)
        end
      else mret (Some iosb)
  end.

(** create an async associated with iosb for async-based requests
    returned async must be passed to async_handoff *)
Definition create_request_async (fd : option Z) (comp_flags : Z)
    (data : AsyncData.t) : M (option Z) :=
  max_size ← gets reply_max_size;
  iosb ← create_iosb get_req_data get_req_data_size max_size;
  match iosb with
  | None => mret None
  | Some i =>
      cur ← gets current;
      async ← create_async fd cur data (Some i);
      release_object i;;
      match async with
      | None => mret None
      | Some p =>
          upd_async p (Async.set_wait_handle (alloc_handle (process cur) p));;
          if alloc_handle (process cur) p =? 0 then
            release_object p;;
            mret None
          else
            upd_async p (Async.set_pending false);;
            upd_async p (Async.set_direct_result true);;
            upd_async p (set_comp_flags comp_flags);;
            mret (Some p)
      end
  end.

Definition async_get_thread (async : Z) : M thread :=
  a ← get_async async;
  mret (Async.thread a).

End Lifetime.

(** The answers of the collaborators of this part, bundled. *)
Record lifetime_queries := {
  q_alloc_object : object_ops → server → option Z;
  q_uninitialised : Z → Z;
  q_memdup : list Z → Z → option (list Z);
  q_get_event_obj : Z → Z → Z + Z;
  q_reset_event : Z → M unit;
  q_add_timeout_user : Z → Z → option Z;
  q_alloc_handle : Z → Z → Z;
  q_get_req_data : list Z;
  q_get_req_data_size : Z
}.

(** The entry points of this part and of the core, as the rest of the
    server and the object runtime call them. *)
Inductive lifetime_operation :=
| Op_core (op : operation)
| Op_create_async (fd : option Z) (thr : thread) (data : AsyncData.t)
    (iosb : option Z)
| Op_create_request_async (fd : option Z) (comp_flags : Z) (data : AsyncData.t)
| Op_async_request_complete_alloc (async status result out_size : Z)
    (out_data : list Z)
| Op_async_set_timeout (async timeout status : Z)
| Op_async_destroy (obj : Z)
| Op_iosb_destroy (obj : Z).

Definition exec_lifetime (q : queries) (l : lifetime_queries)
    (op : lifetime_operation) : M unit :=
  match op with
  | Op_core op => exec q op
  | Op_create_async fd thr data iosb =>
      create_async (q_fd_get_completion q) (q_alloc_object l)
        (q_uninitialised l) (q_get_event_obj l) (q_reset_event l)
        fd thr data iosb;;
      mret tt
  | Op_create_request_async fd comp_flags data =>
      create_request_async (q_fd_get_completion q) (q_alloc_object l)
        (q_uninitialised l) (q_memdup l) (q_get_event_obj l) (q_reset_event l)
        (q_alloc_handle l) (q_get_req_data l) (q_get_req_data_size l)
        fd comp_flags data;;
      mret tt
  | Op_async_request_complete_alloc async status result out_size out_data =>
      async_request_complete_alloc (q_memdup l) async status result out_size
        out_data
  | Op_async_set_timeout async timeout status =>
      async_set_timeout (q_add_timeout_user l) async timeout status
  | Op_async_destroy obj => async_destroy obj
  | Op_iosb_destroy obj => iosb_destroy obj
  end.

Fixpoint exec_lifetime_all (q : queries) (l : lifetime_queries)
    (ops : list lifetime_operation) : M unit :=
  match ops with
  | [] => mret tt
  | op :: rest => exec_lifetime q l op;; exec_lifetime_all q l rest
  end.

(** The server before any async exists. *)
Definition empty_server (cur : thread) (max_size : Z) : server :=
  {| objects := ∅;
     queues := ∅;
     process_asyncs := ∅;
     current := cur;
     error := 0;
     reply_max_size := max_size;
     reply_size := 0;
     calls := [] |}.

(** ** Sample states *)

(** A client thread, and an async with an iosb as [create_async] leaves
    them: pending, on no queue, holding its fd. *)
Definition sample_thread : thread := {| thread_ptr := 100; process := 200 |}.

Definition sample_data : AsyncData.t :=
  {| AsyncData.event := 0; AsyncData.iosb := 0x7000; AsyncData.user := 0x5000;
     AsyncData.apc := 0; AsyncData.apc_context := 0 |}.

Definition sample_iosb : Iosb.t :=
  {| Iosb.status := STATUS_PENDING; Iosb.result := 0; Iosb.in_size := 0;
     Iosb.in_data := None; Iosb.out_size := 0; Iosb.out_data := None |}.

Definition sample_async : Async.t :=
  {| Async.thread := sample_thread; Async.queue := None; Async.fd := Some 30;
     Async.timeout := None; Async.timeout_status := 0; Async.event := None;
     Async.data := sample_data; Async.iosb := Some 20; Async.wait_handle := 0;
     Async.signaled := false; Async.pending := true;
     Async.direct_result := false; Async.alerted := false;
     Async.terminated := false; Async.unknown_status := false;
     Async.completion := None; Async.comp_key := 0; Async.comp_flags := 0;
     Async.completion_callback := None;
     Async.completion_callback_private := 0 |}.

(** The server with that async at address 10 and its iosb at address 20. *)
Definition sample_server : server :=
  {| objects := {[ 10 := ObjAsync sample_async; 20 := ObjIosb sample_iosb ]};
     queues := ∅;
     process_asyncs := {[ 200 := [10] ]};
     current := sample_thread;
     error := 0;
     reply_max_size := 0;
     reply_size := 0;
     calls := [] |}.

(** The sample async once alerted: after
    [async_terminate 10 STATUS_ALERTED]. *)
Definition alerted_async : Async.t := terminated_async STATUS_ALERTED sample_async.

Definition alerted_server : server :=
  terminated_state 10 sample_async STATUS_ALERTED (Some (20, sample_iosb))
    sample_server.

(** The alerted sample async once restarted by
    [async_set_result 10 STATUS_PENDING]. *)
Definition restarted_server : server :=
  set_objects (<[10 := ObjAsync sample_async]> (objects alerted_server))
    alerted_server.

(** The [NT_ERROR] test as winternl.h defines it: both severity bits of
    the 32-bit status are set. *)
Definition NT_ERROR_winternl (status : Z) : bool := Z.shiftr status 30 =? 3.

(** The sample async as [create_request_async] leaves it (direct result,
    not pending, with a wait handle), in a server whose last error is
    [err]. *)
Definition request_async : Async.t :=
  Async.set_wait_handle 0x44
    (Async.set_direct_result true (Async.set_pending false sample_async)).

Definition request_server (err : Z) : server :=
  {| objects := {[ 10 := ObjAsync request_async; 20 := ObjIosb sample_iosb ]};
     queues := ∅;
     process_asyncs := {[ 200 := [10] ]};
     current := sample_thread;
     error := err;
     reply_max_size := 0;
     reply_size := 0;
     calls := [] |}.

(** The same after [async_set_unknown_status]. *)
Definition unknown_async : Async.t :=
  Async.set_direct_result false (Async.set_unknown_status true request_async).

Definition unknown_server : server :=
  set_objects (<[10 := ObjAsync unknown_async]> (objects (request_server 0)))
    (request_server 0).

(** An async created without an iosb, alone in its process. *)
Definition plain_async : Async.t :=
  {| Async.thread := sample_thread; Async.queue := None; Async.fd := Some 30;
     Async.timeout := None; Async.timeout_status := 0; Async.event := None;
     Async.data := sample_data; Async.iosb := None; Async.wait_handle := 0;
     Async.signaled := false; Async.pending := true;
     Async.direct_result := false; Async.alerted := false;
     Async.terminated := false; Async.unknown_status := false;
     Async.completion := None; Async.comp_key := 0; Async.comp_flags := 0;
     Async.completion_callback := None;
     Async.completion_callback_private := 0 |}.

Definition plain_server : server :=
  {| objects := {[ 10 := ObjAsync plain_async ]};
     queues := ∅;
     process_asyncs := {[ 200 := [10] ]};
     current := sample_thread;
     error := 0;
     reply_max_size := 16;
     reply_size := 0;
     calls := [] |}.

(** The sample async completed with 4 bytes of output and result 4, as
    [async_request_complete] then [async_terminate] leave it. *)
Definition completed_iosb : Iosb.t :=
  {| Iosb.status := 0; Iosb.result := 4; Iosb.in_size := 0;
     Iosb.in_data := None; Iosb.out_size := 4;
     Iosb.out_data := Some [1; 2; 3; 4] |}.

Definition completed_server (max_size : Z) : server :=
  {| objects := {[ 10 := ObjAsync (Async.set_terminated true sample_async);
                   20 := ObjIosb completed_iosb ]};
     queues := ∅;
     process_asyncs := {[ 200 := [10] ]};
     current := sample_thread;
     error := 0;
     reply_max_size := max_size;
     reply_size := 0;
     calls := [] |}.

(** A process with three asyncs on the same fd, newest first: 12 is live
    without iosb, 11 is already terminated, 10 is the live sample async.
    The fd 30 belongs to the object 77, which the handle 0x20 names. *)
Definition crowded_server : server :=
  {| objects := {[ 10 := ObjAsync sample_async; 20 := ObjIosb sample_iosb;
                   11 := ObjAsync (Async.set_terminated true plain_async);
                   12 := ObjAsync plain_async ]};
     queues := ∅;
     process_asyncs := {[ 200 := [12; 11; 10] ]};
     current := sample_thread;
     error := 0;
     reply_max_size := 0;
     reply_size := 0;
     calls := [] |}.

Definition sample_fd_user (fd : Z) : option Z :=
  if fd =? 30 then Some 77 else None.

Definition sample_handle_obj (proc handle : Z) : Z + Z :=
  if handle =? 0x20 then inl 77 else inr 0xC0000008.

Definition cancel_all_request : cancel_async_request :=
  {| req_handle := 0x20; req_only_thread := 0; req_iosb := 0 |}.

(** The state a run ends in (the initial one if it stops on a fault). *)
Definition final_state {A} (m : M A) (s : server) : server :=
  match m s with
  | Done _ s' => s'
  | Crash _ => s
  end.

Definition sample_queries : queries :=
  {| q_fd_get_completion := λ _, (None, 0);
     q_get_fd_user := sample_fd_user;
     q_is_fd_overlapped := λ _, true;
     q_NT_ERROR := NT_ERROR_winternl;
     q_get_handle_obj := sample_handle_obj |}.

(** The sample async queued on the queue 50. *)
Definition queued_server : server :=
  final_state (queue_async 50 10) sample_server.

(** A life of the sample async: queued, terminated with status 0 by the fd
    layer, then completed by the client's APC reply. *)
Definition lifecycle : list operation :=
  [Op_queue_async 50 10; Op_async_terminate 10 0; Op_async_set_result 10 0 0].

(** Two live asyncs of the crowded process on the queue 50: 10 at the
    head, 12 behind it. *)
Definition two_queued_server : server :=
  final_state (queue_async 50 12) (final_state (queue_async 50 10) crowded_server).

(** The asyncs named by the APCs among the calls, in call order. *)
Definition apc_owners (cs : list call) : list Z :=
  omap (λ c, match c with
             | Call_thread_queue_apc _ _ (Some owner) (APC_ASYNC_IO _ _ _) =>
                 Some owner
             | _ => None
             end) cs.

(** The sample async queued, alerted by the fd layer, restarted by the
    client, then cancelled and completed. *)
Definition restart_lifecycle : list operation :=
  [Op_queue_async 50 10; Op_async_wake_up 50 STATUS_ALERTED;
   Op_async_set_result 10 STATUS_PENDING 0;
   Op_async_terminate 10 STATUS_CANCELLED;
   Op_async_set_result 10 STATUS_CANCELLED 0].

(** The sample async queued, alerted, left behind by [free_async_queue]
    when its fd goes away, then restarted by the client: it is live again,
    without fd or queue, and still on the list of its process. *)
Definition orphan_lifecycle : list operation :=
  [Op_queue_async 50 10; Op_async_wake_up 50 STATUS_ALERTED;
   Op_free_async_queue 50; Op_async_set_result 10 STATUS_PENDING 0].

Definition orphan_server : server :=
  final_state (exec_all sample_queries orphan_lifecycle) sample_server.

(** ** Views used by the properties of the queue functions *)

(** The async at [p] exists and is not terminated. *)
Definition is_pending_at (s : server) (p : Z) : bool :=
  match async_at s p with
  | Some a => negb (Async.terminated a)
  | None => false
  end.

(** The first entry of the list that is not terminated. *)
Definition first_pending (s : server) (entries : list Z) : option Z :=
  head (filter (λ p, is_pending_at s p) entries).

(** The entry is an async whose iosb pointer is null or valid. *)
Definition valid_entry (s : server) (p : Z) : bool :=
  match async_at s p with
  | Some a => iosb_valid s a
  | None => false
  end.

Definition valid_entries (s : server) (entries : list Z) : bool :=
  forallb (valid_entry s) entries.

(** A property of the state that only looks at the two lists. *)
Definition lists_only (P : server → Prop) : Prop :=
  ∀ s s', P s → queues s' = queues s → process_asyncs s' = process_asyncs s →
          P s'.

(** ** Closed form of the completion branch of [async_set_result] *)

(** The async after [add_async_completion]: when it has an fd and no
    completion port yet, the port of the fd and its key are looked up and
    kept. *)
Definition cache_completion (gc : Z → option Z * Z) (a : Async.t) : Async.t :=
  match Async.fd a with
  | Some fd =>
      if is_null (Async.completion a)
      then Async.set_completion (gc fd).1 (Async.set_comp_key (gc fd).2 a)
      else a
  | None => a
  end.

(** The packet [add_async_completion] posts, if the async ends up with a
    port. *)
Definition completion_calls (gc : Z → option Z * Z) (a : Async.t)
    (cvalue status information : Z) : list call :=
  match Async.completion (cache_completion gc a) with
  | Some completion =>
      [Call_add_completion completion (Async.comp_key (cache_completion gc a))
         cvalue status information]
  | None => []
  end.

(** The test under which [async_set_result] calls
    [add_async_completion]. *)
Definition posts_completion (a : Async.t) : bool :=
  (AsyncData.apc (Async.data a) =? 0) &&
  negb (AsyncData.apc_context (Async.data a) =? 0) &&
  (Async.pending a ||
   (Z.land (Async.comp_flags a) FILE_SKIP_COMPLETION_PORT_ON_SUCCESS =? 0)).

Definition user_apc (a : Async.t) : call :=
  Call_thread_queue_apc None (Async.thread a) None
    (APC_USER (AsyncData.apc (Async.data a))
       (AsyncData.apc_context (Async.data a))
       (AsyncData.iosb (Async.data a)) 0).

(** The async the completion branch leaves. *)
Definition completed_async (gc : Z → option Z * Z) (a : Async.t) : Async.t :=
  let a1 := Async.set_terminated true (Async.set_timeout None a) in
  let a2 := if posts_completion a then cache_completion gc a1 else a1 in
  let a3 := if Async.signaled a then a2 else Async.set_signaled true a2 in
  let a4 := Async.set_completion_callback None a3 in
  if non_null (Async.queue a)
  then Async.set_queue None (Async.set_fd None a4)
  else a4.

(** Its collaborator calls, in order, by the statement that makes them. *)
Definition timeout_calls (a : Async.t) : list call :=
  match Async.timeout a with
  | Some timer => [Call_remove_timeout_user timer]
  | None => []
  end.

Definition notice_calls (gc : Z → option Z * Z) (a : Async.t)
    (status total : Z) : list call :=
  if negb (AsyncData.apc (Async.data a) =? 0) then [user_apc a]
  else if posts_completion a
       then completion_calls gc a (AsyncData.apc_context (Async.data a))
              status total
       else [].

Definition signal_calls (a : Async.t) : list call :=
  match Async.event a, Async.fd a with
  | Some event, _ => [Call_set_event event]
  | None, Some fd => [Call_set_fd_signaled fd 1]
  | None, None => []
  end.

Definition wake_calls (obj : Z) (a : Async.t) : list call :=
  if Async.signaled a then [] else [Call_wake_up obj 0].

Definition callback_calls (a : Async.t) : list call :=
  match Async.completion_callback a with
  | Some func =>
      [Call_completion_callback func (Async.completion_callback_private a)]
  | None => []
  end.

Definition detach_calls (obj : Z) (a : Async.t) : list call :=
  if non_null (Async.queue a) then [Call_release_object obj] else [].

Definition set_result_calls (gc : Z → option Z * Z) (obj : Z) (a : Async.t)
    (status total : Z) : list call :=
  timeout_calls a ++ notice_calls gc a status total ++ signal_calls a ++
  wake_calls obj a ++ callback_calls a ++ reselect_calls a ++
  detach_calls obj a.

(** The state after the completion branch, for an async whose iosb is
    [io]. *)
Definition set_result_state (gc : Z → option Z * Z) (obj : Z) (a : Async.t)
    (status total : Z) (io : option (Z * Iosb.t)) (s : server) : server :=
  set_calls (calls s ++ set_result_calls gc obj a status total)
    (set_queues
       (if non_null (Async.queue a)
        then filter (λ x, x ≠ obj) <$> queues s
        else queues s)
       (set_objects
          (<[obj := ObjAsync (completed_async gc a)]>
             match io with
             | Some (i, io) =>
                 <[i := ObjIosb (Iosb.set_status status io)]> (objects s)
             | None => objects s
             end) s)).

(** ** Kinds of collaborator calls *)

Inductive call_kind :=
| K_fd_reselect_async | K_thread_queue_apc | K_grab_object | K_release_object
| K_set_fd_signaled | K_add_completion | K_set_event | K_wake_up
| K_close_handle | K_remove_timeout_user | K_completion_callback
| K_set_reply_data_ptr | K_set_wait_status | K_fd_cancel_async | K_free.

#[global] Instance call_kind_eq_dec : EqDecision call_kind.
Proof. solve_decision. Defined.

Definition kind_of (c : call) : call_kind :=
  match c with
  | Call_fd_reselect_async _ _ => K_fd_reselect_async
  | Call_thread_queue_apc _ _ _ _ => K_thread_queue_apc
  | Call_grab_object _ => K_grab_object
  | Call_release_object _ => K_release_object
  | Call_set_fd_signaled _ _ => K_set_fd_signaled
  | Call_add_completion _ _ _ _ _ => K_add_completion
  | Call_set_event _ => K_set_event
  | Call_wake_up _ _ => K_wake_up
  | Call_close_handle _ _ => K_close_handle
  | Call_remove_timeout_user _ => K_remove_timeout_user
  | Call_completion_callback _ _ => K_completion_callback
  | Call_set_reply_data_ptr _ _ => K_set_reply_data_ptr
  | Call_set_wait_status _ _ => K_set_wait_status
  | Call_fd_cancel_async _ _ => K_fd_cancel_async
  | Call_free _ => K_free
  end.

(** The calls of one kind among [cs], in call order. *)
Definition calls_of (k : call_kind) (cs : list call) : list call :=
  filter (λ c, kind_of c = k) cs.

(** ** Views used by the properties of [free_async_queue] *)

(** An entry [free_async_queue] can process: an async whose iosb pointer
    is null or valid and which has a completion port or an fd to ask for
    one. *)
Definition freeable_entry (s : server) (p : Z) : bool :=
  match async_at s p with
  | Some a =>
      iosb_valid s a &&
      (non_null (Async.completion a) || non_null (Async.fd a))
  | None => false
  end.

(** The async [free_async_queue] leaves: the completion port of its fd is
    looked up and kept if the async had none, then it loses its fd, is
    terminated, and loses its queue pointer. *)
Definition freed_async (gc : Z → option Z * Z) (a : Async.t) : Async.t :=
  Async.set_queue None
    (Async.set_terminated true (Async.set_fd None (cache_completion gc a))).

(** ** Closed form of [async_destroy] *)

(** The objects released by the calls, in call order. *)
Definition released_objects (cs : list call) : list Z :=
  omap (λ c, match c with
             | Call_release_object obj => Some obj
             | _ => None
             end) cs.

(** The objects a reference is taken on, in call order. *)
Definition grabbed_objects (cs : list call) : list Z :=
  omap (λ c, match c with
             | Call_grab_object obj => Some obj
             | _ => None
             end) cs.

Definition release_calls (p : option Z) : list call :=
  match p with
  | Some obj => [Call_release_object obj]
  | None => []
  end.

Definition destroy_calls (a : Async.t) : list call :=
  match Async.queue a with
  | Some _ => reselect_calls a
  | None => release_calls (Async.fd a)
  end ++
  timeout_calls a ++
  release_calls (Async.completion a) ++
  release_calls (Async.event a) ++
  release_calls (Async.iosb a) ++
  [Call_release_object (thread_ptr (Async.thread a))].

Definition destroyed_state (obj : Z) (a : Async.t) (s : server) : server :=
  set_calls (calls s ++ destroy_calls a)
    (set_queues
       (if non_null (Async.queue a)
        then filter (λ x, x ≠ obj) <$> queues s
        else queues s)
       (set_process_asyncs (filter (λ x, x ≠ obj) <$> process_asyncs s) s)).

(** ** Closed forms of the creation functions *)

(** The iosb [create_iosb] builds, before the input is copied. *)
Definition new_iosb (in_size out_size : Z) : Iosb.t :=
  {| Iosb.status := STATUS_PENDING; Iosb.result := 0;
     Iosb.in_size := in_size; Iosb.in_data := None;
     Iosb.out_size := out_size; Iosb.out_data := None |}.

(** A collaborator action that returns and changes nothing of the state
    of the core; the calls it makes itself are recorded. *)
Definition collaborator_action (m : M unit) : Prop :=
  ∀ s, ∃ cs, m s = Done tt (set_calls (calls s ++ cs) s).

Definition grab_calls (p : option Z) : list call :=
  match p with
  | Some obj => [Call_grab_object obj]
  | None => []
  end.

(** The state in which [create_async] leaves the new async at [p], linked
    at the head of the list of its process; [cs] are the calls
    [reset_event] made. *)
Definition created_state (gc : Z → option Z * Z) (uninit : Z → Z) (p f : Z)
    (thr : thread) (event : option Z) (data : AsyncData.t) (iosb : option Z)
    (cs : list call) (s : server) : server :=
  set_calls
    (calls s ++ [Call_grab_object (thread_ptr thr); Call_grab_object f]
     ++ grab_calls iosb ++ cs)
    (set_process_asyncs
       (<[process thr := p :: process_list (process thr) s]> (process_asyncs s))
       (set_objects
          (<[p := ObjAsync (new_async gc uninit p f thr event data iosb)]>
             (objects s)) s)).

(** [create_async] refuses an fd with a completion port together with a
    user APC. *)
Definition port_and_apc (gc : Z → option Z * Z) (f : Z) (data : AsyncData.t)
    : bool :=
  non_null (gc f).1 && negb (AsyncData.apc data =? 0).


(** The relation between the wait handle, the direct result and the iosb:
    an async that owns a wait handle, or whose result is returned directly,
    was made by [create_request_async] and so has an iosb. *)
Definition handle_needs_iosb (p : Z) (a : Async.t) : Prop :=
  Async.direct_result a = true ∨ Async.wait_handle a ≠ 0 → Async.iosb a ≠ None.

(** [handle_needs_iosb], and the async at [p0] has the iosb [iosb]: what
    holds of the async [create_async] has just made at [p0]. *)
Definition handle_and_iosb_at (p0 : Z) (iosb : option Z) (p : Z) (a : Async.t)
    : Prop :=
  handle_needs_iosb p a ∧ (p = p0 → Async.iosb a = iosb).

(** ** Sample collaborators and states of creation *)

(** An allocator that hands out the address 40 for an async and 41 for
    any other object, and one that is out of memory. *)
Definition sample_alloc (ops : object_ops) (s : server) : option Z :=
  Some (if decide (ops = async_ops) then 40 else 41).

Definition no_memory (ops : object_ops) (s : server) : option Z := None.

Definition sample_uninitialised (async : Z) : Z := 0.

Definition sample_memdup (data : list Z) (size : Z) : option (list Z) :=
  Some (take (Z.to_nat size) data).

Definition failing_memdup (data : list Z) (size : Z) : option (list Z) := None.

(** The handle 0x30 names the event 60. *)
Definition sample_get_event_obj (proc handle : Z) : Z + Z :=
  if handle =? 0x30 then inl 60 else inr 0xC0000008.

(** An event layer whose reset makes no call of its own. *)
Definition sample_reset_event (event : Z) : M unit := mret tt.

Definition sample_add_timeout_user (timeout async : Z) : option Z :=
  Some (async + 1000).

Definition sample_alloc_handle (proc obj : Z) : Z := 0x44.

Definition sample_lifetime_queries : lifetime_queries :=
  {| q_alloc_object := sample_alloc;
     q_uninitialised := sample_uninitialised;
     q_memdup := sample_memdup;
     q_get_event_obj := sample_get_event_obj;
     q_reset_event := sample_reset_event;
     q_add_timeout_user := sample_add_timeout_user;
     q_alloc_handle := sample_alloc_handle;
     q_get_req_data := [1; 2; 3];
     q_get_req_data_size := 3 |}.

(** A request with a user APC, an event handle that names nothing, and an
    fd layer in which every fd has the completion port 90. *)
Definition apc_data : AsyncData.t :=
  {| AsyncData.event := 0; AsyncData.iosb := 0x7000; AsyncData.user := 0x5000;
     AsyncData.apc := 0x6000; AsyncData.apc_context := 1 |}.

Definition bad_event_data : AsyncData.t :=
  {| AsyncData.event := 0x31; AsyncData.iosb := 0x7000;
     AsyncData.user := 0x5000; AsyncData.apc := 0; AsyncData.apc_context := 0 |}.

Definition port_completion (fd : Z) : option Z * Z := (Some 90, 5).

(** The request async terminated, its iosb holding the result. *)
Definition completed_request_server : server :=
  {| objects := {[ 10 := ObjAsync (Async.set_terminated true request_async);
                   20 := ObjIosb completed_iosb ]};
     queues := ∅;
     process_asyncs := {[ 200 := [10] ]};
     current := sample_thread;
     error := 0;
     reply_max_size := 16;
     reply_size := 0;
     calls := [] |}.

(** The queued sample async alerted by the fd layer. *)
Definition alerted_queued_server : server :=
  final_state (async_wake_up 50 STATUS_ALERTED) queued_server.

(** The life of a request async made on the empty server: created, queued,
    terminated by the fd layer and completed. *)
Definition request_life : list lifetime_operation :=
  [Op_create_request_async (Some 30) 0 sample_data;
   Op_core (Op_queue_async 50 40);
   Op_core (Op_async_terminate 40 0);
   Op_core (Op_async_set_result 40 0 3)].

(** A terminated async with every sink: an event, a user APC, a timer and
    a completion callback. *)
Definition eventful_async : Async.t :=
  {| Async.thread := sample_thread; Async.queue := None; Async.fd := Some 30;
     Async.timeout := Some 70; Async.timeout_status := 0;
     Async.event := Some 60; Async.data := apc_data; Async.iosb := Some 20;
     Async.wait_handle := 0; Async.signaled := false; Async.pending := true;
     Async.direct_result := false; Async.alerted := false;
     Async.terminated := true; Async.unknown_status := false;
     Async.completion := None; Async.comp_key := 0; Async.comp_flags := 0;
     Async.completion_callback := Some 0x9000;
     Async.completion_callback_private := 7 |}.

Definition eventful_server : server :=
  {| objects := {[ 10 := ObjAsync eventful_async;
                   20 := ObjIosb completed_iosb ]};
     queues := ∅;
     process_asyncs := {[ 200 := [10] ]};
     current := sample_thread;
     error := 0;
     reply_max_size := 16;
     reply_size := 0;
     calls := [] |}.

(** A terminated request async that reports to a completion port: no user
    APC, the completion value 0x77. *)
Definition port_data : AsyncData.t :=
  {| AsyncData.event := 0; AsyncData.iosb := 0x7000; AsyncData.user := 0x5000;
     AsyncData.apc := 0; AsyncData.apc_context := 0x77 |}.

Definition port_request_async : Async.t :=
  {| Async.thread := sample_thread; Async.queue := None; Async.fd := Some 30;
     Async.timeout := None; Async.timeout_status := 0; Async.event := None;
     Async.data := port_data; Async.iosb := Some 20;
     Async.wait_handle := 0x44; Async.signaled := false;
     Async.pending := false; Async.direct_result := true;
     Async.alerted := false; Async.terminated := true;
     Async.unknown_status := false; Async.completion := None;
     Async.comp_key := 0; Async.comp_flags := 0;
     Async.completion_callback := None;
     Async.completion_callback_private := 0 |}.

Definition port_request_server : server :=
  {| objects := {[ 10 := ObjAsync port_request_async;
                   20 := ObjIosb completed_iosb ]};
     queues := ∅;
     process_asyncs := {[ 200 := [10] ]};
     current := sample_thread;
     error := 0;
     reply_max_size := 16;
     reply_size := 0;
     calls := [] |}.
(** * Properties *)

(** ** Running the monad *)

Lemma bind_run {A B} (m : M A) (f : A → M B) s :
  (m ≫= f) s = match m s with Done a s' => f a s' | Crash e => Crash e end.
Proof. reflexivity. Qed.

Lemma get_object_run s p o :
  objects s !! p = Some o → get_object p s = Done o s.
Proof. intros H. unfold get_object. by rewrite H. Qed.

Lemma get_async_run s p a :
  objects s !! p = Some (ObjAsync a) → get_async p s = Done a s.
Proof. intros H. unfold get_async. by rewrite H. Qed.

Lemma get_iosb_run s p i :
  objects s !! p = Some (ObjIosb i) → get_iosb p s = Done i s.
Proof. intros H. unfold get_iosb. by rewrite H. Qed.

Lemma upd_async_run s p a f :
  objects s !! p = Some (ObjAsync a) →
  upd_async p f s = Done tt (set_objects (<[p := ObjAsync (f a)]> (objects s)) s).
Proof. intros H. unfold upd_async. rewrite bind_run, (get_async_run _ _ _ H). done. Qed.

Lemma upd_iosb_run s p i f :
  objects s !! p = Some (ObjIosb i) →
  upd_iosb p f s = Done tt (set_objects (<[p := ObjIosb (f i)]> (objects s)) s).
Proof. intros H. unfold upd_iosb. rewrite bind_run, (get_iosb_run _ _ _ H). done. Qed.

Lemma async_iosb_distinct (m : gmap Z object) p a i io :
  m !! p = Some (ObjAsync a) → m !! i = Some (ObjIosb io) → p ≠ i.
Proof. intros Hp Hi ->. congruence. Qed.

Lemma reselect_run s async a :
  objects s !! async = Some (ObjAsync a) →
  async_reselect async s = Done tt (set_calls (calls s ++ reselect_calls a) s).
Proof.
  intros H. unfold async_reselect, reselect_calls.
  rewrite bind_run, (get_async_run _ _ _ H).
  destruct s, (Async.queue a), (Async.fd a); simpl; try done.
  all: unfold mret, M_ret; by rewrite app_nil_r.
Qed.

Ltac sim :=
  unfold set_calls, set_objects, set_queues, set_server_error, set_reply_size;
  cbn [objects queues process_asyncs current error reply_max_size reply_size
       calls
       Async.thread Async.queue Async.fd Async.timeout Async.timeout_status
       Async.event Async.data Async.iosb Async.wait_handle Async.signaled
       Async.pending Async.direct_result Async.alerted Async.terminated
       Async.unknown_status Async.completion Async.comp_key Async.comp_flags
       Async.completion_callback Async.completion_callback_private
       Async.set_queue Async.set_fd Async.set_timeout Async.set_wait_handle
       Async.set_signaled Async.set_pending Async.set_direct_result
       Async.set_alerted Async.set_terminated Async.set_unknown_status
       Async.set_completion Async.set_comp_key Async.set_completion_callback
       Async.set_completion_callback_private
       Iosb.status Iosb.result Iosb.in_size Iosb.in_data Iosb.out_size
       Iosb.out_data Iosb.set_status Iosb.set_result Iosb.set_out_size
       Iosb.set_out_data
       set_calls set_objects set_queues set_server_error set_reply_size
       fst snd negb andb orb is_null non_null obj_ops].

Ltac heap :=
  sim;
  repeat first [ rewrite lookup_insert_eq | rewrite lookup_insert_ne by congruence ];
  first [ reflexivity | eassumption ].

Ltac run1 :=
  first
    [ rewrite bind_run
    | erewrite get_async_run by heap
    | erewrite get_iosb_run by heap
    | erewrite upd_async_run by heap
    | erewrite upd_iosb_run by heap
    | erewrite reselect_run by heap
    | progress
        (unfold when, emit, modify, gets, grab_object, release_object,
           thread_queue_apc, fd_reselect_async, set_fd_signaled, add_completion,
           set_event, wake_up, close_handle, remove_timeout_user,
           set_reply_data_ptr, set_wait_status, get_error, set_error,
           deref, crash, assert, mret, M_ret)
    | match goal with
      | H : ?b = true |- context [ ?b ] => rewrite H
      | H : ?b = false |- context [ ?b ] => rewrite H
      | H : ?b = Some _ |- context [ match ?b with _ => _ end ] => rewrite H
      | H : ?b = None |- context [ match ?b with _ => _ end ] => rewrite H
      end
    | progress sim ].
Ltac run := repeat run1.

Ltac map_solve :=
  apply map_eq; intros ?k;
  repeat (rewrite lookup_insert; case_decide; subst);
  first [ done | congruence ].

Ltac same_state :=
  sim; apply (f_equal (Done _)); f_equal;
  first [ done | map_solve | by rewrite <- ?app_assoc ].

Lemma async_terminate_done s async a status :
  objects s !! async = Some (ObjAsync a) →
  Async.terminated a = true →
  async_terminate async status s = Done tt s.
Proof.
  intros H Ht. unfold async_terminate.
  rewrite bind_run, (get_async_run _ _ _ H), Ht. done.
Qed.

Lemma async_terminate_live s async a status io :
  objects s !! async = Some (ObjAsync a) →
  Async.terminated a = false →
  iosb_of s a = Some io →
  async_terminate async status s = Done tt (terminated_state async a status io s).
Proof.
  intros H Ht Hio. unfold async_terminate, iosb_of in *.
  rewrite bind_run, (get_async_run _ _ _ H), Ht.
  destruct s as [objs qs ps cur err rms rs cs]; simpl in *.
  destruct (Async.iosb a) as [i|] eqn:Hi.
  - destruct (objs !! i) as [[| io0 |]|] eqn:Hobj; try done.
    injection Hio as <-.
    assert (Hne : async ≠ i) by eauto using async_iosb_distinct.
    unfold terminated_state, terminate_calls, terminated_async, terminated_iosb, apc_status.
    destruct (Iosb.status io0 =? STATUS_PENDING) eqn:Hst,
      (status =? STATUS_ALERTED) eqn:Hal,
      (Async.direct_result a) eqn:Hdr; run; unfold reselect_calls; simpl.
    all: try same_state.
  - injection Hio as <-.
    unfold terminated_state, terminate_calls, terminated_async, terminated_iosb, apc_status.
    destruct (status =? STATUS_ALERTED) eqn:Hal,
      (Async.direct_result a) eqn:Hdr; run; unfold reselect_calls; simpl.
    all: try same_state.
Qed.

Lemma terminated_async_terminated status a :
  Async.terminated (terminated_async status a) = true.
Proof. unfold terminated_async. by destruct (status =? STATUS_ALERTED). Qed.

Lemma terminated_state_lookup async a status io s :
  objects (terminated_state async a status io s) !! async
  = Some (ObjAsync (terminated_async status a)).
Proof. unfold terminated_state. simpl. apply lookup_insert_eq. Qed.

(** Whatever state it starts from, a completed [async_terminate] leaves
    the async terminated. *)
Lemma async_terminate_terminates s async a io status :
  objects s !! async = Some (ObjAsync a) →
  iosb_of s a = Some io →
  ∃ s1 a1, async_terminate async status s = Done tt s1 ∧
           objects s1 !! async = Some (ObjAsync a1) ∧
           Async.terminated a1 = true.
Proof.
  intros H Hio. destruct (Async.terminated a) eqn:Ht.
  - exists s, a. eauto using async_terminate_done.
  - eexists _, _. split; [by apply async_terminate_live|].
    split; [apply terminated_state_lookup | apply terminated_async_terminated].
Qed.

(** C3: [async_terminate] is idempotent.  For every async (with a valid
    iosb pointer, or none) and statuses [status], [status'], the first
    call completes in a state [s1], and a second call from [s1] completes
    in [s1] itself: flags, iosb, queues and the recorded collaborator calls
    (so no further APC) are exactly those left by the first call. *)
Theorem async_terminate_idempotent s async a io status status' :
  objects s !! async = Some (ObjAsync a) →
  iosb_of s a = Some io →
  ∃ s1, async_terminate async status s = Done tt s1 ∧
        async_terminate async status' s1 = Done tt s1 ∧
        (async_terminate async status;; async_terminate async status') s
        = Done tt s1.
Proof.
  intros H Hio.
  destruct (async_terminate_terminates s async a io status H Hio)
    as (s1 & a1 & Hrun & Ha1 & Ht1).
  exists s1. split; [done|].
  assert (Hsnd : async_terminate async status' s1 = Done tt s1)
    by eauto using async_terminate_done.
  split; [done|]. by rewrite bind_run, Hrun.
Qed.

Lemma async_terminate_idempotent_witness :
  ∃ s1, async_terminate 10 STATUS_CANCELLED sample_server = Done tt s1 ∧
        async_terminate 10 STATUS_ALERTED s1 = Done tt s1 ∧
        (async_terminate 10 STATUS_CANCELLED;; async_terminate 10 STATUS_ALERTED)
          sample_server = Done tt s1.
Proof.
  apply (async_terminate_idempotent sample_server 10 sample_async
           (Some (20, sample_iosb))); reflexivity.
Defined.

(** C4: for a non-terminated async, [async_terminate async status] with
    [direct_result == 0] queues exactly one APC, an [APC_ASYNC_IO] sent to
    the owning thread (and its process, on behalf of the async) carrying
    the client's user and iosb pointers; its status is ALERTED when the
    async has an iosb with a non-zero result or a non-null [out_data], and
    [status] otherwise.  With [direct_result == 1] it queues none. *)
Theorem async_terminate_apc s async a io status :
  objects s !! async = Some (ObjAsync a) →
  Async.terminated a = false →
  iosb_of s a = Some io →
  ∃ s1 new,
    async_terminate async status s = Done tt s1 ∧
    calls s1 = calls s ++ new ∧
    filter is_apc new =
      if Async.direct_result a then []
      else [Call_thread_queue_apc
              (Some (process (Async.thread a))) (Async.thread a) (Some async)
              (APC_ASYNC_IO (AsyncData.user (Async.data a))
                 (AsyncData.iosb (Async.data a))
                 match io with
                 | Some (_, io) =>
                     if negb (Iosb.result io =? 0) || non_null (Iosb.out_data io)
                     then STATUS_ALERTED else status
                 | None => status
                 end)].
Proof.
  intros H Ht Hio.
  exists (terminated_state async a status io s),
         (terminate_calls async a status (snd <$> io)).
  split; [by apply async_terminate_live|]. split; [done|].
  unfold terminate_calls, reselect_calls, async_io_apc, apc_status.
  destruct (Async.direct_result a), (Async.queue a), (Async.fd a),
    io as [[i io]|]; reflexivity.
Qed.

Lemma async_terminate_apc_witness :
  ∃ s1 new,
    async_terminate 10 STATUS_CANCELLED sample_server = Done tt s1 ∧
    calls s1 = calls sample_server ++ new ∧
    filter is_apc new =
      [Call_thread_queue_apc (Some 200) sample_thread (Some 10)
         (APC_ASYNC_IO 0x5000 0x7000 STATUS_CANCELLED)].
Proof.
  apply (async_terminate_apc sample_server 10 sample_async
           (Some (20, sample_iosb)) STATUS_CANCELLED); reflexivity.
Defined.

(** C10: [async_set_result] is safe on any object.  Called on an object
    whose operations table is not [async_ops] it returns at once and the
    server state is unchanged; the body, whose first step is the assertion
    that the async is terminated, runs only for an async (for one that is
    not terminated the assertion fails). *)
Theorem async_set_result_checks_ops fd_get_completion s obj o status total :
  objects s !! obj = Some o →
  (obj_ops o ≠ async_ops →
   async_set_result fd_get_completion obj status total s = Done tt s) ∧
  (∀ a, o = ObjAsync a → Async.terminated a = false →
   async_set_result fd_get_completion obj status total s
   = Crash AssertionFailed).
Proof.
  intros H. split.
  - intros Hops. unfold async_set_result.
    rewrite bind_run, (get_object_run _ _ _ H).
    by rewrite bool_decide_eq_true_2.
  - intros a -> Ht. unfold async_set_result.
    rewrite bind_run, (get_object_run _ _ _ H). simpl.
    rewrite bind_run, (get_async_run _ _ _ H), bind_run, Ht. done.
Qed.

Lemma async_set_result_checks_ops_witness :
  async_set_result (λ _, (None, 0)) 20 STATUS_PENDING 0 sample_server
  = Done tt sample_server.
Proof.
  apply (async_set_result_checks_ops (λ _, (None, 0)) sample_server 20
           (ObjIosb sample_iosb) STATUS_PENDING 0); [reflexivity | discriminate].
Defined.

Lemma restart_branch_run fd_get_completion s obj a total :
  objects s !! obj = Some (ObjAsync a) →
  Async.terminated a = true →
  Async.alerted a = true →
  async_set_result fd_get_completion obj STATUS_PENDING total s
  = Done tt
      (set_calls (calls s ++ reselect_calls a)
         (set_objects
            (<[obj := ObjAsync (Async.set_alerted false
                                  (Async.set_terminated false a))]> (objects s))
            s)).
Proof.
  intros H Ht Hal. unfold async_set_result.
  rewrite bind_run, (get_object_run _ _ _ H). simpl.
  rewrite bind_run, (get_async_run _ _ _ H), bind_run, Ht, Hal. simpl.
  destruct s as [objs qs ps cur err rms rs cs]; simpl in *.
  run. unfold reselect_calls. simpl. same_state.
Qed.

Lemma restart_restores_async a :
  Async.terminated a = false →
  Async.alerted a = false →
  Async.set_alerted false
    (Async.set_terminated false (terminated_async STATUS_ALERTED a)) = a.
Proof. destruct a. simpl. by intros -> ->. Qed.

(** C2, as stated, fails: the sample async starts not terminated with a
    PENDING iosb; [async_terminate (ALERTED)] followed by the restart of
    [async_set_result (PENDING)] leaves it not terminated, not alerted,
    with the iosb status still ALERTED. *)
Lemma restart_keeps_iosb_status_counterexample :
  status_agrees_with_flags sample_async sample_iosb = true ∧
  ∃ s1 s2 a io,
    async_terminate 10 STATUS_ALERTED sample_server = Done tt s1 ∧
    async_set_result (λ _, (None, 0)) 10 STATUS_PENDING 0 s1 = Done tt s2 ∧
    objects s2 !! 10 = Some (ObjAsync a) ∧
    Async.iosb a = Some 20 ∧
    objects s2 !! 20 = Some (ObjIosb io) ∧
    Async.terminated a = false ∧
    Async.alerted a = false ∧
    Iosb.status io = STATUS_ALERTED ∧
    status_agrees_with_flags a io = false.
Proof.
  split; [reflexivity|].
  exists alerted_server, restarted_server, sample_async,
    (Iosb.set_status STATUS_ALERTED sample_iosb).
  repeat split; reflexivity.
Qed.

(** C2, amended: take an async that is not terminated and not alerted and
    whose iosb is PENDING.  (a) [async_terminate] with a status other than
    PENDING sets [terminated] and stores the status in the iosb, and sets
    [alerted] exactly when the status is ALERTED.  (b) After
    [async_terminate (ALERTED)], the restart of [async_set_result
    (PENDING)] clears [terminated] and [alerted] and does not touch the
    iosb: the async is not terminated and its iosb status is ALERTED. *)
Theorem iosb_status_through_alert_and_restart fd_get_completion s async a i io :
  objects s !! async = Some (ObjAsync a) →
  Async.iosb a = Some i →
  objects s !! i = Some (ObjIosb io) →
  Async.terminated a = false →
  Async.alerted a = false →
  Iosb.status io = STATUS_PENDING →
  (∀ status, status ≠ STATUS_PENDING →
   ∃ s1 a1 io1,
     async_terminate async status s = Done tt s1 ∧
     objects s1 !! async = Some (ObjAsync a1) ∧
     objects s1 !! i = Some (ObjIosb io1) ∧
     Async.terminated a1 = true ∧
     Async.alerted a1 = (status =? STATUS_ALERTED) ∧
     Iosb.status io1 = status) ∧
  (∀ total,
   ∃ s1 s2 a2 io2,
     async_terminate async STATUS_ALERTED s = Done tt s1 ∧
     async_set_result fd_get_completion async STATUS_PENDING total s1
     = Done tt s2 ∧
     objects s2 !! async = Some (ObjAsync a2) ∧
     objects s2 !! i = Some (ObjIosb io2) ∧
     Async.terminated a2 = false ∧
     Async.alerted a2 = false ∧
     Iosb.status io2 = STATUS_ALERTED).
Proof.
  intros H Hi Hio Ht Hal Hst.
  assert (Hne : async ≠ i) by eauto using async_iosb_distinct.
  assert (Hof : iosb_of s a = Some (Some (i, io)))
    by (unfold iosb_of; by rewrite Hi, Hio).
  split.
  - intros status Hs. eexists _, _, _.
    split; [by apply async_terminate_live|].
    split; [apply terminated_state_lookup|].
    split; [simpl; by rewrite lookup_insert_ne, lookup_insert_eq|].
    split; [apply terminated_async_terminated|].
    unfold terminated_async, terminated_iosb. rewrite Hst. simpl.
    split; [|done]. by destruct (status =? STATUS_ALERTED).
  - intros total. eexists _, _, _, _.
    split; [by apply async_terminate_live|].
    split.
    { apply restart_branch_run;
        [apply terminated_state_lookup | apply terminated_async_terminated | done]. }
    split; [simpl; by rewrite lookup_insert_eq|].
    split; [simpl; by rewrite !(lookup_insert_ne _ async), lookup_insert_eq|].
    unfold terminated_iosb. rewrite Hst. done.
Qed.

Lemma iosb_status_through_alert_and_restart_witness :
  ∃ s1 s2 a2 io2,
    async_terminate 10 STATUS_ALERTED sample_server = Done tt s1 ∧
    async_set_result (λ _, (None, 0)) 10 STATUS_PENDING 0 s1 = Done tt s2 ∧
    objects s2 !! 10 = Some (ObjAsync a2) ∧
    objects s2 !! 20 = Some (ObjIosb io2) ∧
    Async.terminated a2 = false ∧
    Async.alerted a2 = false ∧
    Iosb.status io2 = STATUS_ALERTED.
Proof.
  apply (proj2 (iosb_status_through_alert_and_restart (λ _, (None, 0))
                  sample_server 10 sample_async 20 sample_iosb
                  ltac:(reflexivity) ltac:(reflexivity) ltac:(reflexivity)
                  ltac:(reflexivity) ltac:(reflexivity) ltac:(reflexivity))).
Defined.

Lemma bind_ret_run (m : M unit) s : (m;; mret tt) s = m s.
Proof. rewrite bind_run. by destruct (m s) as [[] ?|]. Qed.

Lemma wake_up_loop_all entries status :
  (status =? STATUS_ALERTED) = false →
  ∀ s, async_wake_up_loop entries status s = terminate_each entries status s.
Proof.
  intros Hs. induction entries as [|async next IH]; intros s; [done|].
  simpl. unfold terminate_each. simpl. rewrite !bind_run.
  destruct (async_terminate async status s); [|done].
  rewrite Hs. apply IH.
Qed.

(** C7: [async_wake_up queue status] is the head-first sequence of the
    calls [async_terminate async status] for the asyncs on the queue: all
    of them, in queue order, when the status is not ALERTED, and only the
    first one when it is.  The two sides agree on every state, faults
    included. *)
Theorem async_wake_up_fifo queue status s :
  async_wake_up queue status s
  = terminate_each (wake_up_targets (queue_list queue s) status) status s.
Proof.
  unfold async_wake_up, wake_up_targets. rewrite bind_run. unfold gets.
  destruct (status =? STATUS_ALERTED) eqn:Hs.
  - destruct (queue_list queue s) as [|async next]; [done|].
    simpl. unfold terminate_each. simpl. by rewrite Hs.
  - by apply wake_up_loop_all.
Qed.

(** On the queue [10; 12]: a CANCELLED wake-up notifies 10 then 12, an
    ALERTED one notifies 10 only and leaves 12 untouched. *)
Example async_wake_up_cancelled_example :
  queue_list 50 two_queued_server = [10; 12] ∧
  apc_owners (calls (final_state (async_wake_up 50 STATUS_CANCELLED)
                       two_queued_server))
  = [10; 12].
Proof. split; vm_compute; reflexivity. Qed.

Example async_wake_up_alerted_example :
  apc_owners (calls (final_state (async_wake_up 50 STATUS_ALERTED)
                       two_queued_server))
  = [10] ∧
  async_at (final_state (async_wake_up 50 STATUS_ALERTED) two_queued_server) 12
  = async_at two_queued_server 12.
Proof. split; vm_compute; reflexivity. Qed.

(** C6: [async_handoff] applies its rules in order.  (1) With
    [unknown_status] set it only sets the last error to PENDING and returns
    the wait handle.  (2) Otherwise, with [pending == 0] and a last error
    that is an NT error, it closes the wait handle, zeroes [wait_handle] and
    returns 0, and changes nothing else.  (3) Otherwise (the async has an
    iosb) it runs to the end, returns the async's [wait_handle], and the
    last error it leaves is the status of the iosb. *)
Theorem async_handoff_rules NT_ERROR is_fd_overlapped s async a result force_blocking :
  objects s !! async = Some (ObjAsync a) →
  (Async.unknown_status a = true →
   async_handoff is_fd_overlapped NT_ERROR async result force_blocking s
   = Done (Async.wait_handle a, None) (set_server_error STATUS_PENDING s)) ∧
  (Async.unknown_status a = false →
   Async.pending a = false → NT_ERROR (error s) = true →
   async_handoff is_fd_overlapped NT_ERROR async result force_blocking s
   = Done (0, None)
       (set_calls
          (calls s ++
           [Call_close_handle (process (Async.thread a)) (Async.wait_handle a)])
          (set_objects
             (<[async := ObjAsync (Async.set_wait_handle 0 a)]> (objects s)) s))) ∧
  (Async.unknown_status a = false →
   negb (Async.pending a) && NT_ERROR (error s) = false →
   ∀ i io, Async.iosb a = Some i → objects s !! i = Some (ObjIosb io) →
   ∃ handle stored s1 a1 io1,
     async_handoff is_fd_overlapped NT_ERROR async result force_blocking s
     = Done (handle, stored) s1 ∧
     objects s1 !! async = Some (ObjAsync a1) ∧
     handle = Async.wait_handle a1 ∧
     objects s1 !! i = Some (ObjIosb io1) ∧
     error s1 = Iosb.status io1).
Proof.
  intros H. split; [|split].
  - intros Hu. unfold async_handoff.
    rewrite bind_run, (get_async_run _ _ _ H), Hu. done.
  - intros Hu Hp Hnt. unfold async_handoff.
    rewrite bind_run, (get_async_run _ _ _ H), Hu.
    rewrite bind_run. unfold get_error, gets. rewrite Hp, Hnt. simpl.
    rewrite bind_run. unfold close_handle, emit, modify.
    rewrite bind_run.
    erewrite upd_async_run by (simpl; done). done.
  - intros Hu Hcond i io Hi Hio. unfold async_handoff.
    assert (Hne : async ≠ i) by eauto using async_iosb_distinct.
    assert (Hof : iosb_of s a = Some (Some (i, io)))
      by (unfold iosb_of; by rewrite Hi, Hio).
    rewrite bind_run, (get_async_run _ _ _ H), Hu.
    rewrite bind_run. unfold get_error at 1, gets at 1. rewrite Hcond.
    rewrite bind_run. unfold get_error at 1, gets at 1.
    rewrite Hi.
    destruct (error s =? STATUS_PENDING) eqn:Herr.
    + destruct s as [objs qs ps cur err rms rs cs]; simpl in *.
      destruct (Iosb.status io =? STATUS_PENDING) eqn:Hst.
      * destruct (negb force_blocking &&
               match Async.fd a with
               | Some fd => is_fd_overlapped fd
               | None => false
               end) eqn:Hfb; run.
        all: eexists _, _, _, _, _; (split; [reflexivity|]);
          (split; [heap|]); (split; [reflexivity|]); (split; [heap|reflexivity]).
      * destruct (Iosb.out_data io) eqn:Hout; run.
        all: eexists _, _, _, _, _; (split; [reflexivity|]);
          (split; [heap|]); (split; [reflexivity|]); (split; [heap|reflexivity]).
    + simpl. rewrite bind_run. unfold get_error at 1, gets at 1.
      rewrite bind_run.
      destruct (Async.terminated a) eqn:Ht.
      * rewrite (async_terminate_done _ _ _ _ H Ht).
        destruct s as [objs qs ps cur err rms rs cs]; simpl in *.
        destruct (Iosb.status io =? STATUS_PENDING) eqn:Hst;
          [destruct (negb force_blocking &&
               match Async.fd a with
               | Some fd => is_fd_overlapped fd
               | None => false
               end) eqn:Hfb|]; run.
        all: eexists _, _, _, _, _; (split; [reflexivity|]);
          (split; [heap|]); (split; [reflexivity|]); (split; [heap|reflexivity]).
      * rewrite (async_terminate_live _ _ _ _ _ H Ht Hof).
        unfold terminated_state, terminated_iosb, terminated_async.
        destruct s as [objs qs ps cur err rms rs cs]; simpl in *.
        destruct (Iosb.status io =? STATUS_PENDING) eqn:Hst,
          (err =? STATUS_ALERTED) eqn:Hal; run.
        all: eexists _, _, _, _, _; (split; [reflexivity|]);
          (split; [heap|]); (split; [reflexivity|]); (split; [heap|reflexivity]).
Qed.

Lemma async_handoff_rules_witness :
  async_handoff (λ _, true) NT_ERROR_winternl 10 true false unknown_server
  = Done (0x44, None) (set_server_error STATUS_PENDING unknown_server) ∧
  async_handoff (λ _, true) NT_ERROR_winternl 10 true false
    (request_server STATUS_INVALID_PARAMETER)
  = Done (0, None)
      (set_calls [Call_close_handle 200 0x44]
         (set_objects
            (<[10 := ObjAsync (Async.set_wait_handle 0 request_async)]>
               (objects (request_server STATUS_INVALID_PARAMETER)))
            (request_server STATUS_INVALID_PARAMETER))) ∧
  ∃ handle stored s1 a1 io1,
    async_handoff (λ _, true) NT_ERROR_winternl 10 true false
      (request_server STATUS_PENDING)
    = Done (handle, stored) s1 ∧
    objects s1 !! 10 = Some (ObjAsync a1) ∧
    handle = Async.wait_handle a1 ∧
    objects s1 !! 20 = Some (ObjIosb io1) ∧
    error s1 = Iosb.status io1.
Proof.
  split; [|split].
  - apply (async_handoff_rules NT_ERROR_winternl (λ _, true) unknown_server 10
             unknown_async true false ltac:(reflexivity)). reflexivity.
  - apply (async_handoff_rules NT_ERROR_winternl (λ _, true)
             (request_server STATUS_INVALID_PARAMETER) 10
             request_async true false ltac:(reflexivity)); reflexivity.
  - apply (async_handoff_rules NT_ERROR_winternl (λ _, true)
             (request_server STATUS_PENDING) 10
             request_async true false ltac:(reflexivity)) with (io := sample_iosb);
      reflexivity.
Defined.

Lemma get_async_result_scan_run s entries user_arg :
  all_asyncs s entries = true →
  get_async_result_scan entries user_arg s
  = Done (a ← first_async_with_user s entries user_arg; Async.iosb a) s.
Proof.
  induction entries as [|p next IH]; [done|].
  simpl. unfold is_async_at. intros Hall.
  destruct (objects s !! p) as [[a| |]|] eqn:Hp; try done.
  rewrite bind_run, (get_async_run _ _ _ Hp).
  destruct (AsyncData.user (Async.data a) =? user_arg); [done|].
  by apply IH.
Qed.

(** C9, as stated, fails: the only async of the process has the user
    pointer asked for but no iosb; the handler reports INVALID_PARAMETER,
    where the specification reports the status of "the iosb". *)
Lemma get_async_result_no_iosb_counterexample :
  first_async_with_user plain_server [10] 0x5000 = Some plain_async ∧
  req_get_async_result 0x5000 plain_server
  = Done tt (set_server_error STATUS_INVALID_PARAMETER plain_server) ∧
  ¬ get_async_result_as_specified plain_server 0x5000
      (req_get_async_result 0x5000 plain_server).
Proof.
  split; [reflexivity|]. split; [reflexivity|].
  unfold get_async_result_as_specified.
  change (first_async_with_user _ _ _) with (Some plain_async).
  intros (i & io & s' & Hi & _). discriminate Hi.
Qed.

(** C9, amended: [get_async_result] takes the first async of the calling
    process whose [data.user] is [user_arg].  When there is none, or when
    that async has no iosb, it sets the last error to INVALID_PARAMETER and
    changes nothing else.  Otherwise it sets [reply.size] to the iosb's
    result and the last error to the iosb's status; and when [out_data] is
    not null and [min (out_size, reply_max_size)] is not zero it hands
    [out_data] with that size (at most [reply_max_size]) to the reply and
    nulls [out_data] on the iosb, while a null [out_data] or a zero size
    leaves the iosb as it is and attaches no data. *)
Theorem get_async_result_behaviour s user_arg :
  all_asyncs s (process_list (process (current s)) s) = true →
  match first_async_with_user s (process_list (process (current s)) s) user_arg with
  | None =>
      req_get_async_result user_arg s
      = Done tt (set_server_error STATUS_INVALID_PARAMETER s)
  | Some a =>
      match Async.iosb a with
      | None =>
          req_get_async_result user_arg s
          = Done tt (set_server_error STATUS_INVALID_PARAMETER s)
      | Some i =>
          ∀ io, objects s !! i = Some (ObjIosb io) →
          req_get_async_result user_arg s = Done tt (async_result_reply i io s) ∧
          Z.min (Iosb.out_size io) (reply_max_size s) ≤ reply_max_size s
      end
  end.
Proof.
  intros Hall.
  assert (Hrun : ∀ k : option Z → M unit,
    (cur ← gets current;
     entries ← gets (process_list (process cur));
     iosb ← get_async_result_scan entries user_arg;
     k iosb) s
    = k (a ← first_async_with_user s (process_list (process (current s)) s)
           user_arg; Async.iosb a) s).
  { intros k. rewrite bind_run. unfold gets at 1. cbn beta iota.
    rewrite bind_run. unfold gets at 1. cbn beta iota.
    by rewrite bind_run, (get_async_result_scan_run _ _ _ Hall). }
  unfold req_get_async_result. rewrite Hrun. clear Hrun.
  destruct (first_async_with_user _ _ _) as [a|]; [|done]. simpl.
  destruct (Async.iosb a) as [i|]; [|done].
  intros io Hio. split; [|apply Z.le_min_r].
  unfold async_result_reply.
  destruct s as [objs qs ps cur err rms rs cs]; simpl in *.
  destruct (Iosb.out_data io) as [out|] eqn:Hout;
    [destruct (Z.min (Iosb.out_size io) rms =? 0) eqn:Hsz|]; run; done.
Qed.

Lemma get_async_result_behaviour_witness :
  req_get_async_result 0x5000 (completed_server 3)
  = Done tt (async_result_reply 20 completed_iosb (completed_server 3)) ∧
  Z.min 4 3 ≤ 3.
Proof.
  apply (get_async_result_behaviour (completed_server 3) 0x5000
           ltac:(reflexivity) completed_iosb). reflexivity.
Defined.

Lemma async_at_Some s p a :
  async_at s p = Some a ↔ objects s !! p = Some (ObjAsync a).
Proof.
  unfold async_at. destruct (objects s !! p) as [[| |]|]; naive_solver.
Qed.

Lemma iosb_valid_of s a :
  iosb_valid s a = true → ∃ io, iosb_of s a = Some io.
Proof.
  unfold iosb_valid, iosb_of, is_iosb_at.
  destruct (Async.iosb a) as [i|]; [|eauto].
  destruct (objects s !! i) as [[| io |]|]; try done. eauto.
Qed.

Lemma cancel_entry_run s p a fd io :
  objects s !! p = Some (ObjAsync a) →
  Async.terminated a = false →
  Async.fd a = Some fd →
  iosb_of s a = Some io →
  cancel_entry p s
  = Done tt (terminated_state p a STATUS_CANCELLED io
               (set_calls (calls s ++ [Call_fd_cancel_async fd p]) s)).
Proof.
  intros H Ht Hfd Hio. unfold cancel_entry, fd_cancel_async.
  rewrite bind_run, (get_async_run _ _ _ H), Hfd. simpl.
  rewrite !bind_run. unfold emit, modify.
  by apply async_terminate_live.
Qed.

(** What an effective [async_terminate] changes in the heap: the async
    itself, and the contents (not the kind) of its iosb. *)
Lemma terminated_state_async_at s0 p a status io :
  async_at (terminated_state p a status io s0) p
  = Some (terminated_async status a).
Proof. apply async_at_Some, terminated_state_lookup. Qed.

Lemma terminated_state_async_at_ne s0 p a status io q :
  iosb_of s0 a = Some io →
  q ≠ p →
  async_at (terminated_state p a status io s0) q = async_at s0 q.
Proof.
  intros Hio Hne. unfold async_at, terminated_state. simpl.
  rewrite lookup_insert_ne by done.
  destruct io as [[i io']|]; [|done].
  destruct (decide (q = i)) as [->|Hqi].
  - rewrite lookup_insert_eq.
    unfold iosb_of in Hio. destruct (Async.iosb a) as [j|]; [|done].
    destruct (objects s0 !! j) as [[| io1 |]|] eqn:Hj; try done.
    injection Hio as -> ->. by rewrite Hj.
  - by rewrite lookup_insert_ne.
Qed.

Lemma terminated_state_is_iosb_at s0 p a status io j :
  objects s0 !! p = Some (ObjAsync a) →
  iosb_of s0 a = Some io →
  is_iosb_at (terminated_state p a status io s0) j = is_iosb_at s0 j.
Proof.
  intros H Hio. unfold is_iosb_at, terminated_state. simpl.
  destruct (decide (j = p)) as [->|Hne].
  - by rewrite lookup_insert_eq, H.
  - rewrite lookup_insert_ne by done.
    destruct io as [[i io']|]; [|done].
    destruct (decide (j = i)) as [->|Hji].
    + rewrite lookup_insert_eq.
      unfold iosb_of in Hio. destruct (Async.iosb a) as [k|]; [|done].
      destruct (objects s0 !! k) as [[| io1 |]|] eqn:Hk; try done.
      injection Hio as -> ->. by rewrite Hk.
    + by rewrite lookup_insert_ne.
Qed.

Lemma terminated_state_cancellable s0 p a status io q :
  objects s0 !! p = Some (ObjAsync a) →
  iosb_of s0 a = Some io →
  cancellable_entry s0 q = true →
  cancellable_entry (terminated_state p a status io s0) q = true.
Proof.
  intros H Hio. unfold cancellable_entry.
  destruct (decide (q = p)) as [->|Hne].
  - rewrite terminated_state_async_at.
    rewrite (proj2 (async_at_Some _ _ _) H).
    rewrite terminated_async_terminated.
    unfold iosb_valid.
    replace (Async.iosb (terminated_async status a)) with (Async.iosb a)
      by (unfold terminated_async; by destruct (status =? STATUS_ALERTED)).
    destruct (Async.iosb a); [|done].
    rewrite terminated_state_is_iosb_at by done.
    intros Hv. apply andb_true_iff in Hv as [-> _]. done.
  - rewrite terminated_state_async_at_ne by done.
    destruct (async_at s0 q) as [b|]; [|done].
    unfold iosb_valid. destruct (Async.iosb b); [|done].
    by rewrite terminated_state_is_iosb_at.
Qed.

Lemma terminated_state_cancel_target gfu s0 p a status io obj thr iosb q :
  iosb_of s0 a = Some io →
  cancel_target gfu (terminated_state p a status io s0) obj thr iosb q
  = bool_decide (q ≠ p) && cancel_target gfu s0 obj thr iosb q.
Proof.
  intros Hio. unfold cancel_target. case_bool_decide as Hq.
  - by rewrite terminated_state_async_at_ne.
  - subst.
    rewrite terminated_state_async_at. unfold cancel_matches.
    by rewrite terminated_async_terminated.
Qed.

Lemma cancel_scan_run gfu s entries obj thr iosb :
  cancellable s entries = true →
  cancel_async_scan gfu entries obj thr iosb s
  = Done (head (cancel_targets gfu s entries obj thr iosb)) s.
Proof.
  unfold cancel_targets.
  induction entries as [|p next IH]; [done|].
  simpl. intros Hc. apply andb_true_iff in Hc as [Hp Hnext].
  specialize (IH Hnext).
  unfold cancellable_entry in Hp.
  destruct (async_at s p) as [a|] eqn:Ha; [|done].
  assert (Htg : cancel_target gfu s obj thr iosb p
                = cancel_matches gfu obj thr iosb a)
    by (unfold cancel_target; by rewrite Ha).
  apply async_at_Some in Ha.
  rewrite bind_run, (get_async_run _ _ _ Ha).
  unfold cancel_matches in Htg.
  destruct (Async.terminated a) eqn:Ht; simpl in *.
  { rewrite filter_cons_False; [apply IH|]. by apply Is_true_false_2. }
  apply andb_true_iff in Hp as [_ Hfd].
  destruct (Async.fd a) as [fd|] eqn:Hfd'; [|done].
  rewrite bind_run.
  assert (Hok :
    match obj with
    | Some _ => deref (Some fd) ≫= λ fd : Z, mret (bool_decide (gfu fd = obj))
    | None => mret true
    end s
    = Done match obj with
           | None => true
           | Some _ => bool_decide (gfu fd = obj)
           end s) by (by destruct obj).
  rewrite Hok. clear Hok.
  match type of Htg with _ = ?c => destruct c eqn:Hc end.
  - rewrite filter_cons_True by (by apply Is_true_true_2). done.
  - rewrite filter_cons_False by (by apply Is_true_false_2). apply IH.
Qed.

Lemma filter_absent (P : Z → bool) (p : Z) (entries : list Z) :
  p ∉ entries →
  filter (λ q, bool_decide (q ≠ p) && P q) entries = filter (λ q, P q) entries.
Proof.
  induction entries as [|x next IH]; [done|].
  intros Hp. apply not_elem_of_cons in Hp as [Hne Hp].
  rewrite !filter_cons, (IH Hp).
  rewrite (bool_decide_eq_true_2 (x ≠ p)) by done. done.
Qed.

Lemma filter_drop_head (P : Z → bool) (p : Z) (entries rest : list Z) :
  NoDup entries →
  filter (λ q, P q) entries = p :: rest →
  filter (λ q, bool_decide (q ≠ p) && P q) entries = rest.
Proof.
  induction entries as [|x next IH]; [done|].
  intros Hnd Hf. apply NoDup_cons in Hnd as [Hx Hnd].
  destruct (P x) eqn:Px.
  - rewrite filter_cons_True in Hf by (by apply Is_true_true_2).
    injection Hf as -> <-.
    rewrite filter_cons_False.
    2: { rewrite bool_decide_eq_false_2 by naive_solver. simpl. tauto. }
    by apply filter_absent.
  - rewrite filter_cons_False in Hf by (by apply Is_true_false_2).
    rewrite filter_cons_False.
    2: { rewrite Px, andb_false_r. simpl. tauto. }
    by apply IH.
Qed.

Lemma cancellable_after s0 p a status io entries :
  objects s0 !! p = Some (ObjAsync a) →
  iosb_of s0 a = Some io →
  cancellable s0 entries = true →
  cancellable (terminated_state p a status io s0) entries = true.
Proof.
  intros H Hio. unfold cancellable. rewrite !forallb_forall.
  intros Hall q Hq. by apply terminated_state_cancellable, Hall.
Qed.

Lemma cancel_targets_after gfu s0 p a status io entries obj thr iosb rest :
  iosb_of s0 a = Some io →
  NoDup entries →
  cancel_targets gfu s0 entries obj thr iosb = p :: rest →
  cancel_targets gfu (terminated_state p a status io s0) entries obj thr iosb
  = rest.
Proof.
  intros Hio Hnd Ht. unfold cancel_targets in *.
  rewrite <- (filter_drop_head _ p entries rest Hnd Ht).
  apply list_filter_iff. intros q.
  by rewrite terminated_state_cancel_target.
Qed.

(** The head of the targets is a live async with an fd. *)
Lemma cancel_target_head gfu s entries obj thr iosb p rest :
  cancellable s entries = true →
  cancel_targets gfu s entries obj thr iosb = p :: rest →
  ∃ a fd io,
    objects s !! p = Some (ObjAsync a) ∧ Async.terminated a = false ∧
    Async.fd a = Some fd ∧ iosb_of s a = Some io.
Proof.
  intros Hc Ht.
  assert (Hin : p ∈ cancel_targets gfu s entries obj thr iosb)
    by (rewrite Ht; left).
  apply list_elem_of_filter in Hin as [Htg Hin].
  unfold cancellable in Hc. rewrite forallb_forall in Hc.
  apply list_elem_of_In in Hin. specialize (Hc p Hin).
  unfold cancel_target in Htg. unfold cancellable_entry in Hc.
  destruct (async_at s p) as [a|] eqn:Ha; [|done].
  apply async_at_Some in Ha.
  apply andb_true_iff in Hc as [Hv Hfd].
  apply iosb_valid_of in Hv as [io Hio].
  unfold cancel_matches in Htg.
  destruct (Async.terminated a) eqn:Hterm; [done|]. simpl in Hfd.
  destruct (Async.fd a) as [fd|] eqn:Hfd'; [|done]. eauto 10.
Qed.

Lemma cancelled_asyncs_terminate_calls p a status io :
  cancelled_asyncs (terminate_calls p a status io) = [].
Proof.
  unfold terminate_calls, reselect_calls, cancelled_asyncs.
  by destruct (Async.direct_result a), (Async.queue a), (Async.fd a).
Qed.

(** [cancel_async]: with enough fuel the restarting scan cancels the
    targets one after the other, head first, and counts them; the targets
    end terminated and no other async changes. *)
Lemma cancel_async_from_run gfu proc obj thr iosb :
  ∀ targets fuel s woken,
    cancel_targets gfu s (process_list proc s) obj thr iosb = targets →
    cancellable s (process_list proc s) = true →
    NoDup (process_list proc s) →
    (length targets < fuel)%nat →
    ∃ s1,
      LIST_FOR_EACH targets cancel_entry s = Done tt s1 ∧
      cancel_async_from gfu fuel proc obj thr iosb woken s
      = Done (woken + Z.of_nat (length targets)) s1 ∧
      error s1 = error s ∧
      cancelled_asyncs (calls s1) = cancelled_asyncs (calls s) ++ targets ∧
      (∀ q, q ∈ targets →
            ∃ b, async_at s1 q = Some b ∧ Async.terminated b = true) ∧
      (∀ q, q ∉ targets → async_at s1 q = async_at s q).
Proof.
  induction targets as [|p rest IH]; intros fuel s woken Ht Hc Hnd Hfuel.
  - destruct fuel as [|fuel]; [simpl in Hfuel; lia|].
    exists s. split; [done|]. split.
    { simpl. rewrite bind_run. unfold gets. cbn beta iota.
      rewrite bind_run, (cancel_scan_run _ _ _ _ _ _ Hc), Ht. simpl.
      by rewrite Z.add_0_r. }
    split; [done|]. split; [by rewrite app_nil_r|].
    split; [|done]. intros q Hq. by apply elem_of_nil in Hq.
  - destruct fuel as [|fuel]; [simpl in Hfuel; lia|].
    destruct (cancel_target_head _ _ _ _ _ _ _ _ Hc Ht)
      as (a & fd & io & Ha & Hterm & Hfd & Hio).
    pose proof (cancel_entry_run _ _ _ _ _ Ha Hterm Hfd Hio) as Hrun.
    set (s0 := set_calls (calls s ++ [Call_fd_cancel_async fd p]) s) in *.
    set (s2 := terminated_state p a STATUS_CANCELLED io s0) in *.
    assert (Hlist : process_list proc s2 = process_list proc s) by done.
    assert (Hrest2 : cancel_targets gfu s2 (process_list proc s2) obj thr iosb
                     = rest).
    { rewrite Hlist.
      apply (cancel_targets_after _ s0 _ _ _ _ _ _ _ _ _ Hio Hnd Ht). }
    assert (Hp : p ∉ rest).
    { rewrite <- Hrest2. unfold cancel_targets. intros Hin.
      apply list_elem_of_filter in Hin as [Hin _].
      unfold s2 in Hin. rewrite terminated_state_cancel_target in Hin by done.
      by rewrite bool_decide_eq_false_2 in Hin by naive_solver. }
    destruct (IH fuel s2 (woken + 1)) as (s1 & Hrest & Hfrom & He & Hcs & Hin & Hout).
    + done.
    + rewrite Hlist. by apply (cancellable_after s0).
    + by rewrite Hlist.
    + simpl in Hfuel. lia.
    + exists s1. split; [simpl; by rewrite bind_run, Hrun|]. split.
      { simpl. rewrite bind_run. unfold gets. cbn beta iota.
        rewrite bind_run, (cancel_scan_run _ _ _ _ _ _ Hc), Ht. simpl.
        unfold cancel_entry in Hrun.
        rewrite bind_run, (get_async_run _ _ _ Ha), Hfd in Hrun.
        rewrite bind_run, (get_async_run _ _ _ Ha), Hfd.
        unfold deref, mret, M_ret in *. rewrite bind_run in Hrun.
        rewrite !bind_run. rewrite Hrun, Hfrom.
        f_equal. simpl length. lia. }
      split; [by rewrite He|]. split.
      { rewrite Hcs. unfold s2, terminated_state, s0. simpl.
        unfold cancelled_asyncs at 1. rewrite !omap_app.
        fold (cancelled_asyncs (calls s)).
        fold (cancelled_asyncs (terminate_calls p a STATUS_CANCELLED (snd <$> io))).
        rewrite cancelled_asyncs_terminate_calls. simpl.
        by rewrite app_nil_r, <- app_assoc. }
      split.
      * intros q Hq. apply elem_of_cons in Hq as [->|Hq]; [|by apply Hin].
        rewrite (Hout p Hp). unfold s2.
        rewrite terminated_state_async_at. eexists. split; [done|].
        apply terminated_async_terminated.
      * intros q Hq. apply not_elem_of_cons in Hq as [Hne Hq].
        rewrite (Hout q Hq). unfold s2.
        by rewrite terminated_state_async_at_ne.
Qed.

(** The [cancel_async] handler where it runs to its end: the handle is
    resolved to [obj] and every async of the calling process that is not
    terminated still has its fd ([cancellable]).
    Its targets are the asyncs of the calling process that are not
    terminated and match the fd user object, the calling thread when
    [only_thread] is set and the iosb cookie when it is not zero.  With
    fuel above the length of the list, the handler completes; it has run
    [fd_cancel_async] on exactly the targets, in list order, [cancel_async]
    has returned their number, every target is terminated, no other async
    has changed (terminated ones are skipped), and the last error is
    NOT_FOUND when there was no target and the cookie is not zero, and is
    unchanged otherwise. *)
Theorem req_cancel_async_behaviour get_fd_user get_handle_obj fuel req s obj :
  get_handle_obj (process (current s)) (req_handle req) = inl obj →
  cancellable s (process_list (process (current s)) s) = true →
  NoDup (process_list (process (current s)) s) →
  (length (process_list (process (current s)) s) < fuel)%nat →
  ∃ s1 s',
    cancel_async get_fd_user fuel (process (current s)) (Some obj)
      (request_thread_filter s req) (req_iosb req) s
    = Done (Z.of_nat (length (request_targets get_fd_user s req obj))) s1 ∧
    LIST_FOR_EACH (request_targets get_fd_user s req obj) cancel_entry s
    = Done tt s1 ∧
    req_cancel_async get_fd_user get_handle_obj fuel req s = Done tt s' ∧
    cancelled_asyncs (calls s')
    = cancelled_asyncs (calls s) ++ request_targets get_fd_user s req obj ∧
    (∀ q, q ∈ request_targets get_fd_user s req obj →
          ∃ b, async_at s' q = Some b ∧ Async.terminated b = true) ∧
    (∀ q, q ∉ request_targets get_fd_user s req obj →
          async_at s' q = async_at s q) ∧
    error s' =
      if bool_decide (request_targets get_fd_user s req obj = [])
         && negb (req_iosb req =? 0)
      then STATUS_NOT_FOUND else error s.
Proof.
  intros Hobj Hc Hnd Hfuel.
  set (targets := request_targets get_fd_user s req obj).
  destruct (cancel_async_from_run get_fd_user (process (current s)) (Some obj)
              (request_thread_filter s req) (req_iosb req) targets fuel s 0)
    as (s1 & Heach & Hfrom & He & Hcs & Hin & Hout); try done.
  { pose proof (length_filter
      (λ p, cancel_target get_fd_user s (Some obj)
              (request_thread_filter s req) (req_iosb req) p)
      (process_list (process (current s)) s)) as Hlen.
    unfold targets, request_targets, cancel_targets. lia. }
  rewrite Z.add_0_l in Hfrom.
  set (s' := set_calls (calls s1 ++ [Call_release_object obj])
               (if bool_decide (targets = []) && negb (req_iosb req =? 0)
                then set_server_error STATUS_NOT_FOUND s1 else s1)).
  exists s1, s'. split; [done|]. split; [done|]. split.
  { unfold req_cancel_async. rewrite bind_run. unfold gets. cbn beta iota.
    rewrite Hobj, bind_run.
    fold (request_thread_filter s req).
    unfold cancel_async in Hfrom. unfold cancel_async. rewrite Hfrom.
    rewrite bind_run. unfold when, s'.
    replace (Z.of_nat (length targets) =? 0) with (bool_decide (targets = [])).
    2: { destruct targets as [|x l]; [done|].
         rewrite bool_decide_eq_false_2 by done.
         symmetry. apply Z.eqb_neq. simpl length. lia. }
    by destruct (bool_decide (targets = []) && negb (req_iosb req =? 0)). }
  assert (Hobjs : ∀ q, async_at s' q = async_at s1 q).
  { intros q. unfold s'.
    by destruct (bool_decide (targets = []) && negb (req_iosb req =? 0)). }
  assert (Hcalls : calls s' = calls s1 ++ [Call_release_object obj]).
  { unfold s'.
    by destruct (bool_decide (targets = []) && negb (req_iosb req =? 0)). }
  assert (Herr : error s' =
            if bool_decide (targets = []) && negb (req_iosb req =? 0)
            then STATUS_NOT_FOUND else error s).
  { unfold s'. rewrite <- He.
    by destruct (bool_decide (targets = []) && negb (req_iosb req =? 0)). }
  split.
  { rewrite Hcalls. unfold cancelled_asyncs at 1. rewrite omap_app. simpl.
    by rewrite app_nil_r. }
  split; [intros q Hq; rewrite Hobjs; by apply Hin|].
  split; [intros q Hq; rewrite Hobjs; by apply Hout|].
  done.
Qed.

Lemma req_cancel_async_behaviour_witness :
  request_targets sample_fd_user crowded_server cancel_all_request 77 = [12; 10] ∧
  ∃ s1 s',
    cancel_async sample_fd_user 4 200 (Some 77) None 0 crowded_server
    = Done 2 s1 ∧
    LIST_FOR_EACH [12; 10] cancel_entry crowded_server = Done tt s1 ∧
    req_cancel_async sample_fd_user sample_handle_obj 4 cancel_all_request
      crowded_server = Done tt s' ∧
    cancelled_asyncs (calls s') = [12; 10] ∧
    (∀ q, q ∈ [12; 10] →
          ∃ b, async_at s' q = Some b ∧ Async.terminated b = true) ∧
    (∀ q, q ∉ [12; 10] → async_at s' q = async_at crowded_server q) ∧
    error s' = 0.
Proof.
  split; [reflexivity|].
  apply (req_cancel_async_behaviour sample_fd_user sample_handle_obj 4
           cancel_all_request crowded_server 77).
  - reflexivity.
  - reflexivity.
  - apply (bool_decide_unpack _). vm_compute. exact I.
  - change (3 < 4)%nat. lia.
Defined.

(** C8: the [cancel_async] handler faults on a live async that has lost
    its fd.  The sample async is queued, alerted, left without fd by
    [free_async_queue] and restarted by [async_set_result] with PENDING:
    it is not terminated, has neither fd nor queue, and is still on the
    list of its process.  In that state the handler, whose handle resolves
    and whose scan reads [async->fd] without a test, stops on the null
    pointer instead of returning; [cancel_process_asyncs] does the same. *)
Theorem req_cancel_async_null_fd_fault :
  exec_all sample_queries orphan_lifecycle sample_server
  = Done tt orphan_server ∧
  process_list (process (current orphan_server)) orphan_server = [10] ∧
  (∃ a, async_at orphan_server 10 = Some a ∧
        Async.terminated a = false ∧ Async.fd a = None ∧
        Async.queue a = None) ∧
  sample_handle_obj (process (current orphan_server))
    (req_handle cancel_all_request) = inl 77 ∧
  req_cancel_async sample_fd_user sample_handle_obj 4 cancel_all_request
    orphan_server = Crash NullPointer ∧
  cancel_process_asyncs sample_fd_user 4 200 orphan_server
  = Crash NullPointer.
Proof.
  split; [vm_compute; reflexivity|].
  split; [vm_compute; reflexivity|].
  split.
  { eexists. split; [vm_compute; reflexivity|]. by vm_compute. }
  split; [reflexivity|].
  split; vm_compute; reflexivity.
Qed.

(** ** Partial-correctness rules *)

Lemma hoare_ret {A} (P : server → Prop) (x : A) : hoare P (mret x) (λ _, P).
Proof. by intros s Hs. Qed.

Lemma hoare_bind {A B} (P : server → Prop) (Q : A → server → Prop)
    (R : B → server → Prop) (m : M A) (f : A → M B) :
  hoare P m Q → (∀ x, hoare (Q x) (f x) R) → hoare P (m ≫= f) R.
Proof.
  intros Hm Hf s Hs. rewrite bind_run. specialize (Hm s Hs).
  destruct (m s) as [x s'|]; [|done]. by apply Hf.
Qed.

Lemma hoare_crash {A} (P : server → Prop) (Q : A → server → Prop) e :
  hoare P (crash e) Q.
Proof. by intros s Hs. Qed.

Lemma hoare_weaken {A} (P P' : server → Prop) (Q Q' : A → server → Prop)
    (m : M A) :
  (∀ s, P' s → P s) → (∀ x s, Q x s → Q' x s) → hoare P m Q → hoare P' m Q'.
Proof.
  intros HP HQ Hm s Hs. specialize (Hm s (HP s Hs)).
  destruct (m s); [by apply HQ | done].
Qed.

(** Nothing is claimed about the run. *)
Lemma hoare_any {A} (P : server → Prop) (m : M A) : hoare P m (λ _ _, True).
Proof. intros s _. by destruct (m s). Qed.

Lemma hoare_gets {A} (P : server → Prop) (f : server → A) :
  hoare P (gets f) (λ _, P).
Proof. by intros s Hs. Qed.

Lemma hoare_when (P : server → Prop) b m :
  hoare P m (λ _, P) → hoare P (when b m) (λ _, P).
Proof. destruct b; [done|]. intros _. apply hoare_ret. Qed.

Lemma hoare_assert (P : server → Prop) b : hoare P (assert b) (λ _, P).
Proof. destruct b; [apply hoare_ret | apply hoare_crash]. Qed.

Lemma hoare_deref {A} (P : server → Prop) (p : option A) :
  hoare P (deref p) (λ _, P).
Proof. destruct p; [apply hoare_ret | apply hoare_crash]. Qed.

Lemma hoare_get_object (P : server → Prop) p : hoare P (get_object p) (λ _, P).
Proof.
  intros s Hs. unfold get_object. by destruct (objects s !! p).
Qed.

Lemma hoare_get_async (P : server → Prop) p : hoare P (get_async p) (λ _, P).
Proof.
  intros s Hs. unfold get_async. by destruct (objects s !! p) as [[| |]|].
Qed.

Lemma hoare_get_iosb (P : server → Prop) p : hoare P (get_iosb p) (λ _, P).
Proof.
  intros s Hs. unfold get_iosb. by destruct (objects s !! p) as [[| |]|].
Qed.

(** ** Steps that keep a relation on the asyncs of the heap *)

Lemma keep_modify R g :
  (∀ s, objects (g s) = objects s) →
  hoare (cell_inv R) (modify g) (λ _, cell_inv R).
Proof.
  intros Hg s Hs. simpl. intros p a Ha. rewrite Hg in Ha. by eapply Hs.
Qed.

Lemma keep_emit R c : hoare (cell_inv R) (emit c) (λ _, cell_inv R).
Proof. by apply keep_modify. Qed.

Lemma keep_upd_iosb R p f :
  hoare (cell_inv R) (upd_iosb p f) (λ _, cell_inv R).
Proof.
  intros s Hs. unfold upd_iosb, get_iosb. rewrite bind_run.
  destruct (objects s !! p) as [[| i |]|] eqn:Hp; try done. simpl.
  intros p' a' Ha'. simpl in Ha'. destruct (decide (p' = p)) as [->|Hne].
  - by rewrite lookup_insert_eq in Ha'.
  - rewrite lookup_insert_ne in Ha' by done. by apply (Hs p').
Qed.

(** A write to the async at [p] that takes [R] to [R']. *)
Lemma cell_upd_async (R R' : Z → Async.t → Prop) p f :
  (∀ p' a, p' ≠ p → R p' a → R' p' a) →
  (∀ a, R p a → R' p (f a)) →
  hoare (cell_inv R) (upd_async p f) (λ _, cell_inv R').
Proof.
  intros HR Hf s Hs. unfold upd_async, get_async. rewrite bind_run.
  destruct (objects s !! p) as [[a| |]|] eqn:Hp; try done. simpl.
  intros p' a' Ha'. simpl in Ha'. destruct (decide (p' = p)) as [->|Hne].
  - rewrite lookup_insert_eq in Ha'. injection Ha' as <-. by apply Hf, (Hs p).
  - rewrite lookup_insert_ne in Ha' by done. by apply HR, (Hs p').
Qed.

Lemma keep_upd_async R p f :
  (∀ a, R p a → R p (f a)) →
  hoare (cell_inv R) (upd_async p f) (λ _, cell_inv R).
Proof. intros Hf. by apply cell_upd_async. Qed.

Ltac keep_side :=
  first
    [ assumption
    | match goal with
      | Hc : core_only _ |- _ => eapply Hc; [eassumption | reflexivity]
      | Hc : fd_queue_only _ |- _ =>
          eapply Hc; [eassumption | reflexivity | reflexivity]
      end
    | done ].

Ltac keep1 :=
  first
    [ solve [ auto 2 with nocore ]
    | lazymatch goal with
      | |- hoare ?P (mbind _ _) (λ _, ?P) =>
          apply (hoare_bind P (λ _, P) (λ _, P)); [|intros ?]
      | |- hoare ?P (mret _) _ => apply hoare_ret
      | |- hoare _ (crash _) _ => apply hoare_crash
      | |- hoare ?P (when _ _) _ => apply hoare_when
      | |- hoare ?P (assert _) _ => apply hoare_assert
      | |- hoare ?P (deref _) _ => apply hoare_deref
      | |- hoare ?P (gets _) _ => apply hoare_gets
      | |- hoare ?P get_error _ => apply hoare_gets
      | |- hoare ?P (get_async _) _ => apply hoare_get_async
      | |- hoare ?P (get_iosb _) _ => apply hoare_get_iosb
      | |- hoare ?P (get_object _) _ => apply hoare_get_object
      | |- hoare _ (emit _) _ => apply keep_emit
      | |- hoare _ (modify _) _ => apply keep_modify; reflexivity
      | |- hoare _ (upd_iosb _ _) _ => apply keep_upd_iosb
      | |- hoare _ (upd_async _ _) _ =>
          apply keep_upd_async; intros ? ?; keep_side
      | |- hoare _ (if ?b then _ else _) _ => destruct b
      | |- hoare _ (match ?x with _ => _ end) _ => destruct x
      | |- hoare _ (let _ := _ in _) _ => cbv zeta
      | |- hoare _ (?h _ _ _ _ _ _ _) _ => unfold h
      | |- hoare _ (?h _ _ _ _ _ _) _ => unfold h
      | |- hoare _ (?h _ _ _ _ _) _ => unfold h
      | |- hoare _ (?h _ _ _ _) _ => unfold h
      | |- hoare _ (?h _ _ _) _ => unfold h
      | |- hoare _ (?h _ _) _ => unfold h
      | |- hoare _ (?h _) _ => unfold h
      end ].
Ltac keep := repeat keep1.

(** Every operation keeps a relation [R] on the four fields as soon as
    the four functions that write them do. *)
Section Keep.
Variable R : Z → Async.t → Prop.
Local Abbreviation I := (cell_inv R).
Hypothesis R_core : core_only R.
Hypothesis keep_async_terminate :
  ∀ async status, hoare I (async_terminate async status) (λ _, I).
Hypothesis keep_async_set_result :
  ∀ gc obj status total, hoare I (async_set_result gc obj status total) (λ _, I).
Hypothesis keep_queue_async :
  ∀ queue async, hoare I (queue_async queue async) (λ _, I).
Hypothesis keep_free_async_queue_entry :
  ∀ gc async, hoare I (free_async_queue_entry gc async) (λ _, I).

Lemma keep_async_timeout private : hoare I (async_timeout private) (λ _, I).
Proof. unfold async_timeout. keep. Qed.

Lemma keep_set_async_pending async signal :
  hoare I (set_async_pending async signal) (λ _, I).
Proof. unfold set_async_pending. keep. Qed.

Lemma keep_async_handoff ov nt async result force_blocking :
  hoare I (async_handoff ov nt async result force_blocking) (λ _, I).
Proof. unfold async_handoff. keep. Qed.

Lemma keep_async_request_complete async status result out_size out_data :
  hoare I (async_request_complete async status result out_size out_data)
    (λ _, I).
Proof. unfold async_request_complete. keep. Qed.

Lemma keep_async_set_unknown_status async :
  hoare I (async_set_unknown_status async) (λ _, I).
Proof. unfold async_set_unknown_status. keep. Qed.

Lemma keep_async_set_completion_callback async func private :
  hoare I (async_set_completion_callback async func private) (λ _, I).
Proof. unfold async_set_completion_callback. keep. Qed.

Lemma keep_async_satisfied gc obj entry :
  hoare I (async_satisfied gc obj entry) (λ _, I).
Proof. unfold async_satisfied. keep. Qed.

Lemma keep_free_async_queue gc queue :
  hoare I (free_async_queue gc queue) (λ _, I).
Proof.
  unfold free_async_queue. eapply hoare_bind; [keep|].
  intros entries; cbv beta. induction entries as [|async next IH]; simpl; keep.
Qed.

Lemma keep_async_wake_up_loop entries status :
  hoare I (async_wake_up_loop entries status) (λ _, I).
Proof. induction entries; simpl; keep. Qed.

Lemma keep_async_wake_up queue status :
  hoare I (async_wake_up queue status) (λ _, I).
Proof.
  unfold async_wake_up. eapply hoare_bind; [keep|].
  intros entries; cbv beta. apply keep_async_wake_up_loop.
Qed.

Lemma keep_cancel_async_scan gu entries obj thr iosb :
  hoare I (cancel_async_scan gu entries obj thr iosb) (λ _, I).
Proof. induction entries; simpl; keep. Qed.

Lemma keep_cancel_async_from gu fuel proc obj thr iosb woken :
  hoare I (cancel_async_from gu fuel proc obj thr iosb woken) (λ _, I).
Proof.
  pose proof keep_cancel_async_scan.
  revert woken. induction fuel; intros woken; simpl; keep.
Qed.

Lemma keep_req_cancel_async gu gh fuel req :
  hoare I (req_cancel_async gu gh fuel req) (λ _, I).
Proof.
  pose proof keep_cancel_async_from. unfold req_cancel_async. keep.
Qed.

Lemma keep_cancel_process_asyncs gu fuel proc :
  hoare I (cancel_process_asyncs gu fuel proc) (λ _, I).
Proof.
  pose proof keep_cancel_async_from. unfold cancel_process_asyncs. keep.
Qed.

Lemma keep_get_async_result_scan entries user_arg :
  hoare I (get_async_result_scan entries user_arg) (λ _, I).
Proof. induction entries; simpl; keep. Qed.

Lemma keep_req_get_async_result user_arg :
  hoare I (req_get_async_result user_arg) (λ _, I).
Proof.
  pose proof keep_get_async_result_scan. unfold req_get_async_result. keep.
Qed.

Lemma keep_exec q op : hoare I (exec q op) (λ _, I).
Proof.
  destruct op; simpl.
  - apply keep_queue_async.
  - apply keep_async_terminate.
  - apply keep_async_timeout.
  - apply keep_free_async_queue.
  - apply keep_set_async_pending.
  - eapply hoare_bind; [apply keep_async_handoff | intros ?; apply hoare_ret].
  - apply keep_async_request_complete.
  - apply keep_async_set_unknown_status.
  - apply keep_async_set_completion_callback.
  - apply keep_async_set_result.
  - apply keep_async_satisfied.
  - apply keep_async_wake_up.
  - apply keep_cancel_process_asyncs.
  - apply keep_req_cancel_async.
  - apply keep_req_get_async_result.
Qed.

Lemma keep_exec_all q ops : hoare I (exec_all q ops) (λ _, I).
Proof.
  induction ops as [|op rest IH]; simpl; [apply hoare_ret|].
  eapply hoare_bind; [apply keep_exec|intros ?; cbv beta; done].
Qed.

End Keep.

(** The functions that do not write the four fields themselves. *)
Lemma keep_async_reselect R async :
  hoare (cell_inv R) (async_reselect async) (λ _, cell_inv R).
Proof. unfold async_reselect. keep. Qed.

Lemma keep_add_async_completion R gc async cvalue status information :
  core_only R →
  hoare (cell_inv R) (add_async_completion gc async cvalue status information)
    (λ _, cell_inv R).
Proof. intros HR. unfold add_async_completion. keep. Qed.

(** ** A queued async keeps its fd *)

Lemma fd_queue_only_core R : fd_queue_only R → core_only R.
Proof.
  intros HR p a a' Ha Hv. unfold core_view in Hv.
  injection Hv as Hfd Hq _ _. by eapply HR.
Qed.

(** [async_terminate] writes neither [fd] nor [queue]. *)
Lemma async_terminate_keeps_fd_queue R async status :
  fd_queue_only R →
  hoare (cell_inv R) (async_terminate async status) (λ _, cell_inv R).
Proof.
  intros HR. pose proof (keep_async_reselect R).
  unfold async_terminate. keep.
Qed.

Lemma null_fd_unqueued_fd_queue_only e :
  fd_queue_only (λ p a, Some p ≠ e → Async.fd a = None → Async.queue a = None).
Proof. intros p a a' Ha Hfd Hq. rewrite <- Hfd, <- Hq. exact Ha. Qed.

Lemma set_aside_fd obj :
  hoare (null_fd_unqueued_except None) (upd_async obj (Async.set_fd None))
    (λ _, null_fd_unqueued_except (Some obj)).
Proof.
  apply cell_upd_async; [|done].
  intros p' a Hne Ha _. by apply Ha.
Qed.

Lemma restore_queue obj :
  hoare (null_fd_unqueued_except (Some obj))
    (upd_async obj (Async.set_queue None))
    (λ _, null_fd_unqueued_except None).
Proof.
  apply cell_upd_async; [|done].
  intros p' a Hne Ha _. apply Ha. congruence.
Qed.

(** The detach at the end of [async_set_result]: [fd] is nulled first, the
    queue pointer last. *)
Lemma detach_restores obj :
  hoare (null_fd_unqueued_except None)
    (upd_async obj (Async.set_fd None);;
     list_remove_queue_entry obj;;
     upd_async obj (Async.set_queue None);;
     release_object obj)
    (λ _, null_fd_unqueued_except None).
Proof.
  eapply hoare_bind; [apply set_aside_fd|]. intros ?; cbv beta.
  eapply hoare_bind; [unfold null_fd_unqueued_except; keep|]. intros ?; cbv beta.
  eapply hoare_bind; [apply restore_queue|]. intros ?; cbv beta.
  unfold null_fd_unqueued_except. keep.
Qed.

Lemma async_set_result_keeps_fd gc obj status total :
  hoare (null_fd_unqueued_except None) (async_set_result gc obj status total)
    (λ _, null_fd_unqueued_except None).
Proof.
  pose proof (fd_queue_only_core _ (null_fd_unqueued_fd_queue_only None)) as HR.
  pose proof (λ a b c d, keep_add_async_completion _ gc a b c d HR).
  pose proof (keep_async_reselect
                (λ p a, Some p ≠ None → Async.fd a = None → Async.queue a = None)).
  pose proof detach_restores.
  unfold null_fd_unqueued_except in *.
  unfold async_set_result. keep.
Qed.

(** One round of [free_async_queue]: [fd] is nulled before
    [async_terminate], the queue pointer after it. *)
Lemma free_async_queue_entry_keeps_fd gc async :
  hoare (null_fd_unqueued_except None) (free_async_queue_entry gc async)
    (λ _, null_fd_unqueued_except None).
Proof.
  pose proof (fd_queue_only_core _ (null_fd_unqueued_fd_queue_only None)) as HR.
  unfold free_async_queue_entry.
  eapply hoare_bind; [unfold null_fd_unqueued_except; keep|]. intros a; cbv beta.
  eapply hoare_bind; [unfold null_fd_unqueued_except in *; keep|].
  intros ?; cbv beta.
  eapply hoare_bind; [apply set_aside_fd|]. intros ?; cbv beta.
  eapply hoare_bind.
  { apply async_terminate_keeps_fd_queue, null_fd_unqueued_fd_queue_only. }
  intros ?; cbv beta.
  eapply hoare_bind; [apply restore_queue|]. intros ?; cbv beta.
  unfold null_fd_unqueued_except. keep.
Qed.

(** [queue_async] on an async that holds its fd: the queue pointer is set,
    the async goes to the tail of the queue, [fd] stays. *)
Lemma queue_async_run s queue async a fd :
  objects s !! async = Some (ObjAsync a) →
  Async.fd a = Some fd →
  queue_async queue async s
  = Done tt
      (set_calls (calls s ++ [Call_release_object fd; Call_grab_object async;
                              Call_set_fd_signaled fd 0])
         (set_queues (<[queue := queue_list queue s ++ [async]]> (queues s))
            (set_objects
               (<[async := ObjAsync (Async.set_queue (Some queue) a)]>
                  (objects s)) s))).
Proof.
  intros Ha Hfd. unfold queue_async, list_add_tail_queue.
  destruct s as [objs qs ps cur err rms rs cs]; simpl in Ha.
  run. unfold queue_list. same_state.
Qed.

(** [queue_async] dereferences [async->fd] before it sets the queue
    pointer, and leaves [fd] as it is. *)
Lemma queue_async_keeps_fd queue async :
  hoare (null_fd_unqueued_except None) (queue_async queue async)
    (λ _, null_fd_unqueued_except None).
Proof.
  intros s Hs.
  destruct (objects s !! async) as [[a| |]|] eqn:Ha;
    try (unfold queue_async, get_async; rewrite bind_run, Ha; done).
  destruct (Async.fd a) as [fd|] eqn:Hfd.
  2: { unfold queue_async. rewrite bind_run, (get_async_run _ _ _ Ha), Hfd. done. }
  rewrite (queue_async_run _ _ _ _ _ Ha Hfd).
  intros p' a' Ha' _. simpl in Ha'.
  destruct (decide (p' = async)) as [->|Hne].
  - rewrite lookup_insert_eq in Ha'. injection Ha' as <-. simpl. congruence.
  - rewrite lookup_insert_ne in Ha' by done. by apply (Hs p').
Qed.

Lemma null_fd_unqueued_all s :
  null_fd_unqueued s ↔ null_fd_unqueued_except None s.
Proof.
  split; [intros Hs p a Ha _; exact (Hs p a Ha) | intros Hs p a Ha; by apply (Hs p a Ha)].
Qed.

Lemma exec_all_keeps_fd q ops :
  hoare null_fd_unqueued (exec_all q ops) (λ _, null_fd_unqueued).
Proof.
  eapply hoare_weaken;
    [intros s; apply null_fd_unqueued_all
    |intros ? s; apply null_fd_unqueued_all|].
  apply keep_exec_all.
  - apply fd_queue_only_core, null_fd_unqueued_fd_queue_only.
  - intros. apply async_terminate_keeps_fd_queue, null_fd_unqueued_fd_queue_only.
  - intros. apply async_set_result_keeps_fd.
  - apply queue_async_keeps_fd.
  - apply free_async_queue_entry_keeps_fd.
Qed.

(** A check of [null_fd_unqueued] that runs over the heap. *)
Lemma null_fd_unqueued_check s :
  map_Forall (λ _ o, fd_queue_ok o = true) (objects s) → null_fd_unqueued s.
Proof.
  intros Hall p a Ha Hfd. specialize (Hall p _ Ha). simpl in Hall.
  rewrite Hfd in Hall. simpl in Hall. by destruct (Async.queue a).
Qed.

(** ** The two detaches *)

Lemma nulls_fd obj :
  hoare (λ _, True) (upd_async obj (Async.set_fd None)) (λ _, fd_nulled obj).
Proof.
  apply (hoare_weaken (cell_inv (λ _ _, True)) _ (λ _, fd_nulled obj) _);
    [done|done|].
  apply cell_upd_async; [by intros p' a Hne _ ->|done].
Qed.

Lemma nulls_queue obj :
  hoare (fd_nulled obj) (upd_async obj (Async.set_queue None))
    (λ _, detached obj).
Proof.
  apply cell_upd_async; [by intros p' a Hne _ ->|].
  intros a Hfd _. split; [by apply Hfd|done].
Qed.

Lemma fd_nulled_fd_queue_only obj :
  fd_queue_only (λ p a, p = obj → Async.fd a = None).
Proof. intros p a a' Ha Hfd Hq. rewrite <- Hfd. exact Ha. Qed.

Lemma detached_fd_queue_only obj :
  fd_queue_only (λ p a, p = obj → Async.fd a = None ∧ Async.queue a = None).
Proof. intros p a a' Ha Hfd Hq. rewrite <- Hfd, <- Hq. exact Ha. Qed.

Lemma detach_block_detaches obj :
  hoare (λ _, True)
    (upd_async obj (Async.set_fd None);;
     list_remove_queue_entry obj;;
     upd_async obj (Async.set_queue None);;
     release_object obj)
    (λ _, detached obj).
Proof.
  eapply hoare_bind; [apply nulls_fd|]. intros ?; cbv beta.
  eapply hoare_bind; [unfold fd_nulled; keep|]. intros ?; cbv beta.
  eapply hoare_bind; [apply nulls_queue|]. intros ?; cbv beta.
  unfold detached. keep.
Qed.

(** The final branch of [async_set_result] on a queued async ends with
    the async detached. *)
Lemma async_set_result_detaches gc s obj a status total :
  objects s !! obj = Some (ObjAsync a) →
  is_Some (Async.queue a) →
  Async.alerted a && (status =? STATUS_PENDING) = false →
  match async_set_result gc obj status total s with
  | Done _ s' => detached obj s'
  | Crash _ => True
  end.
Proof.
  intros Ha [queue Hq] Hfinal. unfold async_set_result.
  rewrite bind_run, (get_object_run _ _ _ Ha). simpl.
  rewrite bind_run, (get_async_run _ _ _ Ha), bind_run.
  destruct (Async.terminated a); [|done]. simpl. rewrite Hfinal, Hq.
  revert s Ha.
  change (hoare (λ s, objects s !! obj = Some (ObjAsync a))
            (match Async.timeout a with
             | Some timer => remove_timeout_user timer
             | None => mret ()
             end;;
             upd_async obj (Async.set_timeout None);;
             upd_async obj (Async.set_terminated true);;
             match Async.iosb a with
             | Some i => upd_iosb i (Iosb.set_status status)
             | None => mret ()
             end;;
             (if negb (AsyncData.apc (Async.data a) =? 0) then
                thread_queue_apc None (Async.thread a) None
                  (APC_USER (AsyncData.apc (Async.data a))
                     (AsyncData.apc_context (Async.data a))
                     (AsyncData.iosb (Async.data a)) 0)
              else
                when (negb (AsyncData.apc_context (Async.data a) =? 0) &&
                      (Async.pending a ||
                       (Z.land (Async.comp_flags a)
                          FILE_SKIP_COMPLETION_PORT_ON_SUCCESS =? 0)))
                  (add_async_completion gc obj
                     (AsyncData.apc_context (Async.data a)) status total));;
             match Async.event a, Async.fd a with
             | Some event, _ => set_event event
             | None, Some fd => set_fd_signaled fd 1
             | None, None => mret ()
             end;;
             when (negb (Async.signaled a))
               (upd_async obj (Async.set_signaled true);; wake_up obj 0);;
             match Async.completion_callback a with
             | Some func =>
                 emit (Call_completion_callback func
                         (Async.completion_callback_private a))
             | None => mret ()
             end;;
             upd_async obj (Async.set_completion_callback None);;
             async_reselect obj;;
             when (non_null (Some queue))
               (upd_async obj (Async.set_fd None);;
                list_remove_queue_entry obj;;
                upd_async obj (Async.set_queue None);;
                release_object obj))
            (λ _, detached obj)).
  do 10 (eapply hoare_bind; [apply hoare_any|]; intros ?; cbv beta).
  eapply hoare_weaken; [| |apply detach_block_detaches]; done.
Qed.

(** One round of [free_async_queue] ends with the async detached, and no
    round attaches an async again. *)
Lemma free_async_queue_entry_detaches gc async :
  hoare (λ _, True) (free_async_queue_entry gc async) (λ _, detached async).
Proof.
  unfold free_async_queue_entry.
  eapply hoare_bind; [apply hoare_any|]. intros a; cbv beta.
  eapply hoare_bind; [apply hoare_any|]. intros ?; cbv beta.
  eapply hoare_bind; [apply nulls_fd|]. intros ?; cbv beta.
  eapply hoare_bind.
  { apply async_terminate_keeps_fd_queue, fd_nulled_fd_queue_only. }
  intros ?; cbv beta.
  eapply hoare_bind; [apply nulls_queue|]. intros ?; cbv beta.
  unfold detached. keep.
Qed.

Lemma detached_upd_async p async f :
  (∀ a, Async.fd a = None → Async.fd (f a) = None) →
  (∀ a, Async.queue a = None → Async.queue (f a) = None) →
  hoare (detached p) (upd_async async f) (λ _, detached p).
Proof.
  intros Hfd Hq. apply cell_upd_async; [done|].
  intros a Hd Hx. destruct (Hd Hx). auto.
Qed.

Lemma free_async_queue_entry_keeps_detached gc async p :
  hoare (detached p) (free_async_queue_entry gc async) (λ _, detached p).
Proof.
  pose proof (fd_queue_only_core _ (detached_fd_queue_only p)) as HR.
  unfold free_async_queue_entry.
  eapply hoare_bind; [unfold detached; keep|]. intros a; cbv beta.
  eapply hoare_bind; [unfold detached in *; keep|]. intros ?; cbv beta.
  eapply hoare_bind; [by apply detached_upd_async|]. intros ?; cbv beta.
  eapply hoare_bind.
  { apply async_terminate_keeps_fd_queue, detached_fd_queue_only. }
  intros ?; cbv beta.
  eapply hoare_bind; [by apply detached_upd_async|]. intros ?; cbv beta.
  unfold detached. keep.
Qed.

(** [free_async_queue] detaches every async of the queue. *)
Lemma free_async_queue_detaches gc queue s :
  match free_async_queue gc queue s with
  | Done _ s' => ∀ p, p ∈ queue_list queue s → detached p s'
  | Crash _ => True
  end.
Proof.
  unfold free_async_queue. rewrite bind_run. unfold gets. cbn beta iota.
  generalize (queue_list queue s) as entries. intros entries.
  assert (Hloop : ∀ done,
    hoare (λ s, ∀ p, p ∈ done → detached p s)
      (LIST_FOR_EACH entries (free_async_queue_entry gc))
      (λ _ s, ∀ p, p ∈ done ++ entries → detached p s)).
  { induction entries as [|async next IH]; intros done; simpl.
    - rewrite app_nil_r. apply hoare_ret.
    - eapply hoare_bind.
      2: { intros ?. replace (done ++ async :: next)
             with ((done ++ [async]) ++ next) by (by rewrite <- app_assoc).
           apply IH. }
      intros s0 Hs0.
      pose proof (free_async_queue_entry_detaches gc async s0 I) as Hnew.
      assert (Hold : ∀ p, p ∈ done →
        match free_async_queue_entry gc async s0 with
        | Done _ s' => detached p s'
        | Crash _ => True
        end).
      { intros p Hp.
        apply (free_async_queue_entry_keeps_detached gc async p s0), Hs0, Hp. }
      destruct (free_async_queue_entry gc async s0) as [x s'|]; [|done].
      intros p Hp. apply elem_of_app in Hp as [Hp|Hp]; [by apply Hold|].
      apply list_elem_of_singleton in Hp as ->. done. }
  specialize (Hloop [] s). simpl in Hloop. apply Hloop.
  intros p Hp. by apply elem_of_nil in Hp.
Qed.

(** ** An alerted async is terminated *)

Lemma alerted_terminated_core_only e :
  core_only (λ p a, Some p ≠ e →
                    Async.alerted a = true → Async.terminated a = true).
Proof.
  intros p a a' Ha Hv. unfold core_view in Hv.
  injection Hv as _ _ Hal Ht. rewrite <- Hal, <- Ht. exact Ha.
Qed.

(** [async_terminate] sets [terminated] before it may set [alerted]. *)
Lemma async_terminate_keeps_flags async status :
  hoare (alerted_terminated_except None) (async_terminate async status)
    (λ _, alerted_terminated_except None).
Proof.
  unfold async_terminate.
  apply (hoare_bind _ (λ _, alerted_terminated_except None)).
  { unfold alerted_terminated_except; keep. }
  intros a; cbv beta zeta.
  destruct (Async.terminated a); [apply hoare_ret|].
  eapply hoare_bind.
  { apply (cell_upd_async _
             (λ p a, (Async.alerted a = true → Async.terminated a = true) ∧
                     (p = async → Async.terminated a = true))).
    - intros p' a' Hne Ha'. split; [by apply Ha'|done].
    - done. }
  intros ?; cbv beta.
  eapply hoare_weaken with (Q := λ _, alerted_terminated_in async); [done| |].
  { intros _ s Hs p a' Ha' _. by apply (Hs p a' Ha'). }
  pose proof (keep_async_reselect
    (λ p a, (Async.alerted a = true → Async.terminated a = true) ∧
            (p = async → Async.terminated a = true))).
  apply (hoare_bind _ (λ _, alerted_terminated_in async)).
  { unfold alerted_terminated_in. keep. }
  intros ?; cbv beta.
  apply (hoare_bind _ (λ _, alerted_terminated_in async)).
  { apply hoare_when, keep_upd_async.
    intros a' [_ Ht]. split; [intros _; by apply Ht | done]. }
  intros ?; cbv beta. unfold alerted_terminated_in in *. keep.
Qed.

(** The restart of [async_set_result] clears [terminated] first and
    [alerted] next; the final branch sets [terminated]. *)
Lemma async_set_result_keeps_flags gc obj status total :
  hoare (alerted_terminated_except None) (async_set_result gc obj status total)
    (λ _, alerted_terminated_except None).
Proof.
  pose proof (alerted_terminated_core_only None) as HR.
  pose proof (λ a b c d, keep_add_async_completion _ gc a b c d HR).
  pose proof (keep_async_reselect
                (λ p a, Some p ≠ None →
                        Async.alerted a = true → Async.terminated a = true)).
  unfold async_set_result.
  apply (hoare_bind _ (λ _, alerted_terminated_except None)).
  { unfold alerted_terminated_except; keep. }
  intros o; cbv beta.
  destruct (bool_decide (obj_ops o ≠ async_ops)); [apply hoare_ret|].
  apply (hoare_bind _ (λ _, alerted_terminated_except None)).
  { unfold alerted_terminated_except; keep. }
  intros a; cbv beta.
  apply (hoare_bind _ (λ _, alerted_terminated_except None)).
  { unfold alerted_terminated_except; keep. }
  intros ?; cbv beta.
  destruct (Async.alerted a && (status =? STATUS_PENDING)).
  - eapply hoare_bind with (Q := λ _, alerted_terminated_except (Some obj)).
    { apply cell_upd_async; [|done]. intros p' a' Hne Ha' _. by apply Ha'. }
    intros ?; cbv beta.
    eapply hoare_bind with (Q := λ _, alerted_terminated_except None).
    { apply cell_upd_async; [|done].
      intros p' a' Hne Ha' _. apply Ha'. congruence. }
    intros ?; cbv beta. apply keep_async_reselect.
  - unfold alerted_terminated_except in *. keep.
Qed.

Lemma queue_async_keeps_flags queue async :
  hoare (alerted_terminated_except None) (queue_async queue async)
    (λ _, alerted_terminated_except None).
Proof. unfold queue_async, list_add_tail_queue, alerted_terminated_except. keep. Qed.

Lemma free_async_queue_entry_keeps_flags gc async :
  hoare (alerted_terminated_except None) (free_async_queue_entry gc async)
    (λ _, alerted_terminated_except None).
Proof.
  pose proof async_terminate_keeps_flags.
  unfold free_async_queue_entry, alerted_terminated_except in *. keep.
Qed.

Lemma alerted_terminated_all s :
  alerted_terminated s ↔ alerted_terminated_except None s.
Proof.
  split; [intros Hs p a Ha _; exact (Hs p a Ha)
         |intros Hs p a Ha; by apply (Hs p a Ha)].
Qed.

Lemma exec_all_keeps_flags q ops :
  hoare alerted_terminated (exec_all q ops) (λ _, alerted_terminated).
Proof.
  eapply hoare_weaken;
    [intros s; apply alerted_terminated_all
    |intros ? s; apply alerted_terminated_all|].
  apply keep_exec_all.
  - apply alerted_terminated_core_only.
  - apply async_terminate_keeps_flags.
  - apply async_set_result_keeps_flags.
  - apply queue_async_keeps_flags.
  - apply free_async_queue_entry_keeps_flags.
Qed.

Lemma alerted_terminated_check s :
  map_Forall (λ _ o, flags_ok o = true) (objects s) → alerted_terminated s.
Proof.
  intros Hall p a Ha Hal. specialize (Hall p _ Ha). simpl in Hall.
  rewrite Hal in Hall. done.
Qed.

(** ** C1 and C5 *)

(** C1, as stated, fails: the sample async is on no queue and has its fd;
    after [queue_async 50 10] it is on queue 50 and its [fd] is still the
    fd 30, not null. *)
Lemma queue_async_keeps_fd_counterexample :
  fd_null_iff_queued sample_async = true ∧
  ∃ s1 a1,
    queue_async 50 10 sample_server = Done tt s1 ∧
    objects s1 !! 10 = Some (ObjAsync a1) ∧
    queue_list 50 s1 = [10] ∧
    Async.queue a1 = Some 50 ∧
    Async.fd a1 = Some 30 ∧
    fd_null_iff_queued a1 = false.
Proof.
  split; [reflexivity|].
  exists queued_server, (Async.set_queue (Some 50) sample_async).
  repeat split; reflexivity.
Qed.

(** C1, amended.  (a) [queue_async queue async], on an async that holds
    its fd, sets the queue pointer, appends the async at the tail of the
    queue and leaves [fd] as it is, so not null.  (b) Along every sequence
    of operations of the core that completes, an async with a null [fd] is
    on no queue: a queued async keeps a non-null [fd].  (c) The final
    branch of [async_set_result] on a queued async, and (d)
    [free_async_queue] for every async of the queue, leave both [fd] and
    the queue pointer null. *)
Theorem queued_async_keeps_fd q :
  (∀ s queue async a fd,
     objects s !! async = Some (ObjAsync a) →
     Async.fd a = Some fd →
     ∃ s1 a1,
       queue_async queue async s = Done tt s1 ∧
       objects s1 !! async = Some (ObjAsync a1) ∧
       Async.queue a1 = Some queue ∧
       Async.fd a1 = Some fd ∧
       queue_list queue s1 = queue_list queue s ++ [async]) ∧
  (∀ ops s s',
     null_fd_unqueued s →
     exec_all q ops s = Done tt s' →
     null_fd_unqueued s') ∧
  (∀ s obj a status total s',
     objects s !! obj = Some (ObjAsync a) →
     is_Some (Async.queue a) →
     Async.alerted a && (status =? STATUS_PENDING) = false →
     async_set_result (q_fd_get_completion q) obj status total s = Done tt s' →
     detached obj s') ∧
  (∀ s queue s',
     free_async_queue (q_fd_get_completion q) queue s = Done tt s' →
     ∀ p, p ∈ queue_list queue s → detached p s').
Proof.
  split; [|split; [|split]].
  - intros s queue async a fd Ha Hfd.
    eexists _, _. split; [by apply queue_async_run|].
    simpl. rewrite lookup_insert_eq. split; [done|].
    split; [done|]. split; [done|].
    unfold queue_list. simpl. by rewrite lookup_insert_eq.
  - intros ops s s' Hs Hrun.
    pose proof (exec_all_keeps_fd q ops s Hs) as Hend. by rewrite Hrun in Hend.
  - intros s obj a status total s' Ha Hq Hfinal Hrun.
    pose proof (async_set_result_detaches (q_fd_get_completion q) s obj a status
                  total Ha Hq Hfinal) as Hend.
    by rewrite Hrun in Hend.
  - intros s queue s' Hrun.
    pose proof (free_async_queue_detaches (q_fd_get_completion q) queue s) as Hend.
    by rewrite Hrun in Hend.
Qed.

Lemma queued_async_keeps_fd_witness :
  (∃ s1 a1,
     queue_async 50 10 sample_server = Done tt s1 ∧
     objects s1 !! 10 = Some (ObjAsync a1) ∧
     Async.queue a1 = Some 50 ∧
     Async.fd a1 = Some 30 ∧
     queue_list 50 s1 = queue_list 50 sample_server ++ [10]) ∧
  null_fd_unqueued (final_state (exec_all sample_queries lifecycle) sample_server) ∧
  detached 10
    (final_state (async_set_result (λ _, (None, 0)) 10 0 0)
       (final_state (async_terminate 10 0) queued_server)) ∧
  (∀ p, p ∈ queue_list 50 queued_server →
        detached p
          (final_state (free_async_queue (λ _, (None, 0)) 50) queued_server)).
Proof.
  destruct (queued_async_keeps_fd sample_queries) as (Ha & Hb & Hc & Hd).
  split; [|split; [|split]].
  - apply (Ha sample_server 50 10 sample_async 30); reflexivity.
  - apply (Hb lifecycle sample_server).
    + apply null_fd_unqueued_check, (bool_decide_unpack _). vm_compute. exact I.
    + vm_compute. reflexivity.
  - apply (Hc (final_state (async_terminate 10 0) queued_server) 10
              (Async.set_terminated true (Async.set_queue (Some 50) sample_async))
              0 0).
    + reflexivity.
    + by eexists.
    + reflexivity.
    + vm_compute. reflexivity.
  - apply (Hd queued_server 50). vm_compute. reflexivity.
Defined.

(** C5: [async_set_result] with status PENDING on an alerted async
    restarts it.  (a) In a state where every alerted async is terminated,
    for an async with [alerted] set: [terminated] and [alerted] are cleared
    and nothing else changes in the async (same iosb pointer, same queue
    pointer), in the other objects, in the queues or in the process lists;
    the only collaborator call is the [fd_reselect_async] of
    [async_reselect], made when the async has both a queue and an fd: no
    APC, no completion, no event, no wake-up, no callback, no detach.
    (b) After [async_terminate (ALERTED)] on an async that was neither
    terminated nor alerted, the restart gives back the async exactly as it
    was before the termination, queues included.  (c) Every sequence of
    operations of the core that completes keeps every alerted async
    terminated, so the assertion of [async_set_result] holds in (a). *)
Theorem async_set_result_restart q :
  (∀ s obj a total,
     alerted_terminated s →
     objects s !! obj = Some (ObjAsync a) →
     Async.alerted a = true →
     ∃ s1,
       async_set_result (q_fd_get_completion q) obj STATUS_PENDING total s
       = Done tt s1 ∧
       objects s1 = <[obj := ObjAsync (Async.set_alerted false
                                         (Async.set_terminated false a))]>
                      (objects s) ∧
       queues s1 = queues s ∧
       process_asyncs s1 = process_asyncs s ∧
       error s1 = error s ∧
       calls s1 = calls s ++
         match Async.queue a, Async.fd a with
         | Some queue, Some fd => [Call_fd_reselect_async fd queue]
         | _, _ => []
         end) ∧
  (∀ s obj a io total,
     objects s !! obj = Some (ObjAsync a) →
     Async.alerted a = false → Async.terminated a = false →
     iosb_of s a = Some io →
     ∃ s1 s2,
       async_terminate obj STATUS_ALERTED s = Done tt s1 ∧
       async_set_result (q_fd_get_completion q) obj STATUS_PENDING total s1
       = Done tt s2 ∧
       objects s2 !! obj = Some (ObjAsync a) ∧
       queues s2 = queues s ∧
       process_asyncs s2 = process_asyncs s) ∧
  (∀ ops s s',
     alerted_terminated s →
     exec_all q ops s = Done tt s' →
     alerted_terminated s').
Proof.
  split; [|split].
  - intros s obj a total Hs H Hal.
    pose proof (Hs obj a H Hal) as Ht.
    eexists. split; [by apply restart_branch_run|]. by destruct s.
  - intros s obj a io total H Hal Ht Hio.
    eexists _, _. split; [by apply async_terminate_live|].
    split.
    + apply restart_branch_run.
      * apply terminated_state_lookup.
      * apply terminated_async_terminated.
      * done.
    + simpl. rewrite lookup_insert_eq, restart_restores_async by done.
      by destruct s.
  - intros ops s s' Hs Hrun.
    pose proof (exec_all_keeps_flags q ops s Hs) as Hend.
    by rewrite Hrun in Hend.
Qed.

Lemma async_set_result_restart_witness :
  (∃ s1,
     async_set_result (λ _, (None, 0)) 10 STATUS_PENDING 0 alerted_server
     = Done tt s1 ∧
     objects s1 = <[10 := ObjAsync (Async.set_alerted false
                                      (Async.set_terminated false alerted_async))]>
                    (objects alerted_server) ∧
     queues s1 = queues alerted_server ∧
     process_asyncs s1 = process_asyncs alerted_server ∧
     error s1 = error alerted_server ∧
     calls s1 = calls alerted_server ++ []) ∧
  (∃ s1 s2,
     async_terminate 10 STATUS_ALERTED sample_server = Done tt s1 ∧
     async_set_result (λ _, (None, 0)) 10 STATUS_PENDING 0 s1 = Done tt s2 ∧
     objects s2 !! 10 = Some (ObjAsync sample_async) ∧
     queues s2 = queues sample_server ∧
     process_asyncs s2 = process_asyncs sample_server) ∧
  alerted_terminated
    (final_state (exec_all sample_queries restart_lifecycle) sample_server).
Proof.
  destruct (async_set_result_restart sample_queries) as (Ha & Hb & Hc).
  split; [|split].
  - apply (Ha alerted_server 10 alerted_async 0).
    + apply alerted_terminated_check, (bool_decide_unpack _). vm_compute. exact I.
    + reflexivity.
    + reflexivity.
  - apply (Hb sample_server 10 sample_async (Some (20, sample_iosb)) 0);
      reflexivity.
  - apply (Hc restart_lifecycle sample_server).
    + apply alerted_terminated_check, (bool_decide_unpack _). vm_compute. exact I.
    + vm_compute. reflexivity.
Defined.

(** ** The iosb of an async across heap updates *)

Lemma iosb_of_cases s a io :
  iosb_of s a = Some io →
  (Async.iosb a = None ∧ io = None) ∨
  ∃ i io0, Async.iosb a = Some i ∧ objects s !! i = Some (ObjIosb io0) ∧
           io = Some (i, io0).
Proof.
  unfold iosb_of. destruct (Async.iosb a) as [i|]; [|intros [= <-]; by left].
  destruct (objects s !! i) as [[| io0 |]|] eqn:Hobj; try done.
  intros [= <-]. right. by exists i, io0.
Qed.

Lemma iosb_of_Some s a i io0 :
  Async.iosb a = Some i → objects s !! i = Some (ObjIosb io0) →
  iosb_of s a = Some (Some (i, io0)).
Proof. intros Hi Hio. unfold iosb_of. by rewrite Hi, Hio. Qed.

(** A write to an async leaves every iosb where it is. *)
Lemma iosb_of_frame s s' a a' p b b' io :
  iosb_of s a = Some io →
  Async.iosb a' = Async.iosb a →
  objects s !! p = Some (ObjAsync b) →
  objects s' = <[p := ObjAsync b']> (objects s) →
  iosb_of s' a' = Some io.
Proof.
  intros Hio Hi Hp Hs'. unfold iosb_of in *. rewrite Hi, Hs'.
  destruct (Async.iosb a) as [i|]; [|done].
  destruct (objects s !! i) as [[| io0 |]|] eqn:Hobj; try done.
  assert (p ≠ i) by eauto using async_iosb_distinct.
  rewrite lookup_insert_ne by done. by rewrite Hobj.
Qed.

Lemma terminated_async_iosb status a :
  Async.iosb (terminated_async status a) = Async.iosb a.
Proof. unfold terminated_async. by destruct (status =? STATUS_ALERTED). Qed.

Lemma terminated_state_iosb_of s p a b status io :
  objects s !! p = Some (ObjAsync b) →
  iosb_of s a = Some io →
  iosb_of (terminated_state p a status io s) (terminated_async status a)
  = Some ((λ x, (x.1, terminated_iosb status x.2)) <$> io).
Proof.
  intros Ha Hio. unfold iosb_of. rewrite terminated_async_iosb.
  destruct (iosb_of_cases _ _ _ Hio) as [[Hi ->]|(i & io0 & Hi & Hobj & ->)];
    rewrite Hi; [done|].
  assert (p ≠ i) by eauto using async_iosb_distinct.
  unfold terminated_state. simpl.
  rewrite lookup_insert_ne by done. by rewrite lookup_insert_eq.
Qed.

Lemma terminated_state_iosb_lookup s p a b status i io0 :
  objects s !! p = Some (ObjAsync b) →
  objects s !! i = Some (ObjIosb io0) →
  objects (terminated_state p a status (Some (i, io0)) s) !! i
  = Some (ObjIosb (terminated_iosb status io0)).
Proof.
  intros Ha Hi. assert (p ≠ i) by eauto using async_iosb_distinct.
  unfold terminated_state. simpl.
  rewrite lookup_insert_ne by done. by rewrite lookup_insert_eq.
Qed.

Lemma sample_reset_event_action ev :
  collaborator_action (sample_reset_event ev).
Proof.
  intros s. exists []. destruct s. unfold sample_reset_event, set_calls.
  simpl. by rewrite app_nil_r.
Qed.

Lemma async_get_iosb_run s async a i :
  objects s !! async = Some (ObjAsync a) →
  Async.iosb a = Some i →
  async_get_iosb async s
  = Done (Some i) (set_calls (calls s ++ [Call_grab_object i]) s).
Proof.
  intros Ha Hi. unfold async_get_iosb.
  rewrite bind_run, (get_async_run _ _ _ Ha), Hi. reflexivity.
Qed.

(** X1: async_request_complete on a live async whose iosb is still PENDING
    stores status, result, out_size and out_data in the iosb and terminates
    the async with that status; queues, process lists and last error are
    unchanged. The only APC queued is the APC_ASYNC_IO one, absent when
    direct_result is set, with status ALERTED when result is non-zero or
    out_data is non-null and the given status otherwise. *)
Theorem async_request_complete_installs s async a i io status result out_size
    out_data :
  objects s !! async = Some (ObjAsync a) →
  Async.terminated a = false →
  Async.iosb a = Some i →
  objects s !! i = Some (ObjIosb io) →
  Iosb.status io = STATUS_PENDING →
  ∃ s1 new,
    async_request_complete async status result out_size out_data s = Done tt s1 ∧
    objects s1
    = <[async := ObjAsync (terminated_async status a)]>
        (<[i := ObjIosb
                  {| Iosb.status := status; Iosb.result := result;
                     Iosb.in_size := Iosb.in_size io;
                     Iosb.in_data := Iosb.in_data io;
                     Iosb.out_size := out_size;
                     Iosb.out_data := out_data |}]> (objects s)) ∧
    queues s1 = queues s ∧
    process_asyncs s1 = process_asyncs s ∧
    error s1 = error s ∧
    calls s1 = calls s ++ new ∧
    filter is_apc new =
      if Async.direct_result a then []
      else [async_io_apc async a
              (if negb (result =? 0) || non_null out_data
               then STATUS_ALERTED else status)].
Proof.
  intros Ha Ht Hi Hio Hst.
  assert (Hne : async ≠ i) by eauto using async_iosb_distinct.
  set (io' := {| Iosb.status := status; Iosb.result := result;
                 Iosb.in_size := Iosb.in_size io;
                 Iosb.in_data := Iosb.in_data io;
                 Iosb.out_size := out_size;
                 Iosb.out_data := out_data |}).
  set (s0 := set_calls (calls s ++ [Call_grab_object i; Call_release_object i])
               (set_objects (<[i := ObjIosb io']> (objects s)) s)).
  assert (Ha0 : objects s0 !! async = Some (ObjAsync a)).
  { unfold s0. simpl. by rewrite lookup_insert_ne. }
  assert (Hio0 : iosb_of s0 a = Some (Some (i, io'))).
  { unfold iosb_of, s0. rewrite Hi. simpl. by rewrite lookup_insert_eq. }
  assert (Hrun : async_request_complete async status result out_size out_data s
                 = async_terminate async status s0).
  { unfold async_request_complete.
    rewrite bind_run, (async_get_iosb_run _ _ _ _ Ha Hi).
    destruct s as [objs qs ps cur err rms rs cs]; simpl in *.
    run. rewrite Hst. simpl. run.
    f_equal. unfold s0, io'. sim. f_equal.
    - by rewrite !insert_insert_eq.
    - by rewrite <- app_assoc. }
  rewrite Hrun, (async_terminate_live _ _ _ _ _ Ha0 Ht Hio0).
  eexists _, _. split; [reflexivity|].
  unfold terminated_state. simpl.
  split.
  { f_equal. rewrite insert_insert_eq. f_equal. f_equal.
    unfold terminated_iosb, io'. simpl.
    by destruct (status =? STATUS_PENDING). }
  split; [done|]. split; [done|]. split; [done|]. split.
  { rewrite <- app_assoc. reflexivity. }
  rewrite filter_app. simpl.
  unfold terminate_calls, reselect_calls, async_io_apc, apc_status. simpl.
  destruct (Async.direct_result a), (Async.queue a), (Async.fd a); reflexivity.
Qed.

Lemma async_request_complete_installs_witness :
  ∃ (s1 : server) (new : list call),
    async_request_complete 10 0 4 4 (Some [1; 2; 3; 4]) sample_server =
    Done () s1
  ∧ objects s1 =
    <[10:=ObjAsync (terminated_async 0 sample_async)]>
    (<[20:=ObjIosb
        {|
          Iosb.status := 0;
          Iosb.result := 4;
          Iosb.in_size := Iosb.in_size sample_iosb;
          Iosb.in_data := Iosb.in_data sample_iosb;
          Iosb.out_size := 4;
          Iosb.out_data := Some [1; 2; 3; 4]
        |}]>
      (objects sample_server))
  ∧ queues s1 = queues sample_server
  ∧ process_asyncs s1 = process_asyncs sample_server
  ∧ error s1 = error sample_server
  ∧ calls s1 = calls sample_server ++ new
  ∧ filter (λ c : call, is_apc c) new =
    (if Async.direct_result sample_async
      then []
      else
      [async_io_apc 10 sample_async
        (if negb (4 =? 0) || non_null (Some [1; 2; 3; 4])
          then STATUS_ALERTED
          else 0)]).
Proof.
  apply (async_request_complete_installs sample_server 10 sample_async 20
           sample_iosb 0 4 4 (Some [1; 2; 3; 4])).
  - reflexivity.
  - reflexivity.
  - reflexivity.
  - reflexivity.
  - reflexivity.
Defined.

(** X2: async_request_complete on an async whose iosb is no longer PENDING
    only takes and drops a reference on the iosb and frees out_data; the
    iosb keeps what it holds. This is what a completion gets that arrives
    after the live async was terminated with a status other than PENDING. *)
Theorem async_request_complete_discards s async a i io st status result
    out_size out_data :
  objects s !! async = Some (ObjAsync a) →
  Async.iosb a = Some i →
  objects s !! i = Some (ObjIosb io) →
  (Iosb.status io ≠ STATUS_PENDING →
   async_request_complete async status result out_size out_data s
   = Done tt (set_calls (calls s ++ [Call_grab_object i; Call_release_object i;
                                      Call_free out_data]) s)) ∧
  (Async.terminated a = false → Iosb.status io = STATUS_PENDING →
   st ≠ STATUS_PENDING →
   ∃ s1,
     async_terminate async st s = Done tt s1 ∧
     objects s1 !! i = Some (ObjIosb (Iosb.set_status st io)) ∧
     async_request_complete async status result out_size out_data s1
     = Done tt (set_calls (calls s1 ++ [Call_grab_object i; Call_release_object i;
                                         Call_free out_data]) s1)).
Proof.
  intros Ha Hi Hio.
  assert (Hgen : ∀ s a io,
    objects s !! async = Some (ObjAsync a) →
    Async.iosb a = Some i →
    objects s !! i = Some (ObjIosb io) →
    Iosb.status io ≠ STATUS_PENDING →
    async_request_complete async status result out_size out_data s
    = Done tt (set_calls (calls s ++ [Call_grab_object i; Call_release_object i;
                                       Call_free out_data]) s)).
  { clear. intros s a io Ha Hi Hio Hst. unfold async_request_complete.
    rewrite bind_run, (async_get_iosb_run _ _ _ _ Ha Hi).
    apply Z.eqb_neq in Hst.
    destruct s as [objs qs ps cur err rms rs cs]; simpl in *.
    run. by rewrite <- !app_assoc. }
  split; [by apply (Hgen s a io)|].
  intros Ht Hst Hne.
  assert (Hio' : iosb_of s a = Some (Some (i, io))).
  { unfold iosb_of. by rewrite Hi, Hio. }
  assert (Hai : async ≠ i) by eauto using async_iosb_distinct.
  eexists. split; [by apply async_terminate_live|].
  assert (Hi1 : objects (terminated_state async a st (Some (i, io)) s) !! i
                = Some (ObjIosb (Iosb.set_status st io))).
  { unfold terminated_state, terminated_iosb. simpl.
    rewrite lookup_insert_ne by done. rewrite lookup_insert_eq.
    apply Z.eqb_eq in Hst. by rewrite Hst. }
  split; [done|].
  eapply Hgen; [apply terminated_state_lookup| |exact Hi1|done].
  unfold terminated_async. by destruct (st =? STATUS_ALERTED).
Qed.

Lemma async_request_complete_discards_witness :
  (Iosb.status sample_iosb ≠ STATUS_PENDING
    → async_request_complete 10 0 4 4 (Some [1; 2; 3; 4]) sample_server =
      Done ()
      (set_calls
        (calls sample_server ++
          [Call_grab_object 20; Call_release_object 20;
            Call_free (Some [1; 2; 3; 4])])
        sample_server))
  ∧ (Async.terminated sample_async = false
    → Iosb.status sample_iosb = STATUS_PENDING
    → STATUS_CANCELLED ≠ STATUS_PENDING
    → ∃ s1 : server,
      async_terminate 10 STATUS_CANCELLED sample_server = Done () s1
    ∧ objects s1 !! 20 =
      Some (ObjIosb (Iosb.set_status STATUS_CANCELLED sample_iosb))
    ∧ async_request_complete 10 0 4 4 (Some [1; 2; 3; 4]) s1 =
      Done ()
      (set_calls
        (calls s1 ++
          [Call_grab_object 20; Call_release_object 20;
            Call_free (Some [1; 2; 3; 4])])
        s1)).
Proof.
  apply (async_request_complete_discards sample_server 10 sample_async 20
           sample_iosb STATUS_CANCELLED 0 4 4 (Some [1; 2; 3; 4])).
  - reflexivity.
  - reflexivity.
  - reflexivity.
Defined.

Lemma set_async_pending_run s async a signal :
  objects s !! async = Some (ObjAsync a) →
  Async.terminated a = false →
  set_async_pending async signal s
  = Done tt
      (set_calls
         (calls s ++ if negb (signal =? 0) && negb (Async.signaled a)
                     then [Call_wake_up async 0] else [])
         (set_objects
            (<[async := ObjAsync
                 (Async.set_signaled
                    (Async.signaled a || negb (signal =? 0))
                    (Async.set_unknown_status false
                       (Async.set_pending true a)))]> (objects s)) s)).
Proof.
  intros Ha Ht. unfold set_async_pending.
  destruct s as [objs qs ps cur err rms rs cs]; simpl in *.
  destruct (signal =? 0) eqn:Hs, (Async.signaled a) eqn:Hsig; run; simpl.
  all: rewrite ?app_nil_r; f_equal; f_equal; rewrite ?insert_insert_eq;
    f_equal; f_equal; destruct a; simpl in *; by subst.
Qed.

(** X3: set_async_pending does nothing on a terminated async. On a live one
    it sets pending, clears unknown_status and changes nothing else, except
    that when signal is non-zero and the async was not yet signaled it sets
    signaled and wakes the waiters once; with signal zero, or on an async
    already signaled, the signaled flag is as before and no call is made. A
    second call with the same argument changes nothing. *)
Theorem set_async_pending_once s async a signal :
  objects s !! async = Some (ObjAsync a) →
  (Async.terminated a = true → set_async_pending async signal s = Done tt s) ∧
  ∃ s1 a1 new,
    set_async_pending async signal s = Done tt s1 ∧
    objects s1 !! async = Some (ObjAsync a1) ∧
    calls s1 = calls s ++ new ∧
    (length new ≤ 1)%nat ∧
    (Async.terminated a = false →
     Async.pending a1 = true ∧ Async.unknown_status a1 = false ∧
     (signal ≠ 0 → Async.signaled a1 = true) ∧
     (new = [Call_wake_up async 0] ↔ signal ≠ 0 ∧ Async.signaled a = false) ∧
     (signal = 0 → Async.signaled a1 = Async.signaled a ∧ new = []) ∧
     (Async.signaled a = true → new = []) ∧
     a1 = Async.set_signaled (Async.signaled a || negb (signal =? 0))
            (Async.set_unknown_status false (Async.set_pending true a)) ∧
     objects s1 = <[async := ObjAsync a1]> (objects s) ∧
     queues s1 = queues s ∧ process_asyncs s1 = process_asyncs s ∧
     error s1 = error s) ∧
    set_async_pending async signal s1 = Done tt s1.
Proof.
  intros Ha.
  assert (Hdone : Async.terminated a = true →
                  set_async_pending async signal s = Done tt s).
  { intros Ht. unfold set_async_pending.
    rewrite bind_run, (get_async_run _ _ _ Ha), Ht. done. }
  split; [done|].
  destruct (Async.terminated a) eqn:Ht.
  { exists s, a, []. rewrite Hdone by done.
    split; [done|]. split; [done|]. split; [by rewrite app_nil_r|].
    split; [simpl; lia|]. split; [done|]. done. }
  rewrite (set_async_pending_run _ _ _ _ Ha Ht).
  eexists _, _, _. split; [reflexivity|].
  split; [simpl; apply lookup_insert_eq|]. split; [reflexivity|].
  split; [destruct (negb (signal =? 0) && negb (Async.signaled a)); simpl; lia|].
  split.
  { intros _. simpl. split; [done|]. split; [done|]. split.
    { intros Hs. apply Z.eqb_neq in Hs. rewrite Hs. apply orb_true_r. }
    split.
    { destruct (Z.eqb_spec signal 0), (Async.signaled a); simpl; split;
        try done; try (intros [? ?]; done); try (intros; split; done). }
    split.
    { intros ->. simpl. by rewrite orb_false_r. }
    split; [by intros ->; rewrite andb_false_r|].
    done. }
  erewrite set_async_pending_run; [|simpl; apply lookup_insert_eq|done].
  destruct s as [objs qs ps cur err rms rs cs]; sim.
  f_equal. f_equal.
  - rewrite insert_insert_eq. f_equal. f_equal.
    by destruct (Async.signaled a), (signal =? 0).
  - rewrite <- app_assoc. f_equal.
    destruct (Async.signaled a), (signal =? 0); simpl; by rewrite ?app_nil_r.
Qed.

Lemma set_async_pending_once_witness :
  (Async.terminated sample_async = true
    → set_async_pending 10 1 sample_server = Done () sample_server)
  ∧ ∃ (s1 : server) (a1 : Async.t) (new : list call),
    set_async_pending 10 1 sample_server = Done () s1
  ∧ objects s1 !! 10 = Some (ObjAsync a1)
  ∧ calls s1 = calls sample_server ++ new
  ∧ (length new <= 1)%nat
  ∧ (Async.terminated sample_async = false
    → Async.pending a1 = true
    ∧ Async.unknown_status a1 = false
    ∧ (1 ≠ 0 → Async.signaled a1 = true)
    ∧ (new = [Call_wake_up 10 0]
      ↔ 1 ≠ 0 ∧ Async.signaled sample_async = false)
    ∧ (1 = 0
      → Async.signaled a1 = Async.signaled sample_async
      ∧ new = [])
    ∧ (Async.signaled sample_async = true → new = [])
    ∧ a1 =
      Async.set_signaled
      (Async.signaled sample_async || negb (1 =? 0))
      (Async.set_unknown_status false
        (Async.set_pending true sample_async))
    ∧ objects s1 =
      <[10:=ObjAsync a1]> (objects sample_server)
    ∧ queues s1 = queues sample_server
    ∧ process_asyncs s1 =
      process_asyncs sample_server
    ∧ error s1 = error sample_server)
  ∧ set_async_pending 10 1 s1 = Done () s1.
Proof.
  apply (set_async_pending_once sample_server 10 sample_async 1).
  - reflexivity.
Defined.

Lemma find_pending_async_scan_run s entries :
  all_asyncs s entries = true →
  find_pending_async_scan entries s
  = Done (first_pending s entries)
      match first_pending s entries with
      | Some p => set_calls (calls s ++ [Call_grab_object p]) s
      | None => s
      end.
Proof.
  unfold first_pending, all_asyncs.
  induction entries as [|p next IH]; [done|].
  simpl. intros Hall. apply andb_true_iff in Hall as [Hp Hnext].
  unfold is_async_at in Hp.
  destruct (objects s !! p) as [[a| |]|] eqn:Ha; try done.
  rewrite bind_run, (get_async_run _ _ _ Ha).
  assert (Hpa : is_pending_at s p = negb (Async.terminated a)).
  { unfold is_pending_at, async_at. by rewrite Ha. }
  destruct (Async.terminated a) eqn:Ht; simpl.
  - rewrite filter_cons_False by (rewrite Hpa; simpl; tauto). by apply IH.
  - rewrite filter_cons_True by (by rewrite Hpa). reflexivity.
Qed.

(** X4: On a queue of asyncs, find_pending_async returns the first entry in
    queue order that is not terminated and takes a reference on it; every
    entry before it is terminated. It returns NULL and changes nothing
    exactly when every entry is terminated. *)
Theorem find_pending_async_first s queue :
  all_asyncs s (queue_list queue s) = true →
  find_pending_async queue s
  = Done (first_pending s (queue_list queue s))
      match first_pending s (queue_list queue s) with
      | Some p => set_calls (calls s ++ [Call_grab_object p]) s
      | None => s
      end ∧
  (first_pending s (queue_list queue s) = None ↔
   ∀ p, p ∈ queue_list queue s → is_pending_at s p = false) ∧
  (∀ p, first_pending s (queue_list queue s) = Some p →
        ∃ before after,
          queue_list queue s = before ++ p :: after ∧
          is_pending_at s p = true ∧
          ∀ q, q ∈ before → is_pending_at s q = false).
Proof.
  intros Hall. split.
  { unfold find_pending_async. rewrite bind_run. unfold gets. cbn beta iota.
    by apply find_pending_async_scan_run. }
  unfold first_pending. generalize (queue_list queue s) as entries.
  clear Hall. intros entries. split.
  - induction entries as [|x next IH]; [by split; [intros _ p Hp; inversion Hp|]|].
    rewrite filter_cons. destruct (is_pending_at s x) eqn:Hx; simpl.
    + split; [done|]. intros H. specialize (H x (list_elem_of_here _ _)). congruence.
    + rewrite IH. split.
      * intros H p Hp. apply elem_of_cons in Hp as [->|Hp]; [done|by apply H].
      * intros H p Hp. apply H. by right.
  - induction entries as [|x next IH]; [done|].
    intros p. rewrite filter_cons. destruct (is_pending_at s x) eqn:Hx; simpl.
    + intros [= <-]. exists [], next. split; [done|]. split; [done|].
      intros q Hq. inversion Hq.
    + intros Hp. destruct (IH p Hp) as (before & after & -> & Hpp & Hb).
      exists (x :: before), after. split; [done|]. split; [done|].
      intros q Hq. apply elem_of_cons in Hq as [->|Hq]; [done|by apply Hb].
Qed.

Lemma find_pending_async_first_witness :
  find_pending_async 50 two_queued_server =
    Done (first_pending two_queued_server (queue_list 50 two_queued_server))
    match
    first_pending two_queued_server (queue_list 50 two_queued_server)
    with
    | Some p =>
    set_calls (calls two_queued_server ++ [Call_grab_object p])
    two_queued_server
    | None => two_queued_server
    end
  ∧ (first_pending two_queued_server (queue_list 50 two_queued_server) = None
    ↔ ∀ p : Z,
      p ∈ queue_list 50 two_queued_server
    → is_pending_at two_queued_server p = false)
  ∧ ∀ p : Z,
    first_pending two_queued_server (queue_list 50 two_queued_server) =
    Some p
  → ∃ before after : list Z,
    queue_list 50 two_queued_server = before ++ p :: after
  ∧ is_pending_at two_queued_server p = true
  ∧ ∀ q : Z,
    q ∈ before → is_pending_at two_queued_server q = false.
Proof.
  apply (find_pending_async_first two_queued_server 50).
  - reflexivity.
Defined.

(** X5: On a queue of asyncs, async_waiting changes nothing and answers for
    the head of the queue only: true exactly when the first entry is not
    terminated, false on an empty queue, and false when the head is
    terminated even if a later entry, which find_pending_async would return,
    is not. *)
Theorem async_waiting_looks_at_head s queue :
  all_asyncs s (queue_list queue s) = true →
  ∃ b,
    async_waiting queue s = Done b s ∧
    (b = true ↔
     ∃ p, head (queue_list queue s) = Some p ∧
          first_pending s (queue_list queue s) = Some p) ∧
    (queue_list queue s = [] → b = false) ∧
    (∀ p rest, queue_list queue s = p :: rest → is_pending_at s p = false →
       b = false ∧
       first_pending s (queue_list queue s) = first_pending s rest).
Proof.
  intros Hall. unfold async_waiting, first_pending.
  rewrite bind_run. unfold gets. cbn beta iota.
  destruct (queue_list queue s) as [|p rest] eqn:Hq.
  { exists false. split; [done|]. split; [|done].
    split; [done|]. by intros (p & ? & ?). }
  unfold all_asyncs in Hall. simpl in Hall.
  apply andb_true_iff in Hall as [Hp _]. unfold is_async_at in Hp.
  destruct (objects s !! p) as [[a| |]|] eqn:Ha; try done.
  rewrite bind_run, (get_async_run _ _ _ Ha).
  assert (Hpa : is_pending_at s p = negb (Async.terminated a)).
  { unfold is_pending_at, async_at. by rewrite Ha. }
  exists (negb (Async.terminated a)). split; [done|].
  rewrite filter_cons, Hpa.
  destruct (Async.terminated a); simpl.
  - split; [|split; [done|]].
    + split; [done|]. intros (q & [= <-] & Hf).
      apply head_Some_elem_of, list_elem_of_filter in Hf as [Hf _].
      rewrite Hpa in Hf. done.
    + intros p' rest' [= <- <-] _. done.
  - split; [|split; [done|]].
    + split; [|done]. intros _. by exists p.
    + intros p' rest' [= <- <-] Hf. by rewrite Hpa in Hf.
Qed.

Lemma async_waiting_looks_at_head_witness :
  ∃ b : bool,
    async_waiting 50 two_queued_server = Done b two_queued_server
  ∧ (b = true
    ↔ ∃ p : Z,
      head (queue_list 50 two_queued_server) = Some p
    ∧ first_pending two_queued_server (queue_list 50 two_queued_server) =
      Some p)
  ∧ (queue_list 50 two_queued_server = [] → b = false)
  ∧ ∀ (p : Z) (rest : list Z),
    queue_list 50 two_queued_server = p :: rest
  → is_pending_at two_queued_server p = false
  → b = false
  ∧ first_pending two_queued_server
    (queue_list 50 two_queued_server) =
    first_pending two_queued_server rest.
Proof.
  apply (async_waiting_looks_at_head two_queued_server 50).
  - reflexivity.
Defined.

Lemma valid_entry_iosb s p :
  valid_entry s p = true →
  ∃ a io, objects s !! p = Some (ObjAsync a) ∧ iosb_of s a = Some io.
Proof.
  unfold valid_entry. destruct (async_at s p) as [a|] eqn:Ha; [|done].
  intros Hv. apply async_at_Some in Ha. apply iosb_valid_of in Hv as [io Hio].
  eauto.
Qed.

Lemma terminated_state_valid_entry s0 p a status io q :
  objects s0 !! p = Some (ObjAsync a) →
  iosb_of s0 a = Some io →
  valid_entry s0 q = true →
  valid_entry (terminated_state p a status io s0) q = true.
Proof.
  intros H Hio. unfold valid_entry.
  destruct (decide (q = p)) as [->|Hne].
  - rewrite terminated_state_async_at.
    rewrite (proj2 (async_at_Some _ _ _) H).
    unfold iosb_valid.
    replace (Async.iosb (terminated_async status a)) with (Async.iosb a)
      by (unfold terminated_async; by destruct (status =? STATUS_ALERTED)).
    destruct (Async.iosb a); [|done].
    by rewrite terminated_state_is_iosb_at.
  - rewrite terminated_state_async_at_ne by done.
    destruct (async_at s0 q) as [b|]; [|done].
    unfold iosb_valid. destruct (Async.iosb b); [|done].
    by rewrite terminated_state_is_iosb_at.
Qed.

(** One [async_terminate] on a valid entry: it completes, the async is
    terminated afterwards, no async stops being terminated, the entries
    stay valid and the lists are untouched. *)
Lemma async_terminate_step s p status :
  valid_entry s p = true →
  ∃ s1,
    async_terminate p status s = Done tt s1 ∧
    queues s1 = queues s ∧
    process_asyncs s1 = process_asyncs s ∧
    is_pending_at s1 p = false ∧
    (∀ q, is_pending_at s q = false → valid_entry s q = true →
          is_pending_at s1 q = false) ∧
    (∀ q, valid_entry s q = true → valid_entry s1 q = true).
Proof.
  intros Hv. destruct (valid_entry_iosb _ _ Hv) as (a & io & Ha & Hio).
  destruct (Async.terminated a) eqn:Ht.
  - exists s. rewrite (async_terminate_done _ _ _ _ Ha Ht).
    split; [done|]. split; [done|]. split; [done|]. split; [|done].
    unfold is_pending_at. rewrite (proj2 (async_at_Some _ _ _) Ha), Ht. done.
  - exists (terminated_state p a status io s).
    rewrite (async_terminate_live _ _ _ _ _ Ha Ht Hio).
    split; [done|]. split; [done|]. split; [done|].
    assert (Hp : is_pending_at (terminated_state p a status io s) p = false).
    { unfold is_pending_at.
      by rewrite terminated_state_async_at, terminated_async_terminated. }
    split; [done|]. split.
    + intros q Hq _. destruct (decide (q = p)) as [->|Hne]; [done|].
      unfold is_pending_at. by rewrite terminated_state_async_at_ne.
    + intros q. by apply terminated_state_valid_entry.
Qed.

Lemma terminate_each_step entries status :
  ∀ s,
    valid_entries s entries = true →
    ∃ s1,
      terminate_each entries status s = Done tt s1 ∧
      queues s1 = queues s ∧
      process_asyncs s1 = process_asyncs s ∧
      (∀ q, q ∈ entries → is_pending_at s1 q = false) ∧
      (∀ q, is_pending_at s q = false → valid_entry s q = true →
            is_pending_at s1 q = false) ∧
      (∀ q, valid_entry s q = true → valid_entry s1 q = true).
Proof.
  unfold terminate_each, valid_entries.
  induction entries as [|p next IH]; intros s Hv.
  { exists s. repeat split; try done. intros q Hq. inversion Hq. }
  simpl in Hv. apply andb_true_iff in Hv as [Hp Hnext].
  destruct (async_terminate_step s p status Hp)
    as (s0 & Hrun & Hq0 & Hps0 & Hp0 & Hkeep0 & Hval0).
  destruct (IH s0) as (s1 & Hrun1 & Hq1 & Hps1 & Hall1 & Hkeep1 & Hval1).
  { rewrite forallb_forall in *. intros q Hq. apply Hval0. by apply Hnext. }
  exists s1. split; [simpl; by rewrite bind_run, Hrun|].
  split; [congruence|]. split; [congruence|]. split.
  { intros q Hq. apply elem_of_cons in Hq as [->|Hq]; [|by apply Hall1].
    apply Hkeep1; [done|by apply Hval0]. }
  split.
  - intros q Hq Hvq. apply Hkeep1; [by apply Hkeep0|by apply Hval0].
  - intros q Hvq. by apply Hval1, Hval0.
Qed.

Lemma valid_entries_all_asyncs s entries :
  valid_entries s entries = true → all_asyncs s entries = true.
Proof.
  unfold valid_entries, all_asyncs. rewrite !forallb_forall.
  intros H p Hp. specialize (H p Hp). unfold valid_entry, async_at in H.
  unfold is_async_at. by destruct (objects s !! p) as [[| |]|].
Qed.

Lemma async_waiting_false s queue :
  all_asyncs s (queue_list queue s) = true →
  (∀ p, head (queue_list queue s) = Some p → is_pending_at s p = false) →
  async_waiting queue s = Done false s.
Proof.
  intros Hall Hhead. unfold async_waiting.
  rewrite bind_run. unfold gets. cbn beta iota.
  destruct (queue_list queue s) as [|p rest]; [done|].
  unfold all_asyncs in Hall. simpl in Hall.
  apply andb_true_iff in Hall as [Hp _]. unfold is_async_at in Hp.
  destruct (objects s !! p) as [[a| |]|] eqn:Ha; try done.
  rewrite bind_run, (get_async_run _ _ _ Ha).
  specialize (Hhead p eq_refl). unfold is_pending_at, async_at in Hhead.
  rewrite Ha in Hhead. by rewrite Hhead.
Qed.

Lemma first_pending_none s entries :
  (∀ p, p ∈ entries → is_pending_at s p = false) →
  first_pending s entries = None.
Proof.
  unfold first_pending. induction entries as [|x next IH]; [done|].
  intros Hnone. rewrite filter_cons_False.
  - apply IH. intros p Hp. apply Hnone. by right.
  - rewrite (Hnone x (list_elem_of_here _ _)). simpl. tauto.
Qed.

Lemma find_pending_async_none s queue :
  all_asyncs s (queue_list queue s) = true →
  (∀ p, p ∈ queue_list queue s → is_pending_at s p = false) →
  find_pending_async queue s = Done None s.
Proof.
  intros Hall Hnone. unfold find_pending_async.
  rewrite bind_run. unfold gets. cbn beta iota.
  rewrite (find_pending_async_scan_run _ _ Hall).
  by rewrite (first_pending_none _ _ Hnone).
Qed.

Lemma async_wake_up_run queue status s :
  async_wake_up queue status s
  = terminate_each (wake_up_targets (queue_list queue s) status) status s.
Proof.
  unfold async_wake_up, wake_up_targets. rewrite bind_run. unfold gets.
  destruct (status =? STATUS_ALERTED) eqn:Hs.
  - destruct (queue_list queue s) as [|async next]; [done|].
    simpl. unfold terminate_each. simpl. by rewrite Hs.
  - by apply wake_up_loop_all.
Qed.

(** X6: On a queue of asyncs whose iosb pointers are valid: after
    async_wake_up, whatever the status, the queue holds the same entries and
    async_waiting answers false. With a status other than ALERTED no async
    of the queue is left unterminated and find_pending_async returns NULL. *)
Theorem async_wake_up_leaves_none_waiting s queue status :
  valid_entries s (queue_list queue s) = true →
  ∃ s1,
    async_wake_up queue status s = Done tt s1 ∧
    queue_list queue s1 = queue_list queue s ∧
    async_waiting queue s1 = Done false s1 ∧
    (status ≠ STATUS_ALERTED →
     (∀ p, p ∈ queue_list queue s → is_pending_at s1 p = false) ∧
     find_pending_async queue s1 = Done None s1).
Proof.
  intros Hv.
  pose proof (async_wake_up_run queue status s) as Hfifo.
  set (targets := wake_up_targets (queue_list queue s) status) in *.
  assert (Hvt : valid_entries s targets = true).
  { unfold targets, wake_up_targets, valid_entries in *.
    destruct (status =? STATUS_ALERTED); [|done].
    rewrite forallb_forall in *. intros p Hp. apply Hv.
    apply list_elem_of_In. apply list_elem_of_In in Hp.
    by apply (subseteq_take 1). }
  destruct (terminate_each_step targets status s Hvt)
    as (s1 & Hrun & Hq & Hps & Hall & Hkeep & Hval).
  exists s1. rewrite Hfifo. split; [done|].
  assert (Hlist : queue_list queue s1 = queue_list queue s)
    by (unfold queue_list; by rewrite Hq).
  split; [done|].
  assert (Hv1 : all_asyncs s1 (queue_list queue s1) = true).
  { apply valid_entries_all_asyncs.
    rewrite Hlist. unfold valid_entries in *. rewrite forallb_forall in *.
    intros p Hp. by apply Hval, Hv. }
  split.
  - apply async_waiting_false; [done|].
    intros p Hp. apply Hall. rewrite Hlist in Hp.
    unfold targets, wake_up_targets.
    destruct (queue_list queue s) as [|x rest]; [done|].
    injection Hp as ->.
    destruct (status =? STATUS_ALERTED); simpl; left.
  - intros Hst.
    assert (Hnone : ∀ p, p ∈ queue_list queue s → is_pending_at s1 p = false).
    { intros p Hp. apply Hall. unfold targets, wake_up_targets.
      apply Z.eqb_neq in Hst. by rewrite Hst. }
    split; [done|].
    apply find_pending_async_none; [done|]. by rewrite Hlist.
Qed.

Lemma async_wake_up_leaves_none_waiting_witness :
  ∃ s1 : server,
    async_wake_up 50 STATUS_CANCELLED two_queued_server = Done () s1
  ∧ queue_list 50 s1 = queue_list 50 two_queued_server
  ∧ async_waiting 50 s1 = Done false s1
  ∧ (STATUS_CANCELLED ≠ STATUS_ALERTED
    → (∀ p : Z,
        p ∈ queue_list 50 two_queued_server
      → is_pending_at s1 p = false)
    ∧ find_pending_async 50 s1 = Done None s1).
Proof.
  apply (async_wake_up_leaves_none_waiting two_queued_server 50
           STATUS_CANCELLED).
  - reflexivity.
Defined.

(** ** Steps that leave the lists alone *)

Lemma lists_modify (P : server → Prop) g :
  lists_only P →
  (∀ s, queues (g s) = queues s ∧ process_asyncs (g s) = process_asyncs s) →
  hoare P (modify g) (λ _, P).
Proof.
  intros HP Hg s Hs. simpl. destruct (Hg s) as [Hq Hp].
  by apply (HP s (g s)).
Qed.

Lemma lists_upd_async (P : server → Prop) p f :
  lists_only P → hoare P (upd_async p f) (λ _, P).
Proof.
  intros HP s Hs. unfold upd_async, get_async. rewrite bind_run.
  destruct (objects s !! p) as [[a| |]|]; try done.
  simpl. by apply (HP s).
Qed.

Lemma lists_upd_iosb (P : server → Prop) p f :
  lists_only P → hoare P (upd_iosb p f) (λ _, P).
Proof.
  intros HP s Hs. unfold upd_iosb, get_iosb. rewrite bind_run.
  destruct (objects s !! p) as [[| i |]|]; try done.
  simpl. by apply (HP s).
Qed.

Ltac lists1 :=
  first
    [ solve [ auto 2 with nocore ]
    | lazymatch goal with
      | |- hoare ?P (mbind _ _) (λ _, ?P) =>
          apply (hoare_bind P (λ _, P) (λ _, P)); [|intros ?]
      | |- hoare ?P (mret _) _ => apply hoare_ret
      | |- hoare _ (crash _) _ => apply hoare_crash
      | |- hoare ?P (when _ _) _ => apply hoare_when
      | |- hoare ?P (assert _) _ => apply hoare_assert
      | |- hoare ?P (deref _) _ => apply hoare_deref
      | |- hoare ?P (gets _) _ => apply hoare_gets
      | |- hoare ?P get_error _ => apply hoare_gets
      | |- hoare ?P (get_async _) _ => apply hoare_get_async
      | |- hoare ?P (get_iosb _) _ => apply hoare_get_iosb
      | |- hoare ?P (get_object _) _ => apply hoare_get_object
      | |- hoare _ (emit _) _ => apply lists_modify; [assumption|done]
      | |- hoare _ (set_error _) _ => apply lists_modify; [assumption|done]
      | |- hoare _ (modify _) _ => apply lists_modify; [assumption|done]
      | |- hoare _ (upd_iosb _ _) _ => apply lists_upd_iosb; assumption
      | |- hoare _ (upd_async _ _) _ => apply lists_upd_async; assumption
      | |- hoare _ (if ?b then _ else _) _ => destruct b
      | |- hoare _ (match ?x with _ => _ end) _ => destruct x
      | |- hoare _ (let _ := _ in _) _ => cbv zeta
      | |- hoare _ (?h _ _ _ _ _ _ _) _ => unfold h
      | |- hoare _ (?h _ _ _ _ _ _) _ => unfold h
      | |- hoare _ (?h _ _ _ _ _) _ => unfold h
      | |- hoare _ (?h _ _ _ _) _ => unfold h
      | |- hoare _ (?h _ _ _) _ => unfold h
      | |- hoare _ (?h _ _) _ => unfold h
      | |- hoare _ (?h _) _ => unfold h
      end ].
Ltac lists := repeat lists1.

Lemma lists_async_terminate (P : server → Prop) async status :
  lists_only P → hoare P (async_terminate async status) (λ _, P).
Proof. intros HP. unfold async_terminate. lists. Qed.

Lemma lists_cancel_entry (P : server → Prop) async :
  lists_only P → hoare P (cancel_entry async) (λ _, P).
Proof.
  intros HP. pose proof (lists_async_terminate P).
  unfold cancel_entry. lists.
Qed.

Lemma lists_LIST_FOR_EACH (P : server → Prop) entries body :
  (∀ e, hoare P (body e) (λ _, P)) →
  hoare P (LIST_FOR_EACH entries body) (λ _, P).
Proof. intros Hb. induction entries; simpl; lists. Qed.

Lemma cancel_target_all gfu s p :
  cancel_target gfu s None None 0 p = is_pending_at s p.
Proof.
  unfold cancel_target, is_pending_at, cancel_matches.
  destruct (async_at s p); [|done]. simpl. by rewrite !andb_true_r.
Qed.

(** A scan over asyncs that are all terminated finds nothing. *)
Lemma cancel_scan_none gfu s entries obj thr iosb :
  all_asyncs s entries = true →
  (∀ p, p ∈ entries → is_pending_at s p = false) →
  cancel_async_scan gfu entries obj thr iosb s = Done None s.
Proof.
  unfold all_asyncs.
  induction entries as [|p next IH]; [done|].
  simpl. intros Hall Hterm. apply andb_true_iff in Hall as [Hp Hnext].
  unfold is_async_at in Hp.
  destruct (objects s !! p) as [[a| |]|] eqn:Ha; try done.
  rewrite bind_run, (get_async_run _ _ _ Ha).
  pose proof (Hterm p (list_elem_of_here _ _)) as Hpt.
  unfold is_pending_at, async_at in Hpt. rewrite Ha in Hpt.
  apply negb_false_iff in Hpt. rewrite Hpt.
  apply IH; [done|]. intros q Hq. apply Hterm. by right.
Qed.

(** X7: When the asyncs of the process are distinct, have valid iosb
    pointers and, if not terminated, an fd, cancel_process_asyncs hands
    every async of the process that is not terminated to fd_cancel_async,
    each once and in list order, and leaves none unterminated; the list
    itself and the asyncs that were already terminated are unchanged, and a
    second call does nothing. (The restart loop of the model runs on fuel;
    more fuel than the list is long is enough.) *)
Theorem cancel_process_asyncs_all gfu fuel proc s :
  cancellable s (process_list proc s) = true →
  NoDup (process_list proc s) →
  (length (process_list proc s) < fuel)%nat →
  ∃ s1,
    cancel_process_asyncs gfu fuel proc s = Done tt s1 ∧
    cancelled_asyncs (calls s1)
    = cancelled_asyncs (calls s)
      ++ filter (λ p, is_pending_at s p) (process_list proc s) ∧
    process_list proc s1 = process_list proc s ∧
    (∀ q, q ∈ process_list proc s → is_pending_at s1 q = false) ∧
    (∀ q, is_pending_at s q = false → async_at s1 q = async_at s q) ∧
    cancel_process_asyncs gfu fuel proc s1 = Done tt s1.
Proof.
  intros Hc Hnd Hfuel.
  set (targets := filter (λ p, is_pending_at s p) (process_list proc s)).
  assert (Htargets : cancel_targets gfu s (process_list proc s) None None 0
                     = targets).
  { unfold cancel_targets, targets. apply list_filter_iff. intros p.
    by rewrite cancel_target_all. }
  destruct (cancel_async_from_run gfu proc None None 0 targets fuel s 0)
    as (s1 & Heach & Hfrom & He & Hcs & Hin & Hout); try done.
  { pose proof (length_filter (λ p, is_pending_at s p) (process_list proc s)).
    unfold targets. lia. }
  assert (Hps : process_asyncs s1 = process_asyncs s).
  { pose proof (lists_LIST_FOR_EACH
                  (λ s', process_asyncs s' = process_asyncs s) targets
                  cancel_entry) as Hl.
    specialize (Hl (λ e, lists_cancel_entry _ e
                           (λ s0 s' H _ Hp, eq_trans Hp H)) s eq_refl).
    by rewrite Heach in Hl. }
  assert (Hlist : process_list proc s1 = process_list proc s)
    by (unfold process_list; by rewrite Hps).
  assert (Hterm : ∀ q, q ∈ process_list proc s → is_pending_at s1 q = false).
  { intros q Hq. unfold is_pending_at.
    destruct (decide (q ∈ targets)) as [Hqt|Hqt].
    - destruct (Hin q Hqt) as (b & -> & ->). done.
    - rewrite (Hout q Hqt).
      destruct (is_pending_at s q) eqn:Hp; [|done].
      exfalso. apply Hqt. apply list_elem_of_filter. by rewrite Hp. }
  assert (Hasync : all_asyncs s1 (process_list proc s1) = true).
  { rewrite Hlist. unfold all_asyncs, cancellable in *.
    rewrite forallb_forall in *. intros q Hq. specialize (Hc q Hq).
    apply list_elem_of_In in Hq. unfold is_async_at.
    unfold cancellable_entry in Hc.
    destruct (decide (q ∈ targets)) as [Hqt|Hqt].
    - destruct (Hin q Hqt) as (b & Hb & _).
      apply async_at_Some in Hb. by rewrite Hb.
    - specialize (Hout q Hqt).
      destruct (async_at s q) as [a|] eqn:Ha; [|done].
      apply async_at_Some in Hout. by rewrite Hout. }
  exists s1. split.
  { unfold cancel_process_asyncs, cancel_async. by rewrite bind_run, Hfrom. }
  split; [done|]. split; [done|]. split; [done|]. split.
  { intros q Hq. apply Hout. unfold targets. intros Hqt.
    apply list_elem_of_filter in Hqt as [Hqt _]. by rewrite Hq in Hqt. }
  unfold cancel_process_asyncs, cancel_async.
  destruct fuel as [|fuel]; [simpl in Hfuel; lia|]. simpl.
  rewrite !bind_run. unfold gets. cbn beta iota.
  rewrite bind_run, cancel_scan_none; [done|done|].
  by rewrite Hlist.
Qed.

Lemma cancel_process_asyncs_all_witness :
  ∃ s1 : server,
    cancel_process_asyncs sample_fd_user 4 200 crowded_server = Done () s1
  ∧ cancelled_asyncs (calls s1) =
    cancelled_asyncs (calls crowded_server) ++
    filter (λ p : Z, is_pending_at crowded_server p)
    (process_list 200 crowded_server)
  ∧ process_list 200 s1 = process_list 200 crowded_server
  ∧ (∀ q : Z,
      q ∈ process_list 200 crowded_server → is_pending_at s1 q = false)
  ∧ (∀ q : Z,
      is_pending_at crowded_server q = false
    → async_at s1 q = async_at crowded_server q)
  ∧ cancel_process_asyncs sample_fd_user 4 200 s1 = Done () s1.
Proof.
  apply (cancel_process_asyncs_all sample_fd_user 4%nat 200 crowded_server).
  - reflexivity.
  - apply (bool_decide_unpack _). vm_compute. exact I.
  - apply (bool_decide_unpack _). vm_compute. exact I.
Defined.

(** ** The completion branch of [async_set_result] *)

Lemma ret_run {A} (x : A) s : (mret x : M A) s = Done x s.
Proof. reflexivity. Qed.

Lemma set_calls_nil s : set_calls (calls s ++ []) s = s.
Proof. destruct s. unfold set_calls. simpl. by rewrite app_nil_r. Qed.

Lemma add_async_completion_run gc s async a cvalue status information :
  objects s !! async = Some (ObjAsync a) →
  add_async_completion gc async cvalue status information s
  = Done tt
      (set_calls (calls s ++ completion_calls gc a cvalue status information)
         (set_objects (<[async := ObjAsync (cache_completion gc a)]> (objects s))
            s)).
Proof.
  intros Ha. unfold add_async_completion, completion_calls, cache_completion.
  destruct s as [objs qs ps cur err rms rs cs]; simpl in *.
  destruct (Async.fd a) as [fd|] eqn:Hfd,
    (Async.completion a) as [c|] eqn:Hc;
    try destruct (gc fd).1 eqn:Hg.
  all: unfold is_null; simpl;
    repeat first [ progress run | rewrite Hc | rewrite Hg | progress simpl ].
  all: sim; rewrite ?app_nil_r, ?insert_insert_eq, ?insert_id by done; done.
Qed.

Lemma timeout_segment_run a s :
  (match Async.timeout a with
   | Some timer => remove_timeout_user timer
   | None => mret tt
   end) s
  = Done tt (set_calls (calls s ++ timeout_calls a) s).
Proof.
  unfold timeout_calls. destruct (Async.timeout a); [done|].
  by rewrite set_calls_nil.
Qed.

Lemma iosb_segment_run a status io s :
  iosb_of s a = Some io →
  (match Async.iosb a with
   | Some i => upd_iosb i (Iosb.set_status status)
   | None => mret tt
   end) s
  = Done tt
      (set_objects
         match io with
         | Some (i, io) => <[i := ObjIosb (Iosb.set_status status io)]> (objects s)
         | None => objects s
         end s).
Proof.
  unfold iosb_of. destruct (Async.iosb a) as [i|].
  - destruct (objects s !! i) as [[| io0 |]|] eqn:Hi; try done.
    intros [= <-]. by rewrite (upd_iosb_run _ _ _ _ Hi).
  - intros [= <-]. by destruct s.
Qed.

Lemma notice_segment_run gc obj a a1 status total s :
  objects s !! obj = Some (ObjAsync a1) →
  Async.fd a1 = Async.fd a →
  Async.completion a1 = Async.completion a →
  Async.comp_key a1 = Async.comp_key a →
  (if negb (AsyncData.apc (Async.data a) =? 0) then
     thread_queue_apc None (Async.thread a) None
       (APC_USER (AsyncData.apc (Async.data a))
          (AsyncData.apc_context (Async.data a))
          (AsyncData.iosb (Async.data a)) 0)
   else
     when (negb (AsyncData.apc_context (Async.data a) =? 0) &&
           (Async.pending a ||
            (Z.land (Async.comp_flags a)
               FILE_SKIP_COMPLETION_PORT_ON_SUCCESS =? 0)))
       (add_async_completion gc obj (AsyncData.apc_context (Async.data a))
          status total)) s
  = Done tt
      (set_calls (calls s ++ notice_calls gc a status total)
         (set_objects
            (<[obj := ObjAsync (if posts_completion a
                                then cache_completion gc a1 else a1)]>
               (objects s)) s)).
Proof.
  intros Ha1 Hfd Hc Hk. unfold notice_calls, posts_completion.
  destruct (AsyncData.apc (Async.data a) =? 0); simpl.
  - destruct (negb (AsyncData.apc_context (Async.data a) =? 0) &&
              (Async.pending a ||
               (Z.land (Async.comp_flags a)
                  FILE_SKIP_COMPLETION_PORT_ON_SUCCESS =? 0))); simpl.
    + rewrite (add_async_completion_run _ _ _ _ _ _ _ Ha1).
      do 2 f_equal. unfold completion_calls, cache_completion.
      rewrite Hfd, Hc.
      destruct (Async.fd a), (Async.completion a) eqn:E; simpl;
        by rewrite ?Hc, ?Hk, ?E.
    + destruct s. sim. by rewrite app_nil_r, insert_id.
  - destruct s. sim. simpl in Ha1. by rewrite insert_id.
Qed.

Lemma signal_segment_run a s :
  (match Async.event a, Async.fd a with
   | Some event, _ => set_event event
   | None, Some fd => set_fd_signaled fd 1
   | None, None => mret tt
   end) s
  = Done tt (set_calls (calls s ++ signal_calls a) s).
Proof.
  unfold signal_calls. destruct (Async.event a), (Async.fd a); try done.
  by rewrite set_calls_nil.
Qed.

Lemma wake_segment_run obj a a1 s :
  objects s !! obj = Some (ObjAsync a1) →
  when (negb (Async.signaled a))
    (upd_async obj (Async.set_signaled true);; wake_up obj 0) s
  = Done tt
      (set_calls (calls s ++ wake_calls obj a)
         (set_objects
            (<[obj := ObjAsync (if Async.signaled a then a1
                                else Async.set_signaled true a1)]>
               (objects s)) s)).
Proof.
  intros Ha1. unfold wake_calls. destruct (Async.signaled a); simpl.
  - destruct s. sim. simpl in Ha1. by rewrite app_nil_r, insert_id.
  - by rewrite bind_run, (upd_async_run _ _ _ _ Ha1).
Qed.

Lemma callback_segment_run a s :
  (match Async.completion_callback a with
   | Some func =>
       emit (Call_completion_callback func
               (Async.completion_callback_private a))
   | None => mret tt
   end) s
  = Done tt (set_calls (calls s ++ callback_calls a) s).
Proof.
  unfold callback_calls. destruct (Async.completion_callback a); [done|].
  by rewrite set_calls_nil.
Qed.

Lemma detach_segment_run obj a a1 s :
  objects s !! obj = Some (ObjAsync a1) →
  when (non_null (Async.queue a))
    (upd_async obj (Async.set_fd None);;
     list_remove_queue_entry obj;;
     upd_async obj (Async.set_queue None);;
     release_object obj) s
  = Done tt
      (set_calls (calls s ++ detach_calls obj a)
         (set_queues
            (if non_null (Async.queue a)
             then filter (λ x, x ≠ obj) <$> queues s
             else queues s)
            (set_objects
               (<[obj := ObjAsync
                    (if non_null (Async.queue a)
                     then Async.set_queue None (Async.set_fd None a1)
                     else a1)]> (objects s)) s))).
Proof.
  intros Ha1. unfold detach_calls. destruct (non_null (Async.queue a)); simpl.
  - destruct s as [objs qs ps cur err rms rs cs]; simpl in *.
    unfold list_remove_queue_entry. run. sim. by rewrite insert_insert_eq.
  - destruct s. sim. simpl in Ha1. by rewrite app_nil_r, insert_id.
Qed.

Lemma reselect_calls_cached gc a b :
  Async.fd b = Async.fd a → Async.queue b = Async.queue a →
  reselect_calls
    (Async.set_completion_callback None
       (if Async.signaled a
        then (if posts_completion a then cache_completion gc b else b)
        else Async.set_signaled true
               (if posts_completion a then cache_completion gc b else b)))
  = reselect_calls a.
Proof.
  intros Hfd Hq. unfold reselect_calls, cache_completion.
  destruct (Async.signaled a), (posts_completion a); simpl; rewrite ?Hfd, ?Hq;
    try done.
  all: destruct (Async.fd a) eqn:Hf; simpl; rewrite ?Hq, ?Hfd; try done.
  all: destruct (is_null (Async.completion b)); simpl; by rewrite ?Hq, ?Hfd.
Qed.

Lemma async_set_result_final_run gc s obj a status total io :
  objects s !! obj = Some (ObjAsync a) →
  Async.terminated a = true →
  Async.alerted a && (status =? STATUS_PENDING) = false →
  iosb_of s a = Some io →
  async_set_result gc obj status total s
  = Done tt (set_result_state gc obj a status total io s).
Proof.
  intros Ha Ht Hbr Hio. unfold async_set_result.
  rewrite bind_run, (get_object_run _ _ _ Ha). simpl.
  rewrite bind_run, (get_async_run _ _ _ Ha), bind_run, Ht. simpl.
  rewrite Hbr.
  destruct s as [objs qs ps cur err rms rs cs]; simpl in Ha.
  unfold iosb_of in Hio. simpl in Hio.
  rewrite bind_run, timeout_segment_run. sim.
  rewrite bind_run. erewrite upd_async_run by heap. sim.
  rewrite bind_run. erewrite upd_async_run by heap. sim.
  rewrite bind_run.
  destruct (Async.iosb a) as [i|] eqn:Hi.
  - destruct (objs !! i) as [[| io0 |]|] eqn:Hobj; try done.
    injection Hio as <-.
    assert (Hne : obj ≠ i) by eauto using async_iosb_distinct.
    erewrite upd_iosb_run by heap. sim.
    rewrite bind_run. erewrite notice_segment_run; [|heap|done..]. sim.
    rewrite bind_run, signal_segment_run. sim.
    rewrite bind_run. erewrite wake_segment_run by heap. sim.
    rewrite bind_run, callback_segment_run. sim.
    rewrite bind_run. erewrite upd_async_run by heap. sim.
    rewrite bind_run. erewrite reselect_run by heap. sim.
    erewrite detach_segment_run by heap. sim.
    rewrite reselect_calls_cached by done.
    unfold set_result_state, set_result_calls, completed_async. sim.
    f_equal. f_equal.
    + map_solve.
    + by rewrite <- !app_assoc.
  - injection Hio as <-.
    rewrite ret_run.
    rewrite bind_run. erewrite notice_segment_run; [|heap|done..]. sim.
    rewrite bind_run, signal_segment_run. sim.
    rewrite bind_run. erewrite wake_segment_run by heap. sim.
    rewrite bind_run, callback_segment_run. sim.
    rewrite bind_run. erewrite upd_async_run by heap. sim.
    rewrite bind_run. erewrite reselect_run by heap. sim.
    erewrite detach_segment_run by heap. sim.
    rewrite reselect_calls_cached by done.
    unfold set_result_state, set_result_calls, completed_async. sim.
    f_equal. f_equal.
    + map_solve.
    + by rewrite <- !app_assoc.
Qed.

Lemma async_signaled_run s p a :
  objects s !! p = Some (ObjAsync a) →
  async_signaled p s = Done (Async.signaled a) s.
Proof.
  intros H. unfold async_signaled.
  rewrite bind_run, (get_object_run _ _ _ H). cbn [obj_ops].
  rewrite bind_run, bool_decide_eq_true_2 by done.
  unfold assert. rewrite ret_run.
  by rewrite bind_run, (get_async_run _ _ _ H).
Qed.

(** ** Calls by kind *)

Lemma calls_of_app k l1 l2 :
  calls_of k (l1 ++ l2) = calls_of k l1 ++ calls_of k l2.
Proof. apply filter_app. Qed.

Lemma calls_of_timeout k a :
  calls_of k (timeout_calls a)
  = if decide (k = K_remove_timeout_user) then timeout_calls a else [].
Proof. unfold timeout_calls. by destruct k, (Async.timeout a). Qed.

Lemma calls_of_completion k gc a cvalue status total :
  calls_of k (completion_calls gc a cvalue status total)
  = if decide (k = K_add_completion)
    then completion_calls gc a cvalue status total else [].
Proof.
  unfold completion_calls.
  by destruct k, (Async.completion (cache_completion gc a)).
Qed.

Lemma calls_of_notice k gc a status total :
  calls_of k (notice_calls gc a status total)
  = if decide (k = K_thread_queue_apc)
    then (if AsyncData.apc (Async.data a) =? 0 then [] else [user_apc a])
    else if decide (k = K_add_completion)
         then (if posts_completion a
               then completion_calls gc a
                      (AsyncData.apc_context (Async.data a)) status total
               else [])
         else [].
Proof.
  unfold notice_calls, posts_completion.
  destruct (AsyncData.apc (Async.data a) =? 0); simpl.
  - destruct (negb (AsyncData.apc_context (Async.data a) =? 0) &&
              (Async.pending a ||
               (Z.land (Async.comp_flags a)
                  FILE_SKIP_COMPLETION_PORT_ON_SUCCESS =? 0))).
    + rewrite calls_of_completion. by destruct k.
    + by destruct k.
  - by destruct k.
Qed.

Lemma calls_of_signal k a :
  calls_of k (signal_calls a)
  = if decide (k = K_set_event)
    then match Async.event a with
         | Some event => [Call_set_event event]
         | None => []
         end
    else if decide (k = K_set_fd_signaled)
         then match Async.event a, Async.fd a with
              | None, Some fd => [Call_set_fd_signaled fd 1]
              | _, _ => []
              end
         else [].
Proof. unfold signal_calls. by destruct k, (Async.event a), (Async.fd a). Qed.

Lemma calls_of_wake k obj a :
  calls_of k (wake_calls obj a)
  = if decide (k = K_wake_up) then wake_calls obj a else [].
Proof. unfold wake_calls. by destruct k, (Async.signaled a). Qed.

Lemma calls_of_callback k a :
  calls_of k (callback_calls a)
  = if decide (k = K_completion_callback) then callback_calls a else [].
Proof. unfold callback_calls. by destruct k, (Async.completion_callback a). Qed.

Lemma calls_of_reselect k a :
  calls_of k (reselect_calls a)
  = if decide (k = K_fd_reselect_async) then reselect_calls a else [].
Proof. unfold reselect_calls. by destruct k, (Async.queue a), (Async.fd a). Qed.

Lemma calls_of_detach k obj a :
  calls_of k (detach_calls obj a)
  = if decide (k = K_release_object) then detach_calls obj a else [].
Proof. unfold detach_calls. by destruct k, (non_null (Async.queue a)). Qed.

Lemma calls_of_set_result k gc obj a status total :
  calls_of k (set_result_calls gc obj a status total)
  = calls_of k (timeout_calls a) ++ calls_of k (notice_calls gc a status total)
    ++ calls_of k (signal_calls a) ++ calls_of k (wake_calls obj a)
    ++ calls_of k (callback_calls a) ++ calls_of k (reselect_calls a)
    ++ calls_of k (detach_calls obj a).
Proof. unfold set_result_calls. by rewrite !calls_of_app. Qed.

Ltac by_kind :=
  rewrite ?calls_of_set_result, ?calls_of_timeout, ?calls_of_notice,
    ?calls_of_signal, ?calls_of_wake, ?calls_of_callback, ?calls_of_reselect,
    ?calls_of_detach;
  cbn [decide decide_rel call_kind_eq_dec call_kind_rec call_kind_rect
       sumbool_rec sumbool_rect app];
  rewrite ?app_nil_r.

(** X8: When async_set_result completes a terminated async with a valid iosb
    pointer (every case but the restart of an alerted async with PENDING) it
    queues the user APC exactly when data.apc is set, and posts to the
    completion port only when data.apc is not set, apc_context is set and
    the async is pending or does not skip the port; never both. It sets the
    event if the async has one and otherwise marks the fd signaled, wakes
    the waiters only if the async was not signaled, calls the completion
    callback if one is set and removes the timer if one is armed, each once. *)
Theorem async_set_result_fan_out gc s obj a status total io :
  objects s !! obj = Some (ObjAsync a) →
  Async.terminated a = true →
  Async.alerted a && (status =? STATUS_PENDING) = false →
  iosb_of s a = Some io →
  ∃ s1 new,
    async_set_result gc obj status total s = Done tt s1 ∧
    calls s1 = calls s ++ new ∧
    calls_of K_thread_queue_apc new
    = (if AsyncData.apc (Async.data a) =? 0 then [] else [user_apc a]) ∧
    calls_of K_add_completion new
    = (if posts_completion a
       then completion_calls gc a (AsyncData.apc_context (Async.data a))
              status total
       else []) ∧
    (length (calls_of K_thread_queue_apc new)
     + length (calls_of K_add_completion new) ≤ 1)%nat ∧
    calls_of K_set_event new
    = match Async.event a with
      | Some event => [Call_set_event event]
      | None => []
      end ∧
    calls_of K_set_fd_signaled new
    = match Async.event a, Async.fd a with
      | None, Some fd => [Call_set_fd_signaled fd 1]
      | _, _ => []
      end ∧
    calls_of K_wake_up new
    = (if Async.signaled a then [] else [Call_wake_up obj 0]) ∧
    calls_of K_completion_callback new
    = match Async.completion_callback a with
      | Some func =>
          [Call_completion_callback func (Async.completion_callback_private a)]
      | None => []
      end ∧
    calls_of K_remove_timeout_user new
    = match Async.timeout a with
      | Some timer => [Call_remove_timeout_user timer]
      | None => []
      end.
Proof.
  intros Ha Ht Hbr Hio.
  exists (set_result_state gc obj a status total io s),
         (set_result_calls gc obj a status total).
  split; [by apply async_set_result_final_run|]. split; [done|].
  assert (Hapc : calls_of K_thread_queue_apc (set_result_calls gc obj a status total)
                 = if AsyncData.apc (Async.data a) =? 0 then [] else [user_apc a])
    by (by by_kind).
  assert (Hcomp : calls_of K_add_completion (set_result_calls gc obj a status total)
                  = if posts_completion a
                    then completion_calls gc a
                           (AsyncData.apc_context (Async.data a)) status total
                    else []) by (by by_kind).
  split; [done|]. split; [done|]. split.
  { rewrite Hapc, Hcomp. unfold posts_completion, completion_calls.
    destruct (AsyncData.apc (Async.data a) =? 0); simpl; [|lia].
    repeat case_match; simpl; lia. }
  repeat split; by by_kind.
Qed.

Lemma async_set_result_fan_out_witness :
  ∃ (s1 : server) (new : list call),
    async_set_result port_completion 10 0 4 (completed_server 16) = Done () s1
  ∧ calls s1 = calls (completed_server 16) ++ new
  ∧ calls_of K_thread_queue_apc new =
    (if
      AsyncData.apc (Async.data (Async.set_terminated true sample_async)) =?
      0
      then []
      else [user_apc (Async.set_terminated true sample_async)])
  ∧ calls_of K_add_completion new =
    (if posts_completion (Async.set_terminated true sample_async)
      then
      completion_calls port_completion
      (Async.set_terminated true sample_async)
      (AsyncData.apc_context
        (Async.data (Async.set_terminated true sample_async)))
      0 4
      else [])
  ∧ (length (calls_of K_thread_queue_apc new) +
      length (calls_of K_add_completion new) <= 1)%nat
  ∧ calls_of K_set_event new =
    match Async.event (Async.set_terminated true sample_async) with
    | Some event => [Call_set_event event]
    | None => []
    end
  ∧ calls_of K_set_fd_signaled new =
    match
    Async.event (Async.set_terminated true sample_async)
    with
    | Some _ => []
    | None =>
    match
    Async.fd (Async.set_terminated true sample_async)
    with
    | Some fd => [Call_set_fd_signaled fd 1]
    | None => []
    end
    end
  ∧ calls_of K_wake_up new =
    (if Async.signaled (Async.set_terminated true sample_async)
      then []
      else [Call_wake_up 10 0])
  ∧ calls_of K_completion_callback new =
    match
    Async.completion_callback
    (Async.set_terminated true sample_async)
    with
    | Some func =>
    [Call_completion_callback func
      (Async.completion_callback_private
        (Async.set_terminated true sample_async))]
    | None => []
    end
  ∧ calls_of K_remove_timeout_user new =
    match
    Async.timeout (Async.set_terminated true sample_async)
    with
    | Some timer => [Call_remove_timeout_user timer]
    | None => []
    end.
Proof.
  apply (async_set_result_fan_out port_completion (completed_server 16) 10
           (Async.set_terminated true sample_async) 0 4
           (Some (20, completed_iosb))).
  - reflexivity.
  - reflexivity.
  - reflexivity.
  - reflexivity.
Defined.

(** ** What the completion branch leaves *)

Lemma completed_async_fields gc a :
  let a1 := completed_async gc a in
  Async.terminated a1 = true ∧ Async.signaled a1 = true ∧
  Async.timeout a1 = None ∧ Async.completion_callback a1 = None ∧
  Async.queue a1 = None ∧
  Async.fd a1 = (if non_null (Async.queue a) then None else Async.fd a) ∧
  Async.alerted a1 = Async.alerted a ∧ Async.iosb a1 = Async.iosb a ∧
  Async.thread a1 = Async.thread a ∧ Async.data a1 = Async.data a ∧
  Async.event a1 = Async.event a ∧ Async.pending a1 = Async.pending a ∧
  Async.comp_flags a1 = Async.comp_flags a ∧
  Async.wait_handle a1 = Async.wait_handle a ∧
  Async.direct_result a1 = Async.direct_result a ∧
  Async.unknown_status a1 = Async.unknown_status a.
Proof.
  unfold completed_async, cache_completion.
  destruct (Async.queue a) eqn:Hq, (posts_completion a), (Async.signaled a) eqn:Hs,
    (Async.fd a) eqn:Hf, (Async.completion a) eqn:Hc; simpl;
    rewrite ?Hq, ?Hs, ?Hf, ?Hc; simpl; repeat split; done.
Qed.

Lemma set_result_state_lookup gc obj a status total io s :
  objects (set_result_state gc obj a status total io s) !! obj
  = Some (ObjAsync (completed_async gc a)).
Proof. unfold set_result_state. simpl. apply lookup_insert_eq. Qed.

Lemma set_result_state_iosb gc obj a status total io s :
  objects s !! obj = Some (ObjAsync a) →
  iosb_of s a = Some io →
  iosb_of (set_result_state gc obj a status total io s) (completed_async gc a)
  = Some ((λ x, (x.1, Iosb.set_status status x.2)) <$> io).
Proof.
  intros Ha Hio. unfold iosb_of in *.
  destruct (completed_async_fields gc a) as (_&_&_&_&_&_&_&->&_).
  destruct (Async.iosb a) as [i|]; [|by injection Hio as <-].
  destruct (objects s !! i) as [[| io0 |]|] eqn:Hi; try done.
  injection Hio as <-.
  assert (Hne : obj ≠ i) by eauto using async_iosb_distinct.
  unfold set_result_state. simpl.
  rewrite lookup_insert_ne by done. by rewrite lookup_insert_eq.
Qed.

(** X9: After a completing async_set_result the async is terminated and
    signaled, has no timer, no callback and no queue, keeps its alerted
    flag, and async_signaled answers true; its iosb holds the given status.
    The async is taken off its queue if it was on one; the other queues, the
    process lists and the last error are unchanged. *)
Theorem async_set_result_completes gc s obj a status total io :
  objects s !! obj = Some (ObjAsync a) →
  Async.terminated a = true →
  Async.alerted a && (status =? STATUS_PENDING) = false →
  iosb_of s a = Some io →
  ∃ s1 a1,
    async_set_result gc obj status total s = Done tt s1 ∧
    objects s1 !! obj = Some (ObjAsync a1) ∧
    Async.terminated a1 = true ∧ Async.signaled a1 = true ∧
    Async.timeout a1 = None ∧ Async.completion_callback a1 = None ∧
    Async.queue a1 = None ∧ Async.alerted a1 = Async.alerted a ∧
    iosb_of s1 a1 = Some ((λ x, (x.1, Iosb.set_status status x.2)) <$> io) ∧
    (∀ q, queue_list q s1
          = if non_null (Async.queue a)
            then filter (λ x, x ≠ obj) (queue_list q s)
            else queue_list q s) ∧
    process_asyncs s1 = process_asyncs s ∧
    error s1 = error s ∧
    async_signaled obj s1 = Done true s1.
Proof.
  intros Ha Ht Hbr Hio.
  exists (set_result_state gc obj a status total io s), (completed_async gc a).
  split; [by apply async_set_result_final_run|].
  split; [apply set_result_state_lookup|].
  destruct (completed_async_fields gc a)
    as (H1 & H2 & H3 & H4 & H5 & _ & H7 & _).
  repeat (split; [done|]).
  split; [by apply set_result_state_iosb|].
  split.
  { intros q. unfold queue_list, set_result_state. simpl.
    destruct (non_null (Async.queue a)); [|done].
    rewrite lookup_fmap. by destruct (queues s !! q). }
  split; [done|]. split; [done|].
  rewrite (async_signaled_run _ _ _ (set_result_state_lookup _ _ _ _ _ _ _)).
  by rewrite H2.
Qed.

Lemma async_set_result_completes_witness :
  ∃ (s1 : server) (a1 : Async.t),
    async_set_result port_completion 10 0 4 (completed_server 16) = Done () s1
  ∧ objects s1 !! 10 = Some (ObjAsync a1)
  ∧ Async.terminated a1 = true
  ∧ Async.signaled a1 = true
  ∧ Async.timeout a1 = None
  ∧ Async.completion_callback a1 = None
  ∧ Async.queue a1 = None
  ∧ Async.alerted a1 =
    Async.alerted (Async.set_terminated true sample_async)
  ∧ iosb_of s1 a1 =
    Some
    ((λ x : Z * Iosb.t, (x.1, Iosb.set_status 0 x.2)) <$>
      Some (20, completed_iosb))
  ∧ (∀ q : Z,
      queue_list q s1 =
      (if
        non_null
        (Async.queue
          (Async.set_terminated true sample_async))
        then
        filter (λ x : Z, x ≠ 10)
        (queue_list q (completed_server 16))
        else queue_list q (completed_server 16)))
  ∧ process_asyncs s1 =
    process_asyncs (completed_server 16)
  ∧ error s1 = error (completed_server 16)
  ∧ async_signaled 10 s1 = Done true s1.
Proof.
  apply (async_set_result_completes port_completion (completed_server 16) 10
           (Async.set_terminated true sample_async) 0 4
           (Some (20, completed_iosb))).
  - reflexivity.
  - reflexivity.
  - reflexivity.
  - reflexivity.
Defined.

Lemma completed_async_notice gc a status total :
  notice_calls gc (completed_async gc a) status total
  = notice_calls gc a status total.
Proof.
  destruct (completed_async_fields gc a)
    as (_ & _ & _ & _ & _ & _ & _ & _ & Hthr & Hdata & _ & Hpend & Hflags & _).
  assert (Hpost : posts_completion (completed_async gc a) = posts_completion a)
    by (unfold posts_completion; by rewrite Hdata, Hpend, Hflags).
  unfold notice_calls, user_apc. rewrite Hpost, Hthr, Hdata.
  destruct (negb (AsyncData.apc (Async.data a) =? 0)); [done|].
  destruct (posts_completion a) eqn:Hp; [|done].
  unfold completion_calls, completed_async, cache_completion. rewrite Hp.
  destruct (Async.queue a) eqn:Hq, (Async.signaled a) eqn:Hs,
    (Async.fd a) eqn:Hf, (Async.completion a) eqn:Hc;
    repeat (progress (simpl; rewrite ?Hq, ?Hs, ?Hf, ?Hc)); try done.
  all: match goal with
       | |- context [fst (?g ?f)] => destruct (fst (g f)) eqn:Hg
       end; repeat (progress (simpl; rewrite ?Hq, ?Hs, ?Hf, ?Hc, ?Hg)); done.
Qed.

Lemma completed_async_signal gc a :
  signal_calls (completed_async gc a)
  = match Async.event a, Async.fd a with
    | Some event, _ => [Call_set_event event]
    | None, Some fd =>
        if non_null (Async.queue a) then [] else [Call_set_fd_signaled fd 1]
    | None, None => []
    end.
Proof.
  destruct (completed_async_fields gc a)
    as (_ & _ & _ & _ & _ & Hfd & _ & _ & _ & _ & Hev & _).
  unfold signal_calls. rewrite Hfd, Hev.
  by destruct (Async.event a), (Async.fd a), (non_null (Async.queue a)).
Qed.

Lemma completed_async_again gc a :
  completed_async gc (completed_async gc a) = completed_async gc a.
Proof.
  destruct (completed_async_fields gc a)
    as (_ & _ & _ & _ & _ & _ & _ & _ & _ & Hdata & _ & Hpend & Hflags & _).
  assert (Hpost : posts_completion (completed_async gc a) = posts_completion a)
    by (unfold posts_completion; by rewrite Hdata, Hpend, Hflags).
  unfold completed_async at 1. rewrite Hpost. clear.
  unfold completed_async. generalize (posts_completion a). intros b.
  destruct a as [thr q fd tmo tst ev data iosb wh sig pend dr al term unk comp
                   key flags cb cbp].
  destruct b, q, sig, fd as [f|], comp; vm_compute; try reflexivity.
  all: destruct (gc f) as [[c|] k]; vm_compute; reflexivity.
Qed.

(** X10: A second completing async_set_result on the same async with a valid
    iosb pointer repeats the notice with the new status and total (the user
    APC, or the completion packet under the same condition) and sets the
    event again, or marks the fd signaled again unless the first call took
    the async off a queue; these are its only calls. It overwrites the iosb
    status and leaves the async record, the queues, the process lists and
    the last error as the first call left them: no wake-up, no callback, no
    timer removal, no reselect and no release. *)
Theorem async_set_result_again gc s obj a status total io status' total' :
  objects s !! obj = Some (ObjAsync a) →
  Async.terminated a = true →
  Async.alerted a && (status =? STATUS_PENDING) = false →
  Async.alerted a && (status' =? STATUS_PENDING) = false →
  iosb_of s a = Some io →
  ∃ s1 s2 new,
    async_set_result gc obj status total s = Done tt s1 ∧
    async_set_result gc obj status' total' s1 = Done tt s2 ∧
    calls s2 = calls s1 ++ new ∧
    calls_of K_wake_up new = [] ∧
    calls_of K_completion_callback new = [] ∧
    calls_of K_remove_timeout_user new = [] ∧
    calls_of K_fd_reselect_async new = [] ∧
    calls_of K_release_object new = [] ∧
    queues s2 = queues s1 ∧
    iosb_of s2 (completed_async gc a)
    = Some ((λ x, (x.1, Iosb.set_status status' x.2)) <$> io) ∧
    calls_of K_thread_queue_apc new
    = (if AsyncData.apc (Async.data a) =? 0 then [] else [user_apc a]) ∧
    calls_of K_add_completion new
    = (if posts_completion a
       then completion_calls gc a (AsyncData.apc_context (Async.data a))
              status' total'
       else []) ∧
    calls_of K_set_event new
    = match Async.event a with
      | Some event => [Call_set_event event]
      | None => []
      end ∧
    calls_of K_set_fd_signaled new
    = match Async.event a, Async.fd a with
      | None, Some fd =>
          if non_null (Async.queue a) then [] else [Call_set_fd_signaled fd 1]
      | _, _ => []
      end ∧
    new = notice_calls gc a status' total' ++
          match Async.event a, Async.fd a with
          | Some event, _ => [Call_set_event event]
          | None, Some fd =>
              if non_null (Async.queue a) then []
              else [Call_set_fd_signaled fd 1]
          | None, None => []
          end ∧
    objects s1 !! obj = Some (ObjAsync (completed_async gc a)) ∧
    objects s2 !! obj = Some (ObjAsync (completed_async gc a)) ∧
    process_asyncs s2 = process_asyncs s1 ∧ error s2 = error s1.
Proof.
  intros Ha Ht Hbr Hbr' Hio.
  set (a1 := completed_async gc a).
  set (s1 := set_result_state gc obj a status total io s).
  assert (Ha1 : objects s1 !! obj = Some (ObjAsync a1))
    by apply set_result_state_lookup.
  assert (Hio1 : iosb_of s1 a1
                 = Some ((λ x, (x.1, Iosb.set_status status x.2)) <$> io))
    by (by apply set_result_state_iosb).
  destruct (completed_async_fields gc a)
    as (Hterm & Hsig & Htime & Hcb & Hq & _ & Hal & _).
  fold a1 in Hterm, Hsig, Htime, Hcb, Hq, Hal.
  assert (Hrun2 : async_set_result gc obj status' total' s1
                  = Done tt (set_result_state gc obj a1 status' total'
                               ((λ x, (x.1, Iosb.set_status status x.2)) <$> io)
                               s1)).
  { apply async_set_result_final_run; [done|done| |done]. by rewrite Hal. }
  assert (Hw : wake_calls obj a1 = []) by (unfold wake_calls; by rewrite Hsig).
  assert (Hc : callback_calls a1 = []) by (unfold callback_calls; by rewrite Hcb).
  assert (Ht1 : timeout_calls a1 = []) by (unfold timeout_calls; by rewrite Htime).
  assert (Hr : reselect_calls a1 = []) by (unfold reselect_calls; by rewrite Hq).
  assert (Hd : detach_calls obj a1 = []) by (unfold detach_calls; by rewrite Hq).
  assert (Hnew : set_result_calls gc obj a1 status' total'
                 = notice_calls gc a status' total' ++
                   match Async.event a, Async.fd a with
                   | Some event, _ => [Call_set_event event]
                   | None, Some fd =>
                       if non_null (Async.queue a) then []
                       else [Call_set_fd_signaled fd 1]
                   | None, None => []
                   end).
  { unfold set_result_calls. rewrite Hw, Hc, Ht1, Hr, Hd. simpl.
    rewrite !app_nil_r. unfold a1.
    by rewrite completed_async_notice, completed_async_signal. }
  assert (Hsame : completed_async gc a1 = a1)
    by apply completed_async_again.
  exists s1, (set_result_state gc obj a1 status' total'
                ((λ x, (x.1, Iosb.set_status status x.2)) <$> io) s1),
    (set_result_calls gc obj a1 status' total').
  split; [by apply async_set_result_final_run|].
  split; [done|]. split; [done|].
  do 5 (split; [by_kind; by rewrite ?Hw, ?Hc, ?Ht1, ?Hr, ?Hd|]).
  split.
  { unfold set_result_state at 1. simpl. by rewrite Hq. }
  split.
  { pose proof (set_result_state_iosb gc obj a1 status' total' _ s1 Ha1 Hio1)
      as H2.
    destruct (completed_async_fields gc a1) as (_&_&_&_&_&_&_&Hi2&_).
    unfold iosb_of in *. rewrite Hi2 in H2. rewrite H2.
    f_equal. by destruct io as [[i io0]|]. }
  rewrite Hnew.
  split.
  { rewrite calls_of_app, calls_of_notice. simpl.
    by destruct (Async.event a), (Async.fd a), (non_null (Async.queue a));
      rewrite ?app_nil_r. }
  split.
  { rewrite calls_of_app, calls_of_notice. simpl.
    by destruct (Async.event a), (Async.fd a), (non_null (Async.queue a));
      rewrite ?app_nil_r. }
  split.
  { rewrite calls_of_app, calls_of_notice. simpl.
    by destruct (Async.event a), (Async.fd a), (non_null (Async.queue a)). }
  split.
  { rewrite calls_of_app, calls_of_notice. simpl.
    by destruct (Async.event a), (Async.fd a), (non_null (Async.queue a)). }
  split; [done|].
  split; [exact Ha1|].
  split.
  { rewrite set_result_state_lookup. by rewrite Hsame. }
  done.
Qed.

Lemma async_set_result_again_witness :
  ∃ (s1 s2 : server) (new : list call),
    async_set_result port_completion 10 0 4 eventful_server = Done () s1
  ∧ async_set_result port_completion 10 STATUS_CANCELLED 0 s1 = Done () s2
  ∧ calls s2 = calls s1 ++ new
  ∧ calls_of K_wake_up new = []
  ∧ calls_of K_completion_callback new = []
  ∧ calls_of K_remove_timeout_user new = []
  ∧ calls_of K_fd_reselect_async new = []
  ∧ calls_of K_release_object new = []
  ∧ queues s2 = queues s1
  ∧ iosb_of s2
    (completed_async port_completion eventful_async) =
    Some
    ((λ x : Z * Iosb.t,
        (x.1, Iosb.set_status STATUS_CANCELLED x.2)) <$>
      Some (20, completed_iosb))
  ∧ calls_of K_thread_queue_apc new =
    (if AsyncData.apc (Async.data eventful_async) =? 0
      then []
      else [user_apc eventful_async])
  ∧ calls_of K_add_completion new =
    (if posts_completion eventful_async
      then
      completion_calls port_completion eventful_async
      (AsyncData.apc_context
        (Async.data eventful_async))
      STATUS_CANCELLED 0
      else [])
  ∧ calls_of K_set_event new =
    match Async.event eventful_async with
    | Some event => [Call_set_event event]
    | None => []
    end
  ∧ calls_of K_set_fd_signaled new =
    match Async.event eventful_async with
    | Some _ => []
    | None =>
    match Async.fd eventful_async with
    | Some fd =>
    if non_null (Async.queue eventful_async)
    then []
    else [Call_set_fd_signaled fd 1]
    | None => []
    end
    end
  ∧ new =
    notice_calls port_completion eventful_async
    STATUS_CANCELLED 0 ++
    match Async.event eventful_async with
    | Some event => [Call_set_event event]
    | None =>
    match Async.fd eventful_async with
    | Some fd =>
    if
    non_null (Async.queue eventful_async)
    then []
    else [Call_set_fd_signaled fd 1]
    | None => []
    end
    end
  ∧ objects s1 !! 10 =
    Some
    (ObjAsync
      (completed_async port_completion
        eventful_async))
  ∧ objects s2 !! 10 =
    Some
    (ObjAsync
      (completed_async port_completion
        eventful_async))
  ∧ process_asyncs s2 = process_asyncs s1
  ∧ error s2 = error s1.
Proof.
  apply (async_set_result_again port_completion eventful_server 10
           eventful_async 0 4 (Some (20, completed_iosb)) STATUS_CANCELLED 0).
  - reflexivity.
  - reflexivity.
  - reflexivity.
  - reflexivity.
  - reflexivity.
Defined.

(** ** Timeouts *)

Lemma async_set_timeout_run atu s async a timeout status :
  objects s !! async = Some (ObjAsync a) →
  async_set_timeout atu async timeout status s
  = Done tt
      (set_calls (calls s ++ timeout_calls a)
         (set_objects
            (<[async := ObjAsync
                 (set_timeout_status status
                    (Async.set_timeout
                       (if timeout =? TIMEOUT_INFINITE then None
                        else atu timeout async) a))]> (objects s)) s)).
Proof.
  intros Ha. unfold async_set_timeout.
  rewrite bind_run, (get_async_run _ _ _ Ha).
  rewrite bind_run, timeout_segment_run.
  destruct s as [objs qs ps cur err rms rs cs]; simpl in Ha. sim.
  rewrite bind_run.
  destruct (timeout =? TIMEOUT_INFINITE); simpl.
  all: erewrite upd_async_run by heap; sim.
  all: erewrite upd_async_run by heap; sim.
  all: by rewrite insert_insert_eq.
Qed.

Lemma async_timeout_run s async a io :
  objects s !! async = Some (ObjAsync a) →
  Async.terminated a = false →
  iosb_of s a = Some io →
  async_timeout async s
  = Done tt
      (terminated_state async (Async.set_timeout None a)
         (Async.timeout_status a) io s).
Proof.
  intros Ha Ht Hio. unfold async_timeout.
  rewrite bind_run, (upd_async_run _ _ _ _ Ha).
  rewrite bind_run. erewrite get_async_run by (simpl; apply lookup_insert_eq).
  simpl Async.timeout_status.
  erewrite async_terminate_live;
    [|simpl; apply lookup_insert_eq|done
     |by apply (iosb_of_frame s _ a _ async a (Async.set_timeout None a))].
  f_equal. unfold terminated_state. destruct s; sim. f_equal.
  destruct (iosb_of_cases _ _ _ Hio) as [[Hi ->]|(i & io0 & Hi & Hobj & ->)];
    [by rewrite insert_insert_eq|].
  simpl in *. assert (async ≠ i) by eauto using async_iosb_distinct.
  map_solve.
Qed.

(** X11: async_set_timeout removes the timer armed before, arms a new one
    unless the timeout is TIMEOUT_INFINITE, and records the status. When the
    timer fires, async_timeout forgets the timer without removing it and
    terminates the live async as async_terminate does with the recorded
    status; neither it nor the later completion removes a timer. *)
Theorem timer_fires_with_its_status atu gc s async a io timeout status :
  objects s !! async = Some (ObjAsync a) →
  Async.terminated a = false →
  iosb_of s a = Some io →
  ∃ s1 s2 a1 a2 new,
    async_set_timeout atu async timeout status s = Done tt s1 ∧
    objects s1 !! async = Some (ObjAsync a1) ∧
    Async.timeout a1
    = (if timeout =? TIMEOUT_INFINITE then None else atu timeout async) ∧
    calls s1
    = calls s ++ match Async.timeout a with
                 | Some old => [Call_remove_timeout_user old]
                 | None => []
                 end ∧
    async_timeout async s1 = Done tt s2 ∧
    objects s2 !! async = Some (ObjAsync a2) ∧
    Async.terminated a2 = true ∧ Async.timeout a2 = None ∧
    (∀ i io0, io = Some (i, io0) →
       objects s2 !! i = Some (ObjIosb (terminated_iosb status io0))) ∧
    calls s2 = calls s1 ++ new ∧
    calls_of K_thread_queue_apc new
    = (if Async.direct_result a then []
       else [async_io_apc async a (apc_status status (snd <$> io))]) ∧
    calls_of K_remove_timeout_user new = [] ∧
    ∀ status' total,
      Async.alerted a2 && (status' =? STATUS_PENDING) = false →
      ∃ s3 new',
        async_set_result gc async status' total s2 = Done tt s3 ∧
        calls s3 = calls s2 ++ new' ∧
        calls_of K_remove_timeout_user new' = [].
Proof.
  intros Ha Ht Hio.
  pose proof (async_set_timeout_run atu _ _ _ timeout status Ha) as Hrun1.
  set (a1 := set_timeout_status status
               (Async.set_timeout
                  (if timeout =? TIMEOUT_INFINITE then None
                   else atu timeout async) a)) in *.
  set (s1 := set_calls (calls s ++ timeout_calls a) _) in *.
  assert (Ha1 : objects s1 !! async = Some (ObjAsync a1))
    by (simpl; apply lookup_insert_eq).
  assert (Hio1 : iosb_of s1 a1 = Some io)
    by (by apply (iosb_of_frame s _ a _ async a a1)).
  pose proof (async_timeout_run s1 async a1 io Ha1 Ht Hio1) as Hrun2.
  set (a2 := terminated_async status (Async.set_timeout None a1)).
  eexists s1, _, a1, a2, _. split; [done|]. split; [exact Ha1|].
  split; [done|]. split; [done|]. split; [exact Hrun2|].
  split; [apply terminated_state_lookup|].
  split; [apply terminated_async_terminated|].
  assert (Htime : Async.timeout a2 = None).
  { unfold a2, terminated_async. by destruct (status =? STATUS_ALERTED). }
  split; [done|]. split.
  { intros i io0 ->.
    destruct (iosb_of_cases _ _ _ Hio1) as [[_ [=]]|(j & io1 & _ & Hobj & [= <- <-])].
    by eapply terminated_state_iosb_lookup. }
  split; [reflexivity|].
  assert (Hk : ∀ k, calls_of k (terminate_calls async (Async.set_timeout None a1)
                                  status (snd <$> io))
               = calls_of k [Call_grab_object async]
                 ++ calls_of k (if Async.direct_result a then []
                                else [async_io_apc async a
                                        (apc_status status (snd <$> io))])
                 ++ calls_of k (reselect_calls a)
                 ++ calls_of k [Call_release_object async]).
  { intros k. unfold terminate_calls. by rewrite !calls_of_app. }
  split.
  { simpl. rewrite Hk, calls_of_reselect. simpl.
    destruct (Async.direct_result a); by rewrite ?app_nil_r. }
  split.
  { simpl. rewrite Hk, calls_of_reselect. simpl.
    by destruct (Async.direct_result a). }
  intros status' total Hbr.
  eexists _, _. split.
  { eapply async_set_result_final_run;
      [apply terminated_state_lookup|apply terminated_async_terminated|done|].
    by eapply terminated_state_iosb_of. }
  split; [reflexivity|].
  by_kind. unfold timeout_calls, terminated_async.
  by destruct (_ =? STATUS_ALERTED).
Qed.

Lemma timer_fires_with_its_status_witness :
  ∃ (s1 s2 : server) (a1 a2 : Async.t) (new : list call),
    async_set_timeout sample_add_timeout_user 10 5000 258 sample_server =
    Done () s1
  ∧ objects s1 !! 10 = Some (ObjAsync a1)
  ∧ Async.timeout a1 =
    (if 5000 =? TIMEOUT_INFINITE
      then None
      else sample_add_timeout_user 5000 10)
  ∧ calls s1 =
    calls sample_server ++
    match Async.timeout sample_async with
    | Some old => [Call_remove_timeout_user old]
    | None => []
    end
  ∧ async_timeout 10 s1 = Done () s2
  ∧ objects s2 !! 10 = Some (ObjAsync a2)
  ∧ Async.terminated a2 = true
  ∧ Async.timeout a2 = None
  ∧ (∀ (i : Z) (io0 : Iosb.t),
      Some (20, sample_iosb) = Some (i, io0)
    → objects s2 !! i =
      Some (ObjIosb (terminated_iosb 258 io0)))
  ∧ calls s2 = calls s1 ++ new
  ∧ calls_of K_thread_queue_apc new =
    (if Async.direct_result sample_async
      then []
      else
      [async_io_apc 10 sample_async
        (apc_status 258 (snd <$> Some (20, sample_iosb)))])
  ∧ calls_of K_remove_timeout_user new = []
  ∧ ∀ status' total : Z,
    Async.alerted a2 && (status' =? STATUS_PENDING) =
    false
  → ∃ (s3 : server) (new' : list call),
    async_set_result port_completion 10 status'
    total s2 =
    Done () s3
  ∧ calls s3 = calls s2 ++ new'
  ∧ calls_of K_remove_timeout_user new' = [].
Proof.
  apply (timer_fires_with_its_status sample_add_timeout_user port_completion
           sample_server 10 sample_async (Some (20, sample_iosb)) 5000 0x102).
  - reflexivity.
  - reflexivity.
  - reflexivity.
Defined.

(** ** Waiting on an async *)

Lemma set_status_same io : Iosb.set_status (Iosb.status io) io = io.
Proof. by destruct io. Qed.

Lemma async_satisfied_plain gc s obj a i io entry :
  objects s !! obj = Some (ObjAsync a) →
  Async.iosb a = Some i →
  objects s !! i = Some (ObjIosb io) →
  Async.direct_result a = false →
  async_satisfied gc obj entry s
  = Done tt
      (set_calls
         (calls s ++ [Call_set_wait_status entry (Iosb.status io)] ++
          if Async.wait_handle a =? 0 then []
          else [Call_close_handle (process (Async.thread a))
                  (Async.wait_handle a)])
         (set_objects
            (<[obj := ObjAsync (Async.set_wait_handle 0 a)]> (objects s)) s)).
Proof.
  intros Ha Hi Hio Hd. unfold async_satisfied.
  assert (Hne : obj ≠ i) by eauto using async_iosb_distinct.
  rewrite bind_run, (get_object_run _ _ _ Ha). simpl.
  destruct s as [objs qs ps cur err rms rs cs]; simpl in *.
  destruct (Async.wait_handle a =? 0) eqn:Hw; run.
  - f_equal. f_equal.
    rewrite insert_id; [done|]. rewrite Ha. do 2 f_equal.
    apply Z.eqb_eq in Hw. destruct a; simpl in *. by subst.
  - by rewrite <- app_assoc.
Qed.

(** X12: async_satisfied on an async with an iosb gives the iosb status to
    the wait entry, clears direct_result, and closes and zeroes the wait
    handle if there is one. When direct_result was set (the async must then
    be terminated) it first runs async_set_result with the status and the
    result of the iosb, so that a completion packet carries that status and
    that result; otherwise no packet and no user APC is queued. The iosb is
    unchanged and a second call only reports the status again. *)
Theorem async_satisfied_once gc s obj a i io entry :
  objects s !! obj = Some (ObjAsync a) →
  Async.iosb a = Some i →
  objects s !! i = Some (ObjIosb io) →
  (Async.direct_result a = true →
   Async.terminated a = true ∧
   Async.alerted a && (Iosb.status io =? STATUS_PENDING) = false) →
  ∃ s1 a1 new,
    async_satisfied gc obj entry s = Done tt s1 ∧
    objects s1 !! obj = Some (ObjAsync a1) ∧
    Async.direct_result a1 = false ∧ Async.wait_handle a1 = 0 ∧
    objects s1 !! i = Some (ObjIosb io) ∧
    calls s1 = calls s ++ new ∧
    calls_of K_set_wait_status new
    = [Call_set_wait_status entry (Iosb.status io)] ∧
    calls_of K_close_handle new
    = (if Async.wait_handle a =? 0 then []
       else [Call_close_handle (process (Async.thread a))
               (Async.wait_handle a)]) ∧
    (Async.direct_result a = true →
     Async.terminated a1 = true ∧ Async.signaled a1 = true ∧
     Async.queue a1 = None) ∧
    calls_of K_add_completion new
    = (if Async.direct_result a && posts_completion a
       then completion_calls gc a (AsyncData.apc_context (Async.data a))
              (Iosb.status io) (Iosb.result io)
       else []) ∧
    calls_of K_thread_queue_apc new
    = (if Async.direct_result a && negb (AsyncData.apc (Async.data a) =? 0)
       then [user_apc a] else []) ∧
    (Async.direct_result a = true →
     ∃ s0,
       async_set_result gc obj (Iosb.status io) (Iosb.result io) s
       = Done tt s0 ∧
       calls s1
       = calls s0 ++ [Call_set_wait_status entry (Iosb.status io)] ++
         (if Async.wait_handle a =? 0 then []
          else [Call_close_handle (process (Async.thread a))
                  (Async.wait_handle a)]) ∧
       objects s1
       = <[obj := ObjAsync
                    (Async.set_wait_handle 0
                       (Async.set_direct_result false
                          (completed_async gc a)))]> (objects s0) ∧
       queues s1 = queues s0 ∧ process_asyncs s1 = process_asyncs s0 ∧
       error s1 = error s0) ∧
    ∀ entry',
      async_satisfied gc obj entry' s1
      = Done tt (set_calls
                   (calls s1 ++ [Call_set_wait_status entry' (Iosb.status io)])
                   s1).
Proof.
  intros Ha Hi Hio Hdirect.
  assert (Hne : obj ≠ i) by eauto using async_iosb_distinct.
  assert (Hagain : ∀ s1 a1 entry',
    objects s1 !! obj = Some (ObjAsync a1) →
    Async.iosb a1 = Some i →
    objects s1 !! i = Some (ObjIosb io) →
    Async.direct_result a1 = false → Async.wait_handle a1 = 0 →
    async_satisfied gc obj entry' s1
    = Done tt (set_calls
                 (calls s1 ++ [Call_set_wait_status entry' (Iosb.status io)])
                 s1)).
  { intros s1 a1 entry' Ha1 Hi1 Hio1 Hd1 Hw1.
    rewrite (async_satisfied_plain gc s1 obj a1 i io entry' Ha1 Hi1 Hio1 Hd1).
    rewrite Hw1. simpl. f_equal. destruct s1; sim. f_equal.
    rewrite insert_id; [done|]. simpl in Ha1. rewrite Ha1. do 2 f_equal.
    destruct a1; simpl in *. by subst. }
  destruct (Async.direct_result a) eqn:Hd.
  2: { rewrite (async_satisfied_plain gc s obj a i io entry Ha Hi Hio Hd).
       eexists _, _, _. split; [reflexivity|].
       split; [simpl; apply lookup_insert_eq|].
       split; [done|]. split; [done|].
       split; [simpl; by rewrite lookup_insert_ne|].
       split; [reflexivity|].
       split; [by destruct (Async.wait_handle a =? 0)|].
       split; [by destruct (Async.wait_handle a =? 0)|].
       split; [done|].
       split; [by destruct (Async.wait_handle a =? 0)|].
       split; [by destruct (Async.wait_handle a =? 0)|].
       split; [done|].
       intros entry'. eapply Hagain; simpl;
         [apply lookup_insert_eq|done|by rewrite lookup_insert_ne|done|done]. }
  destruct (Hdirect eq_refl) as [Ht Hbr].
  pose proof (async_set_result_final_run gc s obj a (Iosb.status io)
                (Iosb.result io) (Some (i, io)) Ha Ht Hbr
                (iosb_of_Some _ _ _ _ Hi Hio)) as Hrun.
  destruct (completed_async_fields gc a)
    as (Hterm & Hsig & _ & _ & Hq & _ & _ & Hi1 & Hthr & _ & _ & _ & _ & Hw & Hd1 & _).
  set (a0 := completed_async gc a) in *.
  set (a1 := Async.set_wait_handle 0 (Async.set_direct_result false a0)).
  set (new := set_result_calls gc obj a (Iosb.status io) (Iosb.result io)
              ++ [Call_set_wait_status entry (Iosb.status io)]
              ++ if Async.wait_handle a =? 0 then []
                 else [Call_close_handle (process (Async.thread a))
                         (Async.wait_handle a)]).
  set (s1 := set_calls (calls s ++ new)
               (set_queues
                  (if non_null (Async.queue a)
                   then filter (λ x, x ≠ obj) <$> queues s else queues s)
                  (set_objects (<[obj := ObjAsync a1]> (objects s)) s))).
  assert (Hs1 : async_satisfied gc obj entry s = Done tt s1).
  { unfold async_satisfied.
    rewrite bind_run, (get_object_run _ _ _ Ha). simpl.
    rewrite bind_run, ret_run, bind_run, (get_async_run _ _ _ Ha).
    unfold non_null, is_null. rewrite Hi. simpl.
    rewrite bind_run, ret_run, bind_run, ret_run, Hd. simpl.
    rewrite bind_run, bind_run, (get_iosb_run _ _ _ Hio). cbv beta iota.
    rewrite bind_run, Hrun. cbv beta iota.
    unfold set_result_state. rewrite set_status_same. fold a0.
    unfold s1, new, a1.
    destruct s as [objs qs ps cur err rms rs cs]; simpl in *.
    rewrite (insert_id objs i) by done.
    destruct (Async.wait_handle a =? 0) eqn:Hw0; run.
    - rewrite Hw, Hw0. simpl. sim. f_equal. f_equal.
      + rewrite insert_insert_eq. f_equal. f_equal.
        apply Z.eqb_eq in Hw0. rewrite Hw0 in Hw.
        destruct a0; simpl in *. by subst.
      + by rewrite <- app_assoc.
    - rewrite Hw, Hw0. simpl. run. sim. f_equal. f_equal.
      + by rewrite !insert_insert_eq.
      + rewrite ?Hw, ?Hthr. by rewrite <- !app_assoc. }
  exists s1, a1, new. split; [done|].
  split; [simpl; apply lookup_insert_eq|].
  split; [done|]. split; [done|].
  split; [simpl; by rewrite lookup_insert_ne|].
  split; [done|].
  split.
  { unfold new. rewrite !calls_of_app. by_kind.
    by destruct (Async.wait_handle a =? 0). }
  split.
  { unfold new. rewrite !calls_of_app. by_kind.
    by destruct (Async.wait_handle a =? 0). }
  split; [done|].
  split.
  { unfold new. rewrite !calls_of_app. by_kind. simpl.
    by destruct (Async.wait_handle a =? 0), (posts_completion a);
      rewrite ?app_nil_r. }
  split.
  { unfold new. rewrite !calls_of_app. by_kind. simpl.
    by destruct (Async.wait_handle a =? 0),
      (AsyncData.apc (Async.data a) =? 0); rewrite ?app_nil_r. }
  split.
  { intros _. eexists. split; [exact Hrun|].
    split; [unfold s1, new; simpl; by rewrite <- app_assoc|].
    split; [|done].
    unfold s1, a1, a0, set_result_state. simpl.
    rewrite insert_insert_eq. f_equal.
    rewrite set_status_same. by rewrite insert_id. }
  intros entry'. eapply Hagain;
    [simpl; apply lookup_insert_eq|exact (eq_trans Hi1 Hi)
    |simpl; by rewrite lookup_insert_ne|done|done].
Qed.

Lemma async_satisfied_once_witness :
  ∃ (s1 : server) (a1 : Async.t) (new : list call),
    async_satisfied port_completion 10 300 port_request_server = Done () s1
  ∧ objects s1 !! 10 = Some (ObjAsync a1)
  ∧ Async.direct_result a1 = false
  ∧ Async.wait_handle a1 = 0
  ∧ objects s1 !! 20 = Some (ObjIosb completed_iosb)
  ∧ calls s1 = calls port_request_server ++ new
  ∧ calls_of K_set_wait_status new =
    [Call_set_wait_status 300 (Iosb.status completed_iosb)]
  ∧ calls_of K_close_handle new =
    (if Async.wait_handle port_request_async =? 0
      then []
      else
      [Call_close_handle
        (process (Async.thread port_request_async))
        (Async.wait_handle port_request_async)])
  ∧ (Async.direct_result port_request_async = true
    → Async.terminated a1 = true
    ∧ Async.signaled a1 = true ∧ Async.queue a1 = None)
  ∧ calls_of K_add_completion new =
    (if
      Async.direct_result port_request_async &&
      posts_completion port_request_async
      then
      completion_calls port_completion port_request_async
      (AsyncData.apc_context
        (Async.data port_request_async))
      (Iosb.status completed_iosb)
      (Iosb.result completed_iosb)
      else [])
  ∧ calls_of K_thread_queue_apc new =
    (if
      Async.direct_result port_request_async &&
      negb
      (AsyncData.apc (Async.data port_request_async) =?
        0)
      then [user_apc port_request_async]
      else [])
  ∧ (Async.direct_result port_request_async = true
    → ∃ s0 : server,
      async_set_result port_completion 10
      (Iosb.status completed_iosb)
      (Iosb.result completed_iosb)
      port_request_server =
      Done () s0
    ∧ calls s1 =
      calls s0 ++
      [Call_set_wait_status 300
        (Iosb.status completed_iosb)] ++
      (if Async.wait_handle port_request_async =? 0
        then []
        else
        [Call_close_handle
          (process
            (Async.thread port_request_async))
          (Async.wait_handle port_request_async)])
    ∧ objects s1 =
      <[10:=ObjAsync
        (Async.set_wait_handle 0
          (Async.set_direct_result false
            (completed_async
              port_completion
              port_request_async)))]>
      (objects s0)
    ∧ queues s1 = queues s0
    ∧ process_asyncs s1 = process_asyncs s0
    ∧ error s1 = error s0)
  ∧ ∀ entry' : Z,
    async_satisfied port_completion 10 entry' s1 =
    Done ()
    (set_calls
      (calls s1 ++
        [Call_set_wait_status entry'
          (Iosb.status completed_iosb)])
      s1).
Proof.
  apply (async_satisfied_once port_completion port_request_server 10
           port_request_async 20 completed_iosb 300).
  - reflexivity.
  - reflexivity.
  - reflexivity.
  - intros _. split; reflexivity.
Defined.

(** ** Freeing a queue *)

Lemma async_at_insert_ne s s' p o q :
  objects s' = <[p := o]> (objects s) → q ≠ p →
  async_at s' q = async_at s q.
Proof. intros Hs Hne. unfold async_at. by rewrite Hs, lookup_insert_ne. Qed.

Lemma is_iosb_at_insert_async s s' p a b j :
  objects s !! p = Some (ObjAsync a) →
  objects s' = <[p := ObjAsync b]> (objects s) →
  is_iosb_at s' j = is_iosb_at s j.
Proof.
  intros Ha Hs. unfold is_iosb_at. rewrite Hs.
  destruct (decide (j = p)) as [->|Hne].
  - by rewrite lookup_insert_eq, Ha.
  - by rewrite lookup_insert_ne.
Qed.

(** What one [async_terminate] does to the rest of the state. *)
Lemma async_terminate_effect s p a io status :
  objects s !! p = Some (ObjAsync a) →
  iosb_of s a = Some io →
  ∃ s1,
    async_terminate p status s = Done tt s1 ∧
    queues s1 = queues s ∧ process_asyncs s1 = process_asyncs s ∧
    (∀ q, q ≠ p → async_at s1 q = async_at s q) ∧
    (∀ j, is_iosb_at s1 j = is_iosb_at s j) ∧
    async_at s1 p
    = Some (if Async.terminated a then a else terminated_async status a) ∧
    calls s1
    = calls s ++ (if Async.terminated a then []
                  else terminate_calls p a status (snd <$> io)).
Proof.
  intros Ha Hio. destruct (Async.terminated a) eqn:Ht.
  - exists s. rewrite (async_terminate_done _ _ _ _ Ha Ht).
    repeat split; try done.
    + by apply async_at_Some.
    + by rewrite app_nil_r.
  - exists (terminated_state p a status io s).
    rewrite (async_terminate_live _ _ _ _ _ Ha Ht Hio).
    split; [done|]. split; [done|]. split; [done|]. split.
    { intros q Hq. by apply terminated_state_async_at_ne. }
    split; [intros j; by apply terminated_state_is_iosb_at|].
    split; [apply terminated_state_async_at|done].
Qed.

(** One round of the loop of [free_async_queue]. *)
Lemma free_async_queue_entry_step gc s p a :
  async_at s p = Some a →
  freeable_entry s p = true →
  ∃ s1 a1 new,
    free_async_queue_entry gc p s = Done tt s1 ∧
    calls s1 = calls s ++ new ∧
    calls_of K_fd_reselect_async new = [] ∧
    queues s1 = queues s ∧ process_asyncs s1 = process_asyncs s ∧
    async_at s1 p = Some a1 ∧
    a1 = freed_async gc a ∧
    (∀ q, q ≠ p → async_at s1 q = async_at s q) ∧
    (∀ j, is_iosb_at s1 j = is_iosb_at s j).
Proof.
  intros Hat Hfree. unfold freeable_entry in Hfree. rewrite Hat in Hfree.
  apply andb_true_iff in Hfree as [Hv Hport].
  apply async_at_Some in Hat as Ha.
  apply iosb_valid_of in Hv as [io Hio].
  (* the lookup of the completion port *)
  set (a0 := if is_null (Async.completion a)
             then match Async.fd a with
                  | Some fd => Async.set_completion (gc fd).1
                                 (Async.set_comp_key (gc fd).2 a)
                  | None => a
                  end
             else a).
  set (s0 := set_objects (<[p := ObjAsync (Async.set_fd None a0)]> (objects s)) s).
  assert (Hrun0 :
    (when (is_null (Async.completion a))
       (fd ← deref (Async.fd a);
        upd_async p (Async.set_comp_key (gc fd).2);;
        upd_async p (Async.set_completion (gc fd).1));;
     upd_async p (Async.set_fd None)) s = Done tt s0).
  { unfold s0, a0. destruct s as [objs qs ps cur err rms rs cs]; simpl in *.
    destruct (Async.completion a) eqn:Hc; simpl.
    - run. done.
    - simpl in Hport. destruct (Async.fd a) as [fd|] eqn:Hfd; [|done].
      run. sim. by rewrite !insert_insert_eq. }
  assert (Ha0 : objects s0 !! p = Some (ObjAsync (Async.set_fd None a0)))
    by (simpl; apply lookup_insert_eq).
  assert (Hio0 : iosb_of s0 (Async.set_fd None a0) = Some io).
  { apply (iosb_of_frame s s0 a _ p a (Async.set_fd None a0)); try done.
    unfold a0. simpl.
    by destruct (is_null (Async.completion a)), (Async.fd a). }
  destruct (async_terminate_effect s0 p _ io STATUS_HANDLES_CLOSED Ha0 Hio0)
    as (s1 & Hrun1 & Hq1 & Hp1 & Hother1 & Hiosb1 & Hat1 & Hcalls1).
  set (b := if Async.terminated (Async.set_fd None a0)
            then Async.set_fd None a0
            else terminated_async STATUS_HANDLES_CLOSED (Async.set_fd None a0))
    in *.
  apply async_at_Some in Hat1 as Hb.
  set (s2 := set_calls (calls s1 ++ [Call_release_object p])
               (set_objects (<[p := ObjAsync (Async.set_queue None b)]>
                               (objects s1)) s1)).
  assert (Hfreed : Async.set_queue None b = freed_async gc a).
  { unfold b, freed_async, terminated_async, a0, cache_completion.
    change (STATUS_HANDLES_CLOSED =? STATUS_ALERTED) with false.
    destruct (Async.completion a) eqn:Hc, (Async.fd a) eqn:Hf,
      (Async.terminated a) eqn:Ht; simpl; rewrite ?Ht; try done.
    all: destruct a; simpl in *; by subst. }
  exists s2, (Async.set_queue None b),
    ((if Async.terminated (Async.set_fd None a0) then []
      else terminate_calls p (Async.set_fd None a0) STATUS_HANDLES_CLOSED
             (snd <$> io)) ++ [Call_release_object p]).
  split.
  { unfold free_async_queue_entry.
    rewrite bind_run, (get_async_run _ _ _ Ha).
    assert (Hassoc : ∀ (m1 m2 : M unit) (k : M unit) s,
              (m1;; m2;; k) s = ((m1;; m2);; k) s).
    { intros m1 m2 k s'. rewrite !bind_run. by destruct (m1 s'). }
    rewrite Hassoc, bind_run, Hrun0.
    rewrite bind_run, Hrun1.
    rewrite bind_run, (upd_async_run _ _ _ _ Hb). done. }
  split.
  { unfold s2. simpl. rewrite Hcalls1. by rewrite <- app_assoc. }
  split.
  { rewrite calls_of_app.
    destruct (Async.terminated (Async.set_fd None a0)); [done|].
    unfold terminate_calls. rewrite !calls_of_app, calls_of_reselect.
    unfold reselect_calls. simpl.
    by destruct (Async.direct_result a0), (Async.queue a0). }
  split; [done|]. split; [done|].
  split; [unfold async_at, s2; simpl; by rewrite lookup_insert_eq|].
  split; [done|].
  split.
  - intros q Hq.
    rewrite (async_at_insert_ne s1 s2 p (ObjAsync (Async.set_queue None b)) q
               eq_refl Hq).
    rewrite (Hother1 q Hq).
    by apply (async_at_insert_ne s s0 p (ObjAsync (Async.set_fd None a0))).
  - intros j.
    rewrite (is_iosb_at_insert_async s1 s2 p b (Async.set_queue None b) j Hb
               eq_refl).
    rewrite Hiosb1.
    by apply (is_iosb_at_insert_async s s0 p a (Async.set_fd None a0) j Ha).
Qed.

Lemma freeable_entry_frame s s' q :
  async_at s' q = async_at s q →
  (∀ j, is_iosb_at s' j = is_iosb_at s j) →
  freeable_entry s' q = freeable_entry s q.
Proof.
  intros Hq Hj. unfold freeable_entry. rewrite Hq.
  destruct (async_at s q) as [a|]; [|done].
  unfold iosb_valid. destruct (Async.iosb a); by rewrite ?Hj.
Qed.

Lemma free_async_queue_loop gc entries :
  ∀ s,
    NoDup entries →
    forallb (freeable_entry s) entries = true →
    ∃ s1 new,
      LIST_FOR_EACH entries (free_async_queue_entry gc) s = Done tt s1 ∧
      calls s1 = calls s ++ new ∧
      calls_of K_fd_reselect_async new = [] ∧
      queues s1 = queues s ∧ process_asyncs s1 = process_asyncs s ∧
      (∀ p a, p ∈ entries → async_at s p = Some a →
         async_at s1 p = Some (freed_async gc a)) ∧
      (∀ q, q ∉ entries → async_at s1 q = async_at s q) ∧
      (∀ j, is_iosb_at s1 j = is_iosb_at s j).
Proof.
  induction entries as [|p next IH]; intros s Hnd Hall.
  { exists s, []. simpl. rewrite app_nil_r. repeat split; try done.
    intros p a Hp. inversion Hp. }
  apply NoDup_cons in Hnd as [Hp Hnd].
  simpl in Hall. apply andb_true_iff in Hall as [Hfree Hnext].
  assert (∃ a, async_at s p = Some a) as [a Hat].
  { unfold freeable_entry in Hfree. destruct (async_at s p); [eauto|done]. }
  destruct (free_async_queue_entry_step gc s p a Hat Hfree)
    as (s0 & a1 & new0 & Hrun0 & Hcalls0 & Hres0 & Hq0 & Hps0 & Hat0 & Ha1 &
        Hother0 & Hiosb0).
  destruct (IH s0 Hnd) as (s1 & new1 & Hrun1 & Hcalls1 & Hres1 & Hq1 & Hps1 &
                           Hin1 & Hout1 & Hiosb1).
  { rewrite forallb_forall in *. intros q Hq. rewrite <- (Hnext q Hq).
    apply freeable_entry_frame; [|done]. apply Hother0.
    apply list_elem_of_In in Hq. intros ->. done. }
  exists s1, (new0 ++ new1).
  split; [simpl; by rewrite bind_run, Hrun0|].
  split; [by rewrite Hcalls1, Hcalls0, app_assoc|].
  split; [by rewrite calls_of_app, Hres0, Hres1|].
  split; [congruence|]. split; [congruence|]. split.
  { intros q b Hq Hb. apply elem_of_cons in Hq as [->|Hq].
    - rewrite Hat in Hb. injection Hb as <-.
      by rewrite (Hout1 p Hp), Hat0, Ha1.
    - apply (Hin1 q b Hq). rewrite <- Hb. apply Hother0. intros ->. done. }
  split.
  - intros q Hq. apply not_elem_of_cons in Hq as [Hne Hq].
    by rewrite (Hout1 q Hq), (Hother0 q Hne).
  - intros j. by rewrite Hiosb1, Hiosb0.
Qed.

(** X13: On a queue of distinct asyncs that each have a completion port or
    an fd, free_async_queue leaves every async of the queue terminated, with
    fd and queue null and the completion port of its fd cached, and makes no
    reselect; the asyncs not on the queue, the list of the queue and the
    process lists are untouched. *)
Theorem free_async_queue_terminates_all gc s queue :
  NoDup (queue_list queue s) →
  forallb (freeable_entry s) (queue_list queue s) = true →
  ∃ s1 new,
    free_async_queue gc queue s = Done tt s1 ∧
    calls s1 = calls s ++ new ∧
    calls_of K_fd_reselect_async new = [] ∧
    queues s1 = queues s ∧ process_asyncs s1 = process_asyncs s ∧
    (∀ p a, p ∈ queue_list queue s → async_at s p = Some a →
       async_at s1 p = Some (freed_async gc a)) ∧
    (∀ q, q ∉ queue_list queue s → async_at s1 q = async_at s q).
Proof.
  intros Hnd Hall.
  destruct (free_async_queue_loop gc _ s Hnd Hall)
    as (s1 & new & Hrun & Hcalls & Hres & Hq & Hps & Hin & Hout & _).
  exists s1, new. split; [|done].
  unfold free_async_queue. rewrite bind_run. unfold gets. cbn beta iota. done.
Qed.

Lemma free_async_queue_terminates_all_witness :
  ∃ (s1 : server) (new : list call),
    free_async_queue port_completion 50 two_queued_server = Done () s1
  ∧ calls s1 = calls two_queued_server ++ new
  ∧ calls_of K_fd_reselect_async new = []
  ∧ queues s1 = queues two_queued_server
  ∧ process_asyncs s1 = process_asyncs two_queued_server
  ∧ (∀ (p : Z) (a : Async.t),
      p ∈ queue_list 50 two_queued_server
    → async_at two_queued_server p = Some a
    → async_at s1 p = Some (freed_async port_completion a))
  ∧ ∀ q : Z,
    q ∉ queue_list 50 two_queued_server
  → async_at s1 q = async_at two_queued_server q.
Proof.
  apply (free_async_queue_terminates_all port_completion two_queued_server
           50).
  - apply (bool_decide_unpack _). vm_compute. exact I.
  - reflexivity.
Defined.

Lemma freed_async_fields gc a :
  let a1 := freed_async gc a in
  Async.terminated a1 = true ∧ Async.fd a1 = None ∧ Async.queue a1 = None ∧
  Async.alerted a1 = Async.alerted a ∧ Async.iosb a1 = Async.iosb a ∧
  posts_completion a1 = posts_completion a ∧
  (∀ cvalue status total,
     completion_calls gc a1 cvalue status total
     = completion_calls gc a cvalue status total) ∧
  AsyncData.apc (Async.data a1) = AsyncData.apc (Async.data a) ∧
  AsyncData.apc_context (Async.data a1) = AsyncData.apc_context (Async.data a).
Proof.
  unfold freed_async, posts_completion, completion_calls, cache_completion.
  destruct (Async.fd a) eqn:Hf, (Async.completion a) eqn:Hc; simpl;
    rewrite ?Hf, ?Hc; simpl; repeat split; done.
Qed.

(** X14: An async terminated by free_async_queue can still be completed:
    async_set_result then posts its completion packet, under the usual
    condition, to the port cached from the fd, and makes no reselect, no fd
    signal and no release, and leaves the queues as they were. *)
Theorem completion_posted_after_free gc s queue p a status total :
  NoDup (queue_list queue s) →
  forallb (freeable_entry s) (queue_list queue s) = true →
  p ∈ queue_list queue s →
  async_at s p = Some a →
  Async.alerted a && (status =? STATUS_PENDING) = false →
  ∃ s1 s2 new,
    free_async_queue gc queue s = Done tt s1 ∧
    async_at s1 p = Some (freed_async gc a) ∧
    async_set_result gc p status total s1 = Done tt s2 ∧
    calls s2 = calls s1 ++ new ∧
    calls_of K_add_completion new
    = (if posts_completion a
       then completion_calls gc a (AsyncData.apc_context (Async.data a))
              status total
       else []) ∧
    calls_of K_fd_reselect_async new = [] ∧
    calls_of K_set_fd_signaled new = [] ∧
    calls_of K_release_object new = [] ∧
    queues s2 = queues s.
Proof.
  intros Hnd Hall Hp Hat Hbr.
  destruct (free_async_queue_loop gc _ s Hnd Hall)
    as (s1 & new1 & Hrun & Hcalls & Hres & Hq & Hps & Hin & Hout & Hiosb).
  specialize (Hin p a Hp Hat).
  destruct (freed_async_fields gc a)
    as (Ht & Hfd & Hqu & Hal & Hi & Hposts & Hcc & Hapc & Hctx).
  remember (freed_async gc a) as a1 eqn:Ea1. simpl in Ht, Hfd, Hqu, Hal, Hi.
  assert (∃ io, iosb_of s1 a1 = Some io) as [io Hio].
  { apply iosb_valid_of. unfold iosb_valid. rewrite Hi.
    rewrite forallb_forall in Hall. apply list_elem_of_In in Hp.
    specialize (Hall p Hp). unfold freeable_entry in Hall. rewrite Hat in Hall.
    apply andb_true_iff in Hall as [Hv _]. unfold iosb_valid in Hv.
    destruct (Async.iosb a); [|done]. by rewrite Hiosb. }
  apply async_at_Some in Hin as Ha1.
  exists s1, (set_result_state gc p a1 status total io s1),
         (set_result_calls gc p a1 status total).
  split.
  { unfold free_async_queue. rewrite bind_run. unfold gets. by cbn beta iota. }
  split; [done|]. split.
  { apply async_set_result_final_run; try done. by rewrite Hal. }
  split; [done|].
  split; [by_kind; by rewrite Hposts, Hcc, Hctx|].
  split; [by_kind; unfold reselect_calls; by rewrite Hqu|].
  split.
  { by_kind. rewrite Hfd. by destruct (Async.event a1). }
  split; [by_kind; unfold detach_calls; by rewrite Hqu|].
  unfold set_result_state. simpl. by rewrite Hqu.
Qed.

Lemma completion_posted_after_free_witness :
  ∃ (s1 s2 : server) (new : list call),
    free_async_queue port_completion 50 two_queued_server = Done () s1
  ∧ async_at s1 10 =
    Some
    (freed_async port_completion (Async.set_queue (Some 50) sample_async))
  ∧ async_set_result port_completion 10 0 0 s1 = Done () s2
  ∧ calls s2 = calls s1 ++ new
  ∧ calls_of K_add_completion new =
    (if posts_completion (Async.set_queue (Some 50) sample_async)
      then
      completion_calls port_completion
      (Async.set_queue (Some 50) sample_async)
      (AsyncData.apc_context
        (Async.data (Async.set_queue (Some 50) sample_async)))
      0 0
      else [])
  ∧ calls_of K_fd_reselect_async new = []
  ∧ calls_of K_set_fd_signaled new = []
  ∧ calls_of K_release_object new = []
  ∧ queues s2 = queues two_queued_server.
Proof.
  apply (completion_posted_after_free port_completion two_queued_server 50
           10 (Async.set_queue (Some 50) sample_async) 0 0).
  - apply (bool_decide_unpack _). vm_compute. exact I.
  - reflexivity.
  - apply (bool_decide_unpack _). vm_compute. exact I.
  - reflexivity.
  - reflexivity.
Defined.

(** ** The three ways out of [async_handoff] *)

(** X15: Past its unknown-status and NT-error rules, async_handoff on a
    request whose last error is PENDING and whose iosb is still PENDING
    makes the async pending, clears direct_result and returns its wait
    handle; only when the fd is overlapped and blocking is not forced does
    it close the handle, zero the field and return 0. Nothing else changes. *)
Theorem async_handoff_pending ov nt s async a i io result force_blocking :
  objects s !! async = Some (ObjAsync a) →
  Async.unknown_status a = false →
  error s = STATUS_PENDING →
  negb (Async.pending a) && nt STATUS_PENDING = false →
  Async.iosb a = Some i →
  objects s !! i = Some (ObjIosb io) →
  Iosb.status io = STATUS_PENDING →
  let closes :=
    negb force_blocking &&
    match Async.fd a with Some fd => ov fd | None => false end in
  let a1 :=
    Async.set_wait_handle (if closes then 0 else Async.wait_handle a)
      (Async.set_pending true (Async.set_direct_result false a)) in
  async_handoff ov nt async result force_blocking s
  = Done (Async.wait_handle a1, None)
      (set_calls
         (calls s ++
          if closes
          then [Call_close_handle (process (Async.thread a))
                  (Async.wait_handle a)]
          else [])
         (set_objects (<[async := ObjAsync a1]> (objects s)) s)).
Proof.
  intros Ha Hu Herr Hcond Hi Hio Hst closes a1. unfold async_handoff.
  assert (Hne : async ≠ i) by eauto using async_iosb_distinct.
  rewrite bind_run, (get_async_run _ _ _ Ha), Hu.
  rewrite bind_run. unfold get_error at 1, gets at 1. rewrite Herr, Hcond.
  rewrite bind_run. unfold get_error at 1, gets at 1. rewrite Herr, Hi.
  change (STATUS_PENDING =? STATUS_PENDING) with true. simpl negb.
  cbv iota.
  destruct s as [objs qs ps cur err rms rs cs]; simpl in *. subst err.
  pose proof (proj2 (Z.eqb_eq _ _) Hst) as Hst'.
  unfold a1, closes.
  destruct (negb force_blocking &&
            match Async.fd a with
            | Some fd => ov fd
            | None => false
            end) eqn:Hfb; run.
  all: rewrite Hst; apply (f_equal (Done _)); sim; f_equal;
    rewrite ?insert_insert_eq, ?app_nil_r; done.
Qed.

Lemma async_handoff_pending_witness :
  async_handoff (λ _ : Z, true) NT_ERROR_winternl 10 true false
    (request_server STATUS_PENDING) =
    Done
    (Async.wait_handle
      (Async.set_wait_handle
        (if
          negb false &&
          match Async.fd request_async with
          | Some _ => true
          | None => false
          end
          then 0
          else Async.wait_handle request_async)
        (Async.set_pending true
          (Async.set_direct_result false request_async))),
      None)
    (set_calls
      (calls (request_server STATUS_PENDING) ++
        (if
          negb false &&
          match Async.fd request_async with
          | Some _ => true
          | None => false
          end
          then
          [Call_close_handle (process (Async.thread request_async))
            (Async.wait_handle request_async)]
          else []))
      (set_objects
        (<[10:=ObjAsync
            (Async.set_wait_handle
              (if
                negb false &&
                match Async.fd request_async with
                | Some _ => true
                | None => false
                end
                then 0
                else Async.wait_handle request_async)
              (Async.set_pending true
                (Async.set_direct_result false request_async)))]>
          (objects (request_server STATUS_PENDING)))
        (request_server STATUS_PENDING))).
Proof.
  apply (async_handoff_pending (λ _ : Z, true) NT_ERROR_winternl
           (request_server STATUS_PENDING) 10 request_async 20 sample_iosb
           true false).
  - reflexivity.
  - reflexivity.
  - reflexivity.
  - reflexivity.
  - reflexivity.
  - reflexivity.
  - reflexivity.
Defined.

(** X16: Past its unknown-status and NT-error rules, async_handoff with last
    error PENDING and a result already in the iosb hands the output buffer
    to the reply (the iosb forgets it), marks the async signaled, stores the
    result if asked and sets the last error to the iosb status. With another
    last error on a live async whose iosb is PENDING it terminates the async
    with that error, which becomes the iosb status, marks it signaled, and
    neither closes the wait handle nor sets reply data. *)
Theorem async_handoff_completed ov nt s async a i io result force_blocking :
  objects s !! async = Some (ObjAsync a) →
  Async.unknown_status a = false →
  negb (Async.pending a) && nt (error s) = false →
  Async.iosb a = Some i →
  objects s !! i = Some (ObjIosb io) →
  (error s = STATUS_PENDING → Iosb.status io ≠ STATUS_PENDING →
   async_handoff ov nt async result force_blocking s
   = Done (Async.wait_handle a,
           if result then Some (Iosb.result io) else None)
       (set_server_error (Iosb.status io)
          (set_calls
             (calls s ++ match Iosb.out_data io with
                         | Some out =>
                             [Call_set_reply_data_ptr out (Iosb.out_size io)]
                         | None => []
                         end)
             (set_objects
                (<[async := ObjAsync (Async.set_signaled true a)]>
                   (<[i := ObjIosb (Iosb.set_out_data None io)]> (objects s)))
                s)))) ∧
  (error s ≠ STATUS_PENDING → Async.terminated a = false →
   Iosb.status io = STATUS_PENDING →
   ∃ s1 new,
     async_handoff ov nt async result force_blocking s
     = Done (Async.wait_handle a,
             if result then Some (Iosb.result io) else None) s1 ∧
     objects s1
     = <[async := ObjAsync
           (Async.set_signaled true (terminated_async (error s) a))]>
         (<[i := ObjIosb (Iosb.set_status (error s) io)]> (objects s)) ∧
     error s1 = error s ∧
     calls s1 = calls s ++ new ∧
     calls_of K_thread_queue_apc new
     = (if Async.direct_result a then []
        else [async_io_apc async a (apc_status (error s) (Some io))]) ∧
     calls_of K_close_handle new = [] ∧
     calls_of K_set_reply_data_ptr new = []).
Proof.
  intros Ha Hu Hcond Hi Hio.
  assert (Hne : async ≠ i) by eauto using async_iosb_distinct.
  split.
  - intros Herr Hst. unfold async_handoff.
    rewrite bind_run, (get_async_run _ _ _ Ha), Hu.
    rewrite bind_run. unfold get_error at 1, gets at 1. rewrite Hcond.
    rewrite bind_run. unfold get_error at 1, gets at 1. rewrite Herr, Hi.
    change (STATUS_PENDING =? STATUS_PENDING) with true. simpl negb.
    cbv iota.
    destruct s as [objs qs ps cur err rms rs cs]; simpl in *. subst err.
    apply Z.eqb_neq in Hst.
    destruct (Iosb.out_data io) eqn:Hout; run.
    + done.
    + apply (f_equal (Done _)). f_equal; [|by rewrite app_nil_r].
      apply map_eq. intros k.
      destruct (decide (k = async)) as [->|Hk];
        [by rewrite !lookup_insert_eq|].
      rewrite !lookup_insert_ne by done.
      destruct (decide (k = i)) as [->|Hki];
        [|by rewrite lookup_insert_ne].
      rewrite lookup_insert_eq, Hio. do 2 f_equal.
      destruct io; simpl in *. by subst.
  - intros Herr Ht Hst.
    assert (Hof : iosb_of s a = Some (Some (i, io)))
      by (by apply iosb_of_Some).
    pose proof (async_terminate_live s async a (error s) _ Ha Ht Hof) as Hterm.
    apply Z.eqb_neq in Herr as Herr'.
    assert (Hrun :
      async_handoff ov nt async result force_blocking s
      = Done (Async.wait_handle a,
              if result then Some (Iosb.result io) else None)
          (set_server_error (error s)
             (set_objects
                (<[async := ObjAsync
                     (Async.set_signaled true (terminated_async (error s) a))]>
                   (objects (terminated_state async a (error s)
                               (Some (i, io)) s)))
                (terminated_state async a (error s) (Some (i, io)) s)))).
    { unfold async_handoff.
      rewrite bind_run, (get_async_run _ _ _ Ha), Hu.
      rewrite bind_run. unfold get_error at 1, gets at 1. rewrite Hcond.
      rewrite bind_run. unfold get_error at 1, gets at 1. rewrite Herr', Hi.
      simpl negb. cbv iota.
      rewrite bind_run, bind_run. unfold get_error at 1, gets at 1.
      rewrite Hterm.
      unfold terminated_state, terminated_iosb, terminated_async.
      apply Z.eqb_eq in Hst as Hst'. rewrite Hst'.
      destruct s as [objs qs ps cur err rms rs cs]; simpl in *.
      destruct (err =? STATUS_ALERTED) eqn:Hal; run.
      all: done. }
    rewrite Hrun. eexists _, _. split; [reflexivity|].
    split.
    { simpl. rewrite insert_insert_eq. unfold terminated_iosb.
      apply Z.eqb_eq in Hst. by rewrite Hst. }
    split; [done|]. split; [reflexivity|].
    unfold terminate_calls. rewrite !calls_of_app, !calls_of_reselect. simpl.
    destruct (Async.direct_result a); by rewrite ?app_nil_r.
Qed.

Lemma async_handoff_completed_witness :
  (error (request_server 0) = STATUS_PENDING
    → Iosb.status sample_iosb ≠ STATUS_PENDING
    → async_handoff (λ _ : Z, true) NT_ERROR_winternl 10 true false
      (request_server 0) =
      Done
      (Async.wait_handle request_async,
        if true then Some (Iosb.result sample_iosb) else None)
      (set_server_error (Iosb.status sample_iosb)
        (set_calls
          (calls (request_server 0) ++
            match Iosb.out_data sample_iosb with
            | Some out =>
            [Call_set_reply_data_ptr out (Iosb.out_size sample_iosb)]
            | None => []
            end)
          (set_objects
            (<[10:=ObjAsync (Async.set_signaled true request_async)]>
              (<[20:=ObjIosb (Iosb.set_out_data None sample_iosb)]>
                (objects (request_server 0))))
            (request_server 0)))))
  ∧ (error (request_server 0) ≠ STATUS_PENDING
    → Async.terminated request_async = false
    → Iosb.status sample_iosb = STATUS_PENDING
    → ∃ (s1 : server) (new : list call),
      async_handoff (λ _ : Z, true) NT_ERROR_winternl 10 true false
      (request_server 0) =
      Done
      (Async.wait_handle request_async,
        if true then Some (Iosb.result sample_iosb) else None)
      s1
    ∧ objects s1 =
      <[10:=ObjAsync
        (Async.set_signaled true
          (terminated_async (error (request_server 0))
            request_async))]>
      (<[20:=ObjIosb
          (Iosb.set_status (error (request_server 0))
            sample_iosb)]>
        (objects (request_server 0)))
    ∧ error s1 = error (request_server 0)
    ∧ calls s1 = calls (request_server 0) ++ new
    ∧ calls_of K_thread_queue_apc new =
      (if Async.direct_result request_async
        then []
        else
        [async_io_apc 10 request_async
          (apc_status (error (request_server 0))
            (Some sample_iosb))])
    ∧ calls_of K_close_handle new = []
    ∧ calls_of K_set_reply_data_ptr new = []).
Proof.
  apply (async_handoff_completed (λ _ : Z, true) NT_ERROR_winternl
           (request_server 0) 10 request_async 20 sample_iosb true false).
  - reflexivity.
  - reflexivity.
  - reflexivity.
  - reflexivity.
  - reflexivity.
Defined.

(** ** Destruction *)

Lemma release_segment_run (p : option Z) s :
  (match p with
   | Some obj => release_object obj
   | None => mret tt
   end) s
  = Done tt (set_calls (calls s ++ release_calls p) s).
Proof. destruct p; [done|]. simpl. by rewrite set_calls_nil. Qed.

Lemma unlink_segment_run obj a s :
  objects s !! obj = Some (ObjAsync a) →
  (match Async.queue a with
   | Some _ => list_remove_queue_entry obj;; async_reselect obj
   | None =>
       match Async.fd a with
       | Some fd => release_object fd
       | None => mret tt
       end
   end) s
  = Done tt
      (set_calls
         (calls s ++ match Async.queue a with
                     | Some _ => reselect_calls a
                     | None => release_calls (Async.fd a)
                     end)
         (set_queues
            (if non_null (Async.queue a)
             then filter (λ x, x ≠ obj) <$> queues s else queues s) s)).
Proof.
  intros Ha. destruct (Async.queue a) eqn:Hq; simpl.
  - unfold list_remove_queue_entry. rewrite bind_run. unfold modify at 1.
    erewrite reselect_run by (simpl; exact Ha). done.
  - rewrite release_segment_run. by destruct s.
Qed.

Ltac sim_lists := unfold set_process_asyncs; sim.

Lemma async_destroy_run s obj a :
  objects s !! obj = Some (ObjAsync a) →
  async_destroy obj s = Done tt (destroyed_state obj a s).
Proof.
  intros Ha. unfold async_destroy.
  rewrite bind_run, (get_object_run _ _ _ Ha). simpl.
  rewrite bind_run, ret_run, bind_run, (get_async_run _ _ _ Ha).
  destruct s as [objs qs ps cur err rms rs cs]; simpl in Ha.
  unfold list_remove_process_entry. rewrite bind_run. unfold modify at 1.
  sim_lists.
  rewrite bind_run. erewrite unlink_segment_run by (simpl; exact Ha). sim_lists.
  rewrite bind_run, timeout_segment_run. sim_lists.
  rewrite bind_run, release_segment_run. sim_lists.
  rewrite bind_run, release_segment_run. sim_lists.
  rewrite bind_run, release_segment_run. sim_lists.
  unfold destroyed_state, destroy_calls, release_object, emit, modify.
  sim_lists. by rewrite <- !app_assoc.
Qed.

Lemma filter_id_absent (obj : Z) (l : list Z) :
  obj ∉ l → filter (λ x, x ≠ obj) l = l.
Proof.
  induction l as [|x l IH]; [done|]. intros Hn.
  apply not_elem_of_cons in Hn as [Hne Hn].
  rewrite filter_cons_True by done. by rewrite IH.
Qed.

Lemma process_list_fmap_filter obj s s' proc :
  process_asyncs s' = filter (λ x, x ≠ obj) <$> process_asyncs s →
  process_list proc s' = filter (λ x, x ≠ obj) (process_list proc s).
Proof.
  intros Hs. unfold process_list. rewrite Hs, lookup_fmap.
  by destruct (process_asyncs s !! proc).
Qed.

Lemma queue_list_fmap_filter obj s s' q :
  queues s' = filter (λ x, x ≠ obj) <$> queues s →
  queue_list q s' = filter (λ x, x ≠ obj) (queue_list q s).
Proof.
  intros Hs. unfold queue_list. rewrite Hs, lookup_fmap.
  by destruct (queues s !! q).
Qed.

(** X17: async_destroy removes the async from the list of its process and,
    if it was queued, from its queue, so that no list holds it afterwards;
    the other entries keep their order. It writes no object and does not
    touch the last error. *)
Theorem async_destroy_unlinks s obj a :
  objects s !! obj = Some (ObjAsync a) →
  ∃ s1,
    async_destroy obj s = Done tt s1 ∧
    objects s1 = objects s ∧ error s1 = error s ∧
    (∀ proc, process_list proc s1
             = filter (λ x, x ≠ obj) (process_list proc s)) ∧
    (∀ proc, obj ∉ process_list proc s1) ∧
    (∀ q, queue_list q s1
          = if non_null (Async.queue a)
            then filter (λ x, x ≠ obj) (queue_list q s)
            else queue_list q s) ∧
    (Async.queue a ≠ None → ∀ q, obj ∉ queue_list q s1).
Proof.
  intros Ha. exists (destroyed_state obj a s).
  split; [by apply async_destroy_run|]. split; [done|]. split; [done|].
  assert (Hp : ∀ proc, process_list proc (destroyed_state obj a s)
                       = filter (λ x, x ≠ obj) (process_list proc s))
    by (intros proc; by apply process_list_fmap_filter).
  split; [done|]. split.
  { intros proc Hin. rewrite Hp in Hin.
    apply list_elem_of_filter in Hin as [Hne _]. done. }
  assert (Hq : ∀ q, queue_list q (destroyed_state obj a s)
                    = if non_null (Async.queue a)
                      then filter (λ x, x ≠ obj) (queue_list q s)
                      else queue_list q s).
  { intros q. destruct (non_null (Async.queue a)) eqn:Hn.
    - apply queue_list_fmap_filter. unfold destroyed_state. simpl.
      by rewrite Hn.
    - unfold queue_list, destroyed_state. simpl. by rewrite Hn. }
  split; [done|].
  intros Hqa q Hin. rewrite Hq in Hin.
  destruct (Async.queue a); [|done]. simpl in Hin.
  apply list_elem_of_filter in Hin as [Hne _]. done.
Qed.

Lemma async_destroy_unlinks_witness :
  ∃ s1 : server,
    async_destroy 12 crowded_server = Done () s1
  ∧ objects s1 = objects crowded_server
  ∧ error s1 = error crowded_server
  ∧ (∀ proc : Z,
      process_list proc s1 =
      filter (λ x : Z, x ≠ 12) (process_list proc crowded_server))
  ∧ (∀ proc : Z, 12 ∉ process_list proc s1)
  ∧ (∀ q : Z,
      queue_list q s1 =
      (if non_null (Async.queue plain_async)
        then filter (λ x : Z, x ≠ 12) (queue_list q crowded_server)
        else queue_list q crowded_server))
  ∧ (Async.queue plain_async ≠ None
    → ∀ q : Z, 12 ∉ queue_list q s1).
Proof.
  apply (async_destroy_unlinks crowded_server 12 plain_async).
  - reflexivity.
Defined.

Lemma first_async_with_user_objects s s' entries user_arg :
  objects s' = objects s →
  first_async_with_user s' entries user_arg
  = first_async_with_user s entries user_arg.
Proof.
  intros Ho. induction entries as [|p next IH]; [done|].
  simpl. by rewrite Ho, IH.
Qed.

Lemma all_asyncs_objects s s' entries :
  objects s' = objects s → all_asyncs s' entries = all_asyncs s entries.
Proof.
  intros Ho. unfold all_asyncs.
  induction entries as [|p next IH]; [done|]. simpl. rewrite IH.
  unfold is_async_at. by rewrite Ho.
Qed.

Lemma all_asyncs_filter s (P : Z → Prop) `{∀ x, Decision (P x)} entries :
  all_asyncs s entries = true → all_asyncs s (filter P entries) = true.
Proof.
  unfold all_asyncs. rewrite !forallb_forall. intros Hall p Hp.
  apply Hall. apply list_elem_of_In. apply list_elem_of_In in Hp.
  by apply list_elem_of_filter in Hp as [_ Hp].
Qed.

Lemma req_get_async_result_none s user_arg :
  all_asyncs s (process_list (process (current s)) s) = true →
  first_async_with_user s (process_list (process (current s)) s) user_arg
  = None →
  req_get_async_result user_arg s
  = Done tt (set_server_error STATUS_INVALID_PARAMETER s).
Proof.
  intros Hall Hnone. unfold req_get_async_result.
  rewrite bind_run. unfold gets at 1. cbn beta iota.
  rewrite bind_run. unfold gets at 1. cbn beta iota.
  rewrite bind_run, (get_async_result_scan_run _ _ _ Hall), Hnone. done.
Qed.

(** X18: Once an async is destroyed the get_async_result request no longer
    finds it: if no other async of the calling process has the requested
    user value the request fails with STATUS_INVALID_PARAMETER. *)
Theorem destroyed_async_is_not_found s obj a user_arg :
  objects s !! obj = Some (ObjAsync a) →
  all_asyncs s (process_list (process (current s)) s) = true →
  first_async_with_user s
    (filter (λ x, x ≠ obj) (process_list (process (current s)) s)) user_arg
  = None →
  ∃ s1,
    async_destroy obj s = Done tt s1 ∧
    req_get_async_result user_arg s1
    = Done tt (set_server_error STATUS_INVALID_PARAMETER s1).
Proof.
  intros Ha Hall Hnone. exists (destroyed_state obj a s).
  split; [by apply async_destroy_run|].
  assert (Hl : process_list (process (current (destroyed_state obj a s)))
                 (destroyed_state obj a s)
               = filter (λ x, x ≠ obj) (process_list (process (current s)) s))
    by (by apply process_list_fmap_filter).
  apply req_get_async_result_none; rewrite Hl.
  - rewrite (all_asyncs_objects s) by done. by apply all_asyncs_filter.
  - by rewrite (first_async_with_user_objects s).
Qed.

Lemma destroyed_async_is_not_found_witness :
  ∃ s1 : server,
    async_destroy 10 plain_server = Done () s1
  ∧ req_get_async_result 20480 s1 =
    Done () (set_server_error STATUS_INVALID_PARAMETER s1).
Proof.
  apply (destroyed_async_is_not_found plain_server 10 plain_async 0x5000).
  - reflexivity.
  - reflexivity.
  - apply (bool_decide_unpack _). vm_compute. exact I.
Defined.

(** ** References over the life of an async *)

Lemma released_objects_app l1 l2 :
  released_objects (l1 ++ l2) = released_objects l1 ++ released_objects l2.
Proof. apply omap_app. Qed.

Lemma grabbed_objects_app l1 l2 :
  grabbed_objects (l1 ++ l2) = grabbed_objects l1 ++ grabbed_objects l2.
Proof. apply omap_app. Qed.

Lemma released_release_calls p :
  released_objects (release_calls p) = option_list p.
Proof. by destruct p. Qed.

Lemma released_destroy_calls a :
  released_objects (destroy_calls a)
  = match Async.queue a with
    | Some _ => []
    | None => option_list (Async.fd a)
    end ++ option_list (Async.completion a) ++ option_list (Async.event a)
    ++ option_list (Async.iosb a) ++ [thread_ptr (Async.thread a)].
Proof.
  unfold destroy_calls. rewrite !released_objects_app, !released_release_calls.
  unfold timeout_calls, reselect_calls.
  destruct (Async.queue a), (Async.fd a), (Async.timeout a); reflexivity.
Qed.

Lemma grabbed_destroy_calls a : grabbed_objects (destroy_calls a) = [].
Proof.
  unfold destroy_calls, timeout_calls, reselect_calls, release_calls.
  rewrite !grabbed_objects_app.
  by destruct (Async.queue a), (Async.fd a), (Async.timeout a),
       (Async.completion a), (Async.event a), (Async.iosb a).
Qed.

Lemma released_terminate_calls p a status io :
  released_objects (terminate_calls p a status io) = [p].
Proof.
  unfold terminate_calls, reselect_calls.
  by destruct (Async.direct_result a), (Async.queue a), (Async.fd a).
Qed.

Lemma grabbed_terminate_calls p a status io :
  grabbed_objects (terminate_calls p a status io) = [p].
Proof.
  unfold terminate_calls, reselect_calls.
  by destruct (Async.direct_result a), (Async.queue a), (Async.fd a).
Qed.

Lemma released_set_result_calls gc obj a status total :
  released_objects (set_result_calls gc obj a status total)
  = if non_null (Async.queue a) then [obj] else [].
Proof.
  unfold set_result_calls, timeout_calls, notice_calls, completion_calls,
    signal_calls, wake_calls, callback_calls, reselect_calls, detach_calls.
  rewrite !released_objects_app.
  destruct (Async.timeout a), (negb (AsyncData.apc (Async.data a) =? 0)),
    (posts_completion a), (Async.completion (cache_completion gc a)),
    (Async.event a), (Async.fd a), (Async.signaled a),
    (Async.completion_callback a), (Async.queue a); reflexivity.
Qed.

Lemma grabbed_set_result_calls gc obj a status total :
  grabbed_objects (set_result_calls gc obj a status total) = [].
Proof.
  unfold set_result_calls, timeout_calls, notice_calls, completion_calls,
    signal_calls, wake_calls, callback_calls, reselect_calls, detach_calls.
  rewrite !grabbed_objects_app.
  destruct (Async.timeout a), (negb (AsyncData.apc (Async.data a) =? 0)),
    (posts_completion a), (Async.completion (cache_completion gc a)),
    (Async.event a), (Async.fd a), (Async.signaled a),
    (Async.completion_callback a), (Async.queue a); reflexivity.
Qed.

(** X19: The reference on the fd is given back exactly once over the life of
    an async: by async_destroy when the live async holding it was never
    queued, by queue_async when it was, in which case async_destroy releases
    no fd. Over a life queue, terminate, complete, destroy the two
    references taken on the async are matched by two releases, and destroy
    releases the port, the event, the iosb and the thread. *)
Theorem fd_reference_released_once gc s queue obj a fd io status status' total :
  objects s !! obj = Some (ObjAsync a) →
  Async.fd a = Some fd →
  Async.queue a = None →
  Async.terminated a = false →
  iosb_of s a = Some io →
  status' ≠ STATUS_PENDING →
  (∃ s1 new,
     async_destroy obj s = Done tt s1 ∧
     calls s1 = calls s ++ new ∧
     released_objects new
     = [fd] ++ option_list (Async.completion a) ++ option_list (Async.event a)
       ++ option_list (Async.iosb a) ++ [thread_ptr (Async.thread a)] ∧
     grabbed_objects new = []) ∧
  (∃ s1 a1 new,
     (queue_async queue obj;;
      async_terminate obj status;;
      async_set_result gc obj status' total;;
      async_destroy obj) s = Done tt s1 ∧
     objects s1 !! obj = Some (ObjAsync a1) ∧
     Async.fd a1 = None ∧ Async.queue a1 = None ∧
     calls s1 = calls s ++ new ∧
     released_objects new
     = [fd; obj; obj] ++ option_list (Async.completion a1)
       ++ option_list (Async.event a) ++ option_list (Async.iosb a)
       ++ [thread_ptr (Async.thread a)] ∧
     grabbed_objects new = [obj; obj]).
Proof.
  intros Ha Hfd Hq Ht Hio Hst. split.
  { exists (destroyed_state obj a s), (destroy_calls a).
    split; [by apply async_destroy_run|]. split; [done|].
    split; [|apply grabbed_destroy_calls].
    by rewrite released_destroy_calls, Hq, Hfd. }
  pose proof (queue_async_run s queue obj a fd Ha Hfd) as Hrun1.
  set (aq := Async.set_queue (Some queue) a) in *.
  set (s2 := set_calls _ _) in Hrun1.
  assert (Ha2 : objects s2 !! obj = Some (ObjAsync aq))
    by (simpl; apply lookup_insert_eq).
  assert (Hio2 : iosb_of s2 aq = Some io)
    by (by apply (iosb_of_frame s s2 a aq obj a aq)).
  pose proof (async_terminate_live s2 obj aq status io Ha2 Ht Hio2) as Hrun2.
  set (at_ := terminated_async status aq) in *.
  set (s3 := terminated_state obj aq status io s2) in *.
  assert (Ha3 : objects s3 !! obj = Some (ObjAsync at_))
    by apply terminated_state_lookup.
  assert (Hio3 : iosb_of s3 at_
                 = Some ((λ x, (x.1, terminated_iosb status x.2)) <$> io))
    by (by eapply terminated_state_iosb_of).
  assert (Hbr : Async.alerted at_ && (status' =? STATUS_PENDING) = false).
  { apply Z.eqb_neq in Hst. rewrite Hst. apply andb_false_r. }
  pose proof (async_set_result_final_run gc s3 obj at_ status' total _ Ha3
                (terminated_async_terminated _ _) Hbr Hio3) as Hrun3.
  set (s4 := set_result_state gc obj at_ status' total _ s3) in *.
  assert (Ha4 : objects s4 !! obj = Some (ObjAsync (completed_async gc at_)))
    by apply set_result_state_lookup.
  pose proof (async_destroy_run s4 obj _ Ha4) as Hrun4.
  destruct (completed_async_fields gc at_)
    as (_ & _ & _ & _ & Hq5 & Hfd5 & _ & Hi5 & Hthr5 & _ & Hev5 & _).
  assert (Hatq : Async.queue at_ = Some queue).
  { unfold at_, terminated_async. by destruct (status =? STATUS_ALERTED). }
  assert (Hsame : Async.iosb at_ = Async.iosb a ∧
                  Async.thread at_ = Async.thread a ∧
                  Async.event at_ = Async.event a).
  { unfold at_, terminated_async. by destruct (status =? STATUS_ALERTED). }
  destruct Hsame as (Hi & Hthr & Hev).
  rewrite Hatq in Hfd5. simpl in Hfd5.
  exists (destroyed_state obj (completed_async gc at_) s4),
         (completed_async gc at_),
         ([Call_release_object fd; Call_grab_object obj;
           Call_set_fd_signaled fd 0]
          ++ terminate_calls obj aq status (snd <$> io)
          ++ set_result_calls gc obj at_ status' total
          ++ destroy_calls (completed_async gc at_)).
  split.
  { rewrite bind_run, Hrun1, bind_run, Hrun2, bind_run, Hrun3. exact Hrun4. }
  split; [exact Ha4|]. split; [exact Hfd5|]. split; [exact Hq5|]. split.
  { change (calls (destroyed_state obj (completed_async gc at_) s4))
      with (calls s4 ++ destroy_calls (completed_async gc at_)).
    change (calls s4) with (calls s3 ++ set_result_calls gc obj at_ status' total).
    change (calls s3) with (calls s2 ++ terminate_calls obj aq status (snd <$> io)).
    change (calls s2)
      with (calls s ++ [Call_release_object fd; Call_grab_object obj;
                        Call_set_fd_signaled fd 0]).
    by rewrite <- !app_assoc. }
  split.
  - rewrite !released_objects_app, released_terminate_calls,
      released_set_result_calls, released_destroy_calls.
    rewrite Hatq, Hq5, Hfd5, Hi5, Hthr5, Hev5, Hi, Hthr, Hev. done.
  - rewrite !grabbed_objects_app, grabbed_terminate_calls,
      grabbed_set_result_calls, grabbed_destroy_calls. done.
Qed.

Lemma fd_reference_released_once_witness :
  (∃ (s1 : server) (new : list call),
      async_destroy 10 sample_server = Done () s1
    ∧ calls s1 = calls sample_server ++ new
    ∧ released_objects new =
      [30] ++
      option_list (Async.completion sample_async) ++
      option_list (Async.event sample_async) ++
      option_list (Async.iosb sample_async) ++
      [thread_ptr (Async.thread sample_async)] ∧
      grabbed_objects new = [])
  ∧ ∃ (s1 : server) (a1 : Async.t) (new : list call),
    (queue_async 50 10
      ≫= λ _ : (),
      async_terminate 10 0
      ≫= λ _ : (),
      async_set_result port_completion 10 0 0
      ≫= λ _ : (), async_destroy 10)
    sample_server =
    Done () s1
  ∧ objects s1 !! 10 = Some (ObjAsync a1)
  ∧ Async.fd a1 = None
  ∧ Async.queue a1 = None
  ∧ calls s1 = calls sample_server ++ new
  ∧ released_objects new =
    [30; 10; 10] ++
    option_list (Async.completion a1) ++
    option_list (Async.event sample_async) ++
    option_list (Async.iosb sample_async) ++
    [thread_ptr (Async.thread sample_async)]
  ∧ grabbed_objects new = [10; 10].
Proof.
  apply (fd_reference_released_once port_completion sample_server 50 10
           sample_async 30 (Some (20, sample_iosb)) 0 0 0).
  - reflexivity.
  - reflexivity.
  - reflexivity.
  - reflexivity.
  - reflexivity.
  - apply (bool_decide_unpack _). vm_compute. exact I.
Defined.

(** ** Creation *)

(** X20: create_iosb returns NULL and writes nothing when the allocator
    fails. Otherwise the new iosb is PENDING with result 0, the given sizes
    and no output, and holds the copy of the input when in_size is non-zero;
    when that copy fails the iosb is released and NULL is returned. *)
Theorem create_iosb_cases alloc memdup s in_data in_size out_size :
  (alloc iosb_ops s = None →
   create_iosb alloc memdup in_data in_size out_size s = Done None s) ∧
  (∀ p, alloc iosb_ops s = Some p →
     (in_size = 0 →
      create_iosb alloc memdup in_data in_size out_size s
      = Done (Some p)
          (set_objects
             (<[p := ObjIosb (new_iosb 0 out_size)]> (objects s)) s)) ∧
     (in_size ≠ 0 → ∀ copy, memdup in_data in_size = Some copy →
      create_iosb alloc memdup in_data in_size out_size s
      = Done (Some p)
          (set_objects
             (<[p := ObjIosb (set_in_data (Some copy)
                                (new_iosb in_size out_size))]> (objects s))
             s)) ∧
     (in_size ≠ 0 → memdup in_data in_size = None →
      create_iosb alloc memdup in_data in_size out_size s
      = Done None
          (set_calls (calls s ++ [Call_release_object p])
             (set_objects
                (<[p := ObjIosb (new_iosb in_size out_size)]> (objects s))
                s)))).
Proof.
  unfold create_iosb, new_iosb. split.
  { intros Hal. rewrite bind_run. unfold gets. by rewrite Hal. }
  intros p Hal. rewrite bind_run. unfold gets. rewrite Hal. cbv beta iota.
  destruct s as [objs qs ps cur err rms rs cs].
  rewrite bind_run. unfold modify at 1. sim. cbv beta iota.
  split; [|split].
  - intros ->. done.
  - intros Hne copy Hcopy. apply Z.eqb_neq in Hne. rewrite Hne, Hcopy. simpl.
    rewrite bind_run. erewrite upd_iosb_run by heap. sim.
    by rewrite insert_insert_eq.
  - intros Hne Hnone. apply Z.eqb_neq in Hne. rewrite Hne, Hnone. simpl.
    rewrite bind_run. erewrite upd_iosb_run by heap. sim.
    by rewrite insert_insert_eq.
Qed.

Lemma create_iosb_cases_witness :
  create_iosb no_memory sample_memdup [1; 2; 3] 3 16 sample_server
  = Done None sample_server ∧
  create_iosb sample_alloc sample_memdup [1; 2; 3] 0 16 sample_server
  = Done (Some 41)
      (set_objects (<[41 := ObjIosb (new_iosb 0 16)]> (objects sample_server))
         sample_server) ∧
  create_iosb sample_alloc sample_memdup [1; 2; 3] 3 16 sample_server
  = Done (Some 41)
      (set_objects
         (<[41 := ObjIosb (set_in_data (Some [1; 2; 3]) (new_iosb 3 16))]>
            (objects sample_server)) sample_server) ∧
  create_iosb sample_alloc failing_memdup [1; 2; 3] 3 16 sample_server
  = Done None
      (set_calls (calls sample_server ++ [Call_release_object 41])
         (set_objects
            (<[41 := ObjIosb (new_iosb 3 16)]> (objects sample_server))
            sample_server)).
Proof.
  split; [|split; [|split]].
  - apply (create_iosb_cases no_memory sample_memdup sample_server [1; 2; 3]
             3 16).
    reflexivity.
  - apply (create_iosb_cases sample_alloc sample_memdup sample_server
             [1; 2; 3] 0 16); reflexivity.
  - apply (create_iosb_cases sample_alloc sample_memdup sample_server
             [1; 2; 3] 3 16).
    + reflexivity.
    + apply (bool_decide_unpack _). vm_compute. exact I.
    + reflexivity.
  - apply (create_iosb_cases sample_alloc failing_memdup sample_server
             [1; 2; 3] 3 16).
    + reflexivity.
    + apply (bool_decide_unpack _). vm_compute. exact I.
    + reflexivity.
Defined.

Lemma grab_segment_run (p : option Z) s :
  (match p with
   | Some obj => grab_object obj
   | None => mret tt
   end) s
  = Done tt (set_calls (calls s ++ grab_calls p) s).
Proof. destruct p; [done|]. simpl. by rewrite set_calls_nil. Qed.

Lemma reset_segment_run reset (event : option Z) s :
  (∀ ev, collaborator_action (reset ev)) →
  ∃ cs,
    (event = None → cs = []) ∧
    (match event with
     | Some ev => reset ev
     | None => mret tt
     end) s
    = Done tt (set_calls (calls s ++ cs) s).
Proof.
  intros Hreset. destruct event as [ev|].
  - destruct (Hreset ev s) as [cs Hcs]. by exists cs.
  - exists []. split; [done|]. simpl. by rewrite set_calls_nil.
Qed.

Lemma create_async_run gc alloc uninit geo reset s f thr data iosb event p :
  (∀ ev, collaborator_action (reset ev)) →
  lookup_event geo thr data = inl event →
  alloc async_ops s = Some p →
  ∃ cs,
    (event = None → cs = []) ∧
    create_async gc alloc uninit geo reset (Some f) thr data iosb s
    = if port_and_apc gc f data
      then Done None
             (set_server_error STATUS_INVALID_PARAMETER
                (set_calls
                   (calls (created_state gc uninit p f thr event data iosb cs s)
                    ++ [Call_release_object p])
                   (created_state gc uninit p f thr event data iosb cs s)))
      else Done (Some p)
             (created_state gc uninit p f thr event data iosb cs s).
Proof.
  intros Hreset Hev Hal. unfold create_async. rewrite Hev.
  rewrite bind_run. unfold gets. rewrite Hal. cbv beta iota.
  destruct s as [objs qs ps cur err rms rs cs0].
  rewrite bind_run. unfold grab_object at 1, emit at 1, modify at 1. sim.
  rewrite bind_run. unfold deref at 1. rewrite ret_run. cbv beta iota.
  rewrite bind_run. unfold grab_object at 1, emit at 1, modify at 1. sim.
  rewrite bind_run, grab_segment_run. sim.
  rewrite bind_run. unfold modify at 1. sim.
  rewrite bind_run. unfold list_add_head_process, modify at 1.
  unfold set_process_asyncs at 1, process_list at 1. sim.
  rewrite bind_run.
  match goal with
  | |- context [ match ?m ?st with Done _ _ => _ | Crash _ => _ end ] =>
      destruct (reset_segment_run reset event st Hreset) as (cs & Hnone & Hcs)
  end.
  exists cs. split; [done|]. rewrite Hcs. sim.
  unfold port_and_apc, created_state, process_list, set_process_asyncs.
  destruct (non_null (gc f).1 && negb (AsyncData.apc data =? 0)).
  - rewrite bind_run. unfold release_object, emit, modify, set_error. sim.
    by rewrite <- !app_assoc.
  - sim. by rewrite <- !app_assoc.
Qed.

Lemma created_state_process_list gc uninit p f thr event data iosb cs s proc :
  process_list proc (created_state gc uninit p f thr event data iosb cs s)
  = if decide (proc = process thr)
    then p :: process_list (process thr) s
    else process_list proc s.
Proof.
  unfold created_state, process_list. simpl.
  destruct (decide (proc = process thr)) as [->|Hne].
  - by rewrite lookup_insert_eq.
  - by rewrite lookup_insert_ne.
Qed.

(** X21: A successful create_async builds the async as the code initialises
    it and puts it at the head of the list of the thread's process; the
    other lists, the queues and the last error are unchanged, and one
    reference is taken on the thread, one on the fd and one on the iosb if
    there is one. async_get_thread then returns that thread and
    async_signaled answers false. *)
Theorem create_async_links gc alloc uninit geo reset s f thr data iosb event p :
  (∀ ev, collaborator_action (reset ev)) →
  lookup_event geo thr data = inl event →
  alloc async_ops s = Some p →
  port_and_apc gc f data = false →
  ∃ s1 cs,
    create_async gc alloc uninit geo reset (Some f) thr data iosb s
    = Done (Some p) s1 ∧
    objects s1
    = <[p := ObjAsync (new_async gc uninit p f thr event data iosb)]>
        (objects s) ∧
    process_list (process thr) s1 = p :: process_list (process thr) s ∧
    (∀ proc, proc ≠ process thr → process_list proc s1 = process_list proc s) ∧
    queues s1 = queues s ∧ error s1 = error s ∧
    calls s1
    = calls s ++ [Call_grab_object (thread_ptr thr); Call_grab_object f]
      ++ grab_calls iosb ++ cs ∧
    (event = None → cs = []) ∧
    async_get_thread p s1 = Done thr s1 ∧
    async_signaled p s1 = Done false s1.
Proof.
  intros Hreset Hev Hal Hpa.
  destruct (create_async_run gc alloc uninit geo reset s f thr data iosb event p
              Hreset Hev Hal) as (cs & Hnone & Hrun).
  rewrite Hpa in Hrun.
  exists (created_state gc uninit p f thr event data iosb cs s), cs.
  split; [done|]. split; [done|]. split.
  { rewrite created_state_process_list. by rewrite decide_True. }
  split.
  { intros proc Hne. rewrite created_state_process_list.
    by rewrite decide_False. }
  split; [done|]. split; [done|]. split; [done|]. split; [done|].
  assert (Hp : objects (created_state gc uninit p f thr event data iosb cs s)
               !! p
               = Some (ObjAsync (new_async gc uninit p f thr event data iosb)))
    by (simpl; apply lookup_insert_eq).
  split.
  - unfold async_get_thread. by rewrite bind_run, (get_async_run _ _ _ Hp).
  - by rewrite (async_signaled_run _ _ _ Hp).
Qed.

Lemma create_async_links_witness :
  ∃ (s1 : server) (cs : list call),
    create_async port_completion sample_alloc sample_uninitialised
    sample_get_event_obj sample_reset_event (Some 30) sample_thread
    sample_data (Some 20) sample_server =
    Done (Some 40) s1
  ∧ objects s1 =
    <[40:=ObjAsync
      (new_async port_completion sample_uninitialised 40 30
        sample_thread None sample_data (Some 20))]>
    (objects sample_server)
  ∧ process_list (process sample_thread) s1 =
    40 :: process_list (process sample_thread) sample_server
  ∧ (∀ proc : Z,
      proc ≠ process sample_thread
    → process_list proc s1 = process_list proc sample_server)
  ∧ queues s1 = queues sample_server
  ∧ error s1 = error sample_server
  ∧ calls s1 =
    calls sample_server ++
    [Call_grab_object (thread_ptr sample_thread);
      Call_grab_object 30] ++
    grab_calls (Some 20) ++ cs
  ∧ (@None Z = None → cs = [])
  ∧ async_get_thread 40 s1 = Done sample_thread s1
  ∧ async_signaled 40 s1 = Done false s1.
Proof.
  apply (create_async_links port_completion sample_alloc
           sample_uninitialised sample_get_event_obj sample_reset_event
           sample_server 30 sample_thread sample_data (Some 20) None 40).
  - exact sample_reset_event_action.
  - reflexivity.
  - reflexivity.
  - reflexivity.
Defined.

Lemma req_get_async_result_found s user_arg a i io :
  all_asyncs s (process_list (process (current s)) s) = true →
  first_async_with_user s (process_list (process (current s)) s) user_arg
  = Some a →
  Async.iosb a = Some i →
  objects s !! i = Some (ObjIosb io) →
  req_get_async_result user_arg s = Done tt (async_result_reply i io s).
Proof.
  intros Hall Hfirst Hi Hio. unfold req_get_async_result.
  rewrite bind_run. unfold gets at 1. cbn beta iota.
  rewrite bind_run. unfold gets at 1. cbn beta iota.
  rewrite bind_run, (get_async_result_scan_run _ _ _ Hall), Hfirst. simpl.
  rewrite Hi. unfold async_result_reply.
  destruct s as [objs qs ps cur err rms rs cs]; simpl in *.
  destruct (Iosb.out_data io) as [out|] eqn:Hout;
    [destruct (Z.min (Iosb.out_size io) rms =? 0) eqn:Hsz|]; run; done.
Qed.

(** X22: An async created at a fresh address for the current process is the
    first one the get_async_result request sees: a request with its user
    value is answered from the iosb of the new async, whatever older asyncs
    of the process carry the same value. *)
Theorem newest_async_is_found_first gc alloc uninit geo reset s f thr data i io
    event p :
  (∀ ev, collaborator_action (reset ev)) →
  lookup_event geo thr data = inl event →
  alloc async_ops s = Some p →
  objects s !! p = None →
  port_and_apc gc f data = false →
  objects s !! i = Some (ObjIosb io) →
  process thr = process (current s) →
  all_asyncs s (process_list (process (current s)) s) = true →
  ∃ s1,
    create_async gc alloc uninit geo reset (Some f) thr data (Some i) s
    = Done (Some p) s1 ∧
    process_list (process (current s1)) s1
    = p :: process_list (process (current s)) s ∧
    req_get_async_result (AsyncData.user data) s1
    = Done tt (async_result_reply i io s1).
Proof.
  intros Hreset Hev Hal Hfresh Hpa Hio Hproc Hall.
  destruct (create_async_run gc alloc uninit geo reset s f thr data (Some i)
              event p Hreset Hev Hal) as (cs & Hnone & Hrun).
  rewrite Hpa in Hrun.
  set (s1 := created_state gc uninit p f thr event data (Some i) cs s) in *.
  assert (Hlist : process_list (process (current s1)) s1
                  = p :: process_list (process (current s)) s).
  { unfold s1. rewrite created_state_process_list.
    change (current (created_state _ _ _ _ _ _ _ _ _ s)) with (current s).
    by rewrite Hproc, decide_True. }
  assert (Hpi : p ≠ i) by (intros ->; congruence).
  exists s1. split; [done|]. split; [done|].
  apply (req_get_async_result_found s1 _
           (new_async gc uninit p f thr event data (Some i))).
  - rewrite Hlist. unfold all_asyncs in *. simpl.
    apply andb_true_iff. split.
    + unfold is_async_at, s1. simpl. by rewrite lookup_insert_eq.
    + rewrite forallb_forall in *. intros q Hq. specialize (Hall q Hq).
      unfold is_async_at, s1 in *. simpl.
      destruct (decide (q = p)) as [->|Hne];
        [by rewrite lookup_insert_eq|by rewrite lookup_insert_ne].
  - rewrite Hlist. simpl. unfold s1 at 1. simpl.
    rewrite lookup_insert_eq. simpl. by rewrite Z.eqb_refl.
  - done.
  - unfold s1. simpl. by rewrite lookup_insert_ne.
Qed.

Lemma newest_async_is_found_first_witness :
  ∃ s1 : server,
    create_async port_completion sample_alloc sample_uninitialised
    sample_get_event_obj sample_reset_event (Some 30) sample_thread
    sample_data (Some 20) sample_server =
    Done (Some 40) s1
  ∧ process_list (process (current s1)) s1 =
    40 :: process_list (process (current sample_server)) sample_server
  ∧ req_get_async_result (AsyncData.user sample_data) s1 =
    Done () (async_result_reply 20 sample_iosb s1).
Proof.
  apply (newest_async_is_found_first port_completion sample_alloc
           sample_uninitialised sample_get_event_obj sample_reset_event
           sample_server 30 sample_thread sample_data 20 sample_iosb None 40).
  - exact sample_reset_event_action.
  - reflexivity.
  - reflexivity.
  - reflexivity.
  - reflexivity.
  - reflexivity.
  - reflexivity.
  - reflexivity.
Defined.

(** X23: create_async returns NULL with the status of the failed event
    lookup as last error, and NULL with nothing but the event released when
    the allocator fails. When the fd has a completion port and the request
    (without event) asks for a user APC it returns NULL with
    STATUS_INVALID_PARAMETER after releasing the new async, which stays on
    the process list until async_destroy runs; after that the lists are as
    before and the references on the thread, the fd, the iosb and the port
    have been given back. *)
Theorem create_async_failures gc alloc uninit geo reset s fd thr data iosb :
  (∀ status, lookup_event geo thr data = inr status →
     create_async gc alloc uninit geo reset fd thr data iosb s
     = Done None (set_server_error status s)) ∧
  (∀ event, lookup_event geo thr data = inl event →
     alloc async_ops s = None →
     create_async gc alloc uninit geo reset fd thr data iosb s
     = Done None (set_calls (calls s ++ release_calls event) s)) ∧
  (∀ f p, fd = Some f →
     lookup_event geo thr data = inl None →
     alloc async_ops s = Some p →
     port_and_apc gc f data = true →
     (∀ proc, p ∉ process_list proc s) →
     ∃ s1 s2 new,
       create_async gc alloc uninit geo reset fd thr data iosb s
       = Done None s1 ∧
       error s1 = STATUS_INVALID_PARAMETER ∧
       process_list (process thr) s1 = p :: process_list (process thr) s ∧
       async_destroy p s1 = Done tt s2 ∧
       (∀ proc, process_list proc s2 = process_list proc s) ∧
       queues s2 = queues s ∧
       calls s2 = calls s ++ new ∧
       grabbed_objects new = [thread_ptr thr; f] ++ option_list iosb ∧
       released_objects new
       = [p; f] ++ option_list (gc f).1 ++ option_list iosb
         ++ [thread_ptr thr]).
Proof.
  split; [|split].
  - intros status Hev. unfold create_async. by rewrite Hev.
  - intros event Hev Hal. unfold create_async. rewrite Hev.
    rewrite bind_run. unfold gets. rewrite Hal. cbv beta iota.
    rewrite bind_run, release_segment_run. done.
  - intros f p -> Hev Hal Hpa Hfresh.
    destruct (create_async_run gc alloc uninit geo
                (λ _, mret tt) s f thr data iosb None p) as (cs & Hnone & Hrun);
      [|done|done|].
    { intros ev s'. exists []. by rewrite set_calls_nil. }
    rewrite (Hnone eq_refl), Hpa in Hrun. clear Hnone cs.
    assert (Hsame : create_async gc alloc uninit geo reset (Some f) thr data iosb s
                    = create_async gc alloc uninit geo (λ _, mret tt) (Some f)
                        thr data iosb s).
    { unfold create_async. by rewrite Hev. }
    rewrite Hsame, Hrun. clear Hsame Hrun.
    set (s0 := created_state gc uninit p f thr None data iosb [] s).
    set (s1 := set_server_error STATUS_INVALID_PARAMETER
                 (set_calls (calls s0 ++ [Call_release_object p]) s0)).
    set (a := new_async gc uninit p f thr None data iosb).
    assert (Ha : objects s1 !! p = Some (ObjAsync a))
      by (simpl; apply lookup_insert_eq).
    exists s1, (destroyed_state p a s1),
      ([Call_grab_object (thread_ptr thr); Call_grab_object f]
       ++ grab_calls iosb ++ [Call_release_object p] ++ destroy_calls a).
    split; [done|]. split; [done|]. split.
    { unfold s1. change (process_list (process thr) s0
                         = p :: process_list (process thr) s).
      unfold s0. rewrite created_state_process_list. by rewrite decide_True. }
    split; [by apply async_destroy_run|]. split.
    { intros proc.
      rewrite (process_list_fmap_filter p s1 (destroyed_state p a s1) proc eq_refl).
      change (process_list proc s1) with (process_list proc s0).
      unfold s0. rewrite created_state_process_list.
      destruct (decide (proc = process thr)) as [->|Hne].
      - rewrite filter_cons_False by (intros H; by apply H).
        by apply filter_id_absent.
      - by apply filter_id_absent. }
    split; [done|]. split.
    { simpl. rewrite app_nil_r. by rewrite <- !app_assoc. }
    split.
    + rewrite !grabbed_objects_app, grabbed_destroy_calls. simpl.
      rewrite app_nil_r. by destruct iosb.
    + rewrite !released_objects_app, released_destroy_calls. simpl.
      by destruct iosb.
Qed.

Lemma create_async_failures_witness :
  create_async port_completion sample_alloc sample_uninitialised
    sample_get_event_obj sample_reset_event (Some 30) sample_thread
    bad_event_data (Some 20) sample_server
  = Done None (set_server_error 0xC0000008 sample_server) ∧
  create_async port_completion no_memory sample_uninitialised
    sample_get_event_obj sample_reset_event (Some 30) sample_thread
    sample_data (Some 20) sample_server
  = Done None sample_server ∧
  ∃ (s1 s2 : server) (new : list call),
    create_async port_completion sample_alloc sample_uninitialised
      sample_get_event_obj sample_reset_event (Some 30) sample_thread apc_data
      (Some 20) sample_server = Done None s1 ∧
    error s1 = STATUS_INVALID_PARAMETER ∧
    process_list (process sample_thread) s1
    = 40 :: process_list (process sample_thread) sample_server ∧
    async_destroy 40 s1 = Done () s2 ∧
    (∀ proc : Z, process_list proc s2 = process_list proc sample_server) ∧
    queues s2 = queues sample_server ∧
    calls s2 = calls sample_server ++ new ∧
    grabbed_objects new
    = [thread_ptr sample_thread; 30] ++ option_list (Some 20) ∧
    released_objects new
    = [40; 30] ++ option_list (port_completion 30).1 ++ option_list (Some 20)
      ++ [thread_ptr sample_thread].
Proof.
  split; [|split].
  - apply (create_async_failures port_completion sample_alloc
             sample_uninitialised sample_get_event_obj sample_reset_event
             sample_server (Some 30) sample_thread bad_event_data (Some 20)).
    reflexivity.
  - apply (proj1 (proj2
             (create_async_failures port_completion no_memory
                sample_uninitialised sample_get_event_obj sample_reset_event
                sample_server (Some 30) sample_thread sample_data (Some 20)))
             None); reflexivity.
  - apply (proj2 (proj2
             (create_async_failures port_completion sample_alloc
                sample_uninitialised sample_get_event_obj sample_reset_event
                sample_server (Some 30) sample_thread apc_data (Some 20)))
             30 40).
    + reflexivity.
    + reflexivity.
    + reflexivity.
    + reflexivity.
    + intros proc. unfold process_list. simpl.
      destruct (decide (proc = 200)) as [->|Hne].
      * rewrite lookup_singleton_eq. apply (bool_decide_unpack _).
        vm_compute. exact I.
      * rewrite lookup_singleton_ne by done. apply not_elem_of_nil.
Defined.

(** ** [create_request_async] *)

Lemma create_iosb_ok_run alloc memdup s in_data in_size out_size i :
  alloc iosb_ops s = Some i →
  in_size = 0 ∨ is_Some (memdup in_data in_size) →
  create_iosb alloc memdup in_data in_size out_size s
  = Done (Some i)
      (set_objects
         (<[i := ObjIosb
                   (set_in_data
                      (if in_size =? 0 then None else memdup in_data in_size)
                      (new_iosb in_size out_size))]> (objects s)) s).
Proof.
  intros Hal Hin. unfold create_iosb, new_iosb.
  rewrite bind_run. unfold gets. rewrite Hal. cbv beta iota.
  destruct s as [objs qs ps cur err rms rs cs].
  rewrite bind_run. unfold modify at 1. sim. cbv beta iota.
  destruct (in_size =? 0) eqn:Hz; simpl; [done|].
  destruct Hin as [->|[copy Hcopy]]; [done|]. rewrite Hcopy.
  rewrite bind_run. erewrite upd_iosb_run by heap. sim.
  by rewrite insert_insert_eq.
Qed.

Lemma create_request_async_prefix gc alloc uninit memdup geo reset ah req_data
    req_size s fd comp_flags data i s0 :
  create_iosb alloc memdup req_data req_size (reply_max_size s) s
  = Done (Some i) s0 →
  create_request_async gc alloc uninit memdup geo reset ah req_data req_size
    fd comp_flags data s
  = match create_async gc alloc uninit geo reset fd (current s0) data (Some i)
            s0 with
    | Crash e => Crash e
    | Done None s1 =>
        Done None (set_calls (calls s1 ++ [Call_release_object i]) s1)
    | Done (Some p) s1 =>
        (upd_async p (Async.set_wait_handle (ah (process (current s0)) p));;
         if ah (process (current s0)) p =? 0
         then release_object p;; mret None
         else
           upd_async p (Async.set_pending false);;
           upd_async p (Async.set_direct_result true);;
           upd_async p (set_comp_flags comp_flags);;
           mret (Some p))
          (set_calls (calls s1 ++ [Call_release_object i]) s1)
    end.
Proof.
  intros Hio. unfold create_request_async.
  rewrite bind_run. unfold gets at 1. cbv beta iota.
  rewrite bind_run, Hio. cbv beta iota.
  rewrite bind_run. unfold gets at 1. cbv beta iota.
  rewrite bind_run.
  destruct (create_async gc alloc uninit geo reset fd (current s0) data
              (Some i) s0) as [[p|] s1|e]; [|by rewrite bind_run|done].
  by rewrite bind_run.
Qed.

(** X24: create_request_async returns NULL and changes nothing when the iosb
    cannot be allocated, and releases the iosb it made when the copy of the
    request data or the event lookup of create_async fails. When both
    succeed the async holds the new iosb (PENDING, with the copy of the
    request data and the reply size as out_size), the creation reference on
    the iosb is dropped, and the async is returned with its wait handle,
    pending cleared, direct_result set and the given comp_flags; when no
    handle can be allocated the async is released and NULL is returned. *)
Theorem create_request_async_outcomes gc alloc uninit memdup geo reset ah
    req_data req_size s f comp_flags data :
  (∀ ev, collaborator_action (reset ev)) →
  (alloc iosb_ops s = None →
   create_request_async gc alloc uninit memdup geo reset ah req_data req_size
     (Some f) comp_flags data s = Done None s) ∧
  (∀ i, alloc iosb_ops s = Some i →
     req_size ≠ 0 → memdup req_data req_size = None →
     ∃ s1,
       create_request_async gc alloc uninit memdup geo reset ah req_data
         req_size (Some f) comp_flags data s = Done None s1 ∧
       calls s1 = calls s ++ [Call_release_object i] ∧
       process_asyncs s1 = process_asyncs s ∧ queues s1 = queues s) ∧
  (∀ i status, alloc iosb_ops s = Some i →
     req_size = 0 ∨ is_Some (memdup req_data req_size) →
     lookup_event geo (current s) data = inr status →
     ∃ s1,
       create_request_async gc alloc uninit memdup geo reset ah req_data
         req_size (Some f) comp_flags data s = Done None s1 ∧
       calls s1 = calls s ++ [Call_release_object i] ∧
       process_asyncs s1 = process_asyncs s ∧ error s1 = status) ∧
  (∀ i p event,
     alloc iosb_ops s = Some i →
     req_size = 0 ∨ is_Some (memdup req_data req_size) →
     let io :=
       set_in_data (if req_size =? 0 then None else memdup req_data req_size)
         (new_iosb req_size (reply_max_size s)) in
     lookup_event geo (current s) data = inl event →
     alloc async_ops (set_objects (<[i := ObjIosb io]> (objects s)) s)
     = Some p →
     port_and_apc gc f data = false →
     let h := ah (process (current s)) p in
     let a := new_async gc uninit p f (current s) event data (Some i) in
     ∃ s1 cs,
       create_request_async gc alloc uninit memdup geo reset ah req_data
         req_size (Some f) comp_flags data s
       = Done (if h =? 0 then None else Some p) s1 ∧
       objects s1
       = <[p := ObjAsync
                  (if h =? 0 then a
                   else set_comp_flags comp_flags
                          (Async.set_direct_result true
                             (Async.set_pending false
                                (Async.set_wait_handle h a))))]>
           (<[i := ObjIosb io]> (objects s)) ∧
       process_list (process (current s)) s1
       = p :: process_list (process (current s)) s ∧
       queues s1 = queues s ∧ error s1 = error s ∧
       calls s1
       = calls s
         ++ [Call_grab_object (thread_ptr (current s)); Call_grab_object f;
             Call_grab_object i]
         ++ cs ++ [Call_release_object i]
         ++ (if h =? 0 then [Call_release_object p] else []) ∧
       (event = None → cs = [])).
Proof.
  intros Hreset. split; [|split; [|split]].
  - intros Hal. unfold create_request_async.
    rewrite bind_run. unfold gets at 1. cbv beta iota.
    rewrite bind_run. unfold create_iosb. rewrite bind_run.
    unfold gets at 1. by rewrite Hal.
  - intros i Hal Hne Hnone. unfold create_request_async.
    rewrite bind_run. unfold gets at 1. cbv beta iota.
    rewrite bind_run. unfold create_iosb. rewrite bind_run.
    unfold gets at 1. rewrite Hal. cbv beta iota.
    apply Z.eqb_neq in Hne. rewrite Hne, Hnone. simpl.
    destruct s as [objs qs ps cur err rms rs cs].
    rewrite bind_run. unfold modify at 1. sim.
    rewrite bind_run. erewrite upd_iosb_run by heap. sim.
    by eexists.
  - intros i status Hal Hin Hev.
    rewrite (create_request_async_prefix _ _ _ _ _ _ _ _ _ _ _ _ _ _ _
               (create_iosb_ok_run _ _ _ _ _ _ _ Hal Hin)).
    destruct s as [objs qs ps cur err rms rs cs0]. simpl in Hev.
    unfold create_async. sim. rewrite Hev. simpl. by eexists.
  - intros i p event Hal Hin io Hev Halp Hport h a.
    rewrite (create_request_async_prefix _ _ _ _ _ _ _ _ _ _ _ _ _ _ _
               (create_iosb_ok_run _ _ _ _ _ _ _ Hal Hin)).
    fold io.
    destruct (create_async_run gc alloc uninit geo reset
                (set_objects (<[i := ObjIosb io]> (objects s)) s)
                f (current s) data (Some i) event p Hreset Hev Halp)
      as (cs & Hcs & Hrun).
    assert (Hcur : current (set_objects (<[i := ObjIosb io]> (objects s)) s)
                   = current s) by (by destruct s).
    rewrite Hcur, Hrun, Hport. fold h. fold a.
    destruct s as [objs qs ps cur err rms rs cs0].
    unfold created_state, set_process_asyncs, process_list. sim. fold a. destruct (h =? 0) eqn:Hh.
    + apply Z.eqb_eq in Hh. eexists _, cs. split.
      { rewrite bind_run. erewrite upd_async_run by heap. sim. reflexivity. }
      sim. rewrite Hh.
      split; [by rewrite insert_insert_eq|].
      split; [unfold process_list; sim; by rewrite lookup_insert_eq|].
      split; [done|]. split; [done|]. split; [|done].
      by rewrite <- !app_assoc.
    + eexists _, cs. split.
      { rewrite bind_run. erewrite upd_async_run by heap. sim.
        rewrite bind_run. erewrite upd_async_run by heap. sim.
        rewrite bind_run. erewrite upd_async_run by heap. sim.
        rewrite bind_run. erewrite upd_async_run by heap.
        unfold set_comp_flags. sim. reflexivity. }
      sim.
      split; [by rewrite !insert_insert_eq|].
      split; [unfold process_list; sim; by rewrite lookup_insert_eq|].
      split; [done|]. split; [done|]. split; [|done].
      by rewrite <- !app_assoc, app_nil_r.
Qed.

Lemma create_request_async_outcomes_witness :
  ∃ (s1 : server) (cs : list call),
    create_request_async port_completion sample_alloc sample_uninitialised
    sample_memdup sample_get_event_obj sample_reset_event
    sample_alloc_handle [1; 2; 3] 3 (Some 30) 7 sample_data sample_server =
    Done
    (if sample_alloc_handle (process (current sample_server)) 40 =? 0
      then None
      else Some 40)
    s1
  ∧ objects s1 =
    <[40:=ObjAsync
      (if
        sample_alloc_handle (process (current sample_server)) 40 =? 0
        then
        new_async port_completion sample_uninitialised 40 30
        (current sample_server) None sample_data
        (Some 41)
        else
        set_comp_flags 7
        (Async.set_direct_result true
          (Async.set_pending false
            (Async.set_wait_handle
              (sample_alloc_handle
                (process (current sample_server)) 40)
              (new_async port_completion sample_uninitialised 40
                30 (current sample_server) None sample_data
                (Some 41))))))]>
    (<[41:=ObjIosb
        (set_in_data
          (if 3 =? 0 then None else sample_memdup [1; 2; 3] 3)
          (new_iosb 3 (reply_max_size sample_server)))]>
      (objects sample_server))
  ∧ process_list (process (current sample_server)) s1 =
    40 :: process_list (process (current sample_server)) sample_server
  ∧ queues s1 = queues sample_server
  ∧ error s1 = error sample_server
  ∧ calls s1 =
    calls sample_server ++
    [Call_grab_object (thread_ptr (current sample_server));
      Call_grab_object 30; Call_grab_object 41] ++
    cs ++
    [Call_release_object 41] ++
    (if
      sample_alloc_handle (process (current sample_server)) 40 =? 0
      then [Call_release_object 40]
      else [])
  ∧ (@None Z = None → cs = []).
Proof.
  apply (proj2 (proj2 (proj2
           (create_request_async_outcomes port_completion sample_alloc
              sample_uninitialised sample_memdup sample_get_event_obj
              sample_reset_event sample_alloc_handle [1; 2; 3] 3 sample_server
              30 7 sample_data sample_reset_event_action))) 41 40 None).
  - reflexivity.
  - right. by exists [1; 2; 3].
  - reflexivity.
  - apply (bool_decide_unpack _). vm_compute. exact I.
  - reflexivity.
Defined.

(** ** The relations on the asyncs over whole lives *)

Lemma keep_insert_async R p a :
  R p a →
  hoare (cell_inv R)
    (modify (λ s, set_objects (<[p := ObjAsync a]> (objects s)) s))
    (λ _, cell_inv R).
Proof.
  intros Ha s Hs. simpl. intros p' a' Ha'. simpl in Ha'.
  destruct (decide (p' = p)) as [->|Hne].
  - rewrite lookup_insert_eq in Ha'. by injection Ha' as <-.
  - rewrite lookup_insert_ne in Ha' by done. by apply (Hs p').
Qed.

Lemma keep_insert_iosb R p io :
  hoare (cell_inv R)
    (modify (λ s, set_objects (<[p := ObjIosb io]> (objects s)) s))
    (λ _, cell_inv R).
Proof.
  intros s Hs. simpl. intros p' a' Ha'. simpl in Ha'.
  destruct (decide (p' = p)) as [->|Hne].
  - by rewrite lookup_insert_eq in Ha'.
  - rewrite lookup_insert_ne in Ha' by done. by apply (Hs p').
Qed.

Lemma keep_collaborator R m :
  collaborator_action m → hoare (cell_inv R) m (λ _, cell_inv R).
Proof.
  intros Hm s Hs. destruct (Hm s) as [cs ->]. intros p a Ha. by apply (Hs p).
Qed.

Section KeepLifetime.
Variable R : Z → Async.t → Prop.
Local Abbreviation I := (cell_inv R).
Hypothesis R_core : core_only R.
Hypothesis R_new :
  ∀ gc uninit p f thr event data iosb,
    R p (new_async gc uninit p f thr event data iosb).
Hypothesis keep_async_terminate :
  ∀ async status, hoare I (async_terminate async status) (λ _, I).

Lemma keep_async_destroy obj : hoare I (async_destroy obj) (λ _, I).
Proof.
  pose proof (keep_async_reselect R).
  unfold async_destroy, list_remove_process_entry, list_remove_queue_entry.
  keep.
Qed.

Lemma keep_iosb_destroy obj : hoare I (iosb_destroy obj) (λ _, I).
Proof. unfold iosb_destroy. keep. Qed.

Lemma keep_async_set_timeout atu async timeout status :
  hoare I (async_set_timeout atu async timeout status) (λ _, I).
Proof. unfold async_set_timeout. keep. Qed.

Lemma keep_async_request_complete_alloc memdup async status result out_size
    out_data :
  hoare I
    (async_request_complete_alloc memdup async status result out_size out_data)
    (λ _, I).
Proof. unfold async_request_complete_alloc, async_request_complete. keep. Qed.

Lemma keep_create_async gc alloc uninit geo reset fd thr data iosb :
  (∀ ev, collaborator_action (reset ev)) →
  hoare I (create_async gc alloc uninit geo reset fd thr data iosb) (λ _, I).
Proof.
  intros Hreset.
  pose proof (λ ev, keep_collaborator R _ (Hreset ev)).
  pose proof (λ p a (H : R p a), keep_insert_async R p a H) as Hins.
  unfold create_async, list_add_head_process.
  repeat first [ keep1 | apply Hins, R_new ].
Qed.

Lemma keep_create_iosb alloc memdup in_data in_size out_size :
  hoare I (create_iosb alloc memdup in_data in_size out_size) (λ _, I).
Proof.
  pose proof (keep_insert_iosb R) as Hins.
  unfold create_iosb. repeat first [ keep1 | apply Hins ].
Qed.

Lemma keep_create_request_async gc alloc uninit memdup geo reset ah req_data
    req_size fd comp_flags data :
  (∀ ev, collaborator_action (reset ev)) →
  hoare I
    (create_request_async gc alloc uninit memdup geo reset ah req_data req_size
       fd comp_flags data) (λ _, I).
Proof.
  intros Hreset.
  pose proof (λ a b c d e f g h, keep_create_async a b c d reset e f g h Hreset).
  pose proof keep_create_iosb.
  unfold create_request_async. keep.
Qed.

End KeepLifetime.

Section KeepLives.
Variable R : Z → Async.t → Prop.
Local Abbreviation I := (cell_inv R).
Hypothesis R_core : core_only R.
Hypothesis R_new :
  ∀ gc uninit p f thr event data iosb,
    R p (new_async gc uninit p f thr event data iosb).
Hypothesis keep_async_terminate :
  ∀ async status, hoare I (async_terminate async status) (λ _, I).
Hypothesis keep_async_set_result :
  ∀ gc obj status total, hoare I (async_set_result gc obj status total) (λ _, I).
Hypothesis keep_queue_async :
  ∀ queue async, hoare I (queue_async queue async) (λ _, I).
Hypothesis keep_free_async_queue_entry :
  ∀ gc async, hoare I (free_async_queue_entry gc async) (λ _, I).

Lemma keep_exec_lifetime q l op :
  (∀ ev, collaborator_action (q_reset_event l ev)) →
  hoare I (exec_lifetime q l op) (λ _, I).
Proof.
  intros Hreset. destruct op; simpl.
  - by apply keep_exec.
  - eapply hoare_bind; [by apply keep_create_async|intros ?; apply hoare_ret].
  - eapply hoare_bind;
      [by apply keep_create_request_async|intros ?; apply hoare_ret].
  - by apply keep_async_request_complete_alloc.
  - by apply keep_async_set_timeout.
  - by apply keep_async_destroy.
  - by apply keep_iosb_destroy.
Qed.

Lemma keep_exec_lifetime_all q l ops :
  (∀ ev, collaborator_action (q_reset_event l ev)) →
  hoare I (exec_lifetime_all q l ops) (λ _, I).
Proof.
  intros Hreset. induction ops as [|op rest IH]; simpl; [apply hoare_ret|].
  eapply hoare_bind; [by apply keep_exec_lifetime|intros ?; cbv beta; done].
Qed.

End KeepLives.

Lemma hoare_and {A} (P1 P2 : server → Prop) (Q1 Q2 : A → server → Prop)
    (m : M A) :
  hoare P1 m Q1 → hoare P2 m Q2 →
  hoare (λ s, P1 s ∧ P2 s) m (λ x s, Q1 x s ∧ Q2 x s).
Proof.
  intros H1 H2 s [Hs1 Hs2]. specialize (H1 s Hs1). specialize (H2 s Hs2).
  by destruct (m s).
Qed.

(** ** Completion with a copy, and the fate of the output buffer *)

(** X25: async_request_complete_alloc completes the async with a copy of the
    output, and with no buffer when out_size is 0. When the copy cannot be
    made it terminates the live async with STATUS_NO_MEMORY instead, and
    frees nothing. *)
Theorem async_request_complete_alloc_cases memdup s async a i io status result
    out_size out_data :
  objects s !! async = Some (ObjAsync a) →
  Async.terminated a = false →
  Async.iosb a = Some i →
  objects s !! i = Some (ObjIosb io) →
  Iosb.status io = STATUS_PENDING →
  (out_size = 0 →
   async_request_complete_alloc memdup async status result out_size out_data s
   = async_request_complete async status result 0 None s) ∧
  (out_size ≠ 0 → ∀ copy, memdup out_data out_size = Some copy →
   async_request_complete_alloc memdup async status result out_size out_data s
   = async_request_complete async status result out_size (Some copy) s) ∧
  (out_size ≠ 0 → memdup out_data out_size = None →
   ∃ s1 new,
     async_request_complete_alloc memdup async status result out_size out_data s
     = Done tt s1 ∧
     objects s1
     = <[async := ObjAsync (terminated_async STATUS_NO_MEMORY a)]>
         (<[i := ObjIosb (Iosb.set_status STATUS_NO_MEMORY io)]> (objects s)) ∧
     calls s1 = calls s ++ new ∧
     calls_of K_thread_queue_apc new
     = (if Async.direct_result a then []
        else [async_io_apc async a (apc_status STATUS_NO_MEMORY (Some io))]) ∧
     calls_of K_free new = []).
Proof.
  intros Ha Ht Hi Hio Hst. unfold async_request_complete_alloc.
  split; [|split].
  - intros ->. done.
  - intros Hne copy Hcopy. apply Z.eqb_neq in Hne. by rewrite Hne, Hcopy.
  - intros Hne Hnone. apply Z.eqb_neq in Hne. rewrite Hne, Hnone. simpl.
    rewrite (async_terminate_live s async a STATUS_NO_MEMORY (Some (i, io)) Ha Ht
               (iosb_of_Some _ _ _ _ Hi Hio)).
    eexists _, _. split; [reflexivity|]. split.
    { unfold terminated_state, terminated_iosb. simpl.
      apply Z.eqb_eq in Hst. by rewrite Hst. }
    split; [reflexivity|].
    unfold terminate_calls. rewrite !calls_of_app, !calls_of_reselect. simpl.
    destruct (Async.direct_result a); by rewrite ?app_nil_r.
Qed.

Lemma async_request_complete_alloc_cases_witness :
  (4 = 0
    → async_request_complete_alloc sample_memdup 10 0 4 4 [
        1; 2; 3; 4; 5] sample_server =
      async_request_complete 10 0 4 0 None sample_server)
  ∧ (4 ≠ 0
    → ∀ copy : list Z,
      sample_memdup [1; 2; 3; 4; 5] 4 = Some copy
    → async_request_complete_alloc sample_memdup 10 0 4 4 [
        1; 2; 3; 4; 5] sample_server =
      async_request_complete 10 0 4 4 (Some copy) sample_server)
  ∧ (4 ≠ 0
    → sample_memdup [1; 2; 3; 4; 5] 4 = None
    → ∃ (s1 : server) (new : list call),
      async_request_complete_alloc sample_memdup 10 0 4 4
      [1; 2; 3; 4; 5] sample_server =
      Done () s1
    ∧ objects s1 =
      <[10:=ObjAsync (terminated_async STATUS_NO_MEMORY sample_async)]>
      (<[20:=ObjIosb (Iosb.set_status STATUS_NO_MEMORY sample_iosb)]>
        (objects sample_server))
    ∧ calls s1 = calls sample_server ++ new
    ∧ calls_of K_thread_queue_apc new =
      (if Async.direct_result sample_async
        then []
        else
        [async_io_apc 10 sample_async
          (apc_status STATUS_NO_MEMORY (Some sample_iosb))])
    ∧ calls_of K_free new = []).
Proof.
  apply (async_request_complete_alloc_cases sample_memdup sample_server 10
           sample_async 20 sample_iosb 0 4 4 [1; 2; 3; 4; 5]).
  - reflexivity.
  - reflexivity.
  - reflexivity.
  - reflexivity.
  - reflexivity.
Defined.

(** X26: The output buffer of an iosb is disposed of once: for the iosb of
    the async the get_async_result request finds, either the request hands
    it to the reply and iosb_destroy then frees no output buffer, or the
    request leaves it in place (no buffer, or nothing fits in the reply) and
    iosb_destroy frees it. *)
Theorem out_data_handed_over_or_freed s user_arg a i io :
  all_asyncs s (process_list (process (current s)) s) = true →
  first_async_with_user s (process_list (process (current s)) s) user_arg
  = Some a →
  Async.iosb a = Some i →
  objects s !! i = Some (ObjIosb io) →
  ∃ s1 s2 io1 handed freed,
    req_get_async_result user_arg s = Done tt s1 ∧
    calls s1 = calls s ++ handed ∧
    objects s1 !! i = Some (ObjIosb io1) ∧
    iosb_destroy i s1 = Done tt s2 ∧
    calls s2 = calls s1 ++ [Call_free (Iosb.in_data io); Call_free freed] ∧
    match Iosb.out_data io with
    | None => handed = [] ∧ freed = None
    | Some out =>
        if Z.min (Iosb.out_size io) (reply_max_size s) =? 0
        then handed = [] ∧ freed = Some out
        else handed
             = [Call_set_reply_data_ptr out
                  (Z.min (Iosb.out_size io) (reply_max_size s))] ∧
             freed = None
    end.
Proof.
  intros Hall Hfirst Hi Hio.
  rewrite (req_get_async_result_found s user_arg a i io Hall Hfirst Hi Hio).
  unfold async_result_reply, iosb_destroy.
  destruct s as [objs qs ps cur err rms rs cs]; simpl in *.
  destruct (Iosb.out_data io) as [out|] eqn:Hout;
    [destruct (Z.min (Iosb.out_size io) rms =? 0) eqn:Hsz|].
  - eexists _, _, io, [], (Some out). split; [reflexivity|].
    split; [simpl; by rewrite app_nil_r|]. split; [done|].
    split; [run; by rewrite Hout|]. split; [simpl; by rewrite <- app_assoc|done].
  - eexists _, _, (Iosb.set_out_data None io), _, None. split; [reflexivity|].
    split; [reflexivity|]. split; [simpl; apply lookup_insert_eq|].
    split; [run; done|]. split; [simpl; by rewrite <- !app_assoc|done].
  - eexists _, _, io, [], None. split; [reflexivity|].
    split; [simpl; by rewrite app_nil_r|]. split; [done|].
    split; [run; by rewrite Hout|]. split; [simpl; by rewrite <- app_assoc|done].
Qed.

Lemma out_data_handed_over_or_freed_witness :
  ∃ (s1 s2 : server) (io1 : Iosb.t) (handed : list call)
    (freed : option (list Z)),
    req_get_async_result 20480 (completed_server 16) = Done () s1
  ∧ calls s1 = calls (completed_server 16) ++ handed
  ∧ objects s1 !! 20 = Some (ObjIosb io1)
  ∧ iosb_destroy 20 s1 = Done () s2
  ∧ calls s2 =
    calls s1 ++
    [Call_free (Iosb.in_data completed_iosb); Call_free freed]
  ∧ match Iosb.out_data completed_iosb with
    | Some out =>
    if
    Iosb.out_size completed_iosb
    `min` reply_max_size (completed_server 16) =? 0
    then handed = [] ∧ freed = Some out
    else
    handed =
    [Call_set_reply_data_ptr out
      (Iosb.out_size completed_iosb
        `min` reply_max_size (completed_server 16))]
  ∧ freed = None
    | None => handed = [] ∧ freed = None
    end.
Proof.
  apply (out_data_handed_over_or_freed (completed_server 16) 0x5000
           (Async.set_terminated true sample_async) 20 completed_iosb).
  - reflexivity.
  - reflexivity.
  - reflexivity.
  - reflexivity.
Defined.

(** X27: An alerted async that was on a queue freed by free_async_queue can
    still be restarted by async_set_result with PENDING: it is live again,
    terminated and alerted cleared, but with fd and queue null, so the
    restart makes no call at all (no reselect) and leaves the queues and
    every other async alone. *)
Theorem restart_after_free_async_queue gc s queue p a total :
  NoDup (queue_list queue s) →
  forallb (freeable_entry s) (queue_list queue s) = true →
  p ∈ queue_list queue s →
  async_at s p = Some a →
  Async.terminated a = true →
  Async.alerted a = true →
  ∃ s1 s2,
    free_async_queue gc queue s = Done tt s1 ∧
    async_set_result gc p STATUS_PENDING total s1 = Done tt s2 ∧
    async_at s2 p
    = Some (Async.set_alerted false
              (Async.set_terminated false (freed_async gc a))) ∧
    is_pending_at s2 p = true ∧
    calls s2 = calls s1 ∧
    queues s2 = queues s ∧
    (∀ q, q ≠ p → async_at s2 q = async_at s1 q).
Proof.
  intros Hnd Hall Hp Hat Ht Hal.
  destruct (free_async_queue_loop gc _ s Hnd Hall)
    as (s1 & new1 & Hrun & Hcalls & Hres & Hq & Hps & Hin & Hout & Hiosb).
  specialize (Hin p a Hp Hat). apply async_at_Some in Hin as Ha1.
  destruct (freed_async_fields gc a) as (Ht1 & Hfd1 & Hq1 & Hal1 & _).
  rewrite Hal in Hal1.
  assert (Hrun2 := restart_branch_run gc s1 p (freed_async gc a) total Ha1
                     Ht1 Hal1).
  assert (Hnone : reselect_calls (freed_async gc a) = [])
    by (unfold reselect_calls; by rewrite Hq1).
  rewrite Hnone in Hrun2.
  eexists s1, _. split.
  { unfold free_async_queue. rewrite bind_run. unfold gets. by cbn beta iota. }
  split; [exact Hrun2|].
  split; [unfold async_at; simpl; by rewrite lookup_insert_eq|].
  split; [unfold is_pending_at, async_at; simpl; by rewrite lookup_insert_eq|].
  split; [simpl; by rewrite app_nil_r|]. split; [done|].
  intros q Hne. unfold async_at. simpl. by rewrite lookup_insert_ne.
Qed.

Lemma restart_after_free_async_queue_witness :
  ∃ s1 s2 : server,
    free_async_queue port_completion 50 alerted_queued_server = Done () s1
  ∧ async_set_result port_completion 10 STATUS_PENDING 0 s1 = Done () s2
  ∧ async_at s2 10 =
    Some
    (Async.set_alerted false
      (Async.set_terminated false
        (freed_async port_completion
          (terminated_async STATUS_ALERTED
            (Async.set_queue (Some 50) sample_async)))))
  ∧ is_pending_at s2 10 = true
  ∧ calls s2 = calls s1
  ∧ queues s2 = queues alerted_queued_server
  ∧ ∀ q : Z, q ≠ 10 → async_at s2 q = async_at s1 q.
Proof.
  apply (restart_after_free_async_queue port_completion
           alerted_queued_server 50 10 (terminated_async STATUS_ALERTED
           (Async.set_queue (Some 50) sample_async) ) 0).
  - apply (bool_decide_unpack _). vm_compute. exact I.
  - reflexivity.
  - apply (bool_decide_unpack _). vm_compute. exact I.
  - reflexivity.
  - reflexivity.
  - reflexivity.
Defined.

(** ** Completion callbacks and unknown initial status *)

(** X28: A callback registered on a live async with
    async_set_completion_callback is not called by async_terminate, which
    leaves it registered with its private argument; it is called exactly
    once, with that argument, by the completing async_set_result that
    follows, which clears it, so a later completion calls no callback. *)
Theorem completion_callback_runs_once gc s p a io func private status status'
    total :
  objects s !! p = Some (ObjAsync a) →
  Async.terminated a = false →
  iosb_of s a = Some io →
  status' ≠ STATUS_PENDING →
  ∃ s1 a1 new,
    (async_set_completion_callback p (Some func) private;;
     async_terminate p status;;
     async_set_result gc p status' total) s = Done tt s1 ∧
    calls s1 = calls s ++ new ∧
    calls_of K_completion_callback new
    = [Call_completion_callback func private] ∧
    objects s1 !! p = Some (ObjAsync a1) ∧
    Async.completion_callback a1 = None ∧
    (∃ s0 st b new_t new_c,
       async_set_completion_callback p (Some func) private s = Done tt s0 ∧
       calls s0 = calls s ∧
       async_terminate p status s0 = Done tt st ∧
       calls st = calls s0 ++ new_t ∧
       calls_of K_completion_callback new_t = [] ∧
       objects st !! p = Some (ObjAsync b) ∧
       Async.completion_callback b = Some func ∧
       Async.completion_callback_private b = private ∧
       async_set_result gc p status' total st = Done tt s1 ∧
       calls s1 = calls st ++ new_c ∧
       calls_of K_completion_callback new_c
       = [Call_completion_callback func private]) ∧
    ∀ status'' total',
      status'' ≠ STATUS_PENDING →
      ∃ s2 new',
        async_set_result gc p status'' total' s1 = Done tt s2 ∧
        calls s2 = calls s1 ++ new' ∧
        calls_of K_completion_callback new' = [].
Proof.
  intros Ha Ht Hio Hst.
  set (a0 := Async.set_completion_callback_private private
               (Async.set_completion_callback (Some func) a)).
  set (s0 := set_objects (<[p := ObjAsync a0]> (objects s)) s).
  assert (Hrun0 : async_set_completion_callback p (Some func) private s
                  = Done tt s0).
  { unfold async_set_completion_callback.
    rewrite bind_run, (upd_async_run _ _ _ _ Ha).
    erewrite upd_async_run by (simpl; apply lookup_insert_eq).
    unfold s0, a0. destruct s; sim. by rewrite insert_insert_eq. }
  assert (Ha0 : objects s0 !! p = Some (ObjAsync a0))
    by (simpl; apply lookup_insert_eq).
  assert (Hio0 : iosb_of s0 a0 = Some io)
    by (by apply (iosb_of_frame s s0 a a0 p a a0)).
  pose proof (async_terminate_live s0 p a0 status io Ha0 Ht Hio0) as Hrun1.
  set (a1 := terminated_async status a0) in *.
  set (s1 := terminated_state p a0 status io s0) in *.
  assert (Ha1 : objects s1 !! p = Some (ObjAsync a1))
    by apply terminated_state_lookup.
  assert (Hio1 : iosb_of s1 a1
                 = Some ((λ x, (x.1, terminated_iosb status x.2)) <$> io))
    by (by eapply terminated_state_iosb_of).
  assert (Hbr : ∀ b st, st ≠ STATUS_PENDING →
                        Async.alerted b && (st =? STATUS_PENDING) = false).
  { intros b st Hne. apply Z.eqb_neq in Hne. rewrite Hne. apply andb_false_r. }
  pose proof (async_set_result_final_run gc s1 p a1 status' total _ Ha1
                (terminated_async_terminated _ _) (Hbr _ _ Hst) Hio1) as Hrun2.
  set (s2 := set_result_state gc p a1 status' total _ s1) in *.
  assert (Hcb1 : callback_calls a1 = [Call_completion_callback func private]).
  { unfold callback_calls, a1, terminated_async.
    by destruct (status =? STATUS_ALERTED). }
  destruct (completed_async_fields gc a1)
    as (Hterm2 & _ & _ & Hcb2 & _).
  exists s2, (completed_async gc a1),
    (terminate_calls p a0 status (snd <$> io)
     ++ set_result_calls gc p a1 status' total).
  split; [by rewrite bind_run, Hrun0, bind_run, Hrun1|].
  split.
  { change (calls s2) with (calls s1 ++ set_result_calls gc p a1 status' total).
    change (calls s1) with (calls s0 ++ terminate_calls p a0 status (snd <$> io)).
    change (calls s0) with (calls s). by rewrite <- app_assoc. }
  split.
  { rewrite calls_of_app. by_kind. rewrite Hcb1.
    unfold terminate_calls. rewrite !calls_of_app, calls_of_reselect. simpl.
    by destruct (Async.direct_result a). }
  split; [apply set_result_state_lookup|]. split; [exact Hcb2|].
  split.
  { exists s0, s1, a1, (terminate_calls p a0 status (snd <$> io)),
      (set_result_calls gc p a1 status' total).
    split; [exact Hrun0|]. split; [done|]. split; [exact Hrun1|].
    split; [done|].
    split.
    { unfold terminate_calls. rewrite !calls_of_app, calls_of_reselect. simpl.
      by destruct (Async.direct_result a). }
    split; [exact Ha1|].
    split.
    { unfold a1, terminated_async. by destruct (status =? STATUS_ALERTED). }
    split.
    { unfold a1, terminated_async. by destruct (status =? STATUS_ALERTED). }
    split; [exact Hrun2|]. split; [done|].
    by_kind. by rewrite Hcb1. }
  intros status'' total' Hst''.
  eexists _, _. split.
  { eapply async_set_result_final_run;
      [apply set_result_state_lookup|exact Hterm2|by apply Hbr|].
    by apply set_result_state_iosb. }
  split; [reflexivity|].
  by_kind. unfold callback_calls. by rewrite Hcb2.
Qed.

Lemma completion_callback_runs_once_witness :
  ∃ (s1 : server) (a1 : Async.t) (new : list call),
    (async_set_completion_callback 10 (Some 36864) 7
      ≫= λ _ : (),
      async_terminate 10 0
      ≫= λ _ : (), async_set_result port_completion 10 0 4)
    sample_server =
    Done () s1
  ∧ calls s1 = calls sample_server ++ new
  ∧ calls_of K_completion_callback new =
    [Call_completion_callback 36864 7]
  ∧ objects s1 !! 10 = Some (ObjAsync a1)
  ∧ Async.completion_callback a1 = None
  ∧ (∃ (s0 st : server) (b : Async.t) (new_t new_c : list call),
      async_set_completion_callback 10 (Some 36864) 7 sample_server =
      Done () s0
    ∧ calls s0 = calls sample_server
    ∧ async_terminate 10 0 s0 = Done () st
    ∧ calls st = calls s0 ++ new_t
    ∧ calls_of K_completion_callback new_t = []
    ∧ objects st !! 10 = Some (ObjAsync b)
    ∧ Async.completion_callback b = Some 36864
    ∧ Async.completion_callback_private b = 7
    ∧ async_set_result port_completion 10 0 4 st =
      Done () s1
    ∧ calls s1 = calls st ++ new_c
    ∧ calls_of K_completion_callback new_c =
      [Call_completion_callback 36864 7])
  ∧ ∀ status'' total' : Z,
    status'' ≠ STATUS_PENDING
  → ∃ (s2 : server) (new' : list call),
    async_set_result port_completion 10 status'' total' s1 =
    Done () s2
  ∧ calls s2 = calls s1 ++ new'
  ∧ calls_of K_completion_callback new' = [].
Proof.
  apply (completion_callback_runs_once port_completion sample_server 10
           sample_async (Some (20, sample_iosb)) 0x9000 7 0 0 4).
  - reflexivity.
  - reflexivity.
  - reflexivity.
  - apply (bool_decide_unpack _). vm_compute. exact I.
Defined.

(** X29: async_set_unknown_status sets unknown_status, clears direct_result
    and changes nothing else. After it async_handoff only sets the last
    error to PENDING and returns the wait handle, a termination of the live
    async queues the APC_ASYNC_IO APC even if the async was created with
    direct_result, and set_async_pending clears unknown_status again. *)
Theorem unknown_status_defers_the_result ov nt s p a result force_blocking :
  objects s !! p = Some (ObjAsync a) →
  ∃ s1,
    async_set_unknown_status p s = Done tt s1 ∧
    objects s1
    = <[p := ObjAsync (Async.set_direct_result false
                         (Async.set_unknown_status true a))]> (objects s) ∧
    calls s1 = calls s ∧ error s1 = error s ∧
    async_handoff ov nt p result force_blocking s1
    = Done (Async.wait_handle a, None) (set_server_error STATUS_PENDING s1) ∧
    (∀ status io,
       Async.terminated a = false → iosb_of s a = Some io →
       ∃ s2 new,
         async_terminate p status s1 = Done tt s2 ∧
         calls s2 = calls s1 ++ new ∧
         calls_of K_thread_queue_apc new
         = [async_io_apc p a (apc_status status (snd <$> io))]) ∧
    (∀ signal,
       Async.terminated a = false →
       ∃ s2 a2,
         set_async_pending p signal s1 = Done tt s2 ∧
         objects s2 !! p = Some (ObjAsync a2) ∧
         Async.unknown_status a2 = false ∧ Async.pending a2 = true ∧
         Async.direct_result a2 = false).
Proof.
  intros Ha.
  set (a1 := Async.set_direct_result false (Async.set_unknown_status true a)).
  set (s1 := set_objects (<[p := ObjAsync a1]> (objects s)) s).
  assert (Hrun : async_set_unknown_status p s = Done tt s1).
  { unfold async_set_unknown_status.
    rewrite bind_run, (upd_async_run _ _ _ _ Ha).
    erewrite upd_async_run by (simpl; apply lookup_insert_eq).
    unfold s1, a1. destruct s; sim. by rewrite insert_insert_eq. }
  assert (Ha1 : objects s1 !! p = Some (ObjAsync a1))
    by (simpl; apply lookup_insert_eq).
  exists s1. split; [done|]. split; [done|]. split; [done|]. split; [done|].
  split.
  { unfold async_handoff. by rewrite bind_run, (get_async_run _ _ _ Ha1). }
  split.
  - intros status io Ht Hio.
    assert (Hio1 : iosb_of s1 a1 = Some io)
      by (by apply (iosb_of_frame s s1 a a1 p a a1)).
    rewrite (async_terminate_live s1 p a1 status io Ha1 Ht Hio1).
    eexists _, _. split; [reflexivity|]. split; [reflexivity|].
    unfold terminate_calls. rewrite !calls_of_app, calls_of_reselect. simpl.
    done.
  - intros signal Ht.
    rewrite (set_async_pending_run s1 p a1 signal Ha1 Ht).
    eexists _, _. split; [reflexivity|].
    split; [simpl; apply lookup_insert_eq|]. done.
Qed.

Lemma unknown_status_defers_the_result_witness :
  ∃ s1 : server,
    async_set_unknown_status 10 (request_server 0) = Done () s1
  ∧ objects s1 =
    <[10:=ObjAsync
      (Async.set_direct_result false
        (Async.set_unknown_status true request_async))]>
    (objects (request_server 0))
  ∧ calls s1 = calls (request_server 0)
  ∧ error s1 = error (request_server 0)
  ∧ async_handoff (λ _ : Z, true) NT_ERROR_winternl 10 true false s1 =
    Done (Async.wait_handle request_async, None)
    (set_server_error STATUS_PENDING s1)
  ∧ (∀ (status : Z) (io : option (Z * Iosb.t)),
      Async.terminated request_async = false
    → iosb_of (request_server 0) request_async = Some io
    → ∃ (s2 : server) (new : list call),
      async_terminate 10 status s1 = Done () s2
    ∧ calls s2 = calls s1 ++ new
    ∧ calls_of K_thread_queue_apc new =
      [async_io_apc 10 request_async
        (apc_status status (snd <$> io))])
  ∧ ∀ signal : Z,
    Async.terminated request_async = false
  → ∃ (s2 : server) (a2 : Async.t),
    set_async_pending 10 signal s1 = Done () s2
  ∧ objects s2 !! 10 = Some (ObjAsync a2)
  ∧ Async.unknown_status a2 = false
  ∧ Async.pending a2 = true
  ∧ Async.direct_result a2 = false.
Proof.
  apply (unknown_status_defers_the_result (λ _ : Z, true) NT_ERROR_winternl
           (request_server 0) 10 request_async true false).
  - reflexivity.
Defined.

(** ** An async with a wait handle has an iosb *)

Ltac handle_side :=
  unfold handle_needs_iosb in *; sim;
  first
    [ assumption
    | intros [?|?];
      first [ done
            | match goal with H : _ ∨ _ → _ |- _ => apply H; auto end ] ].

Ltac hkeep1 :=
  first
    [ solve [ auto 2 with nocore ]
    | lazymatch goal with
      | |- hoare _ (upd_async _ _) _ =>
          apply keep_upd_async; intros ? ?; handle_side
      end
    | keep1 ].
Ltac hkeep := repeat hkeep1.

Section KeepHandle.
Local Abbreviation I := (cell_inv handle_needs_iosb).

Lemma handle_async_terminate async status :
  hoare I (async_terminate async status) (λ _, I).
Proof.
  pose proof (keep_async_reselect handle_needs_iosb).
  unfold async_terminate. hkeep.
Qed.

Lemma handle_add_async_completion gc async cvalue status information :
  hoare I (add_async_completion gc async cvalue status information) (λ _, I).
Proof. unfold add_async_completion. hkeep. Qed.

Lemma handle_async_set_result gc obj status total :
  hoare I (async_set_result gc obj status total) (λ _, I).
Proof.
  pose proof (keep_async_reselect handle_needs_iosb).
  pose proof (handle_add_async_completion gc).
  unfold async_set_result. hkeep.
Qed.

Lemma handle_queue_async queue async :
  hoare I (queue_async queue async) (λ _, I).
Proof. unfold queue_async. hkeep. Qed.

Lemma handle_free_async_queue_entry gc async :
  hoare I (free_async_queue_entry gc async) (λ _, I).
Proof.
  pose proof handle_async_terminate.
  pose proof (handle_add_async_completion gc).
  unfold free_async_queue_entry. hkeep.
Qed.

Lemma handle_exec q op : hoare I (exec q op) (λ _, I).
Proof.
  pose proof handle_async_terminate. pose proof handle_async_set_result.
  pose proof handle_queue_async. pose proof handle_free_async_queue_entry.
  assert (Hloop : ∀ entries status,
             hoare I (async_wake_up_loop entries status) (λ _, I))
    by (intros entries status; induction entries; simpl; hkeep).
  assert (Hscan : ∀ gu entries obj thr iosb,
             hoare I (cancel_async_scan gu entries obj thr iosb) (λ _, I))
    by (intros gu entries obj thr iosb; induction entries; simpl; hkeep).
  assert (Hfrom : ∀ gu fuel proc obj thr iosb woken,
             hoare I (cancel_async_from gu fuel proc obj thr iosb woken)
               (λ _, I))
    by (intros gu fuel proc obj thr iosb; induction fuel; intros woken; simpl;
        hkeep).
  assert (Hget : ∀ entries user_arg,
             hoare I (get_async_result_scan entries user_arg) (λ _, I))
    by (intros entries user_arg; induction entries; simpl; hkeep).
  destruct op; simpl.
  - done.
  - done.
  - unfold async_timeout. hkeep.
  - unfold free_async_queue. eapply hoare_bind; [hkeep|].
    intros entries; cbv beta. induction entries; simpl; hkeep.
  - unfold set_async_pending. hkeep.
  - apply (hoare_bind I (λ _, I) (λ _, I)); [|intros ?; apply hoare_ret].
    unfold async_handoff. hkeep.
  - unfold async_request_complete. hkeep.
  - unfold async_set_unknown_status. hkeep.
  - unfold async_set_completion_callback. hkeep.
  - done.
  - unfold async_satisfied. hkeep.
  - unfold async_wake_up. eapply hoare_bind; [hkeep|].
    intros entries; cbv beta. apply Hloop.
  - unfold cancel_process_asyncs. hkeep.
  - unfold req_cancel_async. hkeep.
  - unfold req_get_async_result. hkeep.
Qed.

End KeepHandle.

Lemma handle_create_async gc alloc uninit geo reset fd thr data iosb :
  (∀ ev, collaborator_action (reset ev)) →
  hoare (cell_inv handle_needs_iosb)
    (create_async gc alloc uninit geo reset fd thr data iosb)
    (λ r s, match r with
            | Some p0 => cell_inv (handle_and_iosb_at p0 iosb) s
            | None => cell_inv handle_needs_iosb s
            end).
Proof.
  intros Hreset s Hs.
  destruct (lookup_event geo thr data) as [event|status] eqn:Hev.
  2: { unfold create_async. rewrite Hev. simpl. exact Hs. }
  destruct (alloc async_ops s) as [p|] eqn:Hal.
  2: { unfold create_async. rewrite Hev, bind_run. unfold gets. rewrite Hal.
       cbv beta iota. destruct event; simpl; exact Hs. }
  destruct fd as [f|].
  2: { unfold create_async. rewrite Hev, bind_run. unfold gets. rewrite Hal.
       cbv beta iota. by rewrite bind_run. }
  destruct (create_async_run gc alloc uninit geo reset s f thr data iosb event
              p Hreset Hev Hal) as (cs & _ & ->).
  assert (Hnew : cell_inv (handle_and_iosb_at p iosb)
                   (created_state gc uninit p f thr event data iosb cs s)).
  { intros p' a' Ha'. simpl in Ha'. destruct (decide (p' = p)) as [->|Hne].
    - rewrite lookup_insert_eq in Ha'. injection Ha' as <-.
      split; [|done]. by intros [?|?].
    - rewrite lookup_insert_ne in Ha' by done. split; [by apply (Hs p')|done]. }
  destruct (port_and_apc gc f data); [|exact Hnew].
  intros p' a' Ha'. by apply (Hnew p').
Qed.

Lemma handle_create_async_any gc alloc uninit geo reset fd thr data iosb :
  (∀ ev, collaborator_action (reset ev)) →
  hoare (cell_inv handle_needs_iosb)
    (create_async gc alloc uninit geo reset fd thr data iosb)
    (λ _, cell_inv handle_needs_iosb).
Proof.
  intros Hreset. eapply hoare_weaken; [| |by apply handle_create_async]; [done|].
  intros [p0|] s Hs; [|done]. intros p a Ha. by apply (Hs p a Ha).
Qed.

Lemma handle_create_request_async gc alloc uninit memdup geo reset ah req_data
    req_size fd comp_flags data :
  (∀ ev, collaborator_action (reset ev)) →
  hoare (cell_inv handle_needs_iosb)
    (create_request_async gc alloc uninit memdup geo reset ah req_data req_size
       fd comp_flags data) (λ _, cell_inv handle_needs_iosb).
Proof.
  intros Hreset. unfold create_request_async.
  eapply hoare_bind; [apply hoare_gets|]. intros max_size; cbv beta.
  eapply hoare_bind; [apply (keep_create_iosb handle_needs_iosb)|].
  intros [i|]; cbv beta iota; [|apply hoare_ret].
  eapply hoare_bind; [apply hoare_gets|]. intros cur; cbv beta.
  eapply hoare_bind; [by apply handle_create_async|].
  intros [p0|]; cbv beta iota; [|intros s Hs; exact Hs].
  eapply hoare_weaken with (Q := λ _, cell_inv (handle_and_iosb_at p0 (Some i)));
    [done|intros ? s Hs p a Ha; by apply (Hs p a Ha)|].
  assert (Hupd : ∀ f,
             (∀ a, Async.iosb (f a) = Async.iosb a) →
             (∀ a, Async.iosb a = Some i →
                   handle_needs_iosb p0 (f a)) →
             hoare (cell_inv (handle_and_iosb_at p0 (Some i))) (upd_async p0 f)
               (λ _, cell_inv (handle_and_iosb_at p0 (Some i)))).
  { intros f Hf Hh. apply keep_upd_async. intros a [_ Hio].
    split; [by apply Hh, Hio|]. intros _. by rewrite Hf, Hio. }
  assert (Hsome : ∀ a : Async.t, Async.iosb a = Some i → Async.iosb a ≠ None)
    by (intros a ->; done).
  repeat first
    [ apply Hupd; [done|intros a Hio _; sim; by apply Hsome]
    | keep1 ].
Qed.

Lemma handle_exec_lifetime q l op :
  (∀ ev, collaborator_action (q_reset_event l ev)) →
  hoare (cell_inv handle_needs_iosb) (exec_lifetime q l op)
    (λ _, cell_inv handle_needs_iosb).
Proof.
  intros Hreset.
  pose proof handle_async_terminate.
  pose proof (keep_async_reselect handle_needs_iosb).
  destruct op; simpl.
  - apply handle_exec.
  - eapply hoare_bind; [by apply handle_create_async_any|].
    intros ?; apply hoare_ret.
  - eapply hoare_bind; [by apply handle_create_request_async|].
    intros ?; apply hoare_ret.
  - unfold async_request_complete_alloc, async_request_complete. hkeep.
  - unfold async_set_timeout. hkeep.
  - unfold async_destroy, list_remove_process_entry, list_remove_queue_entry.
    hkeep.
  - unfold iosb_destroy. hkeep.
Qed.

Lemma handle_exec_lifetime_all q l ops :
  (∀ ev, collaborator_action (q_reset_event l ev)) →
  hoare (cell_inv handle_needs_iosb) (exec_lifetime_all q l ops)
    (λ _, cell_inv handle_needs_iosb).
Proof.
  intros Hreset. induction ops as [|op rest IH]; simpl; [apply hoare_ret|].
  eapply hoare_bind; [by apply handle_exec_lifetime|intros ?; cbv beta; done].
Qed.

Lemma lifetime_keeps_fd q l ops :
  (∀ ev, collaborator_action (q_reset_event l ev)) →
  hoare null_fd_unqueued (exec_lifetime_all q l ops) (λ _, null_fd_unqueued).
Proof.
  intros Hreset.
  eapply hoare_weaken;
    [intros s; apply null_fd_unqueued_all
    |intros ? s; apply null_fd_unqueued_all|].
  apply keep_exec_lifetime_all; try done.
  - apply fd_queue_only_core, null_fd_unqueued_fd_queue_only.
  - intros. apply async_terminate_keeps_fd_queue,
      null_fd_unqueued_fd_queue_only.
  - intros. apply async_set_result_keeps_fd.
  - apply queue_async_keeps_fd.
  - apply free_async_queue_entry_keeps_fd.
Qed.

Lemma lifetime_keeps_flags q l ops :
  (∀ ev, collaborator_action (q_reset_event l ev)) →
  hoare alerted_terminated (exec_lifetime_all q l ops)
    (λ _, alerted_terminated).
Proof.
  intros Hreset.
  eapply hoare_weaken;
    [intros s; apply alerted_terminated_all
    |intros ? s; apply alerted_terminated_all|].
  apply keep_exec_lifetime_all; try done.
  - apply alerted_terminated_core_only.
  - apply async_terminate_keeps_flags.
  - apply async_set_result_keeps_flags.
  - apply queue_async_keeps_flags.
  - apply free_async_queue_entry_keeps_flags.
Qed.

(** X30: Provided reset_event only makes calls of its own, three relations
    hold on the empty server and are kept by every completed sequence of the
    modelled entry points (the operations of the core, creation, timeouts,
    completion with copy, destruction): an async whose fd is null is on no
    queue; an alerted async is terminated; an async with direct_result set
    or with a wait handle has an iosb, the one async_satisfied and
    async_handoff dereference. *)
Theorem lives_keep_the_relations q l ops :
  (∀ ev, collaborator_action (q_reset_event l ev)) →
  let holds s :=
    null_fd_unqueued s ∧ alerted_terminated s ∧
    ∀ p a, objects s !! p = Some (ObjAsync a) →
           Async.direct_result a = true ∨ Async.wait_handle a ≠ 0 →
           Async.iosb a ≠ None in
  (∀ cur max_size, holds (empty_server cur max_size)) ∧
  (∀ s s1, holds s → exec_lifetime_all q l ops s = Done tt s1 → holds s1).
Proof.
  intros Hreset holds. split.
  { intros cur max_size.
    repeat split; intros p a Ha; simpl in Ha; by rewrite lookup_empty in Ha. }
  intros s s1 (Hfd & Hflags & Hh) Hrun.
  pose proof (lifetime_keeps_fd q l ops Hreset s Hfd) as H1.
  pose proof (lifetime_keeps_flags q l ops Hreset s Hflags) as H2.
  pose proof (handle_exec_lifetime_all q l ops Hreset s Hh) as H3.
  rewrite Hrun in H1, H2, H3. done.
Qed.

Lemma lives_keep_the_relations_witness :
  null_fd_unqueued
    (final_state
       (exec_lifetime_all sample_queries sample_lifetime_queries request_life)
       (empty_server sample_thread 16)) ∧
  alerted_terminated
    (final_state
       (exec_lifetime_all sample_queries sample_lifetime_queries request_life)
       (empty_server sample_thread 16)) ∧
  ∀ p a,
    objects
      (final_state
         (exec_lifetime_all sample_queries sample_lifetime_queries
            request_life)
         (empty_server sample_thread 16)) !! p = Some (ObjAsync a) →
    Async.direct_result a = true ∨ Async.wait_handle a ≠ 0 →
    Async.iosb a ≠ None.
Proof.
  destruct (lives_keep_the_relations sample_queries sample_lifetime_queries
              request_life sample_reset_event_action) as [Hempty Hkept].
  apply (Hkept (empty_server sample_thread 16) _ (Hempty sample_thread 16)).
  vm_compute. reflexivity.
Defined.
